(** * A RAID-aware FUSE file system (wfs) and its initializer (mkfs)

    Shallow embedding of [Project-6/solution/wfs.h], [mkfs.c] and [wfs.c].

    A disk image is a byte store addressed by byte offset; the structures
    of [wfs.h] are read and written through it field by field, at the
    offsets the LP64 ABI gives them, little-endian.  The globals of
    [wfs.c] are the fields of the record [fs]; every function of [wfs.c]
    is a computation in a state-and-failure monad over [fs], where failure
    stands for a null-pointer dereference (the C program would crash). *)

From Stdlib Require Import ZArith List String Ascii Bool Lia.
Import ListNotations.
Local Open Scope Z_scope.

(** ** C integer types *)

Definition wrap_unsigned (w z : Z) : Z := z mod 2 ^ w.

Definition wrap_signed (w z : Z) : Z :=
  let r := z mod 2 ^ w in
  if r <? 2 ^ (w - 1) then r else r - 2 ^ w.

Definition u32 : Z -> Z := wrap_unsigned 32.   (* uint32_t, unsigned *)
Definition s32 : Z -> Z := wrap_signed 32.     (* int, mode_t is u32 *)
Definition u64 : Z -> Z := wrap_unsigned 64.   (* size_t, uint64_t *)
Definition s64 : Z -> Z := wrap_signed 64.     (* off_t, ssize_t, time_t *)

(** ** wfs.h *)

Definition BLOCK_SIZE : Z := 512.
Definition MAX_NAME : Z := 28.
Definition D_BLOCK : Z := 6.
Definition IND_BLOCK : Z := D_BLOCK + 1.
Definition N_BLOCKS : Z := IND_BLOCK + 1.

Definition RAID0 : Z := 0.
Definition RAID1 : Z := 1.
Definition RAID1V : Z := 2.

(** errno.h and sys/stat.h values on Linux *)
Definition ENOENT : Z := 2.
Definition EIO : Z := 5.
Definition EEXIST : Z := 17.
Definition EINVAL : Z := 22.
Definition ENOSPC : Z := 28.
Definition S_IFMT : Z := 61440.    (* 0170000 *)
Definition S_IFDIR : Z := 16384.   (* 0040000 *)
Definition S_IFREG : Z := 32768.   (* 0100000 *)

(** Field offsets of [struct wfs_sb] (sizeof 64), [struct wfs_inode]
    (sizeof 120) and [struct wfs_dentry] (sizeof 32). *)
Definition sizeof_wfs_sb : Z := 64.
Definition sb_num_inodes : Z := 0.
Definition sb_num_data_blocks : Z := 8.
Definition sb_i_bitmap_ptr : Z := 16.
Definition sb_d_bitmap_ptr : Z := 24.
Definition sb_i_blocks_ptr : Z := 32.
Definition sb_d_blocks_ptr : Z := 40.
Definition sb_fs_identifier : Z := 48.
Definition sb_raid_mode : Z := 52.
Definition sb_device_order : Z := 56.

Definition sizeof_wfs_inode : Z := 120.
Definition i_num : Z := 0.
Definition i_mode : Z := 4.
Definition i_uid : Z := 8.
Definition i_gid : Z := 12.
Definition i_size : Z := 16.
Definition i_nlinks : Z := 24.
Definition i_atim : Z := 32.
Definition i_mtim : Z := 40.
Definition i_ctim : Z := 48.
Definition i_blocks (k : Z) : Z := 56 + 8 * k.

Definition sizeof_wfs_dentry : Z := 32.
Definition de_name : Z := 0.
Definition de_num : Z := 28.

(** ** Disk images as byte stores *)

(** An image is what was written to it, the latest write first, over
    bytes that are all zero. *)
Inductive write : Type :=
| Store (a n v : Z)              (* the [n] low bytes of [v], little-endian *)
| Fill (a n c : Z)               (* [n] bytes [c] *)
| Copy (a : Z) (bytes : list Z). (* the bytes of a buffer *)

Definition image : Type := list write.

Definition zero_image : image := [].

Definition in_range (a n x : Z) : bool := (a <=? x) && (x <? a + n).

(** The byte at offset [a]. *)
Fixpoint load8 (m : image) (a : Z) : Z :=
  match m with
  | [] => 0
  | Store b n v :: r =>
      if in_range b n a then Z.shiftr v (8 * (a - b)) mod 256 else load8 r a
  | Fill b n c :: r =>
      if in_range b n a then c mod 256 else load8 r a
  | Copy b bytes :: r =>
      if in_range b (Z.of_nat (List.length bytes)) a
      then nth (Z.to_nat (a - b)) bytes 0 mod 256
      else load8 r a
  end.

Fixpoint load_le (n : nat) (m : image) (a : Z) : Z :=
  match n with
  | O => 0
  | S k => load8 m a + 256 * load_le k m (a + 1)
  end.

Definition store_le (n : Z) (m : image) (a v : Z) : image :=
  Store a n v :: m.

Definition memset (m : image) (a c n : Z) : image := Fill a n c :: m.

(** [memcpy] into the image. *)
Definition memcpy_to (m : image) (a : Z) (bytes : list Z) : image :=
  Copy a bytes :: m.

(** [n] bytes of a buffer from index [start] on; past its end they read
    as zero. *)
Definition slice (buf : list Z) (start : Z) (n : Z) : list Z :=
  map (fun i => nth (Z.to_nat (start + Z.of_nat i)) buf 0)
      (seq 0 (Z.to_nat n)).

Definition load32u (m : image) (a : Z) : Z := load_le 4 m a.
Definition load32s (m : image) (a : Z) : Z := s32 (load_le 4 m a).
Definition load64u (m : image) (a : Z) : Z := load_le 8 m a.
Definition load64s (m : image) (a : Z) : Z := s64 (load_le 8 m a).
Definition store32 (m : image) (a v : Z) : image := store_le 4 m a v.
Definition store64 (m : image) (a v : Z) : image := store_le 8 m a v.

(** Bytes of a C string (without the terminator). *)
Definition byte_of_ascii (c : ascii) : Z := Z.of_N (N_of_ascii c).

Fixpoint bytes_of_string (s : string) : list Z :=
  match s with
  | EmptyString => []
  | String c r => byte_of_ascii c :: bytes_of_string r
  end.

(** What the clock ([time], [clock_gettime]), [getuid] and [getgid]
    answer to the running process. *)
Record process : Type := mk_process { now : Z; uid : Z; gid : Z }.

(** ** mkfs.c *)

Module Mkfs.

Definition WFS_OK : Z := 0.
Definition WFS_ERROR : Z := -1.
Definition MAX_DISK_COUNT : Z := 32.

(** [static size_t get_aligned_size(size_t size)] *)
Definition get_aligned_size (size : Z) : Z :=
  let remainder := size mod 32 in
  if remainder =? 0 then size else u64 (size + (32 - remainder)).

Record wfs_sb : Type := mk_sb {
  num_inodes : Z;
  num_data_blocks : Z;
  i_bitmap_ptr : Z;
  d_bitmap_ptr : Z;
  i_blocks_ptr : Z;
  d_blocks_ptr : Z;
  fs_identifier : Z;
  raid_mode : Z;
  device_order : Z
}.

(** [static size_t calculate_layout(struct wfs_sb *sb, size_t inodes,
    size_t blocks)]: the updated superblock and the total size. *)
Definition calculate_layout (sb : wfs_sb) (inodes blocks : Z) : wfs_sb * Z :=
  let layout_start := sizeof_wfs_sb in
  let inode_bits := Z.shiftr (u64 (inodes + 7)) 3 in
  let block_bits := Z.shiftr (u64 (blocks + 7)) 3 in
  let i_bitmap := s64 layout_start in
  let d_bitmap := s64 (i_bitmap + inode_bits) in
  let inode_start := u64 (d_bitmap + block_bits) in
  let i_blocks :=
    if inode_start mod BLOCK_SIZE =? 0 then s64 inode_start
    else s64 (inode_start + (BLOCK_SIZE - inode_start mod BLOCK_SIZE)) in
  let d_blocks := s64 (i_blocks + u64 (inodes * BLOCK_SIZE)) in
  (mk_sb (num_inodes sb) (num_data_blocks sb) i_bitmap d_bitmap i_blocks
         d_blocks (fs_identifier sb) (raid_mode sb) (device_order sb),
   u64 (d_blocks + u64 (blocks * BLOCK_SIZE))).

(** [struct disk_state]; the descriptor and the name are the [file] and
    the path the caller holds. *)
Record disk_state : Type := mk_disk_state {
  inode_count : Z;
  block_count : Z;
  ds_raid_mode : Z;
  ds_device_order : Z;
  total_disks : Z;
  fs_id : Z
}.

(** An open disk image: what [fstat] reports and what [pwrite] changes. *)
Record file : Type := mk_file { st_size : Z; data : image }.

Definition write_sb (m : image) (sb : wfs_sb) : image :=
  let m := store64 m sb_num_inodes (num_inodes sb) in
  let m := store64 m sb_num_data_blocks (num_data_blocks sb) in
  let m := store64 m sb_i_bitmap_ptr (i_bitmap_ptr sb) in
  let m := store64 m sb_d_bitmap_ptr (d_bitmap_ptr sb) in
  let m := store64 m sb_i_blocks_ptr (i_blocks_ptr sb) in
  let m := store64 m sb_d_blocks_ptr (d_blocks_ptr sb) in
  let m := store32 m sb_fs_identifier (fs_identifier sb) in
  let m := store32 m sb_raid_mode (raid_mode sb) in
  store64 m sb_device_order (device_order sb).

(** The root inode as [create_filesystem] fills it: everything else of the
    120 bytes is zero. *)
Definition write_root (m : image) (at_ : Z) (p : process) : image :=
  let m := memset m at_ 0 sizeof_wfs_inode in
  let m := store32 m (at_ + i_mode) (Z.lor S_IFDIR 493) in   (* 0755 *)
  let m := store32 m (at_ + i_nlinks) 1 in
  let m := store32 m (at_ + i_uid) (uid p) in
  let m := store32 m (at_ + i_gid) (gid p) in
  let m := store64 m (at_ + i_size) 0 in
  let m := store64 m (at_ + i_atim) (now p) in
  let m := store64 m (at_ + i_mtim) (now p) in
  store64 m (at_ + i_ctim) (now p).

(** [static int create_filesystem(struct disk_state *disk)]; [fstat] and
    the three [pwrite]s are taken to succeed. *)
Definition create_filesystem (p : process) (disk : disk_state) (f : file)
  : Z * file :=
  let sb0 := mk_sb (inode_count disk) (block_count disk) 0 0 0 0
                   (fs_id disk) (ds_raid_mode disk)
                   (u64 (ds_device_order disk)) in
  let '(sb, total_size) :=
    calculate_layout sb0 (inode_count disk) (block_count disk) in
  if u64 (st_size f) <? total_size then (WFS_ERROR, f)
  else
    let m := write_sb (data f) sb in
    let m := store32 m (i_bitmap_ptr sb) 1 in
    let m := write_root m (i_blocks_ptr sb) p in
    (WFS_OK, mk_file (st_size f) m).

(** [atoi], which is [(int) strtol(nptr, NULL, 10)]: optional blanks,
    optional sign, decimal digits; the [long] saturates, and its
    conversion to [int] wraps. *)
Definition is_space (c : ascii) : bool :=
  let n := byte_of_ascii c in (n =? 32) || ((9 <=? n) && (n <=? 13)).

Definition digit_of (c : ascii) : option Z :=
  let n := byte_of_ascii c in
  if (48 <=? n) && (n <=? 57) then Some (n - 48) else None.

Fixpoint atoi_digits (s : string) (acc : Z) : Z :=
  match s with
  | EmptyString => acc
  | String c r =>
      match digit_of c with
      | Some d => atoi_digits r (10 * acc + d)
      | None => acc
      end
  end.

Fixpoint skip_spaces (s : string) : string :=
  match s with
  | String c r => if is_space c then skip_spaces r else s
  | EmptyString => s
  end.

Definition LONG_MAX : Z := 2 ^ 63 - 1.
Definition LONG_MIN : Z := - 2 ^ 63.

Definition strtol (s : string) : Z :=
  match skip_spaces s with
  | String "-"%char r => Z.max LONG_MIN (- atoi_digits r 0)
  | String "+"%char r => Z.min LONG_MAX (atoi_digits r 0)
  | r => Z.min LONG_MAX (atoi_digits r 0)
  end.

Definition atoi (s : string) : Z := s32 (strtol s).

(** The outcome of [main]: the process exit status, or, while parsing,
    the state reached. *)
Inductive parsed : Type :=
| Exit (status : Z)
| Args (state : disk_state) (disks : list (string * file)).

Definition with_raid_mode (s : disk_state) (v : Z) : disk_state :=
  mk_disk_state (inode_count s) (block_count s) v (ds_device_order s)
                (total_disks s) (fs_id s).
Definition with_inode_count (s : disk_state) (v : Z) : disk_state :=
  mk_disk_state v (block_count s) (ds_raid_mode s) (ds_device_order s)
                (total_disks s) (fs_id s).
Definition with_block_count (s : disk_state) (v : Z) : disk_state :=
  mk_disk_state (inode_count s) v (ds_raid_mode s) (ds_device_order s)
                (total_disks s) (fs_id s).

Definition char_at (s : string) (k : nat) : ascii :=
  match String.get k s with Some c => c | None => zero end.

Section Main.
(** [open(value, O_RDWR)]: the image behind a path, if it opens. *)
Variable open_rdwr : string -> option file.
Variable proc : process.

(** The argument loop of [main], over [argv[1..]]. *)
Fixpoint parse_args (args : list string) (state : disk_state)
         (disks : list (string * file)) : parsed :=
  match args with
  | [] => Args state disks
  | opt :: rest =>
      if negb (Ascii.eqb (char_at opt 0) "-") then Exit 1
      else
        match rest with
        | [] => Exit 1
        | value :: rest' =>
            let c := char_at opt 1 in
            if Ascii.eqb c "r" then
              let state := with_raid_mode state (atoi value) in
              if negb (ds_raid_mode state =? 0)
                 && negb (ds_raid_mode state =? 1)
              then Exit 1
              else parse_args rest' state disks
            else if Ascii.eqb c "i" then
              let state := with_inode_count state (u64 (atoi value)) in
              if inode_count state <=? 0 then Exit 1
              else parse_args rest' state disks
            else if Ascii.eqb c "b" then
              let state := with_block_count state (u64 (atoi value)) in
              if block_count state <=? 0 then Exit 1
              else parse_args rest' state disks
            else if Ascii.eqb c "d" then
              if Z.of_nat (List.length disks) >=? MAX_DISK_COUNT then Exit 1
              else
                match open_rdwr value with
                | None => Exit 1
                | Some f => parse_args rest' state (disks ++ [(value, f)])
                end
            else Exit 1
        end
  end.

(** The initialisation loop of [main]: [exit(-1)] at the first disk
    that fails. *)
Fixpoint init_disks (state : disk_state) (i : Z)
         (todo : list (string * file)) : option (list (string * file)) :=
  match todo with
  | [] => Some []
  | (name, f) :: rest =>
      let st := mk_disk_state (inode_count state) (block_count state)
                              (ds_raid_mode state) i (total_disks state)
                              (fs_id state) in
      let '(rc, f') := create_filesystem proc st f in
      if rc =? WFS_OK then
        match init_disks state (i + 1) rest with
        | Some l => Some ((name, f') :: l)
        | None => None
        end
      else None
  end.

(** [int main(int argc, char *argv[])]: the exit status and the images
    as they are left. *)
Definition main (args : list string) : Z * list (string * file) :=
  match parse_args args (mk_disk_state 0 0 0 0 0 0) [] with
  | Exit st => (st, [])
  | Args state disks =>
      let disk_count := Z.of_nat (List.length disks) in
      if (disk_count <? 2) || (inode_count state =? 0)
         || (block_count state =? 0)
      then (1, disks)
      else
        let state :=
          mk_disk_state (get_aligned_size (inode_count state))
                        (get_aligned_size (block_count state))
                        (ds_raid_mode state) 0 disk_count
                        (s32 (now proc)) in
        match init_disks state 0 disks with
        | Some l => (0, l)
        | None => (-1, disks)
        end
  end.
End Main.

End Mkfs.

(** ** wfs.c *)

Module Wfs.

Definition MAX_DISKS : Z := 10.

Inductive RaidState : Type :=
| INIT | READ_READY | WRITE_READY | DELETE_READY | CREATE_READY | ERROR.

(** [struct RaidManager]; [current_buffer] is never read and is left out. *)
Record RaidManager : Type := mk_mgr {
  state : RaidState;
  current_disk : Z;
  total_disks : Z;
  raid_type : Z;
  buffer_size : Z;
  operation_id : Z
}.

(** The global variables of [wfs.c]. *)
Record fs : Type := mk_fs {
  fs_memory_regions : list image;
  raid_mode : Z;
  total_devices : Z;
  error_code : Z;
  raid_mgr : RaidManager
}.

(** *** The monad: global state, and failure for a crash *)

Definition M (A : Type) : Type := fs -> option (A * fs).

Definition ret {A : Type} (a : A) : M A := fun s => Some (a, s).

Definition bind {A B : Type} (c : M A) (k : A -> M B) : M B :=
  fun s => match c s with
           | Some (a, s') => k a s'
           | None => None
           end.

Definition crash {A : Type} : M A := fun _ => None.

Definition gets {A : Type} (f : fs -> A) : M A := fun s => Some (f s, s).

Definition modify (f : fs -> fs) : M unit := fun s => Some (tt, f s).

Notation "x <- c1 ;; c2" := (bind c1 (fun x => c2))
  (at level 61, c1 at next level, right associativity).
Notation "' pat <- c1 ;; c2" := (bind c1 (fun x => match x with pat => c2 end))
  (at level 61, pat pattern, c1 at next level, right associativity).
Notation "c1 ;; c2" := (bind c1 (fun _ => c2))
  (at level 61, right associativity).

(** *** Pointers into the mapped images *)

(** A non-null pointer into a mapping: the disk and the byte offset.  A C
    pointer that may be [NULL] is an [option addr]. *)
Definition addr : Type := (Z * Z)%type.

Definition addr_eqb (p q : addr) : bool :=
  (fst p =? fst q) && (snd p =? snd q).

Definition shift (p : addr) (k : Z) : addr := (fst p, snd p + k).
Infix "+:" := shift (at level 50, left associativity).

Definition deref (p : option addr) : M addr :=
  match p with
  | Some a => ret a
  | None => crash
  end.

Fixpoint upd_nth {A : Type} (n : nat) (l : list A) (x : A) : list A :=
  match l, n with
  | [], _ => []
  | _ :: t, O => x :: t
  | h :: t, S k => h :: upd_nth k t x
  end.

(** [fs_memory_regions[d]]; an index without a mapping crashes at use. *)
Definition region (d : Z) : M image :=
  fun s => if d <? 0 then None
           else match nth_error (fs_memory_regions s) (Z.to_nat d) with
                | Some m => Some (m, s)
                | None => None
                end.

Definition with_regions (s : fs) (l : list image) : fs :=
  mk_fs l (raid_mode s) (total_devices s) (error_code s) (raid_mgr s).

Definition with_error_code (s : fs) (e : Z) : fs :=
  mk_fs (fs_memory_regions s) (raid_mode s) (total_devices s) e (raid_mgr s).

Definition with_mgr (s : fs) (g : RaidManager) : fs :=
  mk_fs (fs_memory_regions s) (raid_mode s) (total_devices s)
        (error_code s) g.

Definition set_region (d : Z) (m : image) : M unit :=
  modify (fun s => with_regions s (upd_nth (Z.to_nat d) (fs_memory_regions s) m)).

Definition rd (f : image -> Z -> Z) (p : addr) : M Z :=
  m <- region (fst p) ;; ret (f m (snd p)).

Definition wr (f : image -> Z -> Z -> image) (p : addr) (v : Z) : M unit :=
  m <- region (fst p) ;; set_region (fst p) (f m (snd p) v).

Definition memset_at (p : addr) (c n : Z) : M unit :=
  m <- region (fst p) ;; set_region (fst p) (memset m (snd p) c n).

Definition memcpy_at (p : addr) (bytes : list Z) : M unit :=
  m <- region (fst p) ;; set_region (fst p) (memcpy_to m (snd p) bytes).

(** A field of the superblock of a disk. *)
Definition sb (d : Z) (field : Z) : addr := (d, field).

(** [for (int i = 0; i < n; i++) body(i)] *)
Fixpoint for_each_disk (n : nat) (i : Z) (body : Z -> M unit) : M unit :=
  match n with
  | O => ret tt
  | S k => body i ;; for_each_disk k (i + 1) body
  end.

(** *** Basic helper functions *)

Definition transition_state (new_state : RaidState) : M unit :=
  modify (fun s =>
    let g := raid_mgr s in
    with_mgr s (mk_mgr new_state (current_disk g) (total_disks g)
                       (raid_type g) (buffer_size g) (operation_id g))).

Definition set_current_disk (d : Z) : M unit :=
  modify (fun s =>
    let g := raid_mgr s in
    with_mgr s (mk_mgr (state g) d (total_disks g)
                       (raid_type g) (buffer_size g) (operation_id g))).

Definition init_raid_manager : M unit :=
  modify (fun s =>
    with_mgr s (mk_mgr INIT 0 (total_devices s) (raid_mode s) 0 0)).

(** [void release_bitmap(uint32_t position, uint32_t *bitmap)] *)
Definition release_bitmap (position : Z) (bitmap : addr) : M unit :=
  let mask := u32 (Z.lnot (Z.shiftl 1 (Z.land position 31))) in
  let word := bitmap +: 4 * Z.shiftr position 5 in
  v <- rd load32u word ;;
  wr store32 word (Z.land v mask).

(** [void release_block(off_t blk, int disk)] *)
Definition release_block (blk disk : Z) : M unit :=
  memset_at (disk, blk) 0 BLOCK_SIZE ;;
  d_blocks <- rd load64s (sb disk sb_d_blocks_ptr) ;;
  let position := u32 (Z.quot (s64 (blk - d_blocks)) BLOCK_SIZE) in
  d_bitmap <- rd load64s (sb disk sb_d_bitmap_ptr) ;;
  release_bitmap position (disk, d_bitmap).

(** [void release_inode(struct wfs_inode *inode, int disk)]; the inode
    lies in the mapping of [disk], so the pointer difference is its
    offset. *)
Definition release_inode (inode : option addr) (disk : Z) : M unit :=
  p <- deref inode ;;
  memset_at p 0 BLOCK_SIZE ;;
  i_blocks <- rd load64s (sb disk sb_i_blocks_ptr) ;;
  let bit_position := u32 (Z.quot (s64 (snd p + i_blocks)) BLOCK_SIZE) in
  i_bitmap <- rd load64s (sb disk sb_i_bitmap_ptr) ;;
  release_bitmap bit_position (disk, i_bitmap).

(** [struct wfs_inode *get_inode(int num, int disk)], for the numbers
    below 2^22, whose product with [BLOCK_SIZE] fits the [int] in which
    the source computes it. *)
Definition get_inode (num disk : Z) : M (option addr) :=
  i_bitmap <- rd load64s (sb disk sb_i_bitmap_ptr) ;;
  let block := Z.quot num 32 in
  let position := Z.rem num 32 in
  word <- rd load32u (disk, i_bitmap + 4 * block) ;;
  if negb (Z.land word (Z.shiftl 1 position) =? 0) then
    i_blocks <- rd load64s (sb disk sb_i_blocks_ptr) ;;
    ret (Some (disk, i_blocks + num * BLOCK_SIZE))
  else ret None.

(** The inner loop of [allocate_bitmap_block]: the lowest clear bit. *)
Fixpoint find_zero_bit (n : nat) (bit word : Z) : option Z :=
  match n with
  | O => None
  | S k => if Z.land word (Z.shiftl 1 bit) =? 0 then Some bit
           else find_zero_bit k (bit + 1) word
  end.

Fixpoint scan_bitmap (n : nat) (word_idx : Z) (bitmap : addr) : M Z :=
  match n with
  | O => ret (-1)
  | S k =>
      word <- rd load32u (bitmap +: 4 * word_idx) ;;
      if negb (word =? 4294967295) then
        match find_zero_bit 32 0 word with
        | Some bit =>
            wr store32 (bitmap +: 4 * word_idx) (Z.lor word (Z.shiftl 1 bit)) ;;
            ret (word_idx * 32 + bit)
        | None => scan_bitmap k (word_idx + 1) bitmap
        end
      else scan_bitmap k (word_idx + 1) bitmap
  end.

(** [ssize_t allocate_bitmap_block(uint32_t *bitmap, size_t len)] *)
Definition allocate_bitmap_block (bitmap : addr) (len : Z) : M Z :=
  scan_bitmap (Z.to_nat len) 0 bitmap.

(** [off_t allocate_block(int disk)] *)
Definition allocate_block (disk : Z) : M Z :=
  d_bitmap <- rd load64s (sb disk sb_d_bitmap_ptr) ;;
  n <- rd load64u (sb disk sb_num_data_blocks) ;;
  block_num <- allocate_bitmap_block (disk, d_bitmap) (n / 32) ;;
  if block_num <? 0 then ret 0
  else
    d_blocks <- rd load64s (sb disk sb_d_blocks_ptr) ;;
    ret (s64 (d_blocks + BLOCK_SIZE * block_num)).

(** [struct wfs_inode *create_inode(int disk)] *)
Definition create_inode (disk : Z) : M (option addr) :=
  i_bitmap <- rd load64s (sb disk sb_i_bitmap_ptr) ;;
  n <- rd load64u (sb disk sb_num_inodes) ;;
  block_num <- allocate_bitmap_block (disk, i_bitmap) (n / 32) ;;
  if block_num <? 0 then
    modify (fun s => with_error_code s (- ENOSPC)) ;;
    ret None
  else
    i_blocks <- rd load64s (sb disk sb_i_blocks_ptr) ;;
    let inode := (disk, i_blocks + BLOCK_SIZE * block_num) in
    wr store32 (inode +: i_num) block_num ;;
    ret (Some inode).

(** [void setup_inode(struct wfs_inode *inode, mode_t mode)] *)
Definition setup_inode (p : process) (inode : option addr) (mode : Z) : M unit :=
  i <- deref inode ;;
  wr store32 (i +: i_mode) mode ;;
  wr store32 (i +: i_uid) (uid p) ;;
  wr store32 (i +: i_gid) (gid p) ;;
  wr store64 (i +: i_size) 0 ;;
  wr store32 (i +: i_nlinks) 1 ;;
  wr store64 (i +: i_atim) (now p) ;;
  wr store64 (i +: i_mtim) (now p) ;;
  wr store64 (i +: i_ctim) (now p).

(** [char *get_block_location(struct wfs_inode *inode, off_t offset,
    int alloc, int disk)] *)
Definition get_block_location (inode : option addr) (offset alloc disk : Z)
  : M (option addr) :=
  let block_num := s32 (Z.quot offset BLOCK_SIZE) in
  if u64 block_num >? D_BLOCK + BLOCK_SIZE / 8 then ret None
  else
    ino <- deref inode ;;
    mode <- gets raid_mode ;;
    if mode =? RAID0 then
      n <- gets total_devices ;;
      if n =? 0 then crash
      else
        let target_disk := Z.rem block_num n in
        '(blocks, bn) <-
          (if block_num >? D_BLOCK then
             ind <- rd load64s (ino +: i_blocks IND_BLOCK) ;;
             (if ind =? 0 then
                for_each_disk (Z.to_nat n) 0 (fun i =>
                  num <- rd load32s (ino +: i_num) ;;
                  w <- get_inode num i ;;
                  b <- allocate_block i ;;
                  w <- deref w ;;
                  wr store64 (w +: i_blocks IND_BLOCK) b)
              else ret tt) ;;
             ind <- rd load64s (ino +: i_blocks IND_BLOCK) ;;
             ret ((disk, ind), block_num - IND_BLOCK)
           else ret (ino +: i_blocks 0, block_num)) ;;
        slot <- rd load64s (blocks +: 8 * bn) ;;
        (if negb (alloc =? 0) && (slot =? 0) then
           new_block_offset <- allocate_block target_disk ;;
           for_each_disk (Z.to_nat n) 0 (fun i =>
             num <- rd load32s (ino +: i_num) ;;
             w <- get_inode num i ;;
             w <- deref w ;;
             if negb (addr_eqb blocks (ino +: i_blocks 0)) then
               ind_i <- rd load64s (w +: i_blocks IND_BLOCK) ;;
               wr store64 ((i, ind_i) +: 8 * bn) new_block_offset
             else wr store64 (w +: i_blocks bn) new_block_offset)
         else ret tt) ;;
        v <- rd load64s (blocks +: 8 * bn) ;;
        ret (Some (target_disk, v + Z.rem offset BLOCK_SIZE))
    else
      '(blocks, bn) <-
        (if block_num >? D_BLOCK then
           ind <- rd load64s (ino +: i_blocks IND_BLOCK) ;;
           (if ind =? 0 then
              b <- allocate_block disk ;;
              wr store64 (ino +: i_blocks IND_BLOCK) b
            else ret tt) ;;
           ind <- rd load64s (ino +: i_blocks IND_BLOCK) ;;
           ret ((disk, ind), block_num - IND_BLOCK)
         else ret (ino +: i_blocks 0, block_num)) ;;
      slot <- rd load64s (blocks +: 8 * bn) ;;
      (if negb (alloc =? 0) && (slot =? 0) then
         b <- allocate_block disk ;;
         wr store64 (blocks +: 8 * bn) b
       else ret tt) ;;
      v <- rd load64s (blocks +: 8 * bn) ;;
      if v =? 0 then ret None
      else ret (Some (disk, v + Z.rem offset BLOCK_SIZE)).

(** [strcmp(name, next) == 0] for the string stored at [a] and the C
    string with bytes [next]. *)
Fixpoint c_streq (m : image) (a : Z) (next : list Z) : bool :=
  match next with
  | [] => load8 m a =? 0
  | c :: r => (load8 m a =? c) && c_streq m (a + 1) r
  end.

(** The first component of a path and what follows its slash. *)
Fixpoint split_component (path : string) : string * string :=
  match path with
  | EmptyString => (EmptyString, EmptyString)
  | String c rest =>
      if Ascii.eqb c "/" then (EmptyString, rest)
      else let '(n, r) := split_component rest in (String c n, r)
  end.

(** The directory scan of [locate_inode]: the number of the first entry
    in use whose name is [next], or -1. *)
Fixpoint scan_dentries (n : nat) (off : Z) (enclosing : addr)
         (next : list Z) (disk : Z) : M Z :=
  match n with
  | O => ret (-1)
  | S k =>
      dentries <- get_block_location (Some enclosing) off 0 disk ;;
      d <- deref dentries ;;
      num <- rd load32s (d +: de_num) ;;
      m <- region (fst d) ;;
      if negb (num =? 0) && c_streq m (snd d + de_name) next then ret num
      else scan_dentries k (off + sizeof_wfs_dentry) enclosing next disk
  end.

(** Number of turns of [for (off = 0; off < sz; off += 32)]. *)
Definition dentry_slots (sz : Z) : nat :=
  Z.to_nat ((sz + sizeof_wfs_dentry - 1) / sizeof_wfs_dentry).

(** [int locate_inode(struct wfs_inode *enclosing, char *path,
    struct wfs_inode **inode, int disk)]: the return value and [*inode].
    The recursion consumes the path, so a fuel of its length plus one is
    never used up. *)
Fixpoint locate_inode (fuel : nat) (enclosing : option addr) (path : string)
         (disk : Z) : M (Z * option addr) :=
  match fuel with
  | O => crash
  | S f =>
      match path with
      | EmptyString => ret (0, enclosing)
      | _ =>
          let '(next, rest) := split_component path in
          e <- deref enclosing ;;
          sz <- rd load64u (e +: i_size) ;;
          inum <- scan_dentries (dentry_slots sz) 0 e
                                (bytes_of_string next) disk ;;
          if inum <? 0 then
            modify (fun s => with_error_code s (- ENOENT)) ;;
            ret (-1, None)
          else
            child <- get_inode inum disk ;;
            locate_inode f child rest disk
      end
  end.

Definition string_tail (s : string) : string :=
  match s with
  | EmptyString => EmptyString
  | String _ r => r
  end.

(** [int find_inode_by_path(char *path, struct wfs_inode **inode,
    int disk)] *)
Definition find_inode_by_path (path : string) (disk : Z)
  : M (Z * option addr) :=
  root <- get_inode 0 disk ;;
  match root with
  | None => ret (-1, None)
  | Some _ =>
      locate_inode (S (String.length path)) root (string_tail path) disk
  end.

(** [strncpy(dentries->name, name, MAX_NAME)]: the name, cut or padded
    with zero bytes to 28. *)
Definition strncpy_name (d : addr) (name : string) : M unit :=
  memcpy_at (d +: de_name) (slice (bytes_of_string name) 0 MAX_NAME).

(** [w->nlinks++], and [w->size += BLOCK_SIZE] when the directory grew. *)
Definition bump_at (grow : bool) (w : addr) : M unit :=
  n <- rd load32s (w +: i_nlinks) ;;
  wr store32 (w +: i_nlinks) (s32 (n + 1)) ;;
  if grow then
    sz <- rd load64s (w +: i_size) ;;
    wr store64 (w +: i_size) (s64 (sz + BLOCK_SIZE))
  else ret tt.

(** The end of either path of [insert_dir_entry]: the copy of the parent
    on every disk is bumped under RAID0, the parent itself otherwise. *)
Definition bump_parent (parent : addr) (grow : bool) : M unit :=
  mode <- gets raid_mode ;;
  if mode =? RAID0 then
    n <- gets total_devices ;;
    for_each_disk (Z.to_nat n) 0 (fun i =>
      num <- rd load32s (parent +: i_num) ;;
      w <- get_inode num i ;;
      w <- deref w ;;
      bump_at grow w)
  else bump_at grow parent.

(** The [while] loop of [insert_dir_entry]: [true] when a free slot took
    the entry. *)
Fixpoint insert_scan (fuel : nat) (offset : Z) (parent : addr) (num : Z)
         (name : string) (disk : Z) : M bool :=
  match fuel with
  | O => crash
  | S k =>
      size <- rd load64s (parent +: i_size) ;;
      if offset <? size then
        dentries <- get_block_location (Some parent) offset 0 disk ;;
        d <- deref dentries ;;
        num0 <- rd load32s (d +: de_num) ;;
        if num0 =? 0 then
          wr store32 (d +: de_num) num ;;
          strncpy_name d name ;;
          bump_parent parent false ;;
          ret true
        else insert_scan k (offset + sizeof_wfs_dentry) parent num name disk
      else ret false
  end.

(** [int insert_dir_entry(struct wfs_inode *parent_inode, int num,
    char *name, int disk)] *)
Definition insert_dir_entry (parent_inode : option addr) (num : Z)
           (name : string) (disk : Z) : M Z :=
  parent <- deref parent_inode ;;
  size <- rd load64s (parent +: i_size) ;;
  done <- insert_scan (S (dentry_slots size)) 0 parent num name disk ;;
  if done then ret 0
  else
    size <- rd load64s (parent +: i_size) ;;
    dentries <- get_block_location (Some parent) size 1 disk ;;
    match dentries with
    | None => ret (-1)
    | Some d =>
        wr store32 (d +: de_num) num ;;
        strncpy_name d name ;;
        bump_parent parent true ;;
        ret 0
    end.

Fixpoint delete_scan (n : nat) (off : Z) (inode : addr) (inum disk : Z)
  : M Z :=
  match n with
  | O => ret (-1)
  | S k =>
      dentries <- get_block_location (Some inode) off 0 disk ;;
      d <- deref dentries ;;
      num <- rd load32s (d +: de_num) ;;
      if num =? inum then
        wr store32 (d +: de_num) 0 ;;
        ret 0
      else delete_scan k (off + sizeof_wfs_dentry) inode inum disk
  end.

(** [int delete_dir_entry(struct wfs_inode *inode, int inum, int disk)] *)
Definition delete_dir_entry (inode : option addr) (inum disk : Z) : M Z :=
  i <- deref inode ;;
  sz <- rd load64u (i +: i_size) ;;
  delete_scan (dentry_slots sz) 0 i inum disk.

(** *** libgen.h, on the paths the kernel bridge passes (absolute, no
    trailing slash) *)

(** What precedes and what follows the last slash. *)
Fixpoint split_last (s : string) : option (string * string) :=
  match s with
  | EmptyString => None
  | String c r =>
      match split_last r with
      | Some (d, b) => Some (String c d, b)
      | None => if Ascii.eqb c "/" then Some (EmptyString, r) else None
      end
  end.

Definition dirname (path : string) : string :=
  match split_last path with
  | None => "."%string
  | Some (EmptyString, _) => "/"%string
  | Some (d, _) => d
  end.

Definition basename (path : string) : string :=
  match split_last path with
  | None => path
  | Some (_, EmptyString) => "/"%string
  | Some (_, b) => b
  end.

(** *** FUSE operations *)

(** [struct stat], the fields that [wfs_getattr] fills. *)
Record stat : Type := mk_stat {
  st_mode : Z;
  st_uid : Z;
  st_gid : Z;
  st_size : Z;
  st_atime : Z;
  st_mtime : Z;
  st_ctime : Z;
  st_nlink : Z
}.

(** [int wfs_getattr(const char *path, struct stat *statbuf)]: the
    result and what is stored in [statbuf], if anything. *)
Definition wfs_getattr (path : string) : M (Z * option stat) :=
  '(rc, inode) <- find_inode_by_path path 0 ;;
  if rc <? 0 then
    e <- gets error_code ;; ret (e, None)
  else
    i <- deref inode ;;
    mode <- rd load32u (i +: i_mode) ;;
    uid <- rd load32u (i +: i_uid) ;;
    gid <- rd load32u (i +: i_gid) ;;
    size <- rd load64s (i +: i_size) ;;
    atim <- rd load64s (i +: i_atim) ;;
    mtim <- rd load64s (i +: i_mtim) ;;
    ctim <- rd load64s (i +: i_ctim) ;;
    nlinks <- rd load32s (i +: i_nlinks) ;;
    ret (0, Some (mk_stat mode uid gid size atim mtim ctim (u64 nlinks))).

(** The inode allocation of [wfs_mknod] and [wfs_mkdir] under RAID0: one
    inode on every disk, the last one kept; [false] when a disk has none
    left. *)
Fixpoint create_on_disks (p : process) (n : nat) (i mode : Z)
         (inode : option addr) : M (bool * option addr) :=
  match n with
  | O => ret (true, inode)
  | S k =>
      ino <- create_inode i ;;
      match ino with
      | None => ret (false, None)
      | Some _ =>
          setup_inode p ino mode ;;
          create_on_disks p k (i + 1) mode ino
      end
  end.

Definition allocate_new_inode (p : process) (mode disk : Z)
  : M (bool * option addr) :=
  rm <- gets raid_mode ;;
  if rm =? RAID0 then
    n <- gets total_devices ;;
    create_on_disks p (Z.to_nat n) 0 mode None
  else
    ino <- create_inode disk ;;
    match ino with
    | None => ret (false, None)
    | Some _ => setup_inode p ino mode ;; ret (true, ino)
    end.

(** [int wfs_mknod(const char* path, mode_t mode, dev_t dev, int disk)] *)
Definition wfs_mknod (p : process) (path : string) (mode disk : Z) : M Z :=
  '(rc, parent_inode) <- find_inode_by_path (dirname path) disk ;;
  if rc <? 0 then ret (- ENOENT)
  else
    '(ok, inode) <- allocate_new_inode p (Z.lor S_IFREG mode) disk ;;
    if negb ok then ret (- ENOSPC)
    else
      i <- deref inode ;;
      num <- rd load32s (i +: i_num) ;;
      rc <- insert_dir_entry parent_inode num (basename path) disk ;;
      if rc <? 0 then ret (- EEXIST) else ret 0.

(** A call on disk after disk that stops at the first non-zero result. *)
Fixpoint on_each_disk (n : nat) (i : Z) (call : Z -> M Z) (failed : Z -> M Z)
  : M Z :=
  match n with
  | O => ret 0
  | S k =>
      result <- call i ;;
      if negb (result =? 0) then failed result
      else on_each_disk k (i + 1) call failed
  end.

(** [int WFS_MKNOD(const char *path, mode_t mode, dev_t dev)] *)
Definition WFS_MKNOD (p : process) (path : string) (mode : Z) : M Z :=
  rm <- gets raid_mode ;;
  if rm =? RAID0 then
    result <- wfs_mknod p path mode 0 ;;
    if negb (result =? 0) then ret result else ret 0
  else
    n <- gets total_devices ;;
    on_each_disk (Z.to_nat n) 0 (wfs_mknod p path mode) ret.

(** [int wfs_mkdir(const char *path, mode_t mode, int disk)] *)
Definition wfs_mkdir (p : process) (path : string) (mode disk : Z) : M Z :=
  '(rc, parent_inode) <- find_inode_by_path (dirname path) disk ;;
  if rc <? 0 then gets error_code
  else
    '(ok, inode) <- allocate_new_inode p (Z.lor S_IFDIR mode) disk ;;
    if negb ok then gets error_code
    else
      i <- deref inode ;;
      num <- rd load32s (i +: i_num) ;;
      rc <- insert_dir_entry parent_inode num (basename path) disk ;;
      if rc <? 0 then gets error_code else ret 0.

(** [int WFS_MKDIR(const char *path, mode_t mode)] *)
Definition WFS_MKDIR (p : process) (path : string) (mode : Z) : M Z :=
  rm <- gets raid_mode ;;
  if rm =? RAID0 then
    result <- wfs_mkdir p path mode 0 ;;
    if negb (result =? 0) then gets error_code else ret 0
  else
    n <- gets total_devices ;;
    on_each_disk (Z.to_nat n) 0 (wfs_mkdir p path mode)
                 (fun _ => gets error_code).

Definition begin_operation (length : option Z) : M unit :=
  modify (fun s =>
    let g := raid_mgr s in
    with_mgr s (mk_mgr (state g) (current_disk g) (total_disks g) (raid_type g)
                       (match length with Some l => l | None => buffer_size g end)
                       (u64 (operation_id g + 1)))).

(** [static int prepare_read_operation(const char *path, size_t length)] *)
Definition prepare_read_operation (length : Z) : M Z :=
  begin_operation (Some length) ;;
  g <- gets raid_mgr ;;
  if (raid_type g =? RAID0) || (raid_type g =? RAID1) then
    set_current_disk 0 ;; transition_state READ_READY ;; ret 0
  else if raid_type g =? RAID1V then
    set_current_disk 0 ;; transition_state INIT ;; ret 0
  else
    transition_state ERROR ;; ret (-1).

(** A [char] read from the image: signed, as on x86-64. *)
Definition load_char (m : image) (a : Z) : Z :=
  let b := load8 m a in if b <? 128 then b else b - 256.

(** [for (i = 0; i < to_read; i++) checksum += addr[i]] *)
Fixpoint add_bytes (n : nat) (m : image) (a : Z) (sum : Z) : Z :=
  match n with
  | O => sum
  | S k => add_bytes k m (a + 1) (s32 (sum + load_char m a))
  end.

(** The checksum loop of state [INIT] of [wfs_read]. *)
Fixpoint checksum_loop (fuel : nat) (inode : option addr) (length : Z)
         (bytes_read position sum disk : Z) : M Z :=
  match fuel with
  | O => crash
  | S k =>
      ino <- deref inode ;;
      size <- rd load64u (ino +: i_size) ;;
      if (bytes_read <? length) && (position <? size) then
        let to_read := BLOCK_SIZE - position mod BLOCK_SIZE in
        let remaining := u64 (size - position) in
        let to_read := if to_read >? remaining then remaining else to_read in
        addr <- get_block_location inode (s64 position) 0 disk ;;
        a <- deref addr ;;
        m <- region (fst a) ;;
        checksum_loop k inode length (u64 (bytes_read + to_read))
                      (u64 (position + to_read))
                      (add_bytes (Z.to_nat to_read) m (snd a) sum) disk
      else ret sum
  end.

(** [count]: one plus the earlier disks with the same checksum. *)
Fixpoint earlier_matches (n : nat) (j : Z) (checksums : Z -> Z) (cur : Z)
  : Z :=
  match n with
  | O => 0
  | S k => (if checksums j =? checksums cur then 1 else 0)
           + earlier_matches k (j + 1) checksums cur
  end.

Definition count_for (checksums : Z -> Z) (cur : Z) : Z :=
  1 + earlier_matches (Z.to_nat cur) 0 checksums cur.

(** The read loop of state [READ_READY] of [wfs_read]: [inl] the count
    and the bytes copied to [buf], [inr] the bytes copied before the
    resolver returned [NULL]. *)
Fixpoint read_loop (fuel : nat) (inode : option addr) (length : Z)
         (bytes_read position : Z) (buf : list Z) (disk : Z)
  : M (Z * list Z + list Z) :=
  match fuel with
  | O => crash
  | S k =>
      ino <- deref inode ;;
      size <- rd load64u (ino +: i_size) ;;
      if (bytes_read <? length) && (position <? size) then
        let to_read := BLOCK_SIZE - position mod BLOCK_SIZE in
        let remaining := u64 (size - position) in
        let to_read := if to_read >? remaining then remaining else to_read in
        let to_read := if to_read >? u64 (length - bytes_read)
                       then u64 (length - bytes_read) else to_read in
        addr <- get_block_location inode (s64 position) 0 disk ;;
        match addr with
        | None => ret (inr buf)
        | Some a =>
            m <- region (fst a) ;;
            let chunk := map (fun i => load8 m (snd a + Z.of_nat i))
                             (seq 0 (Z.to_nat to_read)) in
            read_loop k inode length (u64 (bytes_read + to_read))
                      (u64 (position + to_read)) (buf ++ chunk) disk
        end
      else ret (inl (bytes_read, buf))
  end.

(** The locals of [wfs_read] that live across the turns of its loop;
    [checksums] starts as whatever the stack holds. *)
Record read_locals : Type := mk_read_locals {
  checksums : Z -> Z;
  max_checksum : Z;
  best_disk : Z
}.

Definition set_checksum (c : Z -> Z) (d v : Z) : Z -> Z :=
  fun j => if j =? d then v else c j.

(** The [while(1) switch(raid_mgr.state)] of [wfs_read]: the return value
    and the bytes stored in [buf]. *)
Fixpoint wfs_read_loop (fuel : nat) (path : string) (length offset : Z)
         (loc : read_locals) : M (Z * list Z) :=
  match fuel with
  | O => crash
  | S k =>
      g <- gets raid_mgr ;;
      let cd := current_disk g in
      match state g with
      | INIT =>
          '(rc, inode) <- find_inode_by_path path cd ;;
          if rc <? 0 then
            set_current_disk (cd + 1) ;;
            (if cd + 1 >=? total_disks g then transition_state READ_READY
             else ret tt) ;;
            wfs_read_loop k path length offset loc
          else
            sum <- checksum_loop (S (Z.to_nat length)) inode length 0
                                 (u64 offset) 0 cd ;;
            let cs := set_checksum (checksums loc) cd sum in
            let count := count_for cs cd in
            let loc' :=
              if count >? max_checksum loc then mk_read_locals cs count cd
              else mk_read_locals cs (max_checksum loc) (best_disk loc) in
            set_current_disk (cd + 1) ;;
            (if cd + 1 >=? total_disks g then
               set_current_disk (best_disk loc') ;;
               transition_state READ_READY
             else ret tt) ;;
            wfs_read_loop k path length offset loc'
      | READ_READY =>
          '(rc, inode) <- find_inode_by_path path cd ;;
          if rc <? 0 then
            transition_state ERROR ;;
            e <- gets error_code ;; ret (e, [])
          else
            r <- read_loop (S (Z.to_nat length)) inode length 0
                           (u64 offset) [] cd ;;
            match r with
            | inr buf => transition_state ERROR ;; ret (- EIO, buf)
            | inl (bytes_read, buf) =>
                transition_state INIT ;; ret (s32 bytes_read, buf)
            end
      | ERROR => e <- gets error_code ;; ret (e, [])
      | _ => transition_state ERROR ;; ret (- EINVAL, [])
      end
  end.

(** [int wfs_read(const char *path, char *buf, size_t length,
    off_t offset, struct fuse_file_info *fi)] *)
Definition wfs_read (stack : Z -> Z) (path : string) (length offset : Z)
  : M (Z * list Z) :=
  result <- prepare_read_operation length ;;
  if result <? 0 then ret (result, [])
  else
    g <- gets raid_mgr ;;
    wfs_read_loop (Z.to_nat (total_disks g) + 2) path length offset
                  (mk_read_locals stack (-1) 0).

(** [static int prepare_write_operation(const char *path, size_t length)] *)
Definition prepare_write_operation (length : Z) : M Z :=
  begin_operation (Some length) ;;
  set_current_disk 0 ;;
  g <- gets raid_mgr ;;
  (if raid_type g =? RAID0 then transition_state WRITE_READY
   else transition_state INIT) ;;
  ret 0.

(** The copy loop of [wfs_write]: whether every chunk found its block,
    and [written_bytes] and [position] when the loop was left. *)
Fixpoint write_chunks (fuel : nat) (inode : option addr) (buf : list Z)
         (length written_bytes position disk : Z) : M (bool * Z * Z) :=
  match fuel with
  | O => crash
  | S k =>
      if written_bytes <? length then
        let to_write := BLOCK_SIZE - position mod BLOCK_SIZE in
        let to_write := if u64 (to_write + written_bytes) >? length
                        then u64 (length - written_bytes) else to_write in
        addr <- get_block_location inode (s64 position) 1 disk ;;
        match addr with
        | None => ret (false, written_bytes, position)
        | Some a =>
            memcpy_at a (slice buf written_bytes to_write) ;;
            write_chunks k inode buf length (u64 (written_bytes + to_write))
                         (u64 (position + to_write)) disk
        end
      else ret (true, written_bytes, position)
  end.

(** [inode->size += new_data_len], copied to every disk under RAID0. *)
Definition update_size (inode : option addr) (new_data_len : Z) : M unit :=
  if new_data_len >? 0 then
    ino <- deref inode ;;
    size <- rd load64s (ino +: i_size) ;;
    wr store64 (ino +: i_size) (s64 (size + new_data_len)) ;;
    g <- gets raid_mgr ;;
    if raid_type g =? RAID0 then
      for_each_disk (Z.to_nat (total_disks g)) 0 (fun i =>
        num <- rd load32s (ino +: i_num) ;;
        disk_inode <- get_inode num i ;;
        w <- deref disk_inode ;;
        size <- rd load64s (ino +: i_size) ;;
        wr store64 (w +: i_size) size)
    else ret tt
  else ret tt.

(** The locals of [wfs_write] that live across the turns of its loop. *)
Record write_locals : Type := mk_write_locals {
  new_data_len : Z;
  written_bytes : Z;
  position : Z;
  w_inode : option addr
}.

(** The [while(1) switch(raid_mgr.state)] of [wfs_write]. *)
Fixpoint wfs_write_loop (fuel : nat) (path : string) (buf : list Z)
         (length offset : Z) (loc : write_locals) : M Z :=
  match fuel with
  | O => crash
  | S k =>
      g <- gets raid_mgr ;;
      let cd := current_disk g in
      match state g with
      | INIT =>
          (if cd >=? total_disks g then
             transition_state WRITE_READY ;; set_current_disk 0
           else transition_state WRITE_READY) ;;
          wfs_write_loop k path buf length offset loc
      | WRITE_READY =>
          '(rc, inode) <- find_inode_by_path path cd ;;
          if rc <? 0 then gets error_code
          else
            ino <- deref inode ;;
            size <- rd load64s (ino +: i_size) ;;
            let ndl := s64 (length - (size - offset)) in
            transition_state READ_READY ;;
            wfs_write_loop k path buf length offset
                           (mk_write_locals ndl 0 (u64 offset) inode)
      | READ_READY =>
          '(ok, written, pos) <-
            write_chunks (S (Z.to_nat length)) (w_inode loc) buf length
                         (written_bytes loc) (position loc) cd ;;
          if negb ok then gets error_code
          else
            update_size (w_inode loc) (new_data_len loc) ;;
            if (raid_type g =? RAID0) || (cd =? total_disks g - 1) then
              transition_state INIT ;; ret (s32 written)
            else
              set_current_disk (cd + 1) ;;
              transition_state INIT ;;
              wfs_write_loop k path buf length offset
                (mk_write_locals (new_data_len loc) written pos (w_inode loc))
      | ERROR => gets error_code
      | _ => transition_state ERROR ;; ret (- EINVAL)
      end
  end.

(** [int wfs_write(const char *path, const char *buf, size_t length,
    off_t offset, struct fuse_file_info *fi)] *)
Definition wfs_write (path : string) (buf : list Z) (length offset : Z)
  : M Z :=
  result <- prepare_write_operation length ;;
  if result <? 0 then ret result
  else
    g <- gets raid_mgr ;;
    wfs_write_loop (3 * Z.to_nat (total_disks g) + 3) path buf length offset
                   (mk_write_locals 0 0 (u64 offset) None).

(** What [filler] was given: a literal name, or the name field of an
    entry. *)
Inductive filled : Type :=
| Literal (name : string)
| Entry (name : addr).

(** The loop of [wfs_readdir] over the slots of the directory. *)
Fixpoint readdir_scan (n : nat) (off : Z) (inode : addr) : M (list filled) :=
  match n with
  | O => ret []
  | S k =>
      dir_entry <- get_block_location (Some inode) off 0 0 ;;
      d <- deref dir_entry ;;
      num <- rd load32s (d +: de_num) ;;
      rest <- readdir_scan k (off + sizeof_wfs_dentry) inode ;;
      ret (if negb (num =? 0) then Entry (d +: de_name) :: rest else rest)
  end.

(** [int wfs_readdir(const char *path, void *buf, fuse_fill_dir_t filler,
    off_t offset, struct fuse_file_info *fi)]: the return value and what
    [filler] was given, in order. *)
Definition wfs_readdir (path : string) : M (Z * list filled) :=
  let dots := [Literal "."; Literal ".."] in
  '(rc, inode) <- find_inode_by_path path 0 ;;
  if rc <? 0 then
    e <- gets error_code ;;
    ret (e, dots)
  else
    inode <- deref inode ;;
    dir_size <- rd load64u (inode +: i_size) ;;
    l <- readdir_scan (dentry_slots dir_size) 0 inode ;;
    ret (0, dots ++ l).

(** [static int prepare_delete_operation(const char *path)] *)
Definition prepare_delete_operation : M Z :=
  begin_operation None ;;
  set_current_disk 0 ;;
  g <- gets raid_mgr ;;
  (if raid_type g =? RAID0 then transition_state DELETE_READY
   else transition_state INIT) ;;
  ret 0.

(** [for (i = 0; i < n; i++) if (blocks[i] != 0) release_block(blocks[i],
    disk_of i)], each slot read when its turn comes. *)
Fixpoint free_blocks (n : nat) (i : Z) (blocks : addr) (disk_of : Z -> M Z)
  : M unit :=
  match n with
  | O => ret tt
  | S k =>
      b <- rd load64s (blocks +: 8 * i) ;;
      (if negb (b =? 0) then d <- disk_of i ;; release_block b d
       else ret tt) ;;
      free_blocks k (i + 1) blocks disk_of
  end.

(** The [while(1) switch(raid_mgr.state)] of [wfs_unlink]. *)
Fixpoint wfs_unlink_loop (fuel : nat) (path : string) : M Z :=
  match fuel with
  | O => crash
  | S k =>
      g <- gets raid_mgr ;;
      let cd := current_disk g in
      match state g with
      | INIT =>
          (if cd >=? total_disks g then
             transition_state DELETE_READY ;; set_current_disk 0
           else transition_state DELETE_READY) ;;
          wfs_unlink_loop k path
      | DELETE_READY =>
          '(rc, parent_inode) <- find_inode_by_path (dirname path) cd ;;
          if rc <? 0 then gets error_code
          else
            '(rc, inode) <- find_inode_by_path path cd ;;
            if rc <? 0 then gets error_code
            else
              ino <- deref inode ;;
              ind <- rd load64s (ino +: i_blocks IND_BLOCK) ;;
              (if negb (ind =? 0) then
                 free_blocks (Z.to_nat (BLOCK_SIZE / 8)) 0 (cd, ind)
                             (fun _ => ret cd)
               else ret tt) ;;
              free_blocks (Z.to_nat N_BLOCKS) 0 (ino +: i_blocks 0)
                (fun i => if raid_type g =? RAID0
                          then (if total_disks g =? 0 then crash
                                else ret (Z.rem i (total_disks g)))
                          else ret cd) ;;
              num <- rd load32s (ino +: i_num) ;;
              rc <- delete_dir_entry parent_inode num cd ;;
              if rc <? 0 then gets error_code
              else
                (if raid_type g =? RAID0 then
                   inum <- rd load32s (ino +: i_num) ;;
                   for_each_disk (Z.to_nat (total_disks g)) 0 (fun i =>
                     w <- get_inode inum i ;;
                     release_inode w i)
                 else release_inode inode cd) ;;
                if (raid_type g =? RAID0) || (cd =? total_disks g - 1) then
                  transition_state INIT ;; ret 0
                else
                  set_current_disk (cd + 1) ;;
                  transition_state INIT ;;
                  wfs_unlink_loop k path
      | ERROR => gets error_code
      | _ => ret (- EINVAL)
      end
  end.

(** [int wfs_unlink(const char *path)] *)
Definition wfs_unlink (path : string) : M Z :=
  result <- prepare_delete_operation ;;
  if result <? 0 then ret result
  else
    g <- gets raid_mgr ;;
    wfs_unlink_loop (2 * Z.to_nat (total_disks g) + 2) path.

(** [int wfs_rmdir(const char *path)] *)
Definition wfs_rmdir (path : string) : M Z := wfs_unlink path.

(** *** Mounting: [main] up to the call of [fuse_main] *)

Fixpoint bytes_equal (n : nat) (a b : image) (at_ : Z) : bool :=
  match n with
  | O => true
  | S k => (load8 a at_ =? load8 b at_) && bytes_equal k a b (at_ + 1)
  end.

(** The check of [initialize_memory_mapping] on every disk after the
    first. *)
Definition same_volume (first_sb current_sb : image) : bool :=
  (load32s first_sb sb_fs_identifier =? load32s current_sb sb_fs_identifier)
  && (load32s first_sb sb_raid_mode =? load32s current_sb sb_raid_mode)
  && bytes_equal 48 first_sb current_sb 0.

(** [device_orders[current_sb->device_order] = i] for every disk. *)
Fixpoint record_orders (images : list image) (i : Z) (orders : Z -> Z)
  : Z -> Z :=
  match images with
  | [] => orders
  | m :: rest =>
      record_orders rest (i + 1)
        (fun k => if k =? load64u m sb_device_order then i else orders k)
  end.

(** [sort_device_order]: [temp_regions[device_orders[i]] =
    fs_memory_regions[i]]; a slot of [temp_regions] that was never
    assigned has no mapping. *)
Fixpoint place_regions (images : list image) (i : Z) (orders : Z -> Z)
         (temp : Z -> option image) : Z -> option image :=
  match images with
  | [] => temp
  | m :: rest =>
      place_regions rest (i + 1) orders
        (fun k => if k =? orders i then Some m else temp k)
  end.

Fixpoint collect_regions (n : nat) (i : Z) (temp : Z -> option image)
  : option (list image) :=
  match n with
  | O => Some []
  | S k =>
      match temp i, collect_regions k (i + 1) temp with
      | Some m, Some l => Some (m :: l)
      | _, _ => None
      end
  end.

(** [verify_root_inodes] *)
Fixpoint verify_root_inodes (n : nat) (i : Z) : M Z :=
  match n with
  | O => ret 0
  | S k =>
      root_inode <- get_inode 0 i ;;
      match root_inode with
      | None => ret (-1)
      | Some r =>
          mode <- rd load32u (r +: i_mode) ;;
          if negb (Z.land mode S_IFMT =? S_IFDIR) then ret (-1)
          else verify_root_inodes k (i + 1)
      end
  end.

(** The state in which [main] calls [fuse_main], for the images named
    before the first option, at most [MAX_DISKS] of them and with device
    orders below [MAX_DISKS], which is what the arrays of the source
    have room for; [None] when [main] exits instead. *)
Definition mount (images : list image) : option fs :=
  let count := Z.of_nat (List.length images) in
  if count <? 2 then None
  else
    match images with
    | [] => None
    | first_sb :: rest =>
        if forallb (same_volume first_sb) rest then
          let orders := record_orders images 0 (fun _ => 0) in
          match collect_regions (List.length images) 0
                  (place_regions images 0 orders (fun _ => None)) with
          | None => None
          | Some regions =>
              let s := mk_fs regions (load32s first_sb sb_raid_mode) count 0
                             (mk_mgr INIT 0 count
                                     (load32s first_sb sb_raid_mode) 0 0) in
              match verify_root_inodes (List.length images) 0 s with
              | Some (0, s') => Some s'
              | _ => None
              end
          end
        else None
    end.

End Wfs.

(** ** Observing a state *)

(** Disk [d] has a mapping. *)
Definition mapped (s : Wfs.fs) (d : Z) : Prop :=
  0 <= d < Z.of_nat (List.length (Wfs.fs_memory_regions s)).

(** The image mapped for disk [d]. *)
Definition image_at (s : Wfs.fs) (d : Z) : image :=
  if d <? 0 then zero_image
  else nth (Z.to_nat d) (Wfs.fs_memory_regions s) zero_image.

(** A computation that neither reads nor writes the RAID manager. *)
Definition mgr_blind {A : Type} (c : Wfs.M A) : Prop :=
  forall s g, c (Wfs.with_mgr s g)
              = match c s with
                | Some (a, s1) => Some (a, Wfs.with_mgr s1 g)
                | None => None
                end.

(** ** Frames *)

(** [s] with the image of disk [d] replaced by [m]. *)
Definition with_image (s : Wfs.fs) (d : Z) (m : image) : Wfs.fs :=
  Wfs.with_regions s (Wfs.upd_nth (Z.to_nat d) (Wfs.fs_memory_regions s) m).

(** [s'] is [s] but for the [n] bytes at offset [a] of disk [d]. *)
Definition same_but (s s' : Wfs.fs) (d a n : Z) : Prop :=
  Wfs.raid_mode s' = Wfs.raid_mode s
  /\ Wfs.total_devices s' = Wfs.total_devices s
  /\ Wfs.error_code s' = Wfs.error_code s
  /\ Wfs.raid_mgr s' = Wfs.raid_mgr s
  /\ List.length (Wfs.fs_memory_regions s')
     = List.length (Wfs.fs_memory_regions s)
  /\ forall j x, j <> d \/ ~ (a <= x < a + n) ->
                 load8 (image_at s' j) x = load8 (image_at s j) x.

(** [s'] has the mappings and the modes of [s], and the bytes of [s] at
    every place in [P]. *)
Definition kept (P : Z -> Z -> Prop) (s s' : Wfs.fs) : Prop :=
  Wfs.raid_mode s' = Wfs.raid_mode s
  /\ Wfs.total_devices s' = Wfs.total_devices s
  /\ Wfs.error_code s' = Wfs.error_code s
  /\ Wfs.raid_mgr s' = Wfs.raid_mgr s
  /\ (forall j, mapped s' j <-> mapped s j)
  /\ forall j x, P j x -> load8 (image_at s' j) x = load8 (image_at s j) x.

(** A block of 512 bytes at [v] is clear of the superblock and of the
    inode record at [a]. *)
Definition clear_of (v a : Z) : Prop :=
  (sizeof_wfs_sb <= v /\ v + BLOCK_SIZE <= a) \/ a + sizeof_wfs_inode <= v.

(** The inode record at [ino] lies after the data bitmap and before the
    data region of its disk. *)
Definition record_layout (s : Wfs.fs) (ino : Wfs.addr) : Prop :=
  let m := image_at s (fst ino) in
  let db := load64s m sb_d_bitmap_ptr in
  let nd := load64u m sb_num_data_blocks in
  let dp := load64s m sb_d_blocks_ptr in
  sizeof_wfs_sb <= db
  /\ db + 4 * (nd / 32) <= snd ino
  /\ snd ino + sizeof_wfs_inode <= dp
  /\ dp + BLOCK_SIZE * nd < 2 ^ 63.

(** The direct pointers of the record at [ino]: those below its size are
    set, and those that are set point clear of the superblock and of the
    record. *)
Definition direct_blocks_placed (s : Wfs.fs) (ino : Wfs.addr) : Prop :=
  let m := image_at s (fst ino) in
  forall k, 0 <= k <= D_BLOCK ->
    let v := load64s m (snd ino + i_blocks k) in
    (v = 0 /\ load64s m (snd ino + i_size) <= BLOCK_SIZE * k)
    \/ clear_of v (snd ino).

(** The record at [ino] is the one [get_inode] gives for its number on
    its disk, one of the disks of the volume. *)
Definition own_record (s : Wfs.fs) (ino : Wfs.addr) : Prop :=
  let m := image_at s (fst ino) in
  0 <= fst ino < Wfs.total_devices s
  /\ snd ino = load64s m sb_i_blocks_ptr
               + load32s m (snd ino + i_num) * BLOCK_SIZE.

(** The bytes that locate and describe the record at [ino]: the pointers
    to the inode region and to the data region in the superblock of its
    disk, and its number, size and link count. *)
Definition anchors (ino : Wfs.addr) (j x : Z) : Prop :=
  j = fst ino
  /\ (sb_i_blocks_ptr <= x < sb_d_blocks_ptr + 8
      \/ snd ino + i_num <= x < snd ino + i_num + 4
      \/ snd ino + i_size <= x < snd ino + i_nlinks + 4).

(** Block [n] of the data region of disk [d] is marked in its data
    bitmap. *)
Definition taken (s : Wfs.fs) (d n : Z) : Prop :=
  let m := image_at s d in
  Z.testbit (load32u m (load64s m sb_d_bitmap_ptr + 4 * (n / 32))) (n mod 32)
  = true.

(** The direct pointers of the record at [ino]: each is 0 or the offset
    of a marked block of the data region, and no block has two
    pointers. *)
Definition direct_blocks_owned (s : Wfs.fs) (ino : Wfs.addr) : Prop :=
  let m := image_at s (fst ino) in
  let nd := load64u m sb_num_data_blocks in
  let dp := load64s m sb_d_blocks_ptr in
  let slot k := load64s m (snd ino + i_blocks k) in
  (forall k, 0 <= k <= D_BLOCK ->
     slot k = 0
     \/ exists n, 0 <= n < 32 * (nd / 32)
                  /\ slot k = dp + BLOCK_SIZE * n
                  /\ taken s (fst ino) n)
  /\ (forall k k', 0 <= k <= D_BLOCK -> 0 <= k' <= D_BLOCK -> k <> k' ->
        slot k <> 0 -> slot k <> slot k').

(** Inode [n] of disk [d] is marked in its inode bitmap. *)
Definition in_use (s : Wfs.fs) (d n : Z) : Prop :=
  let m := image_at s d in
  Z.testbit (load32u m (load64s m sb_i_bitmap_ptr + 4 * (n / 32))) (n mod 32)
  = true.

(** The byte at position [p] of the file of the record at [ino], read
    through the direct slot of its block. *)
Definition file_byte (s : Wfs.fs) (ino : Wfs.addr) (p : Z) : Z :=
  let m := image_at s (fst ino) in
  load8 m (load64s m (snd ino + i_blocks (p / BLOCK_SIZE)) + p mod BLOCK_SIZE).

(** The [k] bytes of the file from position [p] on. *)
Definition file_bytes (s : Wfs.fs) (ino : Wfs.addr) (p k : Z) : list Z :=
  map (fun i => file_byte s ino (p + Z.of_nat i)) (seq 0 (Z.to_nat k)).

(** The entry slot at offset [off] of the directory at [dir] is in use
    and holds the name [next]. *)
Definition entry_named (s : Wfs.fs) (dir : Wfs.addr) (off : Z)
           (next : list Z) : Prop :=
  let m := image_at s (fst dir) in
  let e := load64s m (snd dir + i_blocks (off / BLOCK_SIZE))
           + off mod BLOCK_SIZE in
  load32s m (e + de_num) <> 0 /\ Wfs.c_streq m (e + de_name) next = true.

(** The image after an entry for [num] with the name [next] is written
    at [t] and the record at [a] is bumped, the way [insert_dir_entry]
    does on a mirror. *)
Definition entry_image (a num : Z) (next : list Z) (m : image) (t : Z)
           (grow : bool) : image :=
  let m1 := memcpy_to (store32 m (t + de_num) num) (t + de_name)
                      (slice next 0 MAX_NAME) in
  let m2 := store32 m1 (a + i_nlinks) (s32 (load32s m1 (a + i_nlinks) + 1)) in
  if grow then store64 m2 (a + i_size) (s64 (load64s m2 (a + i_size) + BLOCK_SIZE))
  else m2.

(** What [filler] is given for the slot at offset [off] of the directory
    at [dir]: the name field of the entry when the slot is in use. *)
Definition listed (s : Wfs.fs) (dir : Wfs.addr) (off : Z)
  : list Wfs.filled :=
  let m := image_at s (fst dir) in
  let e := load64s m (snd dir + i_blocks (off / BLOCK_SIZE))
           + off mod BLOCK_SIZE in
  if load32s m (e + de_num) =? 0 then []
  else [Wfs.Entry (fst dir, e + de_name)].

(** The regions of disk [d] lie in the order of [mkfs]: superblock,
    inode bitmap, data bitmap, inodes, data blocks; there is an inode,
    and inode numbers fit an [int]. *)
Definition disk_layout (s : Wfs.fs) (d : Z) : Prop :=
  let m := image_at s d in
  let ib := load64s m sb_i_bitmap_ptr in
  let ni := load64u m sb_num_inodes in
  let db := load64s m sb_d_bitmap_ptr in
  let nd := load64u m sb_num_data_blocks in
  let ip := load64s m sb_i_blocks_ptr in
  let dp := load64s m sb_d_blocks_ptr in
  sizeof_wfs_sb <= ib
  /\ ib + 4 * (ni / 32) <= db
  /\ db + 4 * (nd / 32) <= ip
  /\ ip + BLOCK_SIZE * ni <= dp
  /\ dp + BLOCK_SIZE * nd < 2 ^ 63
  /\ 1 <= ni <= 2 ^ 31.

(** [s1] has the modes and the manager of [s], and its mappings but
    for that of disk [d]. *)
Definition apart (d : Z) (s s1 : Wfs.fs) : Prop :=
  Wfs.raid_mode s1 = Wfs.raid_mode s
  /\ Wfs.total_devices s1 = Wfs.total_devices s
  /\ Wfs.raid_mgr s1 = Wfs.raid_mgr s
  /\ List.length (Wfs.fs_memory_regions s1)
     = List.length (Wfs.fs_memory_regions s)
  /\ forall j, j <> Z.to_nat d ->
       nth_error (Wfs.fs_memory_regions s1) j
       = nth_error (Wfs.fs_memory_regions s) j.

(** Two states of a mirror that differ at most in the mappings of the
    disks other than [d]. *)
Definition agree (d : Z) (s t : Wfs.fs) : Prop :=
  0 <= d /\ Wfs.raid_mode s <> RAID0
  /\ Wfs.raid_mode t = Wfs.raid_mode s
  /\ Wfs.total_devices t = Wfs.total_devices s
  /\ Wfs.error_code t = Wfs.error_code s
  /\ Wfs.raid_mgr t = Wfs.raid_mgr s
  /\ List.length (Wfs.fs_memory_regions t)
     = List.length (Wfs.fs_memory_regions s)
  /\ nth_error (Wfs.fs_memory_regions t) (Z.to_nat d)
     = nth_error (Wfs.fs_memory_regions s) (Z.to_nat d).

(** A pointer that is null or points into disk [d]. *)
Definition on_disk (d : Z) (w : option Wfs.addr) : Prop :=
  match w with
  | Some p => fst p = d
  | None => True
  end.

(** A call that, on a mirror, reads and writes disk [d] only: it leaves
    the other mappings alone, and it runs alike, with the same result,
    from states that agree on disk [d]; [ok] is what its result
    satisfies. *)
Definition local (d : Z) {A : Type} (ok : A -> Prop) (c : Wfs.M A) : Prop :=
  forall s t, agree d s t ->
  forall a s1, c s = Some (a, s1) ->
    ok a /\ apart d s s1
    /\ exists t1, c t = Some (a, t1) /\ agree d s1 t1 /\ apart d t t1.

(** The root directory of disk [d] is in a state in which it can be
    given an entry named [next]: the disk is laid out, inode 0 is in
    use, the directory holds whole blocks of its own, at most six, and
    none of its entries has the name. *)
Definition root_ready (s : Wfs.fs) (d : Z) (next : list Z) : Prop :=
  let m := image_at s d in
  let ip := load64s m sb_i_blocks_ptr in
  let size0 := load64s m (ip + i_size) in
  mapped s d /\ disk_layout s d /\ in_use s d 0
  /\ direct_blocks_owned s (d, ip)
  /\ 0 <= size0 <= D_BLOCK * BLOCK_SIZE /\ size0 mod BLOCK_SIZE = 0
  /\ forall o, 0 <= o < size0 -> o mod sizeof_wfs_dentry = 0 ->
       load64s m (ip + i_blocks (o / BLOCK_SIZE)) <> 0
       /\ ~ entry_named s (d, ip) o next.

(** The record at [a] is that of an inode just set up with [mode] by
    the process [p]: empty, with one link. *)
Definition new_record (p : process) (m : image) (a mode : Z) : Prop :=
  load32u m (a + i_mode) = u32 mode
  /\ load32u m (a + i_uid) = u32 (uid p)
  /\ load32u m (a + i_gid) = u32 (gid p)
  /\ load64s m (a + i_size) = 0
  /\ load32s m (a + i_nlinks) = 1
  /\ load64s m (a + i_atim) = s64 (now p)
  /\ load64s m (a + i_mtim) = s64 (now p)
  /\ load64s m (a + i_ctim) = s64 (now p).

(** [n] is the lowest inode of disk [d] that is free. *)
Definition lowest_free (s : Wfs.fs) (d n : Z) : Prop :=
  0 < n < 32 * (load64u (image_at s d) sb_num_inodes / 32)
  /\ ~ in_use s d n /\ forall n', 0 <= n' < n -> in_use s d n'.

(** A call that, on a mirror with a mapping for disk [d], returns: it
    dereferences no null pointer and reads no disk without a mapping;
    [ok] is what its result satisfies. *)
Definition safe (d : Z) {A : Type} (ok : A -> Prop) (c : Wfs.M A) : Prop :=
  forall s, mapped s d -> Wfs.raid_mode s <> RAID0 ->
  exists a s1,
    c s = Some (a, s1) /\ ok a /\ mapped s1 d
    /\ Wfs.raid_mode s1 = Wfs.raid_mode s.

(** ** Blocks and copies of a file *)

(** The offset of block [k] of the file of the record at [ino], as the
    resolver reads it for [disk]: slot [k] of the record for the direct
    blocks, slot [k - 7] of the indirect block, taken from [disk],
    beyond. *)
Definition block_slot (s : Wfs.fs) (ino : Wfs.addr) (disk k : Z) : Z :=
  let m := image_at s (fst ino) in
  if k <=? D_BLOCK then load64s m (snd ino + i_blocks k)
  else load64s (image_at s disk)
               (load64s m (snd ino + i_blocks IND_BLOCK)
                + 8 * (k - IND_BLOCK)).

(** The disk that holds block [k]: its turn under striping, the disk
    asked for on a mirror. *)
Definition block_disk (s : Wfs.fs) (disk k : Z) : Z :=
  if Wfs.raid_mode s =? RAID0 then k mod Wfs.total_devices s else disk.

(** Block [k] of the file is there: the resolver can reach it, through
    an indirect block that is there, on a disk that is mapped, when [k]
    is beyond the direct blocks, and its slot is set. *)
Definition block_present (s : Wfs.fs) (ino : Wfs.addr) (disk k : Z) : Prop :=
  0 <= k <= D_BLOCK + BLOCK_SIZE / 8
  /\ (k <= D_BLOCK
      \/ (mapped s disk
          /\ load64s (image_at s (fst ino)) (snd ino + i_blocks IND_BLOCK)
             <> 0))
  /\ block_slot s ino disk k <> 0.

(** Where the byte at position [p] of the file lies. *)
Definition byte_at (s : Wfs.fs) (ino : Wfs.addr) (disk p : Z) : Wfs.addr :=
  (block_disk s disk (p / BLOCK_SIZE),
   block_slot s ino disk (p / BLOCK_SIZE) + p mod BLOCK_SIZE).

(** The byte at position [p] of the copy of the file that [disk]
    holds. *)
Definition copy_byte (s : Wfs.fs) (ino : Wfs.addr) (disk p : Z) : Z :=
  let a := byte_at s ino disk p in load8 (image_at s (fst a)) (snd a).

(** The [n] bytes of that copy from position [p] on. *)
Definition copy_bytes (s : Wfs.fs) (ino : Wfs.addr) (disk p n : Z)
  : list Z :=
  map (fun i => copy_byte s ino disk (p + Z.of_nat i)) (seq 0 (Z.to_nat n)).

(** A byte taken as a [char]. *)
Definition char_of (b : Z) : Z := if b <? 128 then b else b - 256.

(** The checksum of a run of bytes: the sum of its [char]s, as an
    [int]. *)
Definition checksum_of (l : list Z) : Z :=
  s32 (fold_right Z.add 0 (map char_of l)).

(** How many bytes the checksum of a read of [length] bytes at [offset]
    covers in a file of [size] bytes: those of the blocks that the range
    touches, up to the end of the file. *)
Definition summed_length (size offset length : Z) : Z :=
  if length <=? 0 then 0
  else Z.min size (BLOCK_SIZE * ((offset + length - 1) / BLOCK_SIZE + 1))
       - offset.

(** ** The vote of [wfs_read] *)

(** The number of disks among [j .. j + n - 1] whose checksum is [v]. *)
Fixpoint copies_with (n : nat) (j : Z) (cs : Z -> Z) (v : Z) : Z :=
  match n with
  | O => 0
  | S k => (if cs j =? v then 1 else 0) + copies_with k (j + 1) cs v
  end.

(** What one turn of state [INIT] does to the locals of [wfs_read], when
    the checksum of disk [d] comes out as [cs d]. *)
Definition vote_step (cs : Z -> Z) (loc : Wfs.read_locals) (d : Z)
  : Wfs.read_locals :=
  let c := Wfs.set_checksum (Wfs.checksums loc) d (cs d) in
  let count := Wfs.count_for c d in
  if count >? Wfs.max_checksum loc then Wfs.mk_read_locals c count d
  else Wfs.mk_read_locals c (Wfs.max_checksum loc) (Wfs.best_disk loc).

Fixpoint vote (n : nat) (d : Z) (cs : Z -> Z) (loc : Wfs.read_locals)
  : Wfs.read_locals :=
  match n with
  | O => loc
  | S k => vote k (d + 1) cs (vote_step cs loc d)
  end.

(** What the locals hold when disks [0 .. d - 1] have been visited. *)
Definition voted (cs : Z -> Z) (d : Z) (loc : Wfs.read_locals) : Prop :=
  (forall j, 0 <= j < d -> Wfs.checksums loc j = cs j)
  /\ (d = 0 -> Wfs.max_checksum loc = -1)
  /\ (0 < d ->
      0 <= Wfs.best_disk loc < d
      /\ Wfs.max_checksum loc = Wfs.count_for cs (Wfs.best_disk loc)
      /\ (forall j, 0 <= j < d -> Wfs.count_for cs j <= Wfs.max_checksum loc)
      /\ (forall j, 0 <= j < Wfs.best_disk loc ->
          Wfs.count_for cs j < Wfs.max_checksum loc)).

(** What [wfs_read] returns for the outcome of its read loop. *)
Definition read_outcome (r : Z * list Z + list Z) : Z * list Z :=
  match r with
  | inr buf => (- EIO, buf)
  | inl (bytes_read, buf) => (s32 bytes_read, buf)
  end.

(** ** Concrete volumes

    Volumes of two or three blank 1 MiB images with 32 inodes and 32 data
    blocks, formatted by [Mkfs] and mounted by [Wfs], and runs of the
    operations on them. *)

Module Scenario.
Import Wfs.

Definition proc : process := mk_process 1700000000 1000 1000.

Definition blank : Mkfs.file := Mkfs.mk_file 1048576 zero_image.

Definition open_rdwr (name : string) : option Mkfs.file :=
  if (String.eqb name "d0" || String.eqb name "d1" || String.eqb name "d2")%bool
  then Some blank else None.

Definition images_of (l : list (string * Mkfs.file)) : list image :=
  map (fun x => Mkfs.data (snd x)) l.

(** [mkfs -r mode -d d0 -d d1 -i 32 -b 32] *)
Definition mkfs (mode : string) : Z * list (string * Mkfs.file) :=
  Mkfs.main open_rdwr proc
    ["-r"; mode; "-d"; "d0"; "-d"; "d1"; "-i"; "32"; "-b"; "32"]%string.

(** [mkfs -r 1 -d d0 -d d1 -i inodes -b blocks] *)
Definition mkfs_counts (inodes blocks : string)
  : Z * list (string * Mkfs.file) :=
  Mkfs.main open_rdwr proc
    ["-r"; "1"; "-d"; "d0"; "-d"; "d1"; "-i"; inodes; "-b"; blocks]%string.

Definition raid0_volume : option fs := mount (images_of (snd (mkfs "0"))).
Definition raid1_volume : option fs := mount (images_of (snd (mkfs "1"))).

(** [main] of [mkfs.c] refuses mode 2, so a voting volume of [n] disks
    takes its images from [create_filesystem] itself. *)
Definition raid1v_volume (n : nat) : option fs :=
  match Mkfs.init_disks proc (Mkfs.mk_disk_state 32 32 RAID1V 0 (Z.of_nat n) 7)
                        0 (repeat ("d"%string, blank) n) with
  | Some l => mount (images_of l)
  | None => None
  end.

(** Running a call, from a state that may be missing. *)
Definition run {A : Type} (c : M A) (s : option fs) : option (A * fs) :=
  match s with
  | Some s => c s
  | None => None
  end.

Definition after {A : Type} (c : M A) (s : option fs) : option fs :=
  option_map snd (run c s).

Definition result {A : Type} (c : M A) (s : option fs) : option A :=
  option_map fst (run c s).

(** The state of a run that is known to have ended. *)
Definition the (s : option fs) : fs :=
  match s with
  | Some s => s
  | None => mk_fs [] 0 0 0 (mk_mgr ERROR 0 0 0 0 0)
  end.

(** A value read from an image of a state. *)
Definition peek (f : image -> Z -> Z) (d : nat) (a : Z) (s : option fs)
  : option Z :=
  match s with
  | Some s => option_map (fun m => f m a) (nth_error (fs_memory_regions s) d)
  | None => None
  end.

(** One byte of one image changed behind the back of the file system. *)
Definition corrupt (d a v : Z) : M unit :=
  wr (fun m a v => store_le 1 m a v) (d, a) v.

(** The inode of the first file created on a fresh volume is inode 1. *)
Definition inode1 (disk : Z) : option addr := Some (disk, 1024).

Definition mode_0644 : Z := 420.

(** A file [/a] on the mirrored volume; then removed again. *)
Definition raid1_a : option fs :=
  after (WFS_MKNOD proc "/a" mode_0644) raid1_volume.
Definition raid1_a_removed : option fs := after (wfs_unlink "/a") raid1_a.

(** A file [/a] on the striped volume, with three bytes written into its
    logical blocks 0, 2 and 7; then removed. *)
Definition raid0_a : option fs :=
  after (WFS_MKNOD proc "/a" mode_0644) raid0_volume.
Definition raid0_a_written : option fs :=
  after (wfs_write "/a" [71; 72; 73] 3 (7 * BLOCK_SIZE))
    (after (wfs_write "/a" [68; 69; 70] 3 (2 * BLOCK_SIZE))
       (after (wfs_write "/a" [65; 66; 67] 3 0) raid0_a)).
Definition raid0_a_removed : option fs :=
  after (wfs_unlink "/a") raid0_a_written.

(** A file [/c] holding "xxxx" on a voting volume of [n] disks, and the
    same with the first byte of the copy on disk [d] turned into 'y'. *)
Definition raid1v_c (n : nat) : option fs :=
  after (wfs_write "/c" [120; 120; 120; 120] 4 0)
    (after (WFS_MKNOD proc "/c" mode_0644) (raid1v_volume n)).
Definition raid1v_c_corrupted (n : nat) (d : Z) : option fs :=
  after (corrupt d 17408 121) (raid1v_c n).

(** The same file on three disks, with the first two bytes of the copy on
    disk 2 turned into 'y' and 'w': another content with the same sum. *)
Definition raid1v_c_swapped : option fs :=
  after (corrupt 2 17409 119) (raid1v_c_corrupted 3 2).

(** A write of 31 blocks to [/a] on the mirrored volume, which has 31 data
    blocks left and needs one more for the indirect block. *)
Definition thirty_one_blocks : list Z := repeat 7 (31 * 512).
Definition raid1_a_full : option (Z * fs) :=
  run (wfs_write "/a" thirty_one_blocks (31 * BLOCK_SIZE) 0) raid1_a.

(** What a run of [wfs_write] on [/a], inode 1 of the volume of 32
    blocks, has returned and left: the return value and the error code;
    the size of the file on the two disks; the word of the data bitmap
    on the two disks; and the first byte of block 1 of the data region
    on the two disks. *)
Definition write_report (r : Z * fs)
  : (Z * Z) * (Z * Z) * (Z * Z) * (Z * Z) :=
  let s := snd r in
  ((fst r, error_code s),
   (load64s (image_at s 0) (1024 + i_size),
    load64s (image_at s 1) (1024 + i_size)),
   (load32u (image_at s 0) 68, load32u (image_at s 1) 68),
   (load8 (image_at s 0) 17408, load8 (image_at s 1) 17408)).

(** The entry of [/a] taken out of the root directory of the striped
    volume, the inode left alone; and an entry put in instead. *)
Definition raid0_a_unlisted : option fs :=
  after (delete_dir_entry (Some (0, 512)) 1 0) raid0_a.
Definition raid0_a_b : option fs :=
  after (insert_dir_entry (Some (0, 512)) 2 "b" 0) raid0_a.

(** Stores of [n] bytes each on disk [d], made behind the back of the
    file system. *)
Definition pokes (d : Z) (l : list (Z * Z * Z)) : M unit :=
  fold_right
    (fun '(n, a, v) k =>
       bind (wr (fun m a v => store_le n m a v) (d, a) v) (fun _ => k))
    (ret tt) l.

(** A root directory of eight blocks on the first disk of the mirrored
    volume with [/a]: blocks 1 to 6 of the data region behind the
    direct slots that follow the first, block 7 as the indirect block,
    block 8 behind its first slot, and an entry for inode 5 at the head
    of that block, at offset 3584 of the directory. *)
Definition raid1_a_wide : option fs :=
  after (pokes 0
           [(8, 512 + i_blocks 1, 17408); (8, 512 + i_blocks 2, 17920);
            (8, 512 + i_blocks 3, 18432); (8, 512 + i_blocks 4, 18944);
            (8, 512 + i_blocks 5, 19456); (8, 512 + i_blocks 6, 19968);
            (8, 512 + i_blocks IND_BLOCK, 20480); (8, 20480, 20992);
            (8, 512 + i_size, 4096); (4, 20992 + de_num, 5)])
        raid1_a.
(** A file [/c] of 1025 bytes on a voting volume of three disks, the
    first two blocks of which were never written. *)
Definition raid1v_hole : option fs :=
  after (wfs_write "/c" [120] 1 1024)
    (after (WFS_MKNOD proc "/c" mode_0644) (raid1v_volume 3)).

(** The mirrored volume with [/a], the data bitmap of its first disk
    showing one block left, the last; and the copy loop of a write of
    600 bytes to [/a] run on it. *)
Definition raid1_a_tight : option fs :=
  after (wr store32 (0, 68) 2147483647) raid1_a.
Definition six_hundred : list Z := repeat 7 600.
Definition raid1_a_tight_chunks : option fs :=
  after (write_chunks (S (Z.to_nat 600)) (inode1 0) six_hundred 600 0 0 0)
    raid1_a_tight.

(** Three bytes written to [/a] on the mirrored volume. *)
Definition raid1_a_abc : option fs :=
  after (wfs_write "/a" [65; 66; 67] 3 0) raid1_a.

(** The copy loop of the write of three bytes to [/a] on the mirrored
    volume, run on the first disk, and the size updated after it. *)
Definition raid1_a_abc_chunks : option fs :=
  after (write_chunks (S (Z.to_nat 3)) (inode1 0) [65; 66; 67] 3 0 0 0)
    raid1_a.
Definition raid1_a_abc_sized : option fs :=
  after (update_size (inode1 0) 3) raid1_a_abc_chunks.

(** The images of the mirrored volume, and the volume mounted with the
    images given in the other order. *)
Definition raid1_images : list image := images_of (snd (mkfs "1")).
Definition raid1_volume_swapped : option fs := mount (rev raid1_images).

(** One image as [create_filesystem] makes it, and a state that maps
    it. *)
Definition one_disk : Mkfs.disk_state := Mkfs.mk_disk_state 32 32 RAID1 0 2 7.
Definition formatted : Mkfs.file :=
  snd (Mkfs.create_filesystem proc one_disk blank).
Definition formatted_alone : fs :=
  mk_fs [Mkfs.data formatted] RAID1 1 0 (mk_mgr INIT 0 1 RAID1 0 0).

(** An entry [b] for inode 2 put into the root directory of the mirrored
    volume with [/a], on its first disk. *)
Definition raid1_a_b : option fs :=
  after (insert_dir_entry (Some (0, 512)) 2 "b" 0) raid1_a.

(** The entry of [/a] taken out of the root directory of the mirrored
    volume, on its first disk. *)
Definition raid1_a_unlisted : option fs :=
  after (delete_dir_entry (Some (0, 512)) 1 0) raid1_a.

(** A file [/a], and a directory [/b], made on the first disk of the
    fresh mirrored volume. *)
Definition raid1_mknod_a : option fs :=
  after (wfs_mknod proc "/a" mode_0644 0) raid1_volume.
Definition raid1_mkdir_b : option fs :=
  after (wfs_mkdir proc "/b" 493 0) raid1_volume.

(** Three blank disks, and what the loop of mkfs's [main] makes of
    them for a mirror of 32 inodes and 32 blocks. *)
Definition three_state : Mkfs.disk_state :=
  Mkfs.mk_disk_state 32 32 RAID1 0 3 7.
Definition three_blank : list (string * Mkfs.file) :=
  [("d0"%string, blank); ("d1"%string, blank); ("d2"%string, blank)].
Definition three_made : list (string * Mkfs.file) :=
  match Mkfs.init_disks proc three_state 0 three_blank with
  | Some l => l
  | None => []
  end.

End Scenario.

(** * Properties *)

(** ** Integer conversions *)

Lemma u64_small (z : Z) : 0 <= z < 2 ^ 64 -> u64 z = z.
Proof. intros H. unfold u64, wrap_unsigned. apply Z.mod_small. exact H. Qed.

Lemma u32_small (z : Z) : 0 <= z < 2 ^ 32 -> u32 z = z.
Proof. intros H. unfold u32, wrap_unsigned. apply Z.mod_small. exact H. Qed.

Lemma s64_small (z : Z) : - 2 ^ 63 <= z < 2 ^ 63 -> s64 z = z.
Proof.
  intros H. unfold s64, wrap_signed.
  change (2 ^ (64 - 1)) with (2 ^ 63).
  destruct (Z.ltb_spec (z mod 2 ^ 64) (2 ^ 63)) as [L | L].
  - destruct (Z.ltb_spec z 0).
    + rewrite <- (Z.mod_unique z (2 ^ 64) (-1) (z + 2 ^ 64)) in L; lia.
    + apply Z.mod_small. lia.
  - destruct (Z.ltb_spec z 0).
    + rewrite <- (Z.mod_unique z (2 ^ 64) (-1) (z + 2 ^ 64)); lia.
    + rewrite Z.mod_small in L; lia.
Qed.

Lemma s32_small (z : Z) : - 2 ^ 31 <= z < 2 ^ 31 -> s32 z = z.
Proof.
  intros H. unfold s32, wrap_signed.
  change (2 ^ (32 - 1)) with (2 ^ 31).
  destruct (Z.ltb_spec (z mod 2 ^ 32) (2 ^ 31)) as [L | L].
  - destruct (Z.ltb_spec z 0).
    + rewrite <- (Z.mod_unique z (2 ^ 32) (-1) (z + 2 ^ 32)) in L; lia.
    + apply Z.mod_small. lia.
  - destruct (Z.ltb_spec z 0).
    + rewrite <- (Z.mod_unique z (2 ^ 32) (-1) (z + 2 ^ 32)); lia.
    + rewrite Z.mod_small in L; lia.
Qed.

(** ** The initializer *)

Section Initializer.
Import Mkfs.

Lemma get_aligned_size_spec (n : Z) :
  0 < n < 2 ^ 31 ->
  get_aligned_size n mod 32 = 0
  /\ n <= get_aligned_size n < n + 32.
Proof.
  intros H. unfold get_aligned_size.
  destruct (Z.eqb_spec (n mod 32) 0) as [E | E].
  - split; [exact E | lia].
  - rewrite u64_small by (pose proof (Z.mod_pos_bound n 32); lia).
    pose proof (Z.mod_pos_bound n 32 ltac:(lia)).
    split; [ | lia].
    rewrite (Z.div_mod n 32) at 1 by lia.
    replace (32 * (n / 32) + n mod 32 + (32 - n mod 32))
      with ((n / 32 + 1) * 32) by lia.
    apply Z.mod_mul. lia.
Qed.



(** C6 (amended): a [-r] option whose value [atoi] reads as 0 or 1 is
    taken as the RAID mode and parsing goes on; with any other value,
    2 included, [main] exits with status 1. *)
Theorem raid_mode_values (open_rdwr : string -> option file)
        (proc : process) (value : string) (rest : list string)
        (state : disk_state) (disks : list (string * file)) :
  if (atoi value =? 0) || (atoi value =? 1)
  then parse_args open_rdwr ("-r"%string :: value :: rest) state disks
       = parse_args open_rdwr rest (with_raid_mode state (atoi value)) disks
  else parse_args open_rdwr ("-r"%string :: value :: rest) state disks
       = Exit 1
       /\ main open_rdwr proc ("-r"%string :: value :: rest) = (1, []).
Proof.
  unfold main. cbn.
  destruct (atoi value =? 0), (atoi value =? 1); cbn; auto.
Qed.
End Initializer.

(** ** Byte stores *)

Lemma load8_range (m : image) (a : Z) : 0 <= load8 m a < 256.
Proof.
  induction m as [ | w m IH]; cbn [load8]; [lia | ].
  destruct w as [b n v | b n c | b bytes];
    match goal with |- context [in_range ?x ?y ?z] => destruct (in_range x y z) end;
    try exact IH; apply Z.mod_pos_bound; lia.
Qed.

Lemma load_le_range (n : nat) (m : image) (a : Z) :
  0 <= load_le n m a < 256 ^ Z.of_nat n.
Proof.
  revert a. induction n as [ | n IH]; intros a.
  - cbn. lia.
  - rewrite Nat2Z.inj_succ, Z.pow_succ_r by lia.
    cbn [load_le]. pose proof (load8_range m a). specialize (IH (a + 1)). nia.
Qed.

(** A load only sees the bytes it covers. *)
Lemma load_le_ext (n : nat) (m m' : image) (a : Z) :
  (forall x, a <= x < a + Z.of_nat n -> load8 m' x = load8 m x) ->
  load_le n m' a = load_le n m a.
Proof.
  revert a. induction n as [ | n IH]; intros a H; [reflexivity | ].
  cbn [load_le]. rewrite H by lia.
  rewrite IH; [reflexivity | ]. intros x Hx. apply H. lia.
Qed.

Lemma in_range_true (a n x : Z) : in_range a n x = true <-> a <= x < a + n.
Proof. unfold in_range. rewrite andb_true_iff, Z.leb_le, Z.ltb_lt. tauto. Qed.

Lemma in_range_false (a n x : Z) :
  in_range a n x = false <-> ~ (a <= x < a + n).
Proof. rewrite <- in_range_true. destruct (in_range a n x); intuition congruence. Qed.

Lemma store_le_outside (n : Z) (m : image) (a v x : Z) :
  ~ (a <= x < a + n) -> load8 (store_le n m a v) x = load8 m x.
Proof. intros H. cbn. apply in_range_false in H. rewrite H. reflexivity. Qed.

Lemma memset_outside (m : image) (a c n x : Z) :
  ~ (a <= x < a + n) -> load8 (memset m a c n) x = load8 m x.
Proof. intros H. cbn. apply in_range_false in H. rewrite H. reflexivity. Qed.

Lemma memcpy_to_outside (m : image) (a : Z) (bytes : list Z) (x : Z) :
  ~ (a <= x < a + Z.of_nat (List.length bytes)) ->
  load8 (memcpy_to m a bytes) x = load8 m x.
Proof. intros H. cbn. apply in_range_false in H. rewrite H. reflexivity. Qed.

Lemma load_store_le_part (n : nat) (N : Z) (m : image) (a v k : Z) :
  0 <= k -> k + Z.of_nat n <= N ->
  load_le n (store_le N m a v) (a + k) = (v / 256 ^ k) mod 256 ^ Z.of_nat n.
Proof.
  revert k. induction n as [ | n IH]; intros k Hk HN.
  - cbn. rewrite Z.mod_1_r. reflexivity.
  - cbn [load_le]. replace (a + k + 1) with (a + (k + 1)) by lia.
    rewrite IH by lia.
    unfold store_le. cbn [load8].
    assert (R : in_range a N (a + k) = true) by (apply in_range_true; lia).
    rewrite R. replace (a + k - a) with k by lia.
    rewrite Z.shiftr_div_pow2 by lia.
    replace (2 ^ (8 * k)) with (256 ^ k)
      by (rewrite Z.pow_mul_r by lia; reflexivity).
    rewrite Nat2Z.inj_succ, Z.pow_succ_r by lia.
    rewrite Z.pow_add_r, Z.pow_1_r by lia.
    rewrite <- Z.div_div by (try apply Z.pow_pos_nonneg; lia).
    set (q := v / 256 ^ k).
    rewrite (Z.rem_mul_r q 256 (256 ^ Z.of_nat n))
      by (try apply Z.pow_pos_nonneg; lia).
    reflexivity.
Qed.

Lemma load_store_le_same (n : nat) (m : image) (a v : Z) :
  load_le n (store_le (Z.of_nat n) m a v) a = v mod 256 ^ Z.of_nat n.
Proof.
  pose proof (load_store_le_part n (Z.of_nat n) m a v 0 ltac:(lia) ltac:(lia)) as H.
  rewrite Z.add_0_r, Z.pow_0_r, Z.div_1_r in H. exact H.
Qed.

Lemma load_store_le_other (n : nat) (N : Z) (m : image) (a v b : Z) :
  b + Z.of_nat n <= a \/ a + N <= b ->
  load_le n (store_le N m a v) b = load_le n m b.
Proof.
  intros H. apply load_le_ext. intros x Hx. apply store_le_outside. lia.
Qed.

Lemma load_memset_zero (n : nat) (m : image) (a len b : Z) :
  a <= b -> b + Z.of_nat n <= a + len ->
  load_le n (memset m a 0 len) b = 0.
Proof.
  revert b. induction n as [ | n IH]; intros b H1 H2; [reflexivity | ].
  cbn [load_le]. rewrite IH by lia.
  unfold memset. cbn [load8].
  assert (R : in_range a len b = true) by (apply in_range_true; lia).
  rewrite R. reflexivity.
Qed.

(** ** The monad and the mapped images *)

Section Resolver.
Import Wfs.

Lemma bind_eq {A B : Type} (c : M A) (k : A -> M B) (s s' : fs) (a : A) :
  c s = Some (a, s') -> bind c k s = k a s'.
Proof. intros H. unfold bind. rewrite H. reflexivity. Qed.

Lemma region_mapped (s : fs) (d : Z) :
  mapped s d -> region d s = Some (image_at s d, s).
Proof.
  intros [H0 H1]. unfold region, image_at.
  destruct (Z.ltb_spec d 0); [lia | ].
  destruct (nth_error (fs_memory_regions s) (Z.to_nat d)) as [m | ] eqn:E.
  - rewrite (nth_error_nth _ _ _ E). reflexivity.
  - apply nth_error_None in E. lia.
Qed.

Lemma rd_at (f : image -> Z -> Z) (d a : Z) (s : fs) :
  mapped s d -> rd f (d, a) s = Some (f (image_at s d) a, s).
Proof.
  intros H. unfold rd, bind. cbn [fst snd].
  rewrite (region_mapped s d H). reflexivity.
Qed.

Lemma block_num_small (offset : Z) :
  0 <= offset -> offset / BLOCK_SIZE < 2 ^ 31 ->
  s32 (Z.quot offset BLOCK_SIZE) = offset / BLOCK_SIZE
  /\ Z.rem offset BLOCK_SIZE = offset mod BLOCK_SIZE.
Proof.
  intros H0 H1. unfold BLOCK_SIZE in *.
  rewrite Z.quot_div_nonneg, Z.rem_mod_nonneg by lia.
  split; [ | reflexivity].
  apply s32_small. pose proof (Z.div_pos offset 512). lia.
Qed.

(** Runs a read from a mapped image at the head of the goal. *)
Ltac run_rd H :=
  unfold shift; cbn [fst snd];
  rewrite (bind_eq _ _ _ _ _ (rd_at _ _ _ _ H)).

(** The resolver, block by block. *)
Lemma resolution (s : fs) (ino : addr) (disk offset alloc : Z) :
  0 <= offset -> offset / BLOCK_SIZE < 2 ^ 31 ->
  mapped s (fst ino) -> (D_BLOCK < offset / BLOCK_SIZE -> mapped s disk) ->
  (raid_mode s = RAID0 -> 0 < total_devices s) ->
  let k := offset / BLOCK_SIZE in
  let ind := load64s (image_at s (fst ino)) (snd ino + i_blocks IND_BLOCK) in
  let v := if k <=? D_BLOCK
           then load64s (image_at s (fst ino)) (snd ino + i_blocks k)
           else load64s (image_at s disk) (ind + 8 * (k - IND_BLOCK)) in
  (D_BLOCK + BLOCK_SIZE / 8 < k ->
   get_block_location (Some ino) offset alloc disk s = Some (None, s))
  /\ (k <= D_BLOCK + BLOCK_SIZE / 8 -> (k <= D_BLOCK \/ ind <> 0) -> v <> 0 ->
      get_block_location (Some ino) offset alloc disk s
      = Some (Some (if raid_mode s =? RAID0
                    then k mod total_devices s else disk,
                    v + offset mod BLOCK_SIZE), s)).
Proof.
  intros H0 H1 Hm Hd Hn k ind v.
  destruct ino as [idisk ioff]. cbn [fst snd] in *.
  destruct (block_num_small offset H0 H1) as [Ek Er].
  assert (Hk : 0 <= k < 2 ^ 31)
    by (split; [apply Z.div_pos; unfold BLOCK_SIZE; lia | exact H1]).
  unfold get_block_location. rewrite Ek, Er. fold k.
  rewrite (u64_small k) by lia.
  change (D_BLOCK + BLOCK_SIZE / 8) with 70 in *.
  change D_BLOCK with 6 in *. change IND_BLOCK with 7 in *.
  split.
  - intros Hbig. destruct (Z.gtb_spec k 70); [reflexivity | exfalso; lia].
  - intros Hle Hind Hv.
    destruct (Z.gtb_spec k 70); [exfalso; lia | ].
    cbn [deref]. rewrite (bind_eq _ _ s s (idisk, ioff)) by reflexivity.
    rewrite (bind_eq _ _ s s (raid_mode s)) by reflexivity.
    destruct (Z.eqb_spec (raid_mode s) RAID0) as [R0 | R0].
    + specialize (Hn R0).
      rewrite (bind_eq _ _ s s (total_devices s)) by reflexivity.
      destruct (Z.eqb_spec (total_devices s) 0); [exfalso; lia | ].
      rewrite Z.rem_mod_nonneg by lia.
      subst v.
      destruct (Z.gtb_spec k 6) as [G | G].
      * destruct (Z.leb_spec k 6); [exfalso; lia | ].
        specialize (Hd ltac:(lia)).
        destruct Hind as [ | Hind]; [exfalso; lia | ].
        rewrite (bind_eq _ _ s s ((disk, ind), k - 7)).
        2:{ run_rd Hm. fold ind.
            destruct (Z.eqb_spec ind 0); [contradiction | ].
            rewrite (bind_eq _ _ s s tt) by reflexivity.
            run_rd Hm. reflexivity. }
        cbn beta iota. run_rd Hd.
        destruct (Z.eqb_spec (load64s (image_at s disk) (ind + 8 * (k - 7))) 0);
          [contradiction | ].
        rewrite andb_false_r.
        rewrite (bind_eq _ _ s s tt) by reflexivity.
        run_rd Hd. reflexivity.
      * destruct (Z.leb_spec k 6); [ | exfalso; lia].
        rewrite (bind_eq _ _ s s ((idisk, ioff) +: i_blocks 0, k))
          by reflexivity.
        cbn beta iota. run_rd Hm.
        replace (ioff + i_blocks 0 + 8 * k) with (ioff + i_blocks k)
          by (unfold i_blocks; lia).
        destruct (Z.eqb_spec (load64s (image_at s idisk) (ioff + i_blocks k)) 0);
          [contradiction | ].
        rewrite andb_false_r.
        rewrite (bind_eq _ _ s s tt) by reflexivity.
        run_rd Hm.
        replace (ioff + i_blocks 0 + 8 * k) with (ioff + i_blocks k)
          by (unfold i_blocks; lia).
        reflexivity.
    + subst v.
      destruct (Z.gtb_spec k 6) as [G | G].
      * destruct (Z.leb_spec k 6); [exfalso; lia | ].
        specialize (Hd ltac:(lia)).
        destruct Hind as [ | Hind]; [exfalso; lia | ].
        rewrite (bind_eq _ _ s s ((disk, ind), k - 7)).
        2:{ run_rd Hm. fold ind.
            destruct (Z.eqb_spec ind 0); [contradiction | ].
            rewrite (bind_eq _ _ s s tt) by reflexivity.
            run_rd Hm. reflexivity. }
        cbn beta iota. run_rd Hd.
        destruct (Z.eqb_spec (load64s (image_at s disk) (ind + 8 * (k - 7))) 0);
          [contradiction | ].
        rewrite andb_false_r.
        rewrite (bind_eq _ _ s s tt) by reflexivity.
        run_rd Hd.
        destruct (Z.eqb_spec (load64s (image_at s disk) (ind + 8 * (k - 7))) 0);
          [contradiction | ].
        reflexivity.
      * destruct (Z.leb_spec k 6); [ | exfalso; lia].
        rewrite (bind_eq _ _ s s ((idisk, ioff) +: i_blocks 0, k))
          by reflexivity.
        cbn beta iota. run_rd Hm.
        replace (ioff + i_blocks 0 + 8 * k) with (ioff + i_blocks k)
          by (unfold i_blocks; lia).
        destruct (Z.eqb_spec (load64s (image_at s idisk) (ioff + i_blocks k)) 0);
          [contradiction | ].
        rewrite andb_false_r.
        rewrite (bind_eq _ _ s s tt) by reflexivity.
        run_rd Hm.
        replace (ioff + i_blocks 0 + 8 * k) with (ioff + i_blocks k)
          by (unfold i_blocks; lia).
        destruct (Z.eqb_spec (load64s (image_at s idisk) (ioff + i_blocks k)) 0);
          [contradiction | ].
        reflexivity.
Qed.

(** C8 (amended): with [k = offset / BLOCK_SIZE], the resolver returns
    absent for every [k] above 70 (so 70, not 71, is the largest index
    it resolves); for [k <= 6] the block offset is read from
    [inode.blocks[k]], and for [7 <= k <= 70] from slot [k - 7] of the
    array that [inode.blocks[7]] addresses on the disk asked for; where
    that slot (and, beyond 6, the indirect pointer) is not 0 the result
    is the block offset plus [offset mod BLOCK_SIZE], on disk
    [k mod total_devices] under striping and on the disk asked for
    otherwise, and the state is left as it was. *)
Theorem block_resolution (s : fs) (ino : addr) (disk offset alloc : Z) :
  0 <= offset -> offset / BLOCK_SIZE < 2 ^ 31 ->
  mapped s (fst ino) -> mapped s disk -> 0 < total_devices s ->
  let k := offset / BLOCK_SIZE in
  let ind := load64s (image_at s (fst ino)) (snd ino + i_blocks IND_BLOCK) in
  let v := if k <=? D_BLOCK
           then load64s (image_at s (fst ino)) (snd ino + i_blocks k)
           else load64s (image_at s disk) (ind + 8 * (k - IND_BLOCK)) in
  (D_BLOCK + BLOCK_SIZE / 8 < k ->
   get_block_location (Some ino) offset alloc disk s = Some (None, s))
  /\ (k <= D_BLOCK + BLOCK_SIZE / 8 -> (k <= D_BLOCK \/ ind <> 0) -> v <> 0 ->
      get_block_location (Some ino) offset alloc disk s
      = Some (Some (if raid_mode s =? RAID0
                    then k mod total_devices s else disk,
                    v + offset mod BLOCK_SIZE), s)).
Proof.
  intros H0 H1 Hm Hd Hn.
  exact (resolution s ino disk offset alloc H0 H1 Hm (fun _ => Hd)
           (fun _ => Hn)).
Qed.

(** The resolver on a block that is there: it gives the place of the
    byte and leaves the state as it was, with or without the allocate
    flag. *)
Lemma present_block_resolves (s : fs) (ino : addr) (disk p alloc : Z) :
  mapped s (fst ino) ->
  (raid_mode s = RAID0 -> 0 < total_devices s) ->
  0 <= p -> block_present s ino disk (p / BLOCK_SIZE) ->
  get_block_location (Some ino) p alloc disk s
  = Some (Some (byte_at s ino disk p), s).
Proof.
  intros Hm Hn H0 (Hk & Hind & Hv).
  change (D_BLOCK + BLOCK_SIZE / 8) with 70 in Hk.
  assert (Hd : D_BLOCK < p / BLOCK_SIZE -> mapped s disk)
    by (intros G; destruct Hind as [L | [Hd _]]; [lia | exact Hd]).
  destruct (resolution s ino disk p alloc H0 ltac:(lia) Hm Hd Hn) as [_ H].
  apply (H (proj2 Hk)); [ | exact Hv].
  destruct Hind as [L | [_ N]]; [left; exact L | right; exact N].
Qed.

End Resolver.

(** ** The resolver on the concrete volumes *)

Section ResolverRuns.
Import Wfs Scenario.

Lemma block_resolution_witness :
  get_block_location (Some (0, 1024)) (7 * BLOCK_SIZE + 5) 0 0
                     (the raid0_a_written)
  = Some (Some (1, 17408 + 5), the raid0_a_written).
Proof.
  refine (eq_trans (proj2 (block_resolution (the raid0_a_written) (0, 1024) 0
                  (7 * BLOCK_SIZE + 5) 0 _ _ _ _ _) _ _ _) _).
  - vm_compute. discriminate.
  - vm_compute. reflexivity.
  - vm_compute. split; [discriminate | reflexivity].
  - vm_compute. split; [discriminate | reflexivity].
  - vm_compute. reflexivity.
  - vm_compute. discriminate.
  - right. vm_compute. discriminate.
  - vm_compute. discriminate.
  - reflexivity.
Defined.

(** C8 as stated fails at index 71: on the mirrored volume, asked to
    allocate, the resolver gives a block for index 70 and absent for
    index 71. *)
Lemma block_71_is_absent :
  result (get_block_location (inode1 0) (71 * BLOCK_SIZE) 1 0) raid1_a
  = Some None
  /\ result (get_block_location (inode1 0) (70 * BLOCK_SIZE) 1 0) raid1_a
     = Some (Some (0, 17920)).
Proof. split; vm_compute; reflexivity. Qed.

(** C4 at its failing input: the file [/a] has no block 0 (its pointer
    slot is 0); with the allocate flag clear the resolver of the striped
    volume returns the address of byte 0 of disk 0, the superblock,
    where the resolver of the mirrored volume returns absent. *)
Theorem striped_hole_resolves_to_an_address :
  peek load64s 0 (1024 + i_blocks 0) raid0_a = Some 0
  /\ result (get_block_location (inode1 0) 0 0 0) raid0_a
     = Some (Some (0, 0))
  /\ peek load64s 0 (1024 + i_blocks 0) raid1_a = Some 0
  /\ result (get_block_location (inode1 0) 0 0 0) raid1_a = Some None.
Proof. repeat split; vm_compute; reflexivity. Qed.
End ResolverRuns.

(** ** The initializer on the command line *)

Section InitializerRuns.
Import Scenario.

(** C6 as stated fails at mode 2: the command line that formats the two
    images with [-r 1] exits with status 1 with [-r 2]. *)
Lemma mode_2_is_rejected :
  fst (mkfs "1") = 0 /\ fst (mkfs "2") = 1.
Proof. split; vm_compute; reflexivity. Qed.

(** What [atoi] returns is an [int]. *)
Lemma atoi_is_int (v : string) : - 2 ^ 31 <= Mkfs.atoi v < 2 ^ 31.
Proof.
  assert (R : forall z, - 2 ^ 31 <= s32 z < 2 ^ 31).
  { intros z. unfold s32, wrap_signed.
    pose proof (Z.mod_pos_bound z (2 ^ 32) ltac:(lia)).
    destruct (_ <? _) eqn:E; [apply Z.ltb_lt in E | apply Z.ltb_ge in E];
      change (2 ^ (32 - 1)) with (2 ^ 31) in E; lia. }
  apply R.
Qed.

End InitializerRuns.

(** ** Remove on the concrete volumes *)

Section RemoveRuns.
Import Wfs Scenario.

(** C1 at its failing input: removing [/a] (inode 1) from the mirrored
    volume returns 0 and zeroes the inode record, block pointers
    included, but the word of the inode bitmap is 3 before and after on
    both disks: bit 1, the bit of the removed inode, is still set (inode 1
    still answers [get_inode]), because [release_inode] adds
    [i_blocks_ptr] to the inode's offset where it has to subtract it and
    clears bit 3 instead. *)
Theorem removed_inode_keeps_its_bit :
  result (wfs_unlink "/a") raid1_a = Some 0
  /\ peek load32u 0 64 raid1_a = Some 3
  /\ peek load32u 0 64 raid1_a_removed = Some 3
  /\ peek load32u 1 64 raid1_a_removed = Some 3
  /\ result (get_inode 1 0) raid1_a_removed = Some (Some (0, 1024))
  /\ peek load32u 0 (1024 + i_mode) raid1_a_removed = Some 0
  /\ forallb (fun k => match peek load64s 0 (1024 + i_blocks k) raid1_a_removed
                       with Some 0 => true | _ => false end)
             [0; 1; 2; 3; 4; 5; 6; 7] = true.
Proof. repeat split; vm_compute; reflexivity. Qed.

(** C3 at its failing input: on the striped volume of two disks, logical
    block 7 of [/a] lies on disk 1 (at offset 17408, data-bitmap bit 1 of
    disk 1) and is reached through the indirect block.  Removing [/a]
    returns 0, but the data bitmap of disk 1 is 3 before and after and the
    byte written into the block is still there: the block was released on
    disk 0, the current disk of the removal, where bit 1 belongs to
    logical block 0 of the file. *)
Theorem striped_indirect_block_not_released :
  result (get_block_location (inode1 0) (7 * BLOCK_SIZE) 0 0) raid0_a_written
  = Some (Some (1, 17408))
  /\ peek load8 1 17408 raid0_a_written = Some 71
  /\ peek load32u 1 68 raid0_a_written = Some 3
  /\ peek load32u 0 68 raid0_a_written = Some 15
  /\ result (wfs_unlink "/a") raid0_a_written = Some 0
  /\ peek load32u 1 68 raid0_a_removed = Some 3
  /\ peek load8 1 17408 raid0_a_removed = Some 71
  /\ peek load32u 0 68 raid0_a_removed = Some 9.
Proof. repeat split; vm_compute; reflexivity. Qed.
End RemoveRuns.

(** ** The RAID manager is invisible to lookups and passes *)

Section Blind.
Import Wfs.

Create HintDb blind.

Lemma blind_ret {A : Type} (a : A) : mgr_blind (ret a).
Proof. intros s g. reflexivity. Qed.

Lemma blind_crash {A : Type} : mgr_blind (@crash A).
Proof. intros s g. reflexivity. Qed.

Lemma blind_bind {A B : Type} (c : M A) (k : A -> M B) :
  mgr_blind c -> (forall a, mgr_blind (k a)) -> mgr_blind (bind c k).
Proof.
  intros Hc Hk s g. unfold bind. rewrite Hc.
  destruct (c s) as [[a s1] | ]; [apply Hk | reflexivity].
Qed.

Lemma blind_region (d : Z) : mgr_blind (region d).
Proof.
  intros s g. unfold region. cbn [fs_memory_regions with_mgr].
  destruct (d <? 0); [reflexivity | ].
  destruct (nth_error (fs_memory_regions s) (Z.to_nat d)); reflexivity.
Qed.

Lemma blind_set_region (d : Z) (m : image) : mgr_blind (set_region d m).
Proof. intros s g. reflexivity. Qed.

Lemma blind_raid_mode : mgr_blind (gets raid_mode).
Proof. intros s g. reflexivity. Qed.

Lemma blind_total_devices : mgr_blind (gets total_devices).
Proof. intros s g. reflexivity. Qed.

Lemma blind_set_error (e : Z) :
  mgr_blind (modify (fun s => with_error_code s e)).
Proof. intros s g. reflexivity. Qed.

Lemma blind_deref (p : option addr) : mgr_blind (deref p).
Proof. destruct p; [apply blind_ret | apply blind_crash]. Qed.

#[local] Hint Resolve blind_ret blind_crash blind_region blind_set_region
  blind_raid_mode blind_total_devices blind_set_error blind_deref : blind.

(** Splits a computation along its binds and its tests. *)
Ltac blind :=
  repeat first
    [ progress eauto with blind
    | apply blind_bind; [ | intros ? ]
    | match goal with
      | |- mgr_blind (if ?b then _ else _) => destruct b
      | |- mgr_blind (match ?x with _ => _ end) => destruct x
      | |- mgr_blind (let '(_, _) := ?x in _) => destruct x
      end ].

Lemma blind_rd (f : image -> Z -> Z) (p : addr) : mgr_blind (rd f p).
Proof. unfold rd. blind. Qed.

Lemma blind_wr (f : image -> Z -> Z -> image) (p : addr) (v : Z) :
  mgr_blind (wr f p v).
Proof. unfold wr. blind. Qed.

#[local] Hint Resolve blind_rd blind_wr : blind.

Lemma blind_for_each_disk (n : nat) (i : Z) (body : Z -> M unit) :
  (forall j, mgr_blind (body j)) -> mgr_blind (for_each_disk n i body).
Proof.
  intros H. revert i. induction n as [ | n IH]; intros i; cbn [for_each_disk]; blind.
Qed.

Lemma blind_get_inode (num disk : Z) : mgr_blind (get_inode num disk).
Proof. unfold get_inode. blind. Qed.

Lemma blind_scan_bitmap (n : nat) (word_idx : Z) (bitmap : addr) :
  mgr_blind (scan_bitmap n word_idx bitmap).
Proof.
  revert word_idx. induction n as [ | n IH]; intros w; cbn [scan_bitmap]; blind.
Qed.

#[local] Hint Resolve blind_get_inode blind_scan_bitmap : blind.

Lemma blind_allocate_block (disk : Z) : mgr_blind (allocate_block disk).
Proof. unfold allocate_block, allocate_bitmap_block. blind. Qed.

#[local] Hint Resolve blind_allocate_block : blind.

Lemma blind_get_block_location (inode : option addr) (offset alloc disk : Z) :
  mgr_blind (get_block_location inode offset alloc disk).
Proof.
  unfold get_block_location. blind; try (apply blind_for_each_disk; intros; blind).
Qed.

#[local] Hint Resolve blind_get_block_location : blind.

Lemma blind_scan_dentries (n : nat) (off : Z) (enclosing : addr)
      (next : list Z) (disk : Z) :
  mgr_blind (scan_dentries n off enclosing next disk).
Proof.
  revert off. induction n as [ | n IH]; intros off; cbn [scan_dentries]; blind.
Qed.

#[local] Hint Resolve blind_scan_dentries : blind.

Lemma blind_locate_inode (fuel : nat) (enclosing : option addr)
      (path : string) (disk : Z) :
  mgr_blind (locate_inode fuel enclosing path disk).
Proof.
  revert enclosing path.
  induction fuel as [ | f IH]; intros enclosing path; cbn [locate_inode]; blind.
Qed.

#[local] Hint Resolve blind_locate_inode : blind.

Lemma blind_find_inode_by_path (path : string) (disk : Z) :
  mgr_blind (find_inode_by_path path disk).
Proof. unfold find_inode_by_path. blind. Qed.

Lemma blind_checksum_loop (fuel : nat) (inode : option addr)
      (length bytes_read position sum disk : Z) :
  mgr_blind (checksum_loop fuel inode length bytes_read position sum disk).
Proof.
  revert bytes_read position sum.
  induction fuel as [ | f IH]; intros b p c; cbn [checksum_loop]; blind.
Qed.

Lemma blind_read_loop (fuel : nat) (inode : option addr)
      (length bytes_read position : Z) (buf : list Z) (disk : Z) :
  mgr_blind (read_loop fuel inode length bytes_read position buf disk).
Proof.
  revert bytes_read position buf.
  induction fuel as [ | f IH]; intros b p c; cbn [read_loop]; blind.
Qed.

Lemma blind_memcpy_at (p : addr) (bytes : list Z) :
  mgr_blind (memcpy_at p bytes).
Proof. unfold memcpy_at. blind. Qed.

#[local] Hint Resolve blind_memcpy_at : blind.

Lemma blind_write_chunks (fuel : nat) (inode : option addr) (buf : list Z)
      (length written_bytes position disk : Z) :
  mgr_blind (write_chunks fuel inode buf length written_bytes position disk).
Proof.
  revert written_bytes position.
  induction fuel as [ | f IH]; intros w p; cbn [write_chunks]; blind.
Qed.
End Blind.

(** ** Voting *)

Section Vote.
Import Wfs.

Lemma earlier_matches_copies (n : nat) (j : Z) (cs : Z -> Z) (cur : Z) :
  earlier_matches n j cs cur = copies_with n j cs (cs cur).
Proof.
  revert j. induction n as [ | n IH]; intros j; cbn; [reflexivity | ].
  rewrite IH. reflexivity.
Qed.

Lemma copies_with_ext (n : nat) (j : Z) (c c' : Z -> Z) (v : Z) :
  (forall i, j <= i < j + Z.of_nat n -> c i = c' i) ->
  copies_with n j c v = copies_with n j c' v.
Proof.
  revert j. induction n as [ | n IH]; intros j H; cbn [copies_with]; [reflexivity | ].
  rewrite H by lia. rewrite IH; [reflexivity | ]. intros i Hi. apply H. lia.
Qed.

Lemma copies_with_range (n : nat) (j : Z) (cs : Z -> Z) (v : Z) :
  0 <= copies_with n j cs v <= Z.of_nat n.
Proof.
  revert j. induction n as [ | n IH]; intros j; cbn [copies_with]; [lia | ].
  specialize (IH (j + 1)). destruct (cs j =? v); lia.
Qed.

Lemma copies_with_app (n m : nat) (j : Z) (cs : Z -> Z) (v : Z) :
  copies_with (n + m) j cs v
  = copies_with n j cs v + copies_with m (j + Z.of_nat n) cs v.
Proof.
  revert j. induction n as [ | n IH]; intros j.
  - cbn. f_equal. lia.
  - cbn [Nat.add copies_with]. rewrite IH.
    replace (j + 1 + Z.of_nat n) with (j + Z.of_nat (S n)) by lia. lia.
Qed.

Lemma count_for_ext (c c' : Z -> Z) (d : Z) :
  (forall i, 0 <= i <= d -> c i = c' i) -> count_for c d = count_for c' d.
Proof.
  intros H. unfold count_for. rewrite !earlier_matches_copies.
  destruct (Z.ltb_spec d 0).
  - replace (Z.to_nat d) with 0%nat by lia. reflexivity.
  - rewrite (H d) by lia. f_equal. apply copies_with_ext. intros i Hi. apply H. lia.
Qed.

Lemma count_for_copies (cs : Z -> Z) (d : Z) :
  count_for cs d = 1 + copies_with (Z.to_nat d) 0 cs (cs d).
Proof. unfold count_for. rewrite earlier_matches_copies. reflexivity. Qed.

(** A disk counts at most the copies of its checksum on all [D] disks. *)
Lemma count_for_le_copies (cs : Z -> Z) (D : nat) (d : Z) :
  0 <= d < Z.of_nat D ->
  count_for cs d <= copies_with D 0 cs (cs d).
Proof.
  intros H. rewrite count_for_copies.
  replace D with (Z.to_nat d + S (D - 1 - Z.to_nat d))%nat at 1 by lia.
  rewrite copies_with_app. cbn [copies_with]. rewrite Z.add_0_l, Z2Nat.id by lia.
  rewrite Z.eqb_refl.
  pose proof (copies_with_range (D - 1 - Z.to_nat d) (d + 1) cs (cs d)). lia.
Qed.

(** The last disk with a checksum counts all the copies of it. *)
Lemma last_copy_counts_all (cs : Z -> Z) (v : Z) (D : nat) :
  0 < copies_with D 0 cs v ->
  exists l, 0 <= l < Z.of_nat D /\ cs l = v
            /\ count_for cs l = copies_with D 0 cs v.
Proof.
  induction D as [ | D IH]; intros H; [cbn in H; lia | ].
  replace (S D) with (D + 1)%nat in * by lia.
  rewrite copies_with_app in H |- *. cbn [copies_with] in H |- *.
  rewrite Z.add_0_l in *.
  destruct (Z.eqb_spec (cs (Z.of_nat D)) v) as [E | E].
  - exists (Z.of_nat D). split; [lia | ]. split; [exact E | ].
    rewrite count_for_copies, Nat2Z.id, E. lia.
  - destruct IH as [l [Hl [El Cl]]]; [lia | ].
    exists l. split; [lia | ]. split; [exact El | lia].
Qed.

Lemma count_for_pos (cs : Z -> Z) (d : Z) : 1 <= count_for cs d.
Proof.
  rewrite count_for_copies.
  pose proof (copies_with_range (Z.to_nat d) 0 cs (cs d)). lia.
Qed.

Lemma voted_step (cs : Z -> Z) (d : Z) (loc : read_locals) :
  0 <= d -> voted cs d loc -> voted cs (d + 1) (vote_step cs loc d).
Proof.
  intros Hd [Hc [H0 Hp]].
  assert (Ec : count_for (set_checksum (checksums loc) d (cs d)) d
               = count_for cs d).
  { apply count_for_ext. intros i Hi. unfold set_checksum.
    destruct (Z.eqb_spec i d); [congruence | apply Hc; lia]. }
  assert (Hc' : forall j, 0 <= j < d + 1 ->
                set_checksum (checksums loc) d (cs d) j = cs j).
  { intros j Hj. unfold set_checksum.
    destruct (Z.eqb_spec j d); [congruence | apply Hc; lia]. }
  unfold vote_step. cbv zeta. rewrite Ec.
  pose proof (count_for_pos cs d) as P.
  destruct (Z.gtb_spec (count_for cs d) (max_checksum loc)) as [G | G];
    (split; [exact Hc' | ]); (split; [intros; lia | ]); intros _;
    cbn [max_checksum best_disk checksums].
  - split; [lia | ]. split; [reflexivity | ].
    destruct (Z.eq_dec d 0) as [-> | N0];
      [split; intros j Hj; [replace j with 0 by lia | ]; lia | ].
    destruct Hp as [_ [_ [Hm _]]]; [lia | ].
    split; intros j Hj.
    + destruct (Z.eq_dec j d) as [-> | N]; [lia | ].
      specialize (Hm j ltac:(lia)). lia.
    + specialize (Hm j ltac:(lia)). lia.
  - destruct (Z.eq_dec d 0) as [-> | N0]; [specialize (H0 eq_refl); lia | ].
    destruct Hp as [Hb [Hm [Hall Hfirst]]]; [lia | ].
    split; [lia | ]. split; [exact Hm | ].
    split; [ | exact Hfirst].
    intros j Hj. destruct (Z.eq_dec j d) as [-> | N]; [lia | ].
    apply Hall. lia.
Qed.

Lemma voted_all (cs : Z -> Z) (n : nat) (d : Z) (loc : read_locals) :
  0 <= d -> voted cs d loc -> voted cs (d + Z.of_nat n) (vote n d cs loc).
Proof.
  revert d loc. induction n as [ | n IH]; intros d loc Hd H.
  - cbn [vote]. replace (d + Z.of_nat 0) with d by lia. exact H.
  - cbn [vote]. replace (d + Z.of_nat (S n)) with (d + 1 + Z.of_nat n) by lia.
    apply IH; [lia | ]. apply voted_step; assumption.
Qed.

Lemma copies_with_none (n : nat) (j : Z) (cs : Z -> Z) (v : Z) :
  (forall i, j <= i < j + Z.of_nat n -> cs i <> v) ->
  copies_with n j cs v = 0.
Proof.
  revert j. induction n as [ | n IH]; intros j H; cbn [copies_with]; [reflexivity | ].
  destruct (Z.eqb_spec (cs j) v) as [E | E]; [exfalso; apply (H j); [lia | exact E] | ].
  rewrite IH; [reflexivity | ]. intros i Hi. apply H. lia.
Qed.

Lemma copies_with_some (n : nat) (j : Z) (cs : Z -> Z) (v i : Z) :
  j <= i < j + Z.of_nat n -> cs i = v -> 1 <= copies_with n j cs v.
Proof.
  revert j. induction n as [ | n IH]; intros j H E; [lia | ].
  cbn [copies_with].
  pose proof (copies_with_range n (j + 1) cs v).
  destruct (Z.eqb_spec (cs j) v) as [E' | E']; [lia | ].
  assert (i <> j) by congruence.
  specialize (IH (j + 1) ltac:(lia) E). lia.
Qed.

Lemma blind_run {A : Type} (c : M A) (s : fs) (g : RaidManager) (a : A) :
  mgr_blind c -> c s = Some (a, s) -> c (with_mgr s g) = Some (a, with_mgr s g).
Proof. intros B H. rewrite B, H. reflexivity. Qed.

Section Voting.
Variables (s : fs) (path : string) (length offset : Z).
Variables (ino : Z -> option addr) (cs : Z -> Z)
          (rr : Z -> Z * list Z + list Z).
Variable D : Z.

Hypothesis found : forall d, 0 <= d < D ->
  find_inode_by_path path d s = Some ((0, ino d), s).
Hypothesis summed : forall d, 0 <= d < D ->
  checksum_loop (S (Z.to_nat length)) (ino d) length 0 (u64 offset) 0 d s
  = Some (cs d, s).
Hypothesis read : forall d, 0 <= d < D ->
  read_loop (S (Z.to_nat length)) (ino d) length 0 (u64 offset) [] d s
  = Some (rr d, s).

(** The turn of state [READ_READY] on disk [b]. *)
Lemma read_ready_turn (fuel : nat) (loc : read_locals) (g : RaidManager) :
  state g = READ_READY -> 0 <= current_disk g < D ->
  exists g',
    wfs_read_loop (S fuel) path length offset loc (with_mgr s g)
    = Some (read_outcome (rr (current_disk g)), with_mgr s g').
Proof.
  intros St Hb. cbn [wfs_read_loop].
  rewrite (bind_eq _ _ (with_mgr s g) (with_mgr s g) g) by reflexivity.
  rewrite St.
  rewrite (bind_eq _ _ _ _ _
             (blind_run _ s g _ (blind_find_inode_by_path _ _) (found _ Hb))).
  change (0 <? 0) with false. cbv iota.
  rewrite (bind_eq _ _ _ _ _
             (blind_run _ s g _ (blind_read_loop _ _ _ _ _ _ _) (read _ Hb))).
  destruct (rr (current_disk g)) as [[n buf] | buf]; eexists; reflexivity.
Qed.

(** The turns of state [INIT] over disks [d .. D - 1], and the read that
    follows on the disk they elect. *)
Lemma init_turns (n e : nat) (d : Z) (loc : read_locals) (g : RaidManager) :
  0 <= d -> d + Z.of_nat (S n) = D ->
  state g = INIT -> current_disk g = d -> total_disks g = D ->
  voted cs d loc ->
  exists g',
    wfs_read_loop (S n + S e) path length offset loc (with_mgr s g)
    = Some (read_outcome (rr (best_disk (vote (S n) d cs loc))),
            with_mgr s g').
Proof.
  revert d loc g.
  induction n as [ | n IH]; intros d loc [st cd td rt bs op] Hd HD St Cd Td V;
    cbn [state current_disk total_disks] in St, Cd, Td; subst st cd td.
  - change (1 + S e)%nat with (S (S e)).
    remember (S e) as m eqn:Em. cbn [wfs_read_loop].
    rewrite (bind_eq _ _ _ _ _ eq_refl).
    cbn [state current_disk total_disks raid_mgr with_mgr].
    assert (Hr : 0 <= d < D) by lia.
    rewrite (bind_eq _ _ _ _ _
               (blind_run _ s _ _ (blind_find_inode_by_path _ _) (found _ Hr))).
    change (0 <? 0) with false. cbv iota.
    rewrite (bind_eq _ _ _ _ _
               (blind_run _ s _ _ (blind_checksum_loop _ _ _ _ _ _ _)
                          (summed _ Hr))).
    cbv zeta. fold (vote_step cs loc d).
    destruct (Z.geb_spec (d + 1) D) as [G | G]; [ | lia].
    pose proof (voted_step cs d loc Hd V) as V'.
    destruct V' as [_ [_ Hb]]. destruct Hb as [Hb _]; [lia | ].
    cbn [vote]. subst m.
    set (b := best_disk (vote_step cs loc d)) in *.
    destruct (read_ready_turn e (vote_step cs loc d)
                (mk_mgr READ_READY b D rt bs op))
      as [g' Hg']; [reflexivity | cbn; lia | ].
    exists g'. exact Hg'.
  - change (S (S n) + S e)%nat with (S (S n + S e)).
    remember (S n + S e)%nat as m eqn:Em. cbn [wfs_read_loop].
    rewrite (bind_eq _ _ _ _ _ eq_refl).
    cbn [state current_disk total_disks raid_mgr with_mgr].
    assert (Hr : 0 <= d < D) by lia.
    rewrite (bind_eq _ _ _ _ _
               (blind_run _ s _ _ (blind_find_inode_by_path _ _) (found _ Hr))).
    change (0 <? 0) with false. cbv iota.
    rewrite (bind_eq _ _ _ _ _
               (blind_run _ s _ _ (blind_checksum_loop _ _ _ _ _ _ _)
                          (summed _ Hr))).
    cbv zeta. fold (vote_step cs loc d).
    destruct (Z.geb_spec (d + 1) D) as [G | G]; [lia | ].
    destruct (IH (d + 1) (vote_step cs loc d)
                 (mk_mgr INIT (d + 1) D rt bs op))
      as [g' Hg']; try reflexivity; try lia; try assumption.
    + apply voted_step; assumption.
    + subst m. exists g'.
      change (vote (S (S n)) d cs loc)
        with (vote (S n) (d + 1) cs (vote_step cs loc d)).
      exact Hg'.
Qed.
End Voting.

(** The run of [wfs_read] under RAID1V, for what the passes over the
    copies give: the checksum [cs d] and the outcome [rr d] of the read
    loop on disk [d]. *)
Lemma vote_run (s : fs) (stack : Z -> Z) (path : string)
        (length offset : Z) (ino : Z -> option addr) (cs : Z -> Z)
        (rr : Z -> Z * list Z + list Z) :
  let D := total_disks (raid_mgr s) in
  raid_type (raid_mgr s) = RAID1V -> 0 < D ->
  (forall d, 0 <= d < D ->
     find_inode_by_path path d s = Some ((0, ino d), s)) ->
  (forall d, 0 <= d < D ->
     checksum_loop (S (Z.to_nat length)) (ino d) length 0 (u64 offset) 0 d s
     = Some (cs d, s)) ->
  (forall d, 0 <= d < D ->
     read_loop (S (Z.to_nat length)) (ino d) length 0 (u64 offset) [] d s
     = Some (rr d, s)) ->
  exists b s',
    wfs_read stack path length offset s = Some (read_outcome (rr b), s')
    /\ 0 <= b < D
    /\ (forall d, 0 <= d < D ->
          copies_with (Z.to_nat D) 0 cs (cs d)
          <= copies_with (Z.to_nat D) 0 cs (cs b))
    /\ (forall d, 0 <= d < D -> count_for cs d <= count_for cs b)
    /\ (forall d, 0 <= d < b -> count_for cs d < count_for cs b)
    /\ (forall c good n data,
          3 <= D -> 0 <= c < D -> cs c <> good ->
          (forall d, 0 <= d < D -> d <> c ->
                     cs d = good /\ rr d = inl (n, data)) ->
          wfs_read stack path length offset s = Some ((s32 n, data), s')).
Proof.
  intros D Hv HD Hfind Hsum Hread.
  destruct s as [regs rm td ec [st cd D' rt bs op]].
  cbn [raid_mgr raid_type total_disks] in *. subst D. subst rt.
  set (s0 := mk_fs regs rm td ec (mk_mgr st cd D' RAID1V bs op)) in *.
  set (loc0 := mk_read_locals stack (-1) 0).
  assert (V0 : voted cs 0 loc0).
  { split; [intros; lia | ]. split; [reflexivity | intros; lia]. }
  destruct (init_turns s0 path length offset ino cs rr D' Hfind Hsum Hread
              (Z.to_nat D' - 1) 1 0 loc0
              (mk_mgr INIT 0 D' RAID1V length (u64 (op + 1))))
    as [g' Hg']; try reflexivity; try lia; try assumption.
  replace (S (Z.to_nat D' - 1)) with (Z.to_nat D') in Hg' by lia.
  pose proof (voted_all cs (Z.to_nat D') 0 loc0 ltac:(lia) V0) as V.
  rewrite Z.add_0_l, Z2Nat.id in V by lia.
  set (b := best_disk (vote (Z.to_nat D') 0 cs loc0)) in *.
  destruct V as [_ [_ V]]. destruct V as [Hb [Hmax [Hall Hfirst]]]; [lia | ].
  fold b in Hb, Hmax, Hfirst.
  assert (Hrun : wfs_read stack path length offset s0
                 = Some (read_outcome (rr b), with_mgr s0 g')).
  { unfold wfs_read, prepare_read_operation.
    replace (Z.to_nat D' + S 1)%nat with (Z.to_nat D' + 2)%nat in Hg' by lia.
    exact Hg'. }
  exists b, (with_mgr s0 g'). split; [exact Hrun | ]. split; [exact Hb | ].
  split; [ | split; [ | split]].
  - intros d Hd.
    assert (P : 0 < copies_with (Z.to_nat D') 0 cs (cs d)).
    { pose proof (count_for_le_copies cs (Z.to_nat D') d ltac:(lia)).
      pose proof (count_for_pos cs d). lia. }
    destruct (last_copy_counts_all cs (cs d) (Z.to_nat D') P) as [l [Hl [El Cl]]].
    rewrite <- Cl.
    pose proof (Hall l ltac:(lia)).
    pose proof (count_for_le_copies cs (Z.to_nat D') b ltac:(lia)). lia.
  - intros d Hd. specialize (Hall d Hd). lia.
  - intros d Hd. specialize (Hfirst d Hd). lia.
  - intros c good n data H3 Hc Hbad Hgood.
    rewrite Hrun. do 2 f_equal.
    assert (Cc : count_for cs c = 1).
    { rewrite count_for_copies, copies_with_none; [reflexivity | ].
      intros i Hi E. destruct (Hgood i ltac:(lia) ltac:(lia)) as [Ei _].
      congruence. }
    assert (C2 : exists e, 0 <= e < D' /\ 2 <= count_for cs e).
    { set (e1 := if c =? 0 then 1 else 0).
      set (e2 := if c <=? 1 then 2 else 1).
      assert (He : 0 <= e1 < e2 /\ e2 < D' /\ e1 <> c /\ e2 <> c).
      { subst e1 e2. destruct (Z.eqb_spec c 0), (Z.leb_spec c 1); lia. }
      exists e2. split; [lia | ].
      rewrite count_for_copies.
      destruct (Hgood e1 ltac:(lia) ltac:(lia)) as [E1 _].
      destruct (Hgood e2 ltac:(lia) ltac:(lia)) as [E2 _].
      pose proof (copies_with_some (Z.to_nat e2) 0 cs (cs e2) e1 ltac:(lia)
                    ltac:(congruence)). lia. }
    destruct C2 as [e [He Ce]]. pose proof (Hall e He).
    assert (b <> c) by (intros ->; lia).
    destruct (Hgood b Hb ltac:(assumption)) as [_ ->]. reflexivity.
Qed.
End Vote.

(** ** Voting on the concrete volumes *)

Section VoteRuns.
Import Wfs Scenario.

(** C2 as stated fails on two disks: the intact file reads "xxxx"; with
    the copy on disk 0 alone turned into "yxxx", both disks count one
    copy, disk 0 keeps the vote and the read returns "yxxx".  It fails on
    three disks too when the bad copy has the checksum of the others:
    with the copy on disk 2 turned into "ywxx" the read returns "ywxx". *)
Lemma one_bad_copy_can_win_the_vote :
  result (wfs_read (fun _ => 0) "/c" 4 0) (raid1v_c 2)
  = Some (4, [120; 120; 120; 120])
  /\ result (wfs_read (fun _ => 0) "/c" 4 0) (raid1v_c_corrupted 2 0)
     = Some (4, [121; 120; 120; 120])
  /\ result (wfs_read (fun _ => 0) "/c" 4 0) raid1v_c_swapped
     = Some (4, [121; 119; 120; 120]).
Proof. repeat split; vm_compute; reflexivity. Qed.

End VoteRuns.

(** ** Inverting a run *)

Section Inversion.
Import Wfs.

Lemma bind_inv {A B : Type} (c : M A) (k : A -> M B) (s : fs) (r : B * fs) :
  bind c k s = Some r -> exists a s1, c s = Some (a, s1) /\ k a s1 = Some r.
Proof.
  unfold bind. destruct (c s) as [[a s1] | ]; [ | discriminate].
  intros H. exists a, s1. split; [reflexivity | exact H].
Qed.

Lemma region_inv (d : Z) (s s' : fs) (m : image) :
  region d s = Some (m, s') -> s' = s /\ mapped s d /\ m = image_at s d.
Proof.
  unfold region, image_at, mapped. destruct (Z.ltb_spec d 0); [discriminate | ].
  destruct (nth_error (fs_memory_regions s) (Z.to_nat d)) as [m0 | ] eqn:E;
    [ | discriminate].
  intros Hr. injection Hr as <- <-.
  assert (L : (Z.to_nat d < List.length (fs_memory_regions s))%nat)
    by (apply nth_error_Some; congruence).
  split; [reflexivity | ]. split; [lia | ].
  symmetry. apply nth_error_nth. exact E.
Qed.

Lemma rd_inv (f : image -> Z -> Z) (p : addr) (s s' : fs) (v : Z) :
  rd f p s = Some (v, s') ->
  s' = s /\ mapped s (fst p) /\ v = f (image_at s (fst p)) (snd p).
Proof.
  unfold rd. intros H. apply bind_inv in H. destruct H as (m & s1 & Hc & H).
  apply region_inv in Hc. destruct Hc as (-> & Hm & ->).
  injection H as <- <-. auto.
Qed.

Lemma set_region_inv (d : Z) (m : image) (s s' : fs) (u : unit) :
  set_region d m s = Some (u, s') -> s' = with_image s d m.
Proof. intros H. injection H as _ <-. reflexivity. Qed.

Lemma wr_inv (f : image -> Z -> Z -> image) (p : addr) (v : Z) (s s' : fs)
      (u : unit) :
  wr f p v s = Some (u, s') ->
  mapped s (fst p)
  /\ s' = with_image s (fst p) (f (image_at s (fst p)) (snd p) v).
Proof.
  unfold wr. intros H. apply bind_inv in H. destruct H as (m & s1 & Hc & H).
  apply region_inv in Hc. destruct Hc as (-> & Hm & ->).
  apply set_region_inv in H. auto.
Qed.

Lemma length_upd_nth {A : Type} (n : nat) (l : list A) (x : A) :
  List.length (upd_nth n l x) = List.length l.
Proof.
  revert n. induction l as [ | h t IH]; intros [ | n]; cbn; auto.
Qed.

Lemma nth_upd_nth {A : Type} (n k : nat) (l : list A) (x d : A) :
  (n < List.length l)%nat ->
  nth k (upd_nth n l x) d = if Nat.eqb k n then x else nth k l d.
Proof.
  revert n k. induction l as [ | h t IH]; intros n k H; [cbn in H; lia | ].
  destruct n as [ | n], k as [ | k]; cbn; try reflexivity.
  apply IH. cbn in H. lia.
Qed.

Lemma image_at_with_image (s : fs) (d : Z) (m : image) (j : Z) :
  mapped s d ->
  image_at (with_image s d m) j = if j =? d then m else image_at s j.
Proof.
  intros [H0 H1]. unfold image_at, with_image. cbn [fs_memory_regions with_regions].
  destruct (Z.ltb_spec j 0).
  - destruct (Z.eqb_spec j d); [lia | reflexivity].
  - rewrite nth_upd_nth by lia.
    destruct (Z.eqb_spec j d) as [-> | N].
    + rewrite Nat.eqb_refl. reflexivity.
    + destruct (Nat.eqb_spec (Z.to_nat j) (Z.to_nat d)); [lia | reflexivity].
Qed.

Lemma mapped_with_image (s : fs) (d : Z) (m : image) (j : Z) :
  mapped (with_image s d m) j <-> mapped s j.
Proof.
  unfold mapped, with_image. cbn [fs_memory_regions with_regions].
  rewrite length_upd_nth. tauto.
Qed.

(** A store of [n] bytes leaves the state as it was but for them. *)
Lemma same_but_store (s : fs) (d a n v : Z) :
  mapped s d ->
  same_but s (with_image s d (store_le n (image_at s d) a v)) d a n.
Proof.
  intros Hm. repeat split; try reflexivity.
  - unfold with_image. cbn. apply length_upd_nth.
  - intros j x H. rewrite image_at_with_image by exact Hm.
    destruct (Z.eqb_spec j d) as [-> | N]; [ | reflexivity].
    apply store_le_outside. destruct H; [contradiction | assumption].
Qed.

End Inversion.

(** Opens the bind at the head of hypothesis [H]. *)
Ltac open_bind H :=
  let a := fresh "a" in
  let s1 := fresh "s" in
  let Hc := fresh "Hc" in
  apply bind_inv in H; destruct H as (a & s1 & Hc & H).

Ltac open_rd H :=
  let a := fresh "a" in
  let s1 := fresh "s" in
  let Hc := fresh "Hc" in
  let Hm := fresh "Hm" in
  apply bind_inv in H; destruct H as (a & s1 & Hc & H);
  apply rd_inv in Hc; destruct Hc as (-> & Hm & ->).

Section Directories.
Import Wfs.

(** With the allocate flag clear, resolving an offset in the direct
    blocks reads the pointer and changes nothing. *)
Lemma resolve_direct (s s' : fs) (ino : addr) (off disk : Z)
      (r : option addr) :
  0 <= off < IND_BLOCK * BLOCK_SIZE ->
  get_block_location (Some ino) off 0 disk s = Some (r, s') ->
  s' = s
  /\ (r = None
      \/ exists target,
           r = Some (target,
                     load64s (image_at s (fst ino))
                             (snd ino + i_blocks (off / BLOCK_SIZE))
                     + off mod BLOCK_SIZE)).
Proof.
  intros Hoff H.
  change (IND_BLOCK * BLOCK_SIZE) with 3584 in Hoff.
  assert (Hk : 0 <= off / BLOCK_SIZE <= 6).
  { unfold BLOCK_SIZE. split; [apply Z.div_pos; lia | ].
    apply Z.lt_succ_r. apply Z.div_lt_upper_bound; lia. }
  destruct (block_num_small off ltac:(lia) ltac:(lia)) as [Ek Er].
  unfold get_block_location in H. rewrite Ek, Er in H.
  set (k := off / BLOCK_SIZE) in *.
  rewrite (u64_small k) in H by lia.
  change (D_BLOCK + BLOCK_SIZE / 8) with 70 in H. change D_BLOCK with 6 in H.
  destruct (Z.gtb_spec k 70); [lia | ].
  destruct (Z.gtb_spec k 6); [lia | ].
  destruct ino as [idisk ioff]. cbn [deref fst snd] in *.
  open_bind H. injection Hc as <- <-.
  open_bind H. injection Hc as <- <-.
  destruct (raid_mode s =? RAID0).
  - open_bind H. injection Hc as <- <-.
    destruct (total_devices s =? 0); [discriminate | ].
    open_bind H. injection Hc as <- <-.
    open_rd H. change (0 =? 0) with true in H. cbn [negb andb] in H.
    open_bind H. injection Hc as <- <-.
    open_rd H. injection H as <- <-.
    split; [reflexivity | ]. right. unfold shift. cbn [fst snd].
    replace (ioff + i_blocks k) with (ioff + i_blocks 0 + 8 * k)
      by (unfold i_blocks; lia).
    eexists. reflexivity.
  - open_bind H. injection Hc as <- <-.
    open_rd H. change (0 =? 0) with true in H. cbn [negb andb] in H.
    open_bind H. injection Hc as <- <-.
    open_rd H.
    match type of H with
    | (if ?c then _ else _) _ = _ => destruct c
    end; injection H as <- <-; (split; [reflexivity | ]); [left; reflexivity | ].
    right. unfold shift. cbn [fst snd].
    replace (ioff + i_blocks k) with (ioff + i_blocks 0 + 8 * k)
      by (unfold i_blocks; lia).
    eexists. reflexivity.
Qed.


(** A successful scan of [delete_dir_entry] over direct blocks: the
    entry it found and the one store it made. *)
Lemma delete_scan_effect (n : nat) (dir : addr) (inum disk : Z) (s s' : fs)
      (off : Z) :
  0 <= off -> off mod sizeof_wfs_dentry = 0 ->
  off + sizeof_wfs_dentry * Z.of_nat n
  < IND_BLOCK * BLOCK_SIZE + sizeof_wfs_dentry ->
  delete_scan n off dir inum disk s = Some (0, s') ->
  exists off' d,
    off <= off' < off + sizeof_wfs_dentry * Z.of_nat n
    /\ off' mod sizeof_wfs_dentry = 0
    /\ snd d = load64s (image_at s (fst dir))
                       (snd dir + i_blocks (off' / BLOCK_SIZE))
               + off' mod BLOCK_SIZE
    /\ get_block_location (Some dir) off' 0 disk s = Some (Some d, s)
    /\ mapped s (fst d)
    /\ load32s (image_at s (fst d)) (snd d + de_num) = inum
    /\ s' = with_image s (fst d)
                       (store32 (image_at s (fst d)) (snd d + de_num) 0).
Proof.
  revert off. change sizeof_wfs_dentry with 32. change (IND_BLOCK * BLOCK_SIZE) with 3584.
  induction n as [ | n IH]; intros off H0 Ha Hb H; [discriminate | ].
  cbn [delete_scan] in H.
  open_bind H.
  assert (R0 : 0 <= off < IND_BLOCK * BLOCK_SIZE)
    by (change (IND_BLOCK * BLOCK_SIZE) with 3584; lia).
  destruct (resolve_direct _ _ _ _ _ _ R0 Hc) as [-> Hr].
  destruct a as [d | ]; [ | discriminate].
  cbn [deref] in H. open_bind H. injection Hc0 as <- <-.
  open_rd H.
  destruct (Z.eqb_spec (load32s (image_at s (fst (d +: de_num))) (snd (d +: de_num))) inum)
    as [E | E].
  - open_bind H. apply wr_inv in Hc0. destruct Hc0 as [_ ->].
    injection H as <-.
    exists off, d. unfold shift in *. cbn [fst snd] in *.
    split; [lia | ]. split; [exact Ha | ].
    split.
    { destruct Hr as [Hr | [t Hr]]; [discriminate | ].
      injection Hr as ->. reflexivity. }
    split; [exact Hc | ]. split; [exact Hm | ]. split; [exact E | reflexivity].
  - change sizeof_wfs_dentry with 32 in H.
    destruct (IH (off + 32)) as (off' & d' & R & Hrest); try lia; try exact H.
    { rewrite <- Z.add_mod_idemp_l, Ha by lia. reflexivity. }
    exists off', d'. split; [lia | exact Hrest].
Qed.


Lemma slot_offset_bounds (off : Z) :
  0 <= off -> off mod sizeof_wfs_dentry = 0 ->
  0 <= off mod BLOCK_SIZE <= BLOCK_SIZE - sizeof_wfs_dentry.
Proof.
  unfold sizeof_wfs_dentry, BLOCK_SIZE. intros H0 H.
  pose proof (Z.div_mod off 512 ltac:(lia)).
  pose proof (Z.mod_pos_bound off 512 ltac:(lia)).
  pose proof (Z.div_mod off 32 ltac:(lia)). lia.
Qed.

Lemma last_slot_below_size (sz off : Z) :
  0 <= sz -> 0 <= off -> off mod sizeof_wfs_dentry = 0 ->
  off < sizeof_wfs_dentry * Z.of_nat (dentry_slots sz) -> off < sz.
Proof.
  unfold dentry_slots, sizeof_wfs_dentry. intros Hs H0 Hm H.
  rewrite Z2Nat.id in H by (apply Z.div_pos; lia).
  pose proof (Z.div_mod (sz + 32 - 1) 32 ltac:(lia)).
  pose proof (Z.mod_pos_bound (sz + 32 - 1) 32 ltac:(lia)).
  pose proof (Z.div_mod off 32 ltac:(lia)). lia.
Qed.

Lemma slots_within_direct (sz : Z) :
  0 <= sz <= IND_BLOCK * BLOCK_SIZE ->
  0 + sizeof_wfs_dentry * Z.of_nat (dentry_slots sz)
  < IND_BLOCK * BLOCK_SIZE + sizeof_wfs_dentry.
Proof.
  unfold dentry_slots, sizeof_wfs_dentry.
  change (IND_BLOCK * BLOCK_SIZE) with 3584. intros Hs.
  rewrite Z2Nat.id by (apply Z.div_pos; lia).
  pose proof (Z.div_mod (sz + 32 - 1) 32 ltac:(lia)).
  pose proof (Z.mod_pos_bound (sz + 32 - 1) 32 ltac:(lia)). lia.
Qed.

(** What a successful [delete_dir_entry] on a directory of direct blocks
    did: shared by the two theorems on it. *)
Lemma delete_dir_entry_effect (s s' : fs) (dir : addr) (inum disk : Z) :
  delete_dir_entry (Some dir) inum disk s = Some (0, s') ->
  load64u (image_at s (fst dir)) (snd dir + i_size) <= IND_BLOCK * BLOCK_SIZE ->
  exists off d,
    0 <= off < load64u (image_at s (fst dir)) (snd dir + i_size)
    /\ off mod sizeof_wfs_dentry = 0
    /\ snd d = load64s (image_at s (fst dir))
                       (snd dir + i_blocks (off / BLOCK_SIZE))
               + off mod BLOCK_SIZE
    /\ get_block_location (Some dir) off 0 disk s = Some (Some d, s)
    /\ mapped s (fst d)
    /\ load32s (image_at s (fst d)) (snd d + de_num) = inum
    /\ s' = with_image s (fst d)
                       (store32 (image_at s (fst d)) (snd d + de_num) 0).
Proof.
  intros H Hsz. unfold delete_dir_entry in H. cbn [deref] in H.
  open_bind H. injection Hc as <- <-.
  open_rd H.
  set (sz := load64u (image_at s (fst (dir +: i_size))) (snd (dir +: i_size))) in *.
  assert (Esz : sz = load64u (image_at s (fst dir)) (snd dir + i_size)) by reflexivity.
  assert (Hs0 : 0 <= sz) by (apply load_le_range).
  rewrite <- Esz in *.
  destruct (delete_scan_effect _ _ _ _ _ _ 0 ltac:(lia) eq_refl
              (slots_within_direct sz ltac:(lia)) H)
    as (off & d & Ho & Ha & Hrest).
  exists off, d. split; [ | split; [exact Ha | exact Hrest]].
  split; [lia | ]. apply last_slot_below_size; solve [lia | exact Ha].
Qed.

(** A field away from the store reads the same after it. *)
Lemma load_after_store (n : nat) (s : fs) (d a v j b : Z) :
  mapped s d ->
  j <> d \/ b + Z.of_nat n <= a \/ a + 4 <= b ->
  load_le n (image_at (with_image s d (store32 (image_at s d) a v)) j) b
  = load_le n (image_at s j) b.
Proof.
  intros Hm H. rewrite image_at_with_image by exact Hm.
  destruct (Z.eqb_spec j d) as [-> | N]; [ | reflexivity].
  apply load_store_le_other. destruct H as [H | H]; [contradiction | exact H].
Qed.

Lemma wr_at (f : image -> Z -> Z -> image) (d a v : Z) (s : fs) :
  mapped s d ->
  wr f (d, a) v s = Some (tt, with_image s d (f (image_at s d) a v)).
Proof.
  intros H. unfold wr, bind. cbn [fst snd].
  rewrite (region_mapped s d H). reflexivity.
Qed.

(** The scan reaches the first slot that holds [inum] when every slot up
    to it is there. *)
Lemma delete_scan_finds (n : nat) (dir : addr) (inum disk : Z) (s : fs)
      (off : Z) (j : nat) :
  (j < n)%nat ->
  (forall i, (i <= j)%nat ->
     exists d,
       get_block_location (Some dir) (off + sizeof_wfs_dentry * Z.of_nat i)
         0 disk s = Some (Some d, s)
       /\ mapped s (fst d)) ->
  (exists d,
     get_block_location (Some dir) (off + sizeof_wfs_dentry * Z.of_nat j)
       0 disk s = Some (Some d, s)
     /\ load32s (image_at s (fst d)) (snd d + de_num) = inum) ->
  exists s', delete_scan n off dir inum disk s = Some (0, s').
Proof.
  revert off j. induction n as [ | n IH]; intros off j Hj Hall Hf; [lia | ].
  cbn [delete_scan].
  destruct (Hall 0%nat ltac:(lia)) as ([t x] & Hr & Hm).
  replace (off + sizeof_wfs_dentry * Z.of_nat 0) with off in Hr by lia.
  rewrite (bind_eq _ _ _ _ _ Hr). cbn [deref].
  unfold shift. cbn [fst snd] in *.
  change (bind (ret (t, x))) with (fun k : addr -> M Z => k (t, x)).
  cbv beta. cbn [fst snd].
  rewrite (bind_eq _ _ _ _ _ (rd_at load32s t (x + de_num) s Hm)).
  destruct (Z.eqb_spec (load32s (image_at s t) (x + de_num)) inum) as [E | N].
  - rewrite (bind_eq _ _ _ _ _ (wr_at store32 t (x + de_num) 0 s Hm)).
    eexists. reflexivity.
  - destruct j as [ | j].
    + exfalso. destruct Hf as (d' & Hr' & Hn).
      replace (off + sizeof_wfs_dentry * Z.of_nat 0) with off in Hr' by lia.
      rewrite Hr in Hr'. injection Hr' as <-. exact (N Hn).
    + apply (IH (off + sizeof_wfs_dentry) j); [lia | | ].
      * intros i Hi. destruct (Hall (S i) ltac:(lia)) as (d & H1 & H2).
        exists d. split; [ | exact H2].
        rewrite <- H1. f_equal. lia.
      * destruct Hf as (d & H1 & H2). exists d. split; [ | exact H2].
        rewrite <- H1. f_equal. lia.
Qed.


(** The first index at which a decidable property holds. *)
Lemma first_match (P : nat -> Prop) (dec : forall i, {P i} + {~ P i})
      (j : nat) :
  P j ->
  exists j0, (j0 <= j)%nat /\ P j0 /\ forall i, (i < j0)%nat -> ~ P i.
Proof.
  assert (G : forall n,
             (forall i, (i < n)%nat -> ~ P i)
             \/ exists j0, (j0 < n)%nat /\ P j0
                           /\ forall i, (i < j0)%nat -> ~ P i).
  { induction n as [ | n [IH | (j0 & Hj & Pj & F)]].
    - left. intros i Hi. lia.
    - destruct (dec n) as [Pn | Nn].
      + right. exists n. split; [lia | ]. split; [exact Pn | exact IH].
      + left. intros i Hi. destruct (Nat.eq_dec i n) as [-> | N];
          [exact Nn | apply IH; lia].
    - right. exists j0. split; [lia | ]. split; [exact Pj | exact F]. }
  intros Pj. destruct (G (S j)) as [F | (j0 & Hj & Pj0 & F)].
  - exfalso. exact (F j ltac:(lia) Pj).
  - exists j0. split; [lia | ]. split; [exact Pj0 | exact F].
Qed.

(** The scan of [delete_dir_entry] stops at the first slot that holds
    [inum] and stores 0 there, when every slot up to it is there. *)
Lemma delete_scan_first (n : nat) (dir : addr) (inum disk : Z) (s : fs)
      (e : Z -> addr) (off : Z) (j : nat) :
  let at_ i := e (off + sizeof_wfs_dentry * Z.of_nat i) in
  (j < n)%nat ->
  (forall i, (i <= j)%nat ->
     get_block_location (Some dir) (off + sizeof_wfs_dentry * Z.of_nat i)
       0 disk s = Some (Some (at_ i), s)
     /\ mapped s (fst (at_ i))) ->
  (forall i, (i < j)%nat ->
     load32s (image_at s (fst (at_ i))) (snd (at_ i) + de_num) <> inum) ->
  load32s (image_at s (fst (at_ j))) (snd (at_ j) + de_num) = inum ->
  delete_scan n off dir inum disk s
  = Some (0, with_image s (fst (at_ j))
               (store32 (image_at s (fst (at_ j))) (snd (at_ j) + de_num) 0)).
Proof.
  cbv zeta. revert off j.
  induction n as [ | n IH]; intros off j Hj Hall Hno Hf; [lia | ].
  cbn [delete_scan].
  destruct (Hall 0%nat ltac:(lia)) as (Hr & Hm).
  replace (off + sizeof_wfs_dentry * Z.of_nat 0) with off in Hr, Hm by lia.
  rewrite (bind_eq _ _ _ _ _ Hr). cbn [deref].
  rewrite (bind_eq _ _ _ _ _ eq_refl).
  destruct (e off) as [t x] eqn:Ee. unfold shift. cbn [fst snd] in *.
  rewrite (bind_eq _ _ _ _ _ (rd_at load32s t (x + de_num) s Hm)).
  destruct j as [ | j].
  - replace (off + sizeof_wfs_dentry * Z.of_nat 0) with off in * by lia.
    rewrite Ee in *. cbn [fst snd] in *.
    rewrite Hf, Z.eqb_refl.
    rewrite (bind_eq _ _ _ _ _ (wr_at store32 t (x + de_num) 0 s Hm)).
    reflexivity.
  - pose proof (Hno 0%nat ltac:(lia)) as N.
    replace (off + sizeof_wfs_dentry * Z.of_nat 0) with off in N by lia.
    rewrite Ee in N. cbn [fst snd] in N.
    destruct (Z.eqb_spec (load32s (image_at s t) (x + de_num)) inum)
      as [E | _]; [contradiction | ].
    replace (off + sizeof_wfs_dentry * Z.of_nat (S j))
      with (off + sizeof_wfs_dentry + sizeof_wfs_dentry * Z.of_nat j)
      in * by lia.
    apply (IH (off + sizeof_wfs_dentry) j); [lia | | | exact Hf].
    + intros i Hi. specialize (Hall (S i) ltac:(lia)).
      replace (off + sizeof_wfs_dentry * Z.of_nat (S i))
        with (off + sizeof_wfs_dentry + sizeof_wfs_dentry * Z.of_nat i)
        in Hall by lia.
      exact Hall.
    + intros i Hi. specialize (Hno (S i) ltac:(lia)).
      replace (off + sizeof_wfs_dentry * Z.of_nat (S i))
        with (off + sizeof_wfs_dentry + sizeof_wfs_dentry * Z.of_nat i)
        in Hno by lia.
      exact Hno.
Qed.

(** C10: for every directory, of direct and of indirect blocks, in every
    RAID mode, and a number [inum] held by one of its slots, at offset
    [off1], the blocks of the slots up to [off1] being there, on disks
    that are mapped, with entries that lie apart from the inode
    record:
    [delete_dir_entry] returns 0, and the state it leaves differs from
    the one it found in the four bytes of the inode-number field of one
    slot, the first that holds [inum], which become 0.  The name field
    of that slot, every other slot and every other byte of every disk,
    the size and the link count of the directory are as they were. *)
Theorem delete_dir_entry_frame (s : fs) (dir : addr) (inum disk off1 : Z) :
  let m := image_at s (fst dir) in
  let size := load64u m (snd dir + i_size) in
  let entry off := byte_at s dir disk off in
  let num off :=
    load32s (image_at s (fst (entry off))) (snd (entry off) + de_num) in
  mapped s (fst dir) ->
  (raid_mode s = RAID0 -> 0 < total_devices s) ->
  0 <= off1 < size -> off1 mod sizeof_wfs_dentry = 0 -> num off1 = inum ->
  (forall off, 0 <= off <= off1 -> off mod sizeof_wfs_dentry = 0 ->
     block_present s dir disk (off / BLOCK_SIZE)
     /\ mapped s (fst (entry off))
     /\ (fst (entry off) <> fst dir
         \/ snd (entry off) + sizeof_wfs_dentry <= snd dir
         \/ snd dir + sizeof_wfs_inode <= snd (entry off))) ->
  exists s' off,
    let d := entry off in
    delete_dir_entry (Some dir) inum disk s = Some (0, s')
    /\ 0 <= off <= off1
    /\ off mod sizeof_wfs_dentry = 0
    /\ get_block_location (Some dir) off 0 disk s = Some (Some d, s)
    /\ num off = inum
    /\ (forall off', 0 <= off' < off -> off' mod sizeof_wfs_dentry = 0 ->
          num off' <> inum)
    /\ load32s (image_at s' (fst d)) (snd d + de_num) = 0
    /\ same_but s s' (fst d) (snd d + de_num) 4
    /\ (forall i, 0 <= i < MAX_NAME ->
          load8 (image_at s' (fst d)) (snd d + de_name + i)
          = load8 (image_at s (fst d)) (snd d + de_name + i))
    /\ load64s (image_at s' (fst dir)) (snd dir + i_size)
       = load64s m (snd dir + i_size)
    /\ load32s (image_at s' (fst dir)) (snd dir + i_nlinks)
       = load32s m (snd dir + i_nlinks).
Proof.
  intros m size entry num Hmd Hn Ho1 Ha1 Hn1 Hall.
  unfold sizeof_wfs_dentry in *.
  assert (E1 : off1 = 32 * (off1 / 32)) by (apply Z.div_exact; lia).
  assert (Q1 : 0 <= off1 / 32) by (apply Z.div_pos; lia).
  destruct (first_match (fun i => num (32 * Z.of_nat i) = inum)
              (fun i => Z.eq_dec _ _) (Z.to_nat (off1 / 32)))
    as (j & Hj & Pj & Fj).
  { rewrite Z2Nat.id by exact Q1. rewrite <- E1. exact Hn1. }
  set (off := 32 * Z.of_nat j) in *.
  assert (Hoff : 0 <= off <= off1) by (unfold off; lia).
  assert (Aoff : off mod 32 = 0)
    by (unfold off; rewrite Z.mul_comm; apply Z_mod_mult).
  assert (Res : forall o, 0 <= o <= off1 -> o mod 32 = 0 ->
            get_block_location (Some dir) o 0 disk s
            = Some (Some (entry o), s)).
  { intros o Ho Ao. destruct (Hall o Ho Ao) as (Hp & _).
    apply present_block_resolves; try assumption. lia. }
  destruct (Hall off Hoff Aoff) as (_ & Hm & Hapart).
  set (d := entry off) in *.
  set (s' := with_image s (fst d)
               (store32 (image_at s (fst d)) (snd d + de_num) 0)).
  assert (Hrun : delete_dir_entry (Some dir) inum disk s = Some (0, s')).
  { unfold delete_dir_entry. cbn [deref].
    rewrite (bind_eq _ _ _ _ _ eq_refl).
    destruct dir as [pd a]. unfold shift. cbn [fst snd] in *.
    rewrite (bind_eq _ _ _ _ _ (rd_at load64u pd (a + i_size) s Hmd)).
    fold m. fold size.
    pose proof (delete_scan_first (dentry_slots size) (pd, a) inum disk s
                  entry 0 j) as G.
    cbv zeta in G. unfold sizeof_wfs_dentry in G.
    rewrite !Z.add_0_l in G. apply G.
    - unfold dentry_slots, sizeof_wfs_dentry.
      apply Nat2Z.inj_lt. rewrite Z2Nat.id by (apply Z.div_pos; lia).
      assert (Z.of_nat j + 1 <= (size + 32 - 1) / 32)
        by (apply Z.div_le_lower_bound; unfold off in Hoff; lia).
      lia.
    - intros i Hi. rewrite Z.add_0_l.
      assert (Ao : (32 * Z.of_nat i) mod 32 = 0)
        by (rewrite Z.mul_comm; apply Z_mod_mult).
      split; [apply Res; [unfold off in Hoff; lia | exact Ao] | ].
      apply (Hall (32 * Z.of_nat i)); [unfold off in Hoff; lia | exact Ao].
    - intros i Hi. rewrite Z.add_0_l. apply (Fj i Hi).
    - exact Pj. }
  exists s', off. cbv zeta. fold d.
  unfold sizeof_wfs_inode, de_num, de_name, MAX_NAME, i_size, i_nlinks in *.
  split; [exact Hrun | ]. split; [exact Hoff | ]. split; [exact Aoff | ].
  split; [apply Res; assumption | ]. split; [exact Pj | ].
  split.
  { intros o Ho Ao.
    assert (Eo : o = 32 * (o / 32)) by (apply Z.div_exact; lia).
    assert (Qo : 0 <= o / 32) by (apply Z.div_pos; lia).
    rewrite Eo, <- (Z2Nat.id (o / 32)) by exact Qo. apply Fj.
    apply Nat2Z.inj_lt. rewrite Z2Nat.id by exact Qo. unfold off in Ho. lia. }
  split.
  { unfold s', load32s. rewrite image_at_with_image by exact Hm.
    rewrite Z.eqb_refl. unfold store32.
    rewrite (load_store_le_same 4). reflexivity. }
  split; [apply same_but_store; exact Hm | ].
  split.
  { intros i Hi. unfold s'. rewrite image_at_with_image by exact Hm.
    rewrite Z.eqb_refl. apply store_le_outside. lia. }
  split.
  - unfold s', load64s. f_equal. apply load_after_store; [exact Hm | ].
    change (Z.of_nat 8) with 8.
    destruct Hapart as [N | [H | H]]; [left; congruence | right; lia ..].
  - unfold s', load32s. f_equal. apply load_after_store; [exact Hm | ].
    change (Z.of_nat 4) with 4.
    destruct Hapart as [N | [H | H]]; [left; congruence | right; lia ..].
Qed.

End Directories.

Section DirectoryRuns.
Import Wfs Scenario.

Lemma wide_blocks (k : Z) :
  0 <= k <= 7 ->
  block_present (the raid1_a_wide) (0, 512) 0 k
  /\ block_disk (the raid1_a_wide) 0 k = 0
  /\ block_slot (the raid1_a_wide) (0, 512) 0 k
     = 16896 + 512 * (if k <=? 6 then k else 8).
Proof.
  intros Hk.
  assert (E : k = 0 \/ k = 1 \/ k = 2 \/ k = 3 \/ k = 4 \/ k = 5 \/ k = 6
              \/ k = 7) by lia.
  assert (P : forall j, block_slot (the raid1_a_wide) (0, 512) 0 j <> 0 ->
                0 <= j <= 70 ->
                (j <= 6
                 \/ (mapped (the raid1_a_wide) 0
                     /\ load64s (image_at (the raid1_a_wide) 0)
                                (512 + i_blocks IND_BLOCK) <> 0)) ->
                block_present (the raid1_a_wide) (0, 512) 0 j).
  { intros j H1 H2 H3. split; [exact H2 | ]. split; [exact H3 | exact H1]. }
  assert (I : mapped (the raid1_a_wide) 0
              /\ load64s (image_at (the raid1_a_wide) 0)
                         (512 + i_blocks IND_BLOCK) <> 0)
    by (vm_compute; split; [split | ]; (discriminate || reflexivity)).
  repeat (destruct E as [-> | E];
          [split; [apply P; [vm_compute; discriminate | lia | right; exact I]
                  | split; vm_compute; reflexivity] | ]).
  subst k.
  split; [apply P; [vm_compute; discriminate | lia | right; exact I]
         | split; vm_compute; reflexivity].
Qed.

Lemma delete_dir_entry_frame_witness :
  exists s' off,
    delete_dir_entry (Some (0, 512)) 5 0 (the raid1_a_wide) = Some (0, s')
    /\ 0 <= off <= 3584
    /\ same_but (the raid1_a_wide) s' 0
                (16896
                 + 512 * (if off / BLOCK_SIZE <=? 6 then off / BLOCK_SIZE
                          else 8)
                 + off mod BLOCK_SIZE + de_num) 4
    /\ load32s (image_at s' 0) (512 + i_nlinks)
       = load32s (image_at (the raid1_a_wide) 0) (512 + i_nlinks).
Proof.
  destruct (delete_dir_entry_frame (the raid1_a_wide) (0, 512) 5 0 3584)
    as (s' & off & Hrun & Hoff & Hal & _ & _ & _ & _ & Hs & _ & _ & Hn).
  - vm_compute. split; [discriminate | reflexivity].
  - intros E. vm_compute in E. discriminate E.
  - vm_compute. split; [discriminate | reflexivity].
  - reflexivity.
  - vm_compute. reflexivity.
  - intros off Ho Ha. unfold byte_at. cbn [fst snd].
    assert (Hk : 0 <= off / BLOCK_SIZE <= 7).
    { unfold BLOCK_SIZE. split; [apply Z.div_pos; lia | ].
      apply Z.lt_succ_r. apply Z.div_lt_upper_bound; lia. }
    destruct (wide_blocks _ Hk) as (P & -> & ->).
    pose proof (Z.mod_pos_bound off BLOCK_SIZE ltac:(unfold BLOCK_SIZE; lia)).
    split; [exact P | ].
    split; [vm_compute; split; [discriminate | reflexivity] | ].
    right. right. unfold sizeof_wfs_inode.
    destruct (off / BLOCK_SIZE <=? 6); lia.
  - exists s', off. split; [exact Hrun | ]. split; [exact Hoff | ].
    unfold byte_at in Hs. cbn [fst snd] in Hs.
    assert (Hk : 0 <= off / BLOCK_SIZE <= 7).
    { unfold BLOCK_SIZE. split; [apply Z.div_pos; lia | ].
      apply Z.lt_succ_r. apply Z.div_lt_upper_bound; lia. }
    destruct (wide_blocks _ Hk) as (_ & Ed & Es).
    rewrite Ed, Es in Hs.
    split; [exact Hs | exact Hn].
Defined.
End DirectoryRuns.

(** ** What a call keeps *)

Section Kept.
Import Wfs.
Variable P : Z -> Z -> Prop.

Lemma kept_refl (s : fs) : kept P s s.
Proof.
  unfold kept. do 4 (split; [reflexivity | ]).
  split; [intros; tauto | reflexivity].
Qed.

Lemma kept_trans (s1 s2 s3 : fs) : kept P s1 s2 -> kept P s2 s3 -> kept P s1 s3.
Proof.
  intros (A1 & A2 & A3 & A4 & A5 & A6) (B1 & B2 & B3 & B4 & B5 & B6).
  unfold kept. do 4 (split; [congruence | ]). split.
  - intros j. rewrite B5. apply A5.
  - intros j x Hp. rewrite B6, A6; auto.
Qed.

(** Replacing the image of a disk by one that agrees with it on [P]. *)
Lemma kept_with_image (s : fs) (d : Z) (m : image) :
  mapped s d ->
  (forall x, P d x -> load8 m x = load8 (image_at s d) x) ->
  kept P s (with_image s d m).
Proof.
  intros Hm H. unfold kept. do 4 (split; [reflexivity | ]). split.
  - intros j. apply mapped_with_image.
  - intros j x Hp. rewrite image_at_with_image by exact Hm.
    destruct (Z.eqb_spec j d) as [-> | N]; [apply H; exact Hp | reflexivity].
Qed.

Lemma kept_store (s : fs) (d a n v : Z) :
  mapped s d -> (forall x, a <= x < a + n -> ~ P d x) ->
  kept P s (with_image s d (store_le n (image_at s d) a v)).
Proof.
  intros Hm H. apply kept_with_image; [exact Hm | ].
  intros x Hp. apply store_le_outside. intros R. exact (H x R Hp).
Qed.

Lemma kept_memset (s : fs) (d a c n : Z) :
  mapped s d -> (forall x, a <= x < a + n -> ~ P d x) ->
  kept P s (with_image s d (memset (image_at s d) a c n)).
Proof.
  intros Hm H. apply kept_with_image; [exact Hm | ].
  intros x Hp. apply memset_outside. intros R. exact (H x R Hp).
Qed.

Lemma kept_memcpy (s : fs) (d a : Z) (bytes : list Z) :
  mapped s d ->
  (forall x, a <= x < a + Z.of_nat (List.length bytes) -> ~ P d x) ->
  kept P s (with_image s d (memcpy_to (image_at s d) a bytes)).
Proof.
  intros Hm H. apply kept_with_image; [exact Hm | ].
  intros x Hp. apply memcpy_to_outside. intros R. exact (H x R Hp).
Qed.

(** A field inside [P] reads the same. *)
Lemma kept_load (n : nat) (s s' : fs) (j b : Z) :
  kept P s s' -> (forall x, b <= x < b + Z.of_nat n -> P j x) ->
  load_le n (image_at s' j) b = load_le n (image_at s j) b.
Proof.
  intros (_ & _ & _ & _ & _ & K) H. apply load_le_ext.
  intros x Hx. apply K, H, Hx.
Qed.
End Kept.

Section Allocator.
Import Wfs.

Lemma find_zero_bit_spec (n : nat) (bit word : Z) (b : Z) :
  find_zero_bit n bit word = Some b ->
  bit <= b < bit + Z.of_nat n /\ Z.land word (Z.shiftl 1 b) = 0.
Proof.
  revert bit. induction n as [ | n IH]; intros bit H; [discriminate | ].
  cbn [find_zero_bit] in H.
  destruct (Z.eqb_spec (Z.land word (Z.shiftl 1 bit)) 0) as [E | E].
  - injection H as <-. split; [lia | exact E].
  - destruct (IH _ H) as [R Z0]. split; [lia | exact Z0].
Qed.

(** What a scan of the bitmap did: nothing, or one word rewritten with
    one more bit that was clear. *)
Lemma scan_bitmap_effect (n : nat) (w0 : Z) (bitmap : addr) (s s' : fs)
      (r : Z) :
  scan_bitmap n w0 bitmap s = Some (r, s') ->
  (r = -1 /\ s' = s)
  \/ exists w bit,
       w0 <= w < w0 + Z.of_nat n /\ 0 <= bit < 32
       /\ r = w * 32 + bit
       /\ mapped s (fst bitmap)
       /\ Z.land (load32u (image_at s (fst bitmap)) (snd bitmap + 4 * w))
                 (Z.shiftl 1 bit) = 0
       /\ s' = with_image s (fst bitmap)
                 (store32 (image_at s (fst bitmap)) (snd bitmap + 4 * w)
                    (Z.lor (load32u (image_at s (fst bitmap))
                                    (snd bitmap + 4 * w))
                           (Z.shiftl 1 bit))).
Proof.
  revert w0. induction n as [ | n IH]; intros w0 H.
  - injection H as <- <-. left. auto.
  - cbn [scan_bitmap] in H. open_rd H.
    assert (Next : forall (H' : scan_bitmap n (w0 + 1) bitmap s = Some (r, s')),
      (r = -1 /\ s' = s)
      \/ exists w bit,
           w0 <= w < w0 + Z.of_nat (S n) /\ 0 <= bit < 32
           /\ r = w * 32 + bit
           /\ mapped s (fst bitmap)
           /\ Z.land (load32u (image_at s (fst bitmap)) (snd bitmap + 4 * w))
                     (Z.shiftl 1 bit) = 0
           /\ s' = with_image s (fst bitmap)
                     (store32 (image_at s (fst bitmap)) (snd bitmap + 4 * w)
                        (Z.lor (load32u (image_at s (fst bitmap))
                                        (snd bitmap + 4 * w))
                               (Z.shiftl 1 bit)))).
    { intros H'. destruct (IH _ H') as [L | (w & bit & Hw & R)]; [left; exact L | ].
      right. exists w, bit. split; [lia | exact R]. }
    unfold shift in *. cbn [fst snd] in *.
    destruct (load32u (image_at s (fst bitmap)) (snd bitmap + 4 * w0) =? 4294967295);
      cbn [negb] in H; [apply Next; exact H | ].
    destruct (find_zero_bit 32 0 _) as [bit | ] eqn:F; [ | apply Next; exact H].
    apply find_zero_bit_spec in F. destruct F as [Hb Hz].
    open_bind H. apply wr_inv in Hc. cbn [fst snd] in Hc. destruct Hc as [_ ->].
    injection H as <- <-.
    right. exists w0, bit. split; [lia | ]. split; [lia | ].
    split; [reflexivity | ]. split; [exact Hm | ]. split; [exact Hz | reflexivity].
Qed.

(** [allocate_block] keeps every place outside the data bitmap of its
    disk, and returns 0 or the offset of a block of the data region. *)
Lemma allocate_block_effect (P : Z -> Z -> Prop) (disk : Z) (s s' : fs)
      (b : Z) :
  let m := image_at s disk in
  let db := load64s m sb_d_bitmap_ptr in
  let nd := load64u m sb_num_data_blocks in
  (forall x, db <= x < db + 4 * (nd / 32) -> ~ P disk x) ->
  allocate_block disk s = Some (b, s') ->
  kept P s s'
  /\ mapped s disk
  /\ (b = 0 /\ s' = s
      \/ exists n, 0 <= n < 32 * (nd / 32)
                   /\ b = s64 (load64s (image_at s' disk) sb_d_blocks_ptr
                               + BLOCK_SIZE * n)).
Proof.
  intros m db nd HP H. subst db nd m.
  unfold allocate_block, allocate_bitmap_block in H.
  open_rd H. open_rd H. open_bind H. unfold sb in *. cbn [fst snd] in *.
  set (db := load64s (image_at s disk) sb_d_bitmap_ptr) in *.
  set (nd := load64u (image_at s disk) sb_num_data_blocks) in *.
  assert (Hnd : 0 <= nd / 32).
  { apply Z.div_pos; [ | lia]. subst nd. apply load_le_range. }
  apply scan_bitmap_effect in Hc. cbn [fst snd] in Hc.
  destruct Hc as [[-> ->] | (w & bit & Hw & Hbit & -> & _ & _ & ->)].
  - change (-1 <? 0) with true in H. injection H as <- <-.
    split; [apply kept_refl | ]. split; [exact Hm | ]. left. auto.
  - rewrite Z2Nat.id in Hw by lia.
    destruct (Z.ltb_spec (w * 32 + bit) 0); [lia | ].
    open_rd H. injection H as <- <-.
    split.
    { refine (kept_store P s disk (db + 4 * w) 4 _ Hm _).
      intros x Hx. apply HP. lia. }
    split; [exact Hm | ]. right. exists (w * 32 + bit). split; [lia | reflexivity].
Qed.
End Allocator.

(** ** Stores and loads *)

Section Wraps.
Import Wfs.
Lemma wrap_signed_mod (w z : Z) :
  0 < w -> wrap_signed w (z mod 2 ^ w) = wrap_signed w z.
Proof.
  intros H. unfold wrap_signed. rewrite Z.mod_mod; [reflexivity | ].
  apply Z.pow_nonzero; lia.
Qed.

Lemma wrap_signed_idem (w z : Z) :
  0 < w -> wrap_signed w (wrap_signed w z) = wrap_signed w z.
Proof.
  intros H. unfold wrap_signed at 2.
  assert (Hp : 0 < 2 ^ w) by (apply Z.pow_pos_nonneg; lia).
  destruct (z mod 2 ^ w <? 2 ^ (w - 1)).
  - apply wrap_signed_mod. exact H.
  - rewrite <- (wrap_signed_mod w (z mod 2 ^ w - 2 ^ w)) by exact H.
    replace (z mod 2 ^ w - 2 ^ w) with (z mod 2 ^ w + (-1) * 2 ^ w) by lia.
    rewrite Z.mod_add by lia. rewrite Z.mod_mod by lia.
    apply wrap_signed_mod. exact H.
Qed.

Lemma load32s_store32 (m : image) (a v : Z) :
  load32s (store32 m a v) a = s32 v.
Proof.
  unfold load32s, store32. rewrite (load_store_le_same 4).
  apply (wrap_signed_mod 32). lia.
Qed.

Lemma load64s_store64 (m : image) (a v : Z) :
  load64s (store64 m a v) a = s64 v.
Proof.
  unfold load64s, store64. rewrite (load_store_le_same 8).
  apply (wrap_signed_mod 64). lia.
Qed.

Lemma length_slice (buf : list Z) (start n : Z) :
  List.length (slice buf start n) = Z.to_nat n.
Proof. unfold slice. rewrite length_map, length_seq. reflexivity. Qed.

Lemma upd_nth_twice {A : Type} (n : nat) (l : list A) (x y : A) :
  upd_nth n (upd_nth n l x) y = upd_nth n l y.
Proof.
  revert n. induction l as [ | h t IH]; intros [ | n]; cbn; try reflexivity.
  f_equal. apply IH.
Qed.

Lemma with_image_twice (s : fs) (d : Z) (m1 m2 : image) :
  with_image (with_image s d m1) d m2 = with_image s d m2.
Proof.
  unfold with_image, with_regions. cbn [fs_memory_regions raid_mode
                           total_devices error_code raid_mgr].
  rewrite upd_nth_twice. reflexivity.
Qed.

Lemma load32s_store_other (N : Z) (m : image) (a v b : Z) :
  b + 4 <= a \/ a + N <= b ->
  load32s (store_le N m a v) b = load32s m b.
Proof.
  intros H. unfold load32s. f_equal. apply load_store_le_other.
  change (Z.of_nat 4) with 4. exact H.
Qed.

Lemma load64s_store_other (N : Z) (m : image) (a v b : Z) :
  b + 8 <= a \/ a + N <= b ->
  load64s (store_le N m a v) b = load64s m b.
Proof.
  intros H. unfold load64s. f_equal. apply load_store_le_other.
  change (Z.of_nat 8) with 8. exact H.
Qed.

End Wraps.

Section Inodes.
Import Wfs.
Lemma get_inode_inv (num disk : Z) (s s' : fs) (w : option addr) :
  get_inode num disk s = Some (w, s') ->
  s' = s /\ mapped s disk
  /\ (w = None
      \/ w = Some (disk, load64s (image_at s disk) sb_i_blocks_ptr
                         + num * BLOCK_SIZE)).
Proof.
  unfold get_inode. intros H. open_rd H. open_rd H.
  match type of H with
  | (if ?c then _ else _) _ = _ => destruct c
  end.
  - open_rd H. injection H as <- <-. split; [reflexivity | ].
    split; [exact Hm | ]. right. reflexivity.
  - injection H as <- <-. split; [reflexivity | ]. split; [exact Hm | ].
    left. reflexivity.
Qed.
End Inodes.

(** ** Inserting a directory entry *)

Section Insertion.
Import Wfs.
Variables (s0 : fs) (pd a : Z).
Let dir : addr := (pd, a).
Let m0 : image := image_at s0 pd.

Hypothesis layout : record_layout s0 dir.
Hypothesis placed : direct_blocks_placed s0 dir.
Hypothesis own : raid_mode s0 = RAID0 -> own_record s0 dir.

Let P := anchors dir.
Let size0 := load64s m0 (a + i_size).

(** What [kept P] tells of a later state. *)
Lemma kept_fields (s : fs) :
  kept P s0 s ->
  load64s (image_at s pd) sb_i_blocks_ptr = load64s m0 sb_i_blocks_ptr
  /\ load64s (image_at s pd) sb_d_blocks_ptr = load64s m0 sb_d_blocks_ptr
  /\ load32s (image_at s pd) (a + i_num) = load32s m0 (a + i_num)
  /\ load64s (image_at s pd) (a + i_size) = size0
  /\ load32s (image_at s pd) (a + i_nlinks) = load32s m0 (a + i_nlinks).
Proof.
  intros K. unfold size0, m0. unfold load64s, load32s, load64u.
  repeat split; f_equal; apply (kept_load P _ _ _ _ _ K);
    intros x Hx;
    unfold P, anchors, dir, i_num, i_size, i_nlinks, sb_i_blocks_ptr,
      sb_d_blocks_ptr in *;
    cbn [fst snd]; (split; [reflexivity | ]);
    change (Z.of_nat 8) with 8 in Hx; change (Z.of_nat 4) with 4 in Hx; lia.
Qed.

(** A write into a block that is clear of the record keeps the anchors. *)
Lemma clear_avoids (t v lo n x : Z) :
  t <> pd \/ clear_of v a \/ (v = 0 /\ lo + n <= 32) ->
  0 <= lo -> lo + n <= BLOCK_SIZE ->
  v + lo <= x < v + lo + n -> ~ P t x.
Proof.
  unfold P, anchors, dir, clear_of, sizeof_wfs_sb, sizeof_wfs_inode, BLOCK_SIZE,
    i_num, i_size, i_nlinks, sb_i_blocks_ptr, sb_d_blocks_ptr.
  cbn [fst snd]. intros H H0 H1 Hx [E Hp].
  destruct H as [N | H]; [contradiction | ].
  pose proof layout as L. unfold record_layout, dir in L. cbn [fst snd] in L.
  destruct L as (L1 & L2 & L3 & L4).
  unfold sizeof_wfs_sb, sizeof_wfs_inode, BLOCK_SIZE in *.
  assert (0 <= load64u (image_at s0 pd) sb_num_data_blocks / 32).
  { apply Z.div_pos; [apply load_le_range | lia]. }
  lia.
Qed.

(** The entry written at [d]: number, then name. *)
Lemma entry_written (s s' : fs) (d : addr) (num : Z) (name : string)
      (v lo : Z) :
  kept P s0 s ->
  snd d = v + lo -> 0 <= lo -> lo + sizeof_wfs_dentry <= BLOCK_SIZE ->
  fst d <> pd \/ clear_of v a \/ (v = 0 /\ lo + sizeof_wfs_dentry <= 32) ->
  (wr store32 (d +: de_num) num ;; strncpy_name d name) s = Some (tt, s') ->
  kept P s0 s'.
Proof.
  intros K Ed H0 H1 Hc H. open_bind H. apply wr_inv in Hc0. destruct Hc0 as [Hm ->].
  unfold strncpy_name, memcpy_at in H. open_bind H.
  apply region_inv in Hc0. destruct Hc0 as (-> & Hm' & ->).
  apply set_region_inv in H. subst s'.
  unfold shift in *. cbn [fst snd] in *.
  unfold sizeof_wfs_dentry, de_num, de_name, MAX_NAME in *.
  eapply kept_trans; [exact K | ]. eapply kept_trans.
  - refine (kept_store P s (fst d) (snd d + 28) 4 num Hm _).
    intros x Hx. apply (clear_avoids (fst d) v (lo + 28) 4 x); try lia.
    destruct Hc as [N | [C | [Z0 Hl]]]; auto. right. right. split; [exact Z0 | lia].
  - refine (kept_memcpy P _ (fst d) (snd d + 0) _ Hm' _).
    rewrite length_slice. change (Z.of_nat (Z.to_nat 28)) with 28.
    intros x Hx. apply (clear_avoids (fst d) v lo 28 x); try lia.
    destruct Hc as [N | [C | [Z0 Hl]]]; auto. right. right. split; [exact Z0 | lia].
Qed.

Lemma bump_at_effect (grow : bool) (w : addr) (s s' : fs) :
  bump_at grow w s = Some (tt, s') ->
  mapped s (fst w)
  /\ exists m',
       s' = with_image s (fst w) m'
       /\ load32s m' (snd w + i_nlinks)
          = s32 (load32s (image_at s (fst w)) (snd w + i_nlinks) + 1)
       /\ forall x, ~ (snd w + i_size <= x < snd w + i_nlinks + 4) ->
                    load8 m' x = load8 (image_at s (fst w)) x.
Proof.
  unfold bump_at. intros H. open_rd H. open_bind H.
  apply wr_inv in Hc. destruct Hc as [_ ->].
  unfold shift in *. cbn [fst snd] in *. unfold i_nlinks, i_size in *.
  split; [exact Hm | ].
  destruct grow.
  - open_rd H. apply wr_inv in H. cbn [fst snd] in H. destruct H as [_ ->].
    rewrite image_at_with_image, Z.eqb_refl, with_image_twice by exact Hm.
    eexists. split; [reflexivity | ].
    split.
    + unfold store64. rewrite load32s_store_other by lia.
      rewrite load32s_store32. apply (wrap_signed_idem 32). lia.
    + intros x Hx. unfold store64, store32.
      rewrite !store_le_outside by lia. reflexivity.
  - injection H as <-. eexists. split; [reflexivity | ]. split.
    + rewrite load32s_store32. apply (wrap_signed_idem 32). lia.
    + intros x Hx. apply store_le_outside. lia.
Qed.

Lemma bump_parent_eq (parent : addr) (grow : bool) :
  bump_parent parent grow
  = (mode <- gets raid_mode ;;
     if mode =? RAID0 then
       n <- gets total_devices ;;
       for_each_disk (Z.to_nat n) 0 (fun i =>
         num <- rd load32s (parent +: i_num) ;;
         w <- get_inode num i ;;
         w <- deref w ;;
         bump_at grow w)
     else bump_at grow parent).
Proof. reflexivity. Qed.

Lemma a_lower_bound : sizeof_wfs_sb <= a.
Proof.
  pose proof layout as L. unfold record_layout, dir in L. cbn [fst snd] in L.
  destruct L as (L1 & L2 & _).
  assert (0 <= load64u (image_at s0 pd) sb_num_data_blocks / 32)
    by (apply Z.div_pos; [apply load_le_range | lia]).
  lia.
Qed.

(** The loop of [bump_parent] under RAID0: the record is bumped when its
    disk comes, and not touched otherwise. *)
Lemma bump_loop (grow : bool) (n : nat) (i : Z) (s s' : fs) :
  load64s (image_at s pd) sb_i_blocks_ptr
  + load32s (image_at s pd) (a + i_num) * BLOCK_SIZE = a ->
  for_each_disk n i (fun i =>
    num <- rd load32s (dir +: i_num) ;;
    w <- get_inode num i ;;
    w <- deref w ;;
    bump_at grow w) s = Some (tt, s') ->
  (i <= pd < i + Z.of_nat n ->
   load32s (image_at s' pd) (a + i_nlinks)
   = s32 (load32s (image_at s pd) (a + i_nlinks) + 1))
  /\ (pd < i \/ i + Z.of_nat n <= pd -> image_at s' pd = image_at s pd).
Proof.
  revert i s. induction n as [ | n IH]; intros i s Ha H.
  - injection H as <-. split; [lia | reflexivity].
  - cbn [for_each_disk] in H. open_bind H. destruct a0.
    open_rd Hc. open_bind Hc.
    apply get_inode_inv in Hc0. destruct Hc0 as (-> & Hmi & Hw).
    destruct Hw as [-> | ->]; [discriminate | ].
    cbn [deref] in Hc. open_bind Hc. injection Hc0 as <- <-.
    apply bump_at_effect in Hc. cbn [fst snd] in Hc.
    destruct Hc as (_ & m' & -> & Hn & Hf).
    unfold dir, shift in *. cbn [fst snd] in *.
    pose proof a_lower_bound as La. unfold sizeof_wfs_sb in La.
    destruct (Z.eq_dec i pd) as [-> | N].
    + rewrite Ha in Hn, Hf.
      assert (E1 : image_at (with_image s pd m') pd = m').
      { rewrite image_at_with_image by exact Hmi. rewrite Z.eqb_refl. reflexivity. }
      destruct (IH (pd + 1) (with_image s pd m')) as [_ IH2]; [ | exact H | ].
      { rewrite E1. unfold load64s, load32s.
        rewrite (load_le_ext 8 (image_at s pd) m'), (load_le_ext 4 (image_at s pd) m');
          [exact Ha | | ];
          intros x Hx; apply Hf; unfold i_size, i_nlinks, i_num, sb_i_blocks_ptr in *;
          change (Z.of_nat 4) with 4 in Hx; change (Z.of_nat 8) with 8 in Hx; lia. }
      split; [ | lia]. intros _. rewrite IH2 by lia. rewrite E1. exact Hn.
    + assert (E1 : image_at (with_image s i m') pd = image_at s pd).
      { rewrite image_at_with_image by exact Hmi.
        destruct (Z.eqb_spec pd i); [congruence | reflexivity]. }
      destruct (IH (i + 1) (with_image s i m')) as [IH1 IH2]; [ | exact H | ].
      { rewrite E1. exact Ha. }
      rewrite E1 in IH1, IH2. split; intros R; [apply IH1 | apply IH2]; lia.
Qed.

(** [bump_parent] adds one to the link count of the record. *)
Lemma bump_parent_counts (grow : bool) (s s' : fs) :
  kept P s0 s ->
  bump_parent dir grow s = Some (tt, s') ->
  load32s (image_at s' pd) (a + i_nlinks)
  = s32 (load32s m0 (a + i_nlinks) + 1).
Proof.
  intros K H. rewrite bump_parent_eq in H.
  destruct (kept_fields s K) as (Kip & _ & Knum & _ & Kn).
  destruct K as (Kmode & Ktd & _).
  open_bind H. injection Hc as <- <-.
  destruct (Z.eqb_spec (raid_mode s) RAID0) as [R | R].
  - open_bind H. injection Hc as <- <-.
    rewrite Kmode in R. destruct (own R) as [Hpd Hown].
    unfold dir in Hown, Hpd. cbn [fst snd] in Hown, Hpd. fold m0 in Hown.
    apply bump_loop in H; [ | rewrite Kip, Knum; symmetry; exact Hown].
    destruct H as [H _]. rewrite H by (rewrite Ktd; lia).
    rewrite Kn. reflexivity.
  - apply bump_at_effect in H. unfold dir in H. cbn [fst snd] in H.
    destruct H as (Hm & m' & -> & Hn & _).
    rewrite image_at_with_image by exact Hm. rewrite Z.eqb_refl.
    rewrite Hn, Kn. reflexivity.
Qed.

Lemma addr_eqb_refl (p : addr) : addr_eqb p p = true.
Proof. unfold addr_eqb. rewrite !Z.eqb_refl. reflexivity. Qed.

(** A store into the pointer table of the record keeps the anchors. *)
Lemma slot_avoids (t k x : Z) :
  0 <= k <= D_BLOCK ->
  a + i_blocks k <= x < a + i_blocks k + 8 -> ~ P t x.
Proof.
  unfold P, anchors, dir, i_blocks, D_BLOCK, i_num, i_size, i_nlinks,
    sb_i_blocks_ptr, sb_d_blocks_ptr.
  cbn [fst snd]. intros Hk Hx [_ Hp].
  pose proof a_lower_bound as La. unfold sizeof_wfs_sb in La. lia.
Qed.

(** The loop of the resolver under RAID0 that stores a new block offset
    in the copy of the record on every disk. *)
Lemma store_loop (nb k : Z) (n : nat) (i : Z) (s s' : fs) :
  0 <= k <= D_BLOCK -> 0 <= i ->
  kept P s0 s ->
  for_each_disk n i (fun i =>
    num <- rd load32s (dir +: i_num) ;;
    w <- get_inode num i ;;
    w <- deref w ;;
    if negb (addr_eqb (dir +: i_blocks 0) (dir +: i_blocks 0)) then
      ind_i <- rd load64s (w +: i_blocks IND_BLOCK) ;;
      wr store64 ((i, ind_i) +: 8 * k) nb
    else wr store64 (w +: i_blocks k) nb) s = Some (tt, s') ->
  raid_mode s0 = RAID0 ->
  kept P s0 s'
  /\ (i <= pd < i + Z.of_nat n ->
      load64s (image_at s' pd) (a + i_blocks k) = s64 nb)
  /\ (pd < i \/ i + Z.of_nat n <= pd -> image_at s' pd = image_at s pd).
Proof.
  intros Hk. revert i s. induction n as [ | n IH]; intros i s Hi K H R.
  - injection H as <-. split; [exact K | ]. split; [lia | reflexivity].
  - cbn [for_each_disk] in H. open_bind H. destruct a0.
    open_rd Hc. open_bind Hc.
    apply get_inode_inv in Hc0. destruct Hc0 as (-> & Hmi & Hw).
    destruct Hw as [-> | ->]; [discriminate | ].
    cbn [deref] in Hc. open_bind Hc. injection Hc0 as <- <-.
    rewrite addr_eqb_refl in Hc. cbn [negb] in Hc.
    apply wr_inv in Hc. unfold dir, shift in *. cbn [fst snd] in *.
    destruct Hc as [_ ->].
    destruct (kept_fields s K) as (Kip & _ & Knum & _).
    destruct (own R) as [Hpd Hown].
    unfold dir in Hown, Hpd. cbn [fst snd] in Hown, Hpd. fold m0 in Hown.
    destruct (Z.eq_dec i pd) as [-> | N].
    + rewrite Kip, Knum, <- Hown in H.
      set (s1 := with_image s pd (store64 (image_at s pd) (a + i_blocks k) nb)) in *.
      assert (K1 : kept P s0 s1).
      { eapply kept_trans; [exact K | ].
        refine (kept_store P s pd (a + i_blocks k) 8 nb Hmi _).
        intros x Hx. apply (slot_avoids pd k x Hk Hx). }
      destruct (IH (pd + 1) s1 ltac:(lia) K1 H R) as (K' & _ & IH2).
      split; [exact K' | ]. split; [ | lia].
      intros _. rewrite IH2 by lia. subst s1.
      rewrite image_at_with_image by exact Hmi. rewrite Z.eqb_refl.
      apply load64s_store64.
    + match type of H with
      | for_each_disk _ _ _ ?st = _ => set (s1 := st) in *
      end.
      assert (E1 : image_at s1 pd = image_at s pd).
      { subst s1. rewrite image_at_with_image by exact Hmi.
        destruct (Z.eqb_spec pd i); [congruence | reflexivity]. }
      assert (K1 : kept P s0 s1).
      { eapply kept_trans; [exact K | ]. subst s1.
        apply kept_with_image; [exact Hmi | ].
        intros x [E _]. cbn [fst] in E. congruence. }
      destruct (IH (i + 1) s1 ltac:(lia) K1 H R) as (K' & IH1 & IH2).
      rewrite E1 in IH2. split; [exact K' | ].
      split; intros Hr; [apply IH1 | apply IH2]; lia.
Qed.

(** The anchors are clear of the data bitmap of every disk. *)
Lemma bitmap_avoids (t x : Z) :
  load64s (image_at s0 t) sb_d_bitmap_ptr <= x
  < load64s (image_at s0 t) sb_d_bitmap_ptr
    + 4 * (load64u (image_at s0 t) sb_num_data_blocks / 32) ->
  ~ P t x.
Proof.
  unfold P, anchors, dir, i_num, i_size, i_nlinks, sb_i_blocks_ptr,
    sb_d_blocks_ptr. cbn [fst snd].
  intros Hx [-> Hp].
  pose proof layout as L. unfold record_layout, dir in L. cbn [fst snd] in L.
  unfold sizeof_wfs_sb in L. lia.
Qed.

(** A block that [allocate_block] gave on the disk of the record lies in
    the data region, clear of the record. *)
Lemma new_block_clear (s : fs) (n : Z) :
  kept P s0 s ->
  0 <= n < 32 * (load64u m0 sb_num_data_blocks / 32) ->
  let b := s64 (load64s (image_at s pd) sb_d_blocks_ptr + BLOCK_SIZE * n) in
  clear_of b a /\ s64 b = b.
Proof.
  intros K Hn b. subst b.
  destruct (kept_fields s K) as (_ & -> & _).
  pose proof layout as L. unfold record_layout, dir in L. cbn [fst snd] in L.
  fold m0 in L. destruct L as (L1 & L2 & L3 & L4).
  pose proof a_lower_bound as La.
  unfold sizeof_wfs_sb, sizeof_wfs_inode, BLOCK_SIZE in *.
  assert (Hnd : 0 <= load64u m0 sb_num_data_blocks) by apply load_le_range.
  pose proof (Z.mul_div_le (load64u m0 sb_num_data_blocks) 32 ltac:(lia)).
  set (nd := load64u m0 sb_num_data_blocks) in *.
  set (dp := load64s m0 sb_d_blocks_ptr) in *.
  clearbody nd dp.
  assert (R : 0 <= dp + 512 * n < 2 ^ 63) by lia.
  rewrite (s64_small (dp + 512 * n)) by lia.
  split; [right; unfold sizeof_wfs_inode; lia | apply s64_small; lia].
Qed.

Lemma hole_beyond_size (k : Z) :
  0 <= k <= D_BLOCK ->
  load64s m0 (a + i_blocks k) = 0 -> size0 <= BLOCK_SIZE * k.
Proof.
  intros Hk E. destruct (placed k Hk) as [[_ H] | C]; [exact H | ].
  unfold dir in C. cbn [fst snd] in C. fold m0 in C. rewrite E in C.
  pose proof a_lower_bound. unfold clear_of, sizeof_wfs_sb, sizeof_wfs_inode in *.
  lia.
Qed.

(** Resolving an offset in the direct blocks of the record, allocating
    or not: the anchors are kept, and the block is clear of the record,
    or on another disk, or missing beyond the size. *)
Lemma place_direct (off alloc disk : Z) (r : option addr) (s' : fs) :
  0 <= off < IND_BLOCK * BLOCK_SIZE ->
  get_block_location (Some dir) off alloc disk s0 = Some (r, s') ->
  kept P s0 s'
  /\ (r = None
      \/ exists t v,
           r = Some (t, v + off mod BLOCK_SIZE)
           /\ (t <> pd \/ clear_of v a
               \/ (v = 0 /\ size0 <= BLOCK_SIZE * (off / BLOCK_SIZE)))).
Proof.
  intros Hoff H.
  change (IND_BLOCK * BLOCK_SIZE) with 3584 in Hoff.
  assert (Hk : 0 <= off / BLOCK_SIZE <= D_BLOCK).
  { unfold BLOCK_SIZE, D_BLOCK. split; [apply Z.div_pos; lia | ].
    apply Z.lt_succ_r. apply Z.div_lt_upper_bound; lia. }
  destruct (block_num_small off ltac:(lia)
              ltac:(unfold D_BLOCK in Hk; lia)) as [Ek Er].
  unfold get_block_location in H. rewrite Ek, Er in H.
  set (k := off / BLOCK_SIZE) in *.
  rewrite (u64_small k) in H by (unfold D_BLOCK in Hk; lia).
  change (D_BLOCK + BLOCK_SIZE / 8) with 70 in H.
  destruct (Z.gtb_spec k 70); [unfold D_BLOCK in Hk; lia | ].
  destruct (Z.gtb_spec k D_BLOCK); [lia | ].
  cbn [deref] in H.
  open_bind H. injection Hc as <- <-.
  open_bind H. injection Hc as <- <-.
  assert (Eslot : a + i_blocks 0 + 8 * k = a + i_blocks k)
    by (unfold i_blocks; lia).
  assert (Old : forall t,
            t <> pd \/ clear_of (load64s m0 (a + i_blocks k)) a
            \/ (load64s m0 (a + i_blocks k) = 0 /\ size0 <= BLOCK_SIZE * k)).
  { intros t. destruct (placed k Hk) as [Hh | C]; [right; right; exact Hh | ].
    right. left. exact C. }
  assert (Efst : fst (dir +: i_blocks 0 +: 8 * k) = pd) by reflexivity.
  assert (Esnd : snd (dir +: i_blocks 0 +: 8 * k) = a + i_blocks k)
    by (unfold dir, shift; cbn [fst snd]; exact Eslot).
  destruct (Z.eqb_spec (raid_mode s0) RAID0) as [R | R].
  - open_bind H. injection Hc as <- <-.
    destruct (total_devices s0 =? 0); [discriminate | ].
    open_bind H. injection Hc as <- <-.
    open_rd H. rewrite Efst, Esnd in H. fold m0 in H.
    destruct (negb (alloc =? 0) && (load64s m0 (a + i_blocks k) =? 0)) eqn:A.
    + apply andb_prop in A. destruct A as [_ A]. apply Z.eqb_eq in A.
      open_bind H. open_bind Hc.
      apply (allocate_block_effect P) in Hc0; [ | apply bitmap_avoids].
      destruct Hc0 as (K1 & Hmt & Hb).
      destruct (own R) as [Hpd _]. unfold dir in Hpd. cbn [fst snd] in Hpd.
      destruct a0.
      apply (store_loop a1 k _ 0 s1 s Hk ltac:(lia) K1) in Hc; [ | exact R].
      destruct Hc as (K2 & Hv & _).
      open_rd H. rewrite Efst, Esnd, Hv in H by lia.
      injection H as <- <-.
      split; [exact K2 | ]. right.
      exists (Z.rem k (total_devices s0)), (s64 a1). split; [reflexivity | ].
      destruct (Z.eq_dec (Z.rem k (total_devices s0)) pd) as [E | N];
        [ | left; exact N].
      right. rewrite E in *.
      destruct Hb as [[-> ->] | (n & Hn & ->)].
      * right. split; [reflexivity | ]. apply hole_beyond_size; assumption.
      * left. destruct (new_block_clear s1 n K1 Hn) as [C ->]. exact C.
    + open_bind H. injection Hc as <- <-.
      open_rd H. rewrite Efst, Esnd in H. fold m0 in H.
      injection H as <- <-.
      split; [apply kept_refl | ]. right.
      exists (Z.rem k (total_devices s0)), (load64s m0 (a + i_blocks k)).
      split; [reflexivity | apply Old].
  - open_bind H. injection Hc as <- <-.
    open_rd H. rewrite Efst, Esnd in H. fold m0 in H.
    destruct (negb (alloc =? 0) && (load64s m0 (a + i_blocks k) =? 0)) eqn:A.
    + apply andb_prop in A. destruct A as [_ A]. apply Z.eqb_eq in A.
      open_bind H. open_bind Hc.
      apply (allocate_block_effect P) in Hc0; [ | apply bitmap_avoids].
      destruct Hc0 as (K1 & Hmt & Hb).
      apply wr_inv in Hc. rewrite Efst, Esnd in Hc. destruct Hc as [Hm1 ->].
      assert (K2 : kept P s0 (with_image s1 pd
                     (store64 (image_at s1 pd) (a + i_blocks k) a1))).
      { eapply kept_trans; [exact K1 | ].
        refine (kept_store P s1 pd (a + i_blocks k) 8 a1 Hm1 _).
        intros x Hx. apply (slot_avoids pd k x Hk Hx). }
      open_rd H. rewrite Efst, Esnd in H.
      rewrite image_at_with_image in H by exact Hm1.
      rewrite Z.eqb_refl, load64s_store64 in H.
      destruct (Z.eqb_spec (s64 a1) 0) as [Z0 | NZ]; injection H as <- <-;
        (split; [exact K2 | ]); [left; reflexivity | ].
      right. exists disk, (s64 a1). split; [reflexivity | ].
      destruct (Z.eq_dec disk pd) as [E | N]; [ | left; exact N].
      right. left. rewrite E in *.
      destruct Hb as [[-> ->] | (n & Hn & ->)]; [contradiction | ].
      destruct (new_block_clear s1 n K1 Hn) as [C ->]. exact C.
    + open_bind H. injection Hc as <- <-.
      open_rd H. rewrite Efst, Esnd in H. fold m0 in H.
      destruct (Z.eqb_spec (load64s m0 (a + i_blocks k)) 0);
        injection H as <- <-; (split; [apply kept_refl | ]);
        [left; reflexivity | ].
      right. exists disk, (load64s m0 (a + i_blocks k)).
      split; [reflexivity | apply Old].
Qed.
(** Two steps that succeed one after the other succeed as a sequence. *)
Lemma seq_eq (A B : Type) (c1 : M A) (c2 : M B) (s s1 s2 : fs) (x : A)
      (y : B) :
  c1 s = Some (x, s1) -> c2 s1 = Some (y, s2) ->
  (c1 ;; c2) s = Some (y, s2).
Proof. intros H1 H2. unfold bind. rewrite H1. exact H2. Qed.

(** Filling a slot: the entry is written into a block that is clear of
    the record, then the parent is bumped. *)
Lemma fill_slot (R : Type) (s s' : fs) (d : addr) (num : Z)
      (name : string) (v lo : Z) (grow : bool) (r : R) :
  kept P s0 s ->
  snd d = v + lo -> 0 <= lo -> lo + sizeof_wfs_dentry <= BLOCK_SIZE ->
  fst d <> pd \/ clear_of v a \/ (v = 0 /\ lo + sizeof_wfs_dentry <= 32) ->
  (wr store32 (d +: de_num) num ;; strncpy_name d name ;;
   bump_parent dir grow ;; ret r) s = Some (r, s') ->
  load32s (image_at s' pd) (a + i_nlinks)
  = s32 (load32s m0 (a + i_nlinks) + 1).
Proof.
  intros K Ed H0 H1 Hcl H.
  open_bind H. open_bind H. open_bind H. injection H as <-.
  destruct a0, a1, a2.
  pose proof (seq_eq _ _ _ _ _ _ _ _ _ Hc Hc0) as Hw.
  pose proof (entry_written _ _ _ _ _ _ _ K Ed H0 H1 Hcl Hw) as K'.
  exact (bump_parent_counts _ _ _ K' Hc1).
Qed.

(** The scan for a free slot: either it took the entry and the count of
    the parent went up by one, or nothing changed. *)
Lemma insert_scan_counts (fuel : nat) (off num : Z) (name : string)
      (disk : Z) (done : bool) (s' : fs) :
  0 <= off -> off mod sizeof_wfs_dentry = 0 ->
  size0 <= IND_BLOCK * BLOCK_SIZE ->
  insert_scan fuel off dir num name disk s0 = Some (done, s') ->
  (done = true
   /\ load32s (image_at s' pd) (a + i_nlinks)
      = s32 (load32s m0 (a + i_nlinks) + 1))
  \/ (done = false /\ s' = s0).
Proof.
  intros H0 Ha Hsz. revert off H0 Ha.
  induction fuel as [ | fuel IH]; intros off H0 Ha H; [discriminate | ].
  cbn [insert_scan] in H.
  open_rd H.
  change (load64s (image_at s0 (fst (dir +: i_size))) (snd (dir +: i_size)))
    with size0 in H.
  destruct (Z.ltb_spec off size0) as [Lt | Ge].
  - open_bind H.
    assert (R0 : 0 <= off < IND_BLOCK * BLOCK_SIZE) by lia.
    pose proof (resolve_direct _ _ _ _ _ _ R0 Hc) as [-> _].
    destruct (place_direct _ _ _ _ _ R0 Hc) as [_ [-> | (t & v & -> & Hcl)]];
      [discriminate | ].
    cbn [deref] in H. open_bind H. injection Hc0 as <- <-.
    open_rd H.
    match type of H with
    | (if ?c then _ else _) _ = _ => destruct c
    end.
    + left.
      assert (E : done = true).
      { do 3 open_bind H. injection H as <-. reflexivity. }
      subst done. split; [reflexivity | ].
      unfold sizeof_wfs_dentry, BLOCK_SIZE in *.
      refine (fill_slot _ s0 s' (t, v + off mod 512) num name v (off mod 512)
                false true (kept_refl P s0) eq_refl _ _ _ H).
      * apply Z.mod_pos_bound. lia.
      * pose proof (Z.mod_pos_bound off 512 ltac:(lia)).
        assert (E : (off mod 512) mod 32 = 0).
        { rewrite (Z.mod_eq off 512) by lia.
          replace (off - 512 * (off / 512))
            with (off + (- 16 * (off / 512)) * 32) by lia.
          rewrite Z_mod_plus_full. exact Ha. }
        apply Z.div_exact in E; [ | lia].
        unfold sizeof_wfs_dentry, BLOCK_SIZE. lia.
      * cbn [fst]. destruct Hcl as [N | [C | [_ Hh]]];
          [left; exact N | right; left; exact C | ].
        pose proof (Z.mul_div_le off 512 ltac:(lia)). lia.
    + apply (IH (off + sizeof_wfs_dentry)); [unfold sizeof_wfs_dentry; lia | | exact H].
      unfold sizeof_wfs_dentry in *.
      rewrite Z.add_mod, Ha by lia. reflexivity.
  - injection H as <- <-. right. split; reflexivity.
Qed.

(** A successful [insert_dir_entry] on the record raises its link count
    by one. *)
Lemma insert_counts (num : Z) (name : string) (disk : Z) (s' : fs) :
  0 <= size0 < IND_BLOCK * BLOCK_SIZE -> size0 mod BLOCK_SIZE = 0 ->
  insert_dir_entry (Some dir) num name disk s0 = Some (0, s') ->
  load32s (image_at s' pd) (a + i_nlinks)
  = s32 (load32s m0 (a + i_nlinks) + 1).
Proof.
  intros Hsz Hal H. unfold insert_dir_entry in H. cbn [deref] in H.
  open_bind H. injection Hc as <- <-.
  open_rd H. open_bind H.
  apply insert_scan_counts in Hc; [ | lia | reflexivity | lia].
  destruct Hc as [[-> E] | [-> ->]].
  - injection H as <-. exact E.
  - open_rd H.
    change (load64s (image_at s0 (fst (dir +: i_size))) (snd (dir +: i_size)))
      with size0 in H.
    open_bind H.
    destruct (place_direct _ _ _ _ _ Hsz Hc) as [K [-> | (t & v & -> & Hcl)]];
      [discriminate | ].
    rewrite Hal in H.
    refine (fill_slot _ s s' (t, v + 0) num name v 0 true 0 K eq_refl _ _ _ H).
    + lia.
    + unfold sizeof_wfs_dentry, BLOCK_SIZE. lia.
    + cbn [fst]. destruct Hcl as [N | [C | [Hv _]]];
        [left; exact N | right; left; exact C | ].
      right. right. split; [exact Hv | unfold sizeof_wfs_dentry; lia].
Qed.


End Insertion.

(** ** The link count of a directory *)

Section Counting.
Import Wfs.

Lemma load64u_of_signed (m : image) (x : Z) :
  0 <= load64s m x -> load64u m x = load64s m x.
Proof.
  unfold load64s, load64u. intros H.
  pose proof (load_le_range 8 m x) as R. change (256 ^ Z.of_nat 8) with (2 ^ 64) in R.
  set (v := load_le 8 m x) in *.
  unfold s64, wrap_signed in *. change (2 ^ (64 - 1)) with (2 ^ 63) in *.
  rewrite Z.mod_small in * by lia.
  destruct (Z.ltb_spec v (2 ^ 63)); lia.
Qed.

(** A successful [delete_dir_entry] leaves the link count as it was. *)
Lemma delete_keeps_count (s s' : fs) (dir : addr) (inum disk : Z) :
  let m := image_at s (fst dir) in
  direct_blocks_placed s dir ->
  0 <= load64s m (snd dir + i_size) <= IND_BLOCK * BLOCK_SIZE ->
  delete_dir_entry (Some dir) inum disk s = Some (0, s') ->
  load32s (image_at s' (fst dir)) (snd dir + i_nlinks)
  = load32s m (snd dir + i_nlinks).
Proof.
  intros m Hp Hsz H.
  assert (Eu : load64u m (snd dir + i_size) = load64s m (snd dir + i_size))
    by (apply load64u_of_signed; lia).
  apply delete_dir_entry_effect in H; [ | fold m; lia].
  destruct H as (off & d & Hoff & Ha & Ed & _ & Hm & _ & ->).
  fold m in Hoff, Ed. rewrite Eu in Hoff.
  unfold load32s. f_equal. apply load_after_store; [exact Hm | ].
  destruct (Z.eq_dec (fst dir) (fst d)) as [E | N]; [right | left; exact N].
  change (Z.of_nat 4) with 4.
  assert (Hk : 0 <= off / BLOCK_SIZE <= D_BLOCK).
  { unfold IND_BLOCK, D_BLOCK, BLOCK_SIZE in *. split; [apply Z.div_pos; lia | ].
    apply Z.lt_succ_r. apply Z.div_lt_upper_bound; lia. }
  pose proof (Z.mod_pos_bound off BLOCK_SIZE ltac:(unfold BLOCK_SIZE; lia)) as Hlo.
  assert (Hlo' : off mod BLOCK_SIZE + 32 <= BLOCK_SIZE).
  { unfold sizeof_wfs_dentry, BLOCK_SIZE in *.
    assert (E2 : (off mod 512) mod 32 = 0).
    { rewrite (Z.mod_eq off 512) by lia.
      replace (off - 512 * (off / 512))
        with (off + (- 16 * (off / 512)) * 32) by lia.
      rewrite Z_mod_plus_full. exact Ha. }
    apply Z.div_exact in E2; [ | lia]. lia. }
  destruct (Hp _ Hk) as [[_ Hh] | C]; fold m in Hh || fold m in C.
  - pose proof (Z.mul_div_le off BLOCK_SIZE ltac:(unfold BLOCK_SIZE; lia)). lia.
  - unfold clear_of, sizeof_wfs_inode, sizeof_wfs_sb, BLOCK_SIZE, de_num,
      i_nlinks in *. lia.
Qed.

End Counting.

Section LinkCount.
Import Wfs Scenario.

(** What the two calls do to the link count of a directory whose record
    lies in the inode region, whose entries are in its direct blocks and
    whose size is a whole number of blocks below seven, in every RAID
    mode: a successful [insert_dir_entry] raises the link count by one,
    and a successful [delete_dir_entry] leaves it as it was. *)
Lemma link_count_counts_insertions (s : fs) (dir : addr) (disk : Z) :
  let m := image_at s (fst dir) in
  let nlinks s := load32s (image_at s (fst dir)) (snd dir + i_nlinks) in
  record_layout s dir ->
  direct_blocks_placed s dir ->
  (raid_mode s = RAID0 -> own_record s dir) ->
  0 <= load64s m (snd dir + i_size) < IND_BLOCK * BLOCK_SIZE ->
  load64s m (snd dir + i_size) mod BLOCK_SIZE = 0 ->
  (forall num name s',
      insert_dir_entry (Some dir) num name disk s = Some (0, s') ->
      nlinks s' = s32 (nlinks s + 1))
  /\ (forall inum s',
         delete_dir_entry (Some dir) inum disk s = Some (0, s') ->
         nlinks s' = nlinks s).
Proof.
  intros m nlinks L Pl Ow Hsz Hal. destruct dir as [pd a]. split.
  - intros num name s' H.
    exact (insert_counts s pd a L Pl Ow num name disk s' Hsz Hal H).
  - intros inum s' H.
    apply (delete_keeps_count s s' (pd, a) inum disk Pl); [ | exact H].
    fold m. lia.
Qed.

Lemma link_count_counts_insertions_witness :
  load32s (image_at (the raid0_a_b) 0) (512 + i_nlinks)
  = s32 (load32s (image_at (the raid0_a) 0) (512 + i_nlinks) + 1)
  /\ load32s (image_at (the raid0_a_unlisted) 0) (512 + i_nlinks)
     = load32s (image_at (the raid0_a) 0) (512 + i_nlinks).
Proof.
  destruct (link_count_counts_insertions (the raid0_a) (0, 512) 0)
    as [Hi Hd].
  - vm_compute. repeat split; discriminate.
  - intros k Hk. change D_BLOCK with 6 in Hk.
    assert (E : k = 0 \/ k = 1 \/ k = 2 \/ k = 3 \/ k = 4 \/ k = 5 \/ k = 6)
      by lia.
    destruct E as [-> | [-> | [-> | [-> | [-> | [-> | ->]]]]]];
      vm_compute;
      ((left; split; [reflexivity | discriminate])
       || (right; right; discriminate)).
  - intros _. vm_compute. split; [split; [discriminate | reflexivity] | reflexivity].
  - vm_compute. split; [discriminate | reflexivity].
  - vm_compute. reflexivity.
  - split.
    + apply (Hi 2 "b"%string). vm_compute. reflexivity.
    + apply (Hd 1). vm_compute. reflexivity.
Defined.

(** C7 at its failing input: on the mirrored volume the link count of
    the root directory is 1 after [mkfs]; [WFS_MKNOD] of [/a] returns 0,
    the directory lists the entry and the count is 2, one plus the
    entries; [wfs_unlink] of [/a] returns 0 and the directory lists no
    entry, but the count is still 2, on both disks. *)
Theorem removed_entry_is_still_counted :
  peek load32s 0 (512 + i_nlinks) raid1_volume = Some 1
  /\ result (WFS_MKNOD proc "/a" mode_0644) raid1_volume = Some 0
  /\ result (wfs_readdir "/") raid1_a
     = Some (0, [Literal "."; Literal ".."; Entry (0, 16896)])
  /\ peek load32s 0 (512 + i_nlinks) raid1_a = Some 2
  /\ result (wfs_unlink "/a") raid1_a = Some 0
  /\ result (wfs_readdir "/") raid1_a_removed
     = Some (0, [Literal "."; Literal ".."])
  /\ peek load32s 0 (512 + i_nlinks) raid1_a_removed = Some 2
  /\ peek load32s 1 (512 + i_nlinks) raid1_a_removed = Some 2.
Proof. repeat split; vm_compute; reflexivity. Qed.

End LinkCount.

(** ** The data bitmap *)

Section Marking.
Import Wfs.

Lemma kept_weaken (P Q : Z -> Z -> Prop) (s s' : fs) :
  (forall j x, Q j x -> P j x) -> kept P s s' -> kept Q s s'.
Proof.
  intros H (A1 & A2 & A3 & A4 & A5 & A6).
  unfold kept. do 5 (split; [assumption | ]).
  intros j x Hq. apply A6, H, Hq.
Qed.

Lemma land_bit_clear (w b : Z) :
  0 <= b -> Z.land w (Z.shiftl 1 b) = 0 -> Z.testbit w b = false.
Proof.
  intros Hb H. rewrite Z.shiftl_1_l in H.
  assert (E : Z.testbit (Z.land w (2 ^ b)) b = false)
    by (rewrite H; apply Z.bits_0).
  rewrite Z.land_spec, Z.pow2_bits_true, andb_true_r in E by exact Hb.
  exact E.
Qed.

Lemma testbit_marked (w b b' : Z) :
  0 <= b < 32 -> 0 <= b' < 32 ->
  Z.testbit (Z.lor w (Z.shiftl 1 b) mod 2 ^ 32) b'
  = Z.testbit w b' || (b =? b').
Proof.
  intros Hb Hb'. rewrite Z.mod_pow2_bits_low by lia.
  rewrite Z.lor_spec, Z.shiftl_1_l, Z.pow2_bits_eqb by lia. reflexivity.
Qed.

(** [allocate_block] gives 0 and changes nothing, or marks a block that
    was not marked and gives its offset. *)
Lemma allocate_block_marks (disk : Z) (s s' : fs) (b : Z) :
  let m := image_at s disk in
  let db := load64s m sb_d_bitmap_ptr in
  let nd := load64u m sb_num_data_blocks in
  let dp := load64s m sb_d_blocks_ptr in
  sizeof_wfs_sb <= db ->
  allocate_block disk s = Some (b, s') ->
  mapped s disk
  /\ (b = 0 /\ s' = s
      \/ exists n,
           0 <= n < 32 * (nd / 32)
           /\ b = s64 (dp + BLOCK_SIZE * n)
           /\ ~ taken s disk n
           /\ s' = with_image s disk
                     (store32 m (db + 4 * (n / 32))
                        (Z.lor (load32u m (db + 4 * (n / 32)))
                               (Z.shiftl 1 (n mod 32))))).
Proof.
  intros m db nd dp Hdb H.
  unfold allocate_block, allocate_bitmap_block in H.
  open_rd H. open_rd H. open_bind H. unfold sb in *. cbn [fst snd] in *.
  fold m in H, Hc. fold db in Hc. fold nd in Hc.
  assert (Hnd : 0 <= nd / 32).
  { apply Z.div_pos; [ | lia]. subst nd. apply load_le_range. }
  apply scan_bitmap_effect in Hc.
  change (fst (disk, db)) with disk in Hc.
  change (snd (disk, db)) with db in Hc.
  destruct Hc as [[-> ->] | (w & bit & Hw & Hbit & -> & _ & Hz & ->)].
  - change (-1 <? 0) with true in H. injection H as <- <-.
    split; [exact Hm | ]. left. auto.
  - rewrite Z2Nat.id in Hw by lia.
    destruct (Z.ltb_spec (w * 32 + bit) 0); [lia | ].
    open_rd H. injection H as <- <-.
    split; [exact Hm | ]. right. exists (w * 32 + bit).
    assert (Ew : (w * 32 + bit) / 32 = w).
    { rewrite Z.add_comm, Z.div_add by lia. rewrite Z.div_small by lia. lia. }
    assert (Eb : (w * 32 + bit) mod 32 = bit).
    { rewrite Z.add_comm, Z.mod_add by lia. apply Z.mod_small. lia. }
    rewrite Ew, Eb. fold m.
    split; [lia | ]. split.
    + change (fst (disk, sb_d_blocks_ptr)) with disk.
      change (snd (disk, sb_d_blocks_ptr)) with sb_d_blocks_ptr.
      rewrite image_at_with_image by exact Hm. rewrite Z.eqb_refl.
      unfold store32.
      rewrite (load64s_store_other 4 m (db + 4 * w) _ sb_d_blocks_ptr);
        [reflexivity | ].
      unfold sb_d_blocks_ptr, sizeof_wfs_sb in *. lia.
    + split; [ | reflexivity].
      unfold taken. cbv zeta. fold m. fold db. rewrite Ew, Eb.
      fold m in Hz.
      rewrite (land_bit_clear _ bit (proj1 Hbit) Hz). discriminate.
Qed.

(** Marking a block keeps the marks there were, and every byte but
    those of the word of the bitmap. *)
Lemma mark_effect (disk n : Z) (s : fs) :
  let m := image_at s disk in
  let db := load64s m sb_d_bitmap_ptr in
  let s' := with_image s disk
              (store32 m (db + 4 * (n / 32))
                 (Z.lor (load32u m (db + 4 * (n / 32)))
                        (Z.shiftl 1 (n mod 32)))) in
  mapped s disk -> sizeof_wfs_sb <= db -> 0 <= n ->
  kept (fun j x => j <> disk \/ x < db + 4 * (n / 32)
                   \/ db + 4 * (n / 32) + 4 <= x) s s'
  /\ taken s' disk n
  /\ (forall n', 0 <= n' -> taken s disk n' -> taken s' disk n').
Proof.
  intros m db s' Hm Hdb Hn.
  assert (Hw : 0 <= n / 32) by (apply Z.div_pos; lia).
  assert (Hb : forall z, 0 <= z mod 32 < 32)
    by (intros; apply Z.mod_pos_bound; lia).
  assert (Edb : load64s (image_at s' disk) sb_d_bitmap_ptr = db).
  { subst s'. rewrite image_at_with_image by exact Hm. rewrite Z.eqb_refl.
    unfold store32. fold m.
    rewrite (load64s_store_other 4 m (db + 4 * (n / 32)) _ sb_d_bitmap_ptr);
      [reflexivity | ].
    unfold sb_d_bitmap_ptr, sizeof_wfs_sb in *. lia. }
  split; [ | split].
  - subst s'. refine (kept_store _ s disk (db + 4 * (n / 32)) 4 _ Hm _).
    intros x Hx [N | R]; [exact (N eq_refl) | lia].
  - unfold taken. rewrite Edb. subst s'.
    rewrite image_at_with_image by exact Hm. rewrite Z.eqb_refl.
    unfold load32u, store32.
    rewrite (load_store_le_same 4). change (256 ^ Z.of_nat 4) with (2 ^ 32).
    rewrite testbit_marked by apply Hb.
    rewrite Z.eqb_refl. apply orb_true_r.
  - intros n' Hn' T. unfold taken in *. rewrite Edb. fold m in T. fold db in T.
    subst s'. rewrite image_at_with_image by exact Hm. rewrite Z.eqb_refl.
    assert (Hw' : 0 <= n' / 32) by (apply Z.div_pos; lia).
    destruct (Z.eq_dec (n' / 32) (n / 32)) as [E | N].
    + rewrite E in *.
      unfold load32u, store32 in *.
      rewrite (load_store_le_same 4). change (256 ^ Z.of_nat 4) with (2 ^ 32).
      rewrite testbit_marked by apply Hb.
      rewrite T. reflexivity.
    + unfold load32u, store32 in *. rewrite load_store_le_other; [exact T | ].
      change (Z.of_nat 4) with 4. lia.
Qed.

End Marking.

Section FirstFree.
Import Wfs.

Lemma land_bit_set (w b : Z) :
  0 <= b -> Z.land w (Z.shiftl 1 b) <> 0 -> Z.testbit w b = true.
Proof.
  intros Hb H. destruct (Z.testbit w b) eqn:E; [reflexivity | ].
  exfalso. apply H. rewrite Z.shiftl_1_l. apply Z.bits_inj'. intros i Hi.
  rewrite Z.land_spec, Z.bits_0, Z.pow2_bits_eqb by exact Hb.
  destruct (Z.eqb_spec b i) as [<- | N]; [rewrite E | rewrite andb_false_r];
    reflexivity.
Qed.

Lemma find_zero_bit_first (n : nat) (bit word : Z) :
  0 <= bit ->
  match find_zero_bit n bit word with
  | Some b => bit <= b < bit + Z.of_nat n /\ Z.testbit word b = false
              /\ forall b', bit <= b' < b -> Z.testbit word b' = true
  | None => forall b', bit <= b' < bit + Z.of_nat n ->
                       Z.testbit word b' = true
  end.
Proof.
  revert bit. induction n as [ | n IH]; intros bit Hb; cbn [find_zero_bit].
  - intros b' H. lia.
  - destruct (Z.eqb_spec (Z.land word (Z.shiftl 1 bit)) 0) as [E | E].
    + split; [lia | ]. split; [apply land_bit_clear; assumption | ].
      intros b' H. lia.
    + specialize (IH (bit + 1) ltac:(lia)).
      pose proof (land_bit_set word bit Hb E) as T.
      destruct (find_zero_bit n (bit + 1) word) as [b | ].
      * destruct IH as (R & F & L). split; [lia | ]. split; [exact F | ].
        intros b' H. destruct (Z.eq_dec b' bit) as [-> | N]; [exact T | ].
        apply L. lia.
      * intros b' H. destruct (Z.eq_dec b' bit) as [-> | N]; [exact T | ].
        apply IH. lia.
Qed.

(** The scan of a bitmap always ends; it finds nothing when every bit of
    every word is set, and otherwise sets the lowest clear bit of the
    first word that has one. *)
Lemma scan_bitmap_first (n : nat) (w0 d a : Z) (s : fs) :
  let word w := load32u (image_at s d) (a + 4 * w) in
  mapped s d -> 0 <= w0 ->
  exists r s',
    scan_bitmap n w0 (d, a) s = Some (r, s')
    /\ ((r = -1 /\ s' = s
         /\ forall w b, w0 <= w < w0 + Z.of_nat n -> 0 <= b < 32 ->
                        Z.testbit (word w) b = true)
        \/ exists w bit,
             w0 <= w < w0 + Z.of_nat n /\ 0 <= bit < 32
             /\ r = w * 32 + bit
             /\ Z.testbit (word w) bit = false
             /\ (forall w' b, w0 <= w' < w -> 0 <= b < 32 ->
                              Z.testbit (word w') b = true)
             /\ (forall b, 0 <= b < bit -> Z.testbit (word w) b = true)
             /\ s' = with_image s d
                       (store32 (image_at s d) (a + 4 * w)
                          (Z.lor (word w) (Z.shiftl 1 bit)))).
Proof.
  intros word Hm. revert w0.
  induction n as [ | n IH]; intros w0 H0.
  - exists (-1), s. split; [reflexivity | ]. left.
    split; [reflexivity | ]. split; [reflexivity | ]. intros w b H. lia.
  - cbn [scan_bitmap]. unfold shift. cbn [fst snd].
    rewrite (bind_eq _ _ _ _ _ (rd_at load32u d (a + 4 * w0) s Hm)).
    fold (word w0).
    assert (Next :
      (forall b, 0 <= b < 32 -> Z.testbit (word w0) b = true) ->
      exists r s',
        scan_bitmap n (w0 + 1) (d, a) s = Some (r, s')
        /\ ((r = -1 /\ s' = s
             /\ forall w b, w0 <= w < w0 + Z.of_nat (S n) -> 0 <= b < 32 ->
                            Z.testbit (word w) b = true)
            \/ exists w bit,
                 w0 <= w < w0 + Z.of_nat (S n) /\ 0 <= bit < 32
                 /\ r = w * 32 + bit
                 /\ Z.testbit (word w) bit = false
                 /\ (forall w' b, w0 <= w' < w -> 0 <= b < 32 ->
                                  Z.testbit (word w') b = true)
                 /\ (forall b, 0 <= b < bit -> Z.testbit (word w) b = true)
                 /\ s' = with_image s d
                           (store32 (image_at s d) (a + 4 * w)
                              (Z.lor (word w) (Z.shiftl 1 bit))))).
    { intros Full. destruct (IH (w0 + 1) ltac:(lia)) as (r & s' & E & R).
      exists r, s'. split; [exact E | ].
      destruct R as [(-> & -> & A) | (w & bit & Hw & Hb & -> & F & B & L & ->)].
      - left. split; [reflexivity | ]. split; [reflexivity | ].
        intros w b Hw Hb. destruct (Z.eq_dec w w0) as [-> | N];
          [apply Full; exact Hb | apply A; lia].
      - right. exists w, bit. split; [lia | ]. split; [exact Hb | ].
        split; [reflexivity | ]. split; [exact F | ]. split; [ | auto].
        intros w' b Hw' Hb'. destruct (Z.eq_dec w' w0) as [-> | N];
          [apply Full; exact Hb' | apply B; lia]. }
    destruct (Z.eqb_spec (word w0) 4294967295) as [E | E]; cbn [negb].
    + apply Next. intros b Hb. rewrite E.
      change 4294967295 with (Z.ones 32). apply Z.ones_spec_low. lia.
    + pose proof (find_zero_bit_first 32 0 (word w0) ltac:(lia)) as F.
      destruct (find_zero_bit 32 0 (word w0)) as [bit | ].
      * destruct F as (Hb & Fb & L).
        rewrite (bind_eq _ _ _ _ _
                   (wr_at store32 d (a + 4 * w0)
                      (Z.lor (word w0) (Z.shiftl 1 bit)) s Hm)).
        eexists. eexists. split; [reflexivity | ]. right.
        exists w0, bit. split; [lia | ]. split; [lia | ].
        split; [reflexivity | ]. split; [exact Fb | ].
        split; [intros; lia | ]. split; [ | reflexivity].
        intros b Hb'. apply L. lia.
      * apply Next. intros b Hb. apply F. lia.
Qed.

(** What [allocate_block] does, in full. *)
Lemma allocate_block_outcome (disk : Z) (s : fs) :
  let m := image_at s disk in
  let db := load64s m sb_d_bitmap_ptr in
  let nd := load64u m sb_num_data_blocks in
  let dp := load64s m sb_d_blocks_ptr in
  mapped s disk -> sizeof_wfs_sb <= db ->
  0 < dp -> dp + BLOCK_SIZE * nd < 2 ^ 63 ->
  exists b s',
    allocate_block disk s = Some (b, s')
    /\ ((b = 0 /\ s' = s
         /\ forall n, 0 <= n < 32 * (nd / 32) -> taken s disk n)
        \/ exists n,
             0 <= n < 32 * (nd / 32)
             /\ b = dp + BLOCK_SIZE * n
             /\ ~ taken s disk n
             /\ (forall n', 0 <= n' < n -> taken s disk n')
             /\ taken s' disk n
             /\ (forall n', 0 <= n' -> n' <> n ->
                   (taken s' disk n' <-> taken s disk n'))
             /\ same_but s s' disk (db + 4 * (n / 32)) 4).
Proof.
  intros m db nd dp Hm Hdb Hdp Hend.
  assert (Hnd : 0 <= nd) by apply load_le_range.
  assert (Hw : 0 <= nd / 32) by (apply Z.div_pos; lia).
  pose proof (Z.mul_div_le nd 32 ltac:(lia)) as Hle.
  unfold allocate_block, allocate_bitmap_block, sb.
  rewrite (bind_eq _ _ _ _ _ (rd_at load64s disk sb_d_bitmap_ptr s Hm)).
  rewrite (bind_eq _ _ _ _ _ (rd_at load64u disk sb_num_data_blocks s Hm)).
  fold m. fold db. fold nd.
  destruct (scan_bitmap_first (Z.to_nat (nd / 32)) 0 disk db s Hm ltac:(lia))
    as (r & s' & E & R).
  rewrite (bind_eq _ _ _ _ _ E). rewrite Z2Nat.id in R by lia. fold m in R.
  assert (Div : forall n, 0 <= n -> 0 <= n / 32 /\ 0 <= n mod 32 < 32
                                     /\ n = 32 * (n / 32) + n mod 32).
  { intros n Hn. split; [apply Z.div_pos; lia | ].
    split; [apply Z.mod_pos_bound; lia | apply Z.div_mod; lia]. }
  destruct R as [(-> & -> & A) | (w & bit & Hw' & Hb & -> & F & B & L & ->)].
  - change (-1 <? 0) with true. cbv iota.
    exists 0, s. split; [reflexivity | ]. left.
    split; [reflexivity | ]. split; [reflexivity | ].
    intros n Hn. unfold taken. fold m. fold db.
    destruct (Div n ltac:(lia)) as (D1 & D2 & D3). apply A; lia.
  - destruct (Z.ltb_spec (w * 32 + bit) 0); [lia | ].
    set (s' := with_image s disk
                 (store32 m (db + 4 * w)
                    (Z.lor (load32u m (db + 4 * w)) (Z.shiftl 1 bit)))).
    assert (Hm' : mapped s' disk) by (apply mapped_with_image; exact Hm).
    rewrite (bind_eq _ _ _ _ _ (rd_at load64s disk sb_d_blocks_ptr s' Hm')).
    assert (Es : forall x, x + 8 <= sizeof_wfs_sb ->
                   load64s (image_at s' disk) x = load64s m x).
    { intros x Hx. subst s'. rewrite image_at_with_image by exact Hm.
      rewrite Z.eqb_refl. unfold store32.
      apply (load64s_store_other 4 m (db + 4 * w) _ x). lia. }
    rewrite (Es sb_d_blocks_ptr) by (unfold sb_d_blocks_ptr, sizeof_wfs_sb; lia).
    fold dp.
    assert (Ew : (w * 32 + bit) / 32 = w).
    { rewrite Z.add_comm, Z.div_add by lia. rewrite Z.div_small by lia. lia. }
    assert (Eb : (w * 32 + bit) mod 32 = bit).
    { rewrite Z.add_comm, Z.mod_add by lia. apply Z.mod_small. lia. }
    eexists. exists s'. split; [reflexivity | ]. right.
    exists (w * 32 + bit). rewrite Ew.
    split; [lia | ]. split; [apply s64_small; unfold BLOCK_SIZE in *; lia | ].
    assert (Edb : load64s (image_at s' disk) sb_d_bitmap_ptr = db)
      by (apply Es; unfold sb_d_bitmap_ptr, sizeof_wfs_sb; lia).
    assert (Eword : load32u (image_at s' disk) (db + 4 * w)
                    = Z.lor (load32u m (db + 4 * w)) (Z.shiftl 1 bit)
                      mod 2 ^ 32).
    { subst s'. rewrite image_at_with_image by exact Hm. rewrite Z.eqb_refl.
      unfold load32u at 1, store32. apply (load_store_le_same 4). }
    split; [ | split; [ | split; [ | split]]].
    + unfold taken. fold m. fold db. rewrite Ew, Eb, F. discriminate.
    + intros n' Hn'. unfold taken. fold m. fold db.
      destruct (Div n' ltac:(lia)) as (D1 & D2 & D3).
      destruct (Z.eq_dec (n' / 32) w) as [E' | N].
      * rewrite E'. apply L. lia.
      * apply B; lia.
    + unfold taken. rewrite Edb, Ew, Eb, Eword.
      rewrite testbit_marked by lia. rewrite Z.eqb_refl. apply orb_true_r.
    + intros n' Hn' N. unfold taken. fold m. fold db. rewrite Edb.
      destruct (Div n' Hn') as (D1 & D2 & D3).
      destruct (Z.eq_dec (n' / 32) w) as [E' | N'].
      * rewrite E', Eword. rewrite testbit_marked by lia.
        destruct (Z.eqb_spec bit (n' mod 32)) as [E2 | _]; [lia | ].
        rewrite orb_false_r. tauto.
      * assert (E2 : load32u (image_at s' disk) (db + 4 * (n' / 32))
                     = load32u m (db + 4 * (n' / 32))).
        { subst s'. rewrite image_at_with_image by exact Hm.
          rewrite Z.eqb_refl. unfold load32u, store32.
          apply load_store_le_other. change (Z.of_nat 4) with 4. lia. }
        rewrite E2. tauto.
    + apply same_but_store. exact Hm.
Qed.

(** [allocate_block] always returns.  It returns 0 and changes nothing
    when every block of the data region is marked; otherwise it returns
    the offset of the lowest block that is not marked and marks it,
    changing the word of the bitmap that holds the mark and nothing
    else. *)
Theorem allocate_block_takes_lowest_free (disk : Z) (s : fs) :
  let m := image_at s disk in
  let db := load64s m sb_d_bitmap_ptr in
  let nd := load64u m sb_num_data_blocks in
  let dp := load64s m sb_d_blocks_ptr in
  mapped s disk -> sizeof_wfs_sb <= db ->
  0 < dp -> dp + BLOCK_SIZE * nd < 2 ^ 63 ->
  exists b s',
    allocate_block disk s = Some (b, s')
    /\ ((b = 0 /\ s' = s
         /\ forall n, 0 <= n < 32 * (nd / 32) -> taken s disk n)
        \/ exists n,
             0 <= n < 32 * (nd / 32)
             /\ b = dp + BLOCK_SIZE * n
             /\ ~ taken s disk n
             /\ (forall n', 0 <= n' < n -> taken s disk n')
             /\ taken s' disk n
             /\ (forall n', 0 <= n' -> n' <> n ->
                   (taken s' disk n' <-> taken s disk n'))
             /\ same_but s s' disk (db + 4 * (n / 32)) 4).
Proof. exact (allocate_block_outcome disk s). Qed.

End FirstFree.

Section FirstFreeRuns.
Import Wfs Scenario.

Lemma allocate_block_takes_lowest_free_witness :
  exists s', allocate_block 0 (the raid1_a) = Some (17408, s')
             /\ taken s' 0 1.
Proof.
  destruct (allocate_block_takes_lowest_free 0 (the raid1_a))
    as (b & s' & E & [(_ & _ & Full) | (n & Hn & Eb & Nt & Low & T & _)]).
  - vm_compute. split; [discriminate | reflexivity].
  - vm_compute. discriminate.
  - vm_compute. reflexivity.
  - vm_compute. reflexivity.
  - exfalso.
    assert (T : taken (the raid1_a) 0 1)
      by (apply Full; vm_compute; split; [discriminate | reflexivity]).
    vm_compute in T. discriminate T.
  - assert (n = 1).
    { destruct (Z.lt_trichotomy n 1) as [Lt | [Eq | Gt]]; [ | exact Eq | ].
      - exfalso. assert (n = 0) by lia. subst n. apply Nt.
        vm_compute. reflexivity.
      - exfalso. specialize (Low 1 ltac:(lia)). vm_compute in Low.
        discriminate Low. }
    subst n. exists s'. split; [ | exact T].
    rewrite E, Eb. vm_compute. reflexivity.
Defined.

End FirstFreeRuns.

(** ** The copy loop of [wfs_write] *)

Section Chunks.
Import Wfs.
Variables (s0 : fs) (pd a : Z).
Let ino : addr := (pd, a).
Let m0 : image := image_at s0 pd.
Let db : Z := load64s m0 sb_d_bitmap_ptr.
Let nd : Z := load64u m0 sb_num_data_blocks.
Let dp : Z := load64s m0 sb_d_blocks_ptr.

Hypothesis layout : record_layout s0 ino.
Hypothesis mirrored : raid_mode s0 <> RAID0.

(** The bytes the copy loop never writes: the other disks, the
    superblock of the disk, and the head of the record. *)
Let head (j x : Z) : Prop :=
  j <> pd \/ 0 <= x < sizeof_wfs_sb \/ a <= x < a + i_blocks 0.

(** Everything but the data bitmap of the disk and slot [k] of the
    record. *)
Let but_slot (k j x : Z) : Prop :=
  j <> pd
  \/ ((x < db \/ db + 4 * (nd / 32) <= x)
      /\ (x < a + i_blocks k \/ a + i_blocks k + 8 <= x)).

(** The disk below its data region. *)
Let low (j x : Z) : Prop := j = pd /\ 0 <= x < a + sizeof_wfs_inode.

Let slot (s : fs) (k : Z) : Z := load64s (image_at s pd) (a + i_blocks k).
Let marked (s : fs) (n : Z) : Prop :=
  Z.testbit (load32u (image_at s pd) (db + 4 * (n / 32))) (n mod 32) = true.
Let owned (s : fs) : Prop :=
  (forall k, 0 <= k <= 6 ->
     slot s k = 0
     \/ exists n, 0 <= n < 32 * (nd / 32) /\ slot s k = dp + 512 * n
                  /\ marked s n)
  /\ (forall k k', 0 <= k <= 6 -> 0 <= k' <= 6 -> k <> k' ->
        slot s k <> 0 -> slot s k <> slot s k').

Lemma bounds :
  64 <= db /\ db + 4 * (nd / 32) <= a /\ a + 120 <= dp
  /\ dp + 512 * nd < 2 ^ 63 /\ 0 <= nd /\ 0 <= nd / 32 /\ 32 * (nd / 32) <= nd.
Proof.
  pose proof layout as L. unfold record_layout, ino in L.
  cbv zeta in L. simpl fst in L. simpl snd in L.
  fold m0 in L. fold db in L. fold nd in L. fold dp in L.
  unfold sizeof_wfs_sb, sizeof_wfs_inode, BLOCK_SIZE in L.
  assert (Hnd : 0 <= nd) by apply load_le_range.
  pose proof (Z.mul_div_le nd 32 ltac:(lia)).
  pose proof (Z.div_pos nd 32 Hnd ltac:(lia)).
  lia.
Qed.

Lemma head_fields (s : fs) :
  kept head s0 s ->
  raid_mode s = raid_mode s0
  /\ load64s (image_at s pd) sb_d_bitmap_ptr = db
  /\ load64u (image_at s pd) sb_num_data_blocks = nd
  /\ load64s (image_at s pd) sb_d_blocks_ptr = dp
  /\ load64s (image_at s pd) (a + i_size) = load64s m0 (a + i_size).
Proof.
  intros K. split; [apply K | ].
  unfold db, nd, dp, m0, load64s, load64u.
  repeat split;
    (first [apply (kept_load head _ _ _ _ _ K)
           | apply (f_equal s64); apply (kept_load head _ _ _ _ _ K)]);
    intros x Hx; right;
    unfold sb_d_bitmap_ptr, sb_num_data_blocks, sb_d_blocks_ptr, i_size,
      i_blocks, sizeof_wfs_sb in *;
    change (Z.of_nat 8) with 8 in Hx; lia.
Qed.

Lemma taken_marked (s : fs) (n : Z) :
  kept head s0 s -> taken s pd n <-> marked s n.
Proof.
  intros K. destruct (head_fields s K) as (_ & E & _).
  unfold taken, marked. cbv zeta. rewrite E. tauto.
Qed.

Lemma owned_direct (s : fs) :
  kept head s0 s -> direct_blocks_owned s ino <-> owned s.
Proof.
  intros K. destruct (head_fields s K) as (_ & _ & En & Ep & _).
  unfold direct_blocks_owned, owned, slot, ino, D_BLOCK, BLOCK_SIZE.
  cbv zeta. simpl fst. simpl snd. rewrite En, Ep.
  split; intros [H1 H2]; (split; [ | exact H2]); intros k Hk;
    (destruct (H1 k Hk) as [Z0 | (n & Hn & E & T)]; [left; exact Z0 | ]);
    right; exists n; (split; [exact Hn | ]); (split; [exact E | ]);
    apply (taken_marked s n K); exact T.
Qed.

(** What lies below the data region decides the owned blocks. *)
Lemma owned_low (s s' : fs) :
  kept low s s' -> owned s -> owned s'.
Proof.
  intros K [H1 H2]. pose proof bounds as B.
  assert (Es : forall k, 0 <= k <= 6 -> slot s' k = slot s k).
  { intros k Hk. unfold slot, load64s. f_equal.
    apply (kept_load low _ _ _ _ _ K). intros x Hx.
    unfold low, i_blocks, sizeof_wfs_inode in *.
    change (Z.of_nat 8) with 8 in Hx. lia. }
  assert (Em : forall n, 0 <= n < 32 * (nd / 32) -> marked s n -> marked s' n).
  { intros n Hn M. unfold marked in *.
    assert (E : load32u (image_at s' pd) (db + 4 * (n / 32))
                = load32u (image_at s pd) (db + 4 * (n / 32))).
    { unfold load32u. apply (kept_load low _ _ _ _ _ K). intros x Hx.
      assert (0 <= n / 32 < nd / 32).
      { split; [apply Z.div_pos; lia | ].
        apply Z.div_lt_upper_bound; lia. }
      unfold low, sizeof_wfs_inode. change (Z.of_nat 4) with 4 in Hx. lia. }
    rewrite E. exact M. }
  split.
  - intros k Hk. rewrite (Es k Hk).
    destruct (H1 k Hk) as [Z0 | (n & Hn & E & M)]; [left; exact Z0 | ].
    right. exists n. split; [exact Hn | ]. split; [exact E | ].
    apply Em; assumption.
  - intros k k' Hk Hk' N. rewrite (Es k Hk), (Es k' Hk'). apply H2; assumption.
Qed.

(** A slot that was 0 takes a block that was not marked. *)
Lemma owned_step (s s' : fs) (k b : Z) :
  owned s -> 0 <= k <= 6 -> slot s k = 0 ->
  (forall k', 0 <= k' <= 6 -> k' <> k -> slot s' k' = slot s k') ->
  (forall n, 0 <= n < 32 * (nd / 32) -> marked s n -> marked s' n) ->
  slot s' k = b ->
  (b = 0
   \/ exists n, 0 <= n < 32 * (nd / 32) /\ b = dp + 512 * n
                /\ ~ marked s n /\ marked s' n) ->
  owned s'.
Proof.
  intros [H1 H2] Hk Z0 Es Em Eb Hb.
  assert (Fresh : forall k', 0 <= k' <= 6 -> k' <> k -> b <> 0 ->
                             slot s k' <> b).
  { intros k' Hk' N Nb E.
    destruct Hb as [-> | (n & Hn & -> & Nm & _)]; [exact (Nb eq_refl) | ].
    destruct (H1 k' Hk') as [Z1 | (n' & Hn' & E' & M)]; [lia | ].
    assert (n' = n) by lia. subst n'. exact (Nm M). }
  split.
  - intros k' Hk'. destruct (Z.eq_dec k' k) as [-> | N].
    + rewrite Eb. destruct Hb as [-> | (n & Hn & -> & _ & M)];
        [left; reflexivity | ].
      right. exists n. auto.
    + rewrite (Es k' Hk' N).
      destruct (H1 k' Hk') as [Z1 | (n & Hn & E & M)]; [left; exact Z1 | ].
      right. exists n. split; [exact Hn | ]. split; [exact E | ].
      apply Em; [exact Hn | exact M].
  - intros k1 k2 Hk1 Hk2 N NZ.
    destruct (Z.eq_dec k1 k) as [-> | N1];
      destruct (Z.eq_dec k2 k) as [-> | N2]; try contradiction.
    + rewrite Eb in *. rewrite (Es k2 Hk2 N2). intros E.
      exact (Fresh k2 Hk2 N2 NZ (eq_sym E)).
    + rewrite Eb. rewrite (Es k1 Hk1 N1) in *.
      destruct (Z.eq_dec b 0) as [-> | Nb]; [exact NZ | ].
      apply Fresh; assumption.
    + rewrite (Es k1 Hk1 N1), (Es k2 Hk2 N2) in *. apply H2; assumption.
Qed.

Lemma but_slot_head (k j x : Z) : 0 <= k -> head j x -> but_slot k j x.
Proof.
  pose proof bounds as B. unfold head, but_slot, sizeof_wfs_sb, i_blocks.
  intros Hk [N | H]; [left; exact N | right; lia].
Qed.

Lemma marked_set_slot (s : fs) (k b n : Z) :
  mapped s pd -> 0 <= k <= 6 -> 0 <= n < 32 * (nd / 32) ->
  marked (with_image s pd (store64 (image_at s pd) (a + i_blocks k) b)) n
  <-> marked s n.
Proof.
  intros Hm Hk Hn. pose proof bounds as B. unfold marked.
  rewrite image_at_with_image by exact Hm. rewrite Z.eqb_refl.
  unfold load32u, store64.
  rewrite (load_store_le_other 4 8 _ (a + i_blocks k) b (db + 4 * (n / 32)));
    [tauto | ].
  assert (0 <= n / 32 < nd / 32).
  { split; [apply Z.div_pos; lia | apply Z.div_lt_upper_bound; lia]. }
  unfold i_blocks. change (Z.of_nat 4) with 4. lia.
Qed.

(** The resolver on the mirrors, for an offset in the direct blocks and
    with the allocate flag set: it writes the data bitmap and the slot
    of the block and nothing else, the blocks stay owned, and when it
    gives an address the slot holds the block. *)
Lemma place_block (s s1 : fs) (pos : Z) (r : option addr) :
  kept head s0 s -> owned s -> 0 <= pos < 3584 ->
  get_block_location (Some ino) pos 1 pd s = Some (r, s1) ->
  let k := pos / 512 in
  kept (but_slot k) s s1
  /\ owned s1
  /\ (r = None \/ (slot s1 k <> 0 /\ r = Some (pd, slot s1 k + pos mod 512))).
Proof.
  intros K Ow Hpos H k. pose proof bounds as B.
  destruct (head_fields s K) as (Emode & Edb & End & Edp & _).
  assert (Hk : 0 <= k <= 6).
  { subst k. split; [apply Z.div_pos; lia | ].
    apply Z.lt_succ_r. apply Z.div_lt_upper_bound; lia. }
  destruct (block_num_small pos ltac:(lia)
              ltac:(change (pos / BLOCK_SIZE) with k; lia)) as [Ek Er].
  unfold get_block_location in H. rewrite Ek, Er in H.
  change (pos / BLOCK_SIZE) with k in H.
  change (pos mod BLOCK_SIZE) with (pos mod 512) in H.
  rewrite (u64_small k) in H by lia.
  change (D_BLOCK + BLOCK_SIZE / 8) with 70 in H. change D_BLOCK with 6 in H.
  destruct (Z.gtb_spec k 70); [lia | ].
  destruct (Z.gtb_spec k 6); [lia | ].
  cbn [deref] in H.
  open_bind H. injection Hc as <- <-.
  open_bind H. injection Hc as <- <-.
  destruct (Z.eqb_spec (raid_mode s) RAID0) as [R | R];
    [rewrite Emode in R; contradiction | ].
  open_bind H. injection Hc as <- <-.
  assert (Efst : fst (ino +: i_blocks 0 +: 8 * k) = pd) by reflexivity.
  assert (Eslot : a + i_blocks 0 + 8 * k = a + i_blocks k)
    by (unfold i_blocks; lia).
  assert (Esnd : snd (ino +: i_blocks 0 +: 8 * k) = a + i_blocks k)
    by (unfold ino, shift; cbn [fst snd]; exact Eslot).
  open_rd H. rewrite Efst, Esnd in H. fold (slot s k) in H.
  change (negb (1 =? 0)) with true in H. cbn [andb] in H.
  destruct (Z.eqb_spec (slot s k) 0) as [Z0 | NZ].
  - open_bind H. open_bind Hc.
    apply allocate_block_marks in Hc0; [ | rewrite Edb; unfold sizeof_wfs_sb; lia].
    cbv zeta in Hc0. rewrite Edb, End, Edp in Hc0.
    destruct Hc0 as (Hmp & Hb). rename s3 into sa.
    apply wr_inv in Hc. rewrite Efst, Esnd in Hc. destruct Hc as [Hm1 ->].
    open_rd H. rewrite Efst, Esnd in H.
    rewrite image_at_with_image in H by exact Hm1.
    rewrite Z.eqb_refl, load64s_store64 in H.
    set (sw := with_image sa pd (store64 (image_at sa pd) (a + i_blocks k) a1))
      in *.
    assert (E2 : slot sw k = s64 a1).
    { unfold slot. subst sw. rewrite image_at_with_image by exact Hm1.
      rewrite Z.eqb_refl. apply load64s_store64. }
    assert (K2 : kept (but_slot k) sa sw).
    { subst sw. refine (kept_store _ sa pd (a + i_blocks k) 8 a1 Hm1 _).
      intros x Hx [N | [_ Hs]]; [exact (N eq_refl) | lia]. }
    assert (Step : kept (but_slot k) s sa
                   /\ (forall n, 0 <= n < 32 * (nd / 32) ->
                                 marked s n -> marked sa n)
                   /\ (s64 a1 = 0
                       \/ exists n, 0 <= n < 32 * (nd / 32)
                                    /\ s64 a1 = dp + 512 * n
                                    /\ ~ marked s n /\ marked sa n)).
    { destruct Hb as [[-> ->] | (n & Hn & -> & Nt & ->)].
      - split; [apply kept_refl | ]. split; [auto | left; reflexivity].
      - destruct (mark_effect pd n s Hmp) as (Km & Tn & Tm);
          [rewrite Edb; unfold sizeof_wfs_sb; lia | lia | ].
        cbv zeta in Km, Tn, Tm. rewrite Edb in Km, Tn, Tm.
        assert (Hw : 0 <= n / 32 < nd / 32).
        { split; [apply Z.div_pos; lia | apply Z.div_lt_upper_bound; lia]. }
        assert (Kb : kept (but_slot k) s
                       (with_image s pd
                          (store32 (image_at s pd) (db + 4 * (n / 32))
                             (Z.lor (load32u (image_at s pd)
                                       (db + 4 * (n / 32)))
                                    (Z.shiftl 1 (n mod 32)))))).
        { refine (kept_weaken _ _ _ _ _ Km). unfold but_slot.
          intros j x [N | [Hx _]]; [left; exact N | right; lia]. }
        assert (Kh : kept head s0
                       (with_image s pd
                          (store32 (image_at s pd) (db + 4 * (n / 32))
                             (Z.lor (load32u (image_at s pd)
                                       (db + 4 * (n / 32)))
                                    (Z.shiftl 1 (n mod 32)))))).
        { eapply kept_trans; [exact K | ].
          refine (kept_weaken _ _ _ _ _ Kb). intros j x.
          apply but_slot_head. lia. }
        split; [exact Kb | ]. split.
        + intros n' Hn' M. apply (taken_marked _ n' Kh).
          apply Tm; [lia | ]. apply (taken_marked s n' K). exact M.
        + right. exists n. split; [exact Hn | ].
          unfold BLOCK_SIZE. rewrite (s64_small (dp + 512 * n)) by lia.
          split; [apply s64_small; lia | ]. split.
          * intros M. apply Nt. apply (taken_marked s n K). exact M.
          * apply (taken_marked _ n Kh). exact Tn. }
    destruct Step as (K1 & Mono & Hnew).
    assert (K12 : kept (but_slot k) s sw) by (eapply kept_trans; eassumption).
    assert (Ow2 : owned sw).
    { apply (owned_step s sw k (s64 a1) Ow Hk Z0).
      - intros k' Hk' N. unfold slot, load64s. f_equal.
        apply (kept_load _ _ _ _ _ _ K12). intros x Hx. right.
        unfold i_blocks in *. change (Z.of_nat 8) with 8 in Hx. lia.
      - intros n Hn M. apply marked_set_slot; try assumption. apply Mono; assumption.
      - exact E2.
      - destruct Hnew as [Z1 | (n & Hn & E & Nm & M)]; [left; exact Z1 | ].
        right. exists n. split; [exact Hn | ]. split; [exact E | ].
        split; [exact Nm | ]. apply marked_set_slot; assumption. }
    destruct (Z.eqb_spec (s64 a1) 0) as [Z1 | NZ1]; injection H as <- <-;
      (split; [exact K12 | ]); (split; [exact Ow2 | ]);
      [left; reflexivity | right].
    rewrite E2. split; [exact NZ1 | reflexivity].
  - open_bind H. injection Hc as <- <-.
    open_rd H. rewrite Efst, Esnd in H. fold (slot s k) in H.
    destruct (Z.eqb_spec (slot s k) 0) as [Z1 | _]; [contradiction | ].
    injection H as <- <-.
    split; [apply kept_refl | ]. split; [exact Ow | ]. right.
    split; [exact NZ | reflexivity].
Qed.

(** When the resolver finds no block, the slot is empty and no block of
    the data region is free. *)
Lemma place_block_none (s s1 : fs) (pos : Z) :
  kept head s0 s -> owned s -> 0 <= pos < 3584 ->
  get_block_location (Some ino) pos 1 pd s = Some (None, s1) ->
  slot s1 (pos / 512) = 0
  /\ forall n, 0 <= n < 32 * (nd / 32) -> marked s1 n.
Proof.
  intros K Ow Hpos H. set (k := pos / 512). pose proof bounds as B.
  destruct (head_fields s K) as (Emode & Edb & End & Edp & _).
  assert (Hk : 0 <= k <= 6).
  { subst k. split; [apply Z.div_pos; lia | ].
    apply Z.lt_succ_r. apply Z.div_lt_upper_bound; lia. }
  destruct (block_num_small pos ltac:(lia)
              ltac:(change (pos / BLOCK_SIZE) with k; lia)) as [Ek Er].
  unfold get_block_location in H. rewrite Ek, Er in H.
  change (pos / BLOCK_SIZE) with k in H.
  change (pos mod BLOCK_SIZE) with (pos mod 512) in H.
  rewrite (u64_small k) in H by lia.
  change (D_BLOCK + BLOCK_SIZE / 8) with 70 in H. change D_BLOCK with 6 in H.
  destruct (Z.gtb_spec k 70); [lia | ].
  destruct (Z.gtb_spec k 6); [lia | ].
  cbn [deref] in H.
  open_bind H. injection Hc as <- <-.
  open_bind H. injection Hc as <- <-.
  destruct (Z.eqb_spec (raid_mode s) RAID0) as [R | R];
    [rewrite Emode in R; contradiction | ].
  open_bind H. injection Hc as <- <-.
  assert (Efst : fst (ino +: i_blocks 0 +: 8 * k) = pd) by reflexivity.
  assert (Eslot : a + i_blocks 0 + 8 * k = a + i_blocks k)
    by (unfold i_blocks; lia).
  assert (Esnd : snd (ino +: i_blocks 0 +: 8 * k) = a + i_blocks k)
    by (unfold ino, shift; cbn [fst snd]; exact Eslot).
  open_rd H. rewrite Efst, Esnd in H. fold (slot s k) in H.
  change (negb (1 =? 0)) with true in H. cbn [andb] in H.
  destruct (Z.eqb_spec (slot s k) 0) as [Z0 | NZ].
  - open_bind H. open_bind Hc.
    destruct (allocate_block_outcome pd s) as (b & sb' & E & Hb);
      try (rewrite ?Edb, ?End, ?Edp; unfold sizeof_wfs_sb, BLOCK_SIZE; lia).
    { apply (allocate_block_marks pd s s3 a1); [ | exact Hc0].
      rewrite Edb. unfold sizeof_wfs_sb. lia. }
    rewrite E in Hc0. injection Hc0 as <- <-.
    cbv zeta in Hb. rewrite End, Edp in Hb.
    apply wr_inv in Hc. rewrite Efst, Esnd in Hc. destruct Hc as [Hm1 ->].
    open_rd H. rewrite Efst, Esnd in H.
    rewrite image_at_with_image in H by exact Hm1.
    rewrite Z.eqb_refl, load64s_store64 in H.
    destruct Hb as [(-> & -> & Full) | (n & Hn & -> & _)].
    + change (s64 0 =? 0) with true in H. injection H as <-.
      split.
      * unfold slot. rewrite image_at_with_image by exact Hm1.
        rewrite Z.eqb_refl. apply load64s_store64.
      * intros n Hn. apply marked_set_slot; [exact Hm1 | exact Hk | exact Hn | ].
        apply (taken_marked s n K). apply Full. exact Hn.
    + exfalso. unfold BLOCK_SIZE in H.
      rewrite (s64_small (dp + 512 * n)) in H by lia.
      destruct (Z.eqb_spec (dp + 512 * n) 0) as [Z1 | _]; [lia | ].
      discriminate H.
  - exfalso. open_bind H. injection Hc as <- <-.
    open_rd H. rewrite Efst, Esnd in H. fold (slot s k) in H.
    destruct (Z.eqb_spec (slot s k) 0) as [Z1 | _]; [contradiction | ].
    discriminate H.
Qed.

Variables (buf : list Z) (length offset : Z).
Hypothesis range : 0 <= offset /\ 0 <= length /\ offset + length <= 3584.

(** The first [w] bytes of [buf] are read back through the slots of the
    record, from [offset] on. *)
Let readback (s : fs) (w : Z) : Prop :=
  forall i, 0 <= i < w ->
    slot s ((offset + i) / 512) <> 0
    /\ load8 (image_at s pd)
             (slot s ((offset + i) / 512) + (offset + i) mod 512)
       = nth (Z.to_nat i) buf 0 mod 256.

Let Inv (s : fs) (w : Z) : Prop :=
  kept head s0 s /\ owned s /\ readback s w.

Lemma memcpy_to_inside (m : image) (b : Z) (bytes : list Z) (x : Z) :
  b <= x < b + Z.of_nat (List.length bytes) ->
  load8 (memcpy_to m b bytes) x = nth (Z.to_nat (x - b)) bytes 0 mod 256.
Proof.
  intros H. unfold memcpy_to. cbn [load8].
  apply in_range_true in H. rewrite H. reflexivity.
Qed.

Lemma nth_slice (l : list Z) (start n j : Z) :
  0 <= start -> 0 <= j < n ->
  nth (Z.to_nat j) (slice l start n) 0 = nth (Z.to_nat (start + j)) l 0.
Proof.
  intros Hs Hj. unfold slice.
  set (f := fun i : nat => nth (Z.to_nat (start + Z.of_nat i)) l 0).
  rewrite (nth_indep _ 0 (f 0%nat))
    by (rewrite length_map, length_seq; lia).
  rewrite map_nth, seq_nth by lia. unfold f.
  rewrite Nat.add_0_l, Z2Nat.id by lia. reflexivity.
Qed.

Lemma slot_kept_low (s s' : fs) (k : Z) :
  kept low s s' -> 0 <= k <= 6 -> slot s' k = slot s k.
Proof.
  intros K Hk. unfold slot, load64s. f_equal.
  apply (kept_load low _ _ _ _ _ K). intros x Hx.
  unfold low, i_blocks, sizeof_wfs_inode in *.
  pose proof bounds. change (Z.of_nat 8) with 8 in Hx. lia.
Qed.

Lemma block_of (i : Z) : 0 <= i < length -> 0 <= (offset + i) / 512 <= 6.
Proof.
  intros Hi. split; [apply Z.div_pos; lia | ].
  apply Z.lt_succ_r. apply Z.div_lt_upper_bound; lia.
Qed.

(** The resolver leaves what was copied before where it was. *)
Lemma readback_placed (s s1 : fs) (k w : Z) :
  owned s -> readback s w -> kept (but_slot k) s s1 ->
  0 <= k <= 6 -> w <= length ->
  (forall i, 0 <= i < w -> (offset + i) / 512 < k) ->
  readback s1 w.
Proof.
  intros [O1 _] Rb K Hk Hw Before i Hi. pose proof bounds as B.
  destruct (Rb i Hi) as [NZ E].
  pose proof (block_of i ltac:(lia)) as Hki.
  pose proof (Before i Hi) as Hlt.
  pose proof (Z.mod_pos_bound (offset + i) 512 ltac:(lia)) as Hlo.
  set (ki := (offset + i) / 512) in *.
  assert (Es : slot s1 ki = slot s ki).
  { unfold slot, load64s. f_equal. apply (kept_load _ _ _ _ _ _ K).
    intros x Hx. right. unfold i_blocks in *.
    change (Z.of_nat 8) with 8 in Hx. lia. }
  rewrite Es. split; [exact NZ | ]. rewrite <- E.
  destruct (O1 ki Hki) as [Z0 | (n & Hn & En & _)]; [contradiction | ].
  destruct K as (_ & _ & _ & _ & _ & K). apply K. right.
  unfold i_blocks. lia.
Qed.

(** Copying a chunk into the block of slot [k]. *)
Lemma chunk_copied (s : fs) (w tw : Z) :
  let pos := offset + w in
  let k := pos / 512 in
  let lo := pos mod 512 in
  let s' := with_image s pd
              (memcpy_to (image_at s pd) (slot s k + lo) (slice buf w tw)) in
  Inv s w -> mapped s pd -> slot s k <> 0 ->
  0 <= w -> 1 <= tw -> w + tw <= length -> lo + tw <= 512 ->
  (forall i, 0 <= i < w -> (offset + i) / 512 < k) ->
  Inv s' (w + tw).
Proof.
  intros pos k lo s' (K & Ow & Rb) Hm NZ Hw Htw Hlen Hlo Before.
  pose proof bounds as B.
  assert (Hk : 0 <= k <= 6) by (apply (block_of w); lia).
  assert (Hlo0 : 0 <= lo) by (apply Z.mod_pos_bound; lia).
  destruct Ow as [O1 O2].
  destruct (O1 k Hk) as [Z0 | (n & Hn & En & _)]; [contradiction | ].
  assert (Kc : kept (fun j x => j <> pd \/ x < slot s k + lo
                                \/ slot s k + lo + tw <= x) s s').
  { subst s'. refine (kept_memcpy _ s pd (slot s k + lo) _ Hm _).
    rewrite length_slice, Z2Nat.id by lia.
    intros x Hx [N | R]; [exact (N eq_refl) | lia]. }
  assert (Kl : kept low s s').
  { refine (kept_weaken _ _ _ _ _ Kc). unfold low, sizeof_wfs_inode.
    intros j x [-> Hx]. right. lia. }
  assert (Kh : kept head s s').
  { refine (kept_weaken _ _ _ _ _ Kc). unfold head, sizeof_wfs_sb, i_blocks.
    intros j x [N | Hx]; [left; exact N | right; lia]. }
  split; [eapply kept_trans; eassumption | ].
  split; [apply (owned_low s s' Kl); split; assumption | ].
  intros i Hi.
  pose proof (block_of i ltac:(lia)) as Hki.
  rewrite (slot_kept_low s s' _ Kl Hki).
  destruct (Z.ltb_spec i w) as [Lt | Ge].
  - destruct (Rb i ltac:(lia)) as [NZi E]. split; [exact NZi | ].
    rewrite <- E. pose proof (Before i ltac:(lia)) as Hlt.
    pose proof (Z.mod_pos_bound (offset + i) 512 ltac:(lia)) as Hloi.
    set (ki := (offset + i) / 512) in *.
    destruct (O1 ki Hki) as [Z0 | (ni & Hni & Eni & _)]; [contradiction | ].
    assert (Nk : slot s ki <> slot s k) by (apply O2; try assumption; lia).
    destruct Kc as (_ & _ & _ & _ & _ & Kc). apply Kc. right. lia.
  - assert (Ep : pos = 512 * k + lo) by (apply Z.div_mod; lia).
    assert (Ek : (offset + i) / 512 = k).
    { symmetry. apply (Z.div_unique (offset + i) 512 k (lo + (i - w))); lia. }
    assert (Em : (offset + i) mod 512 = lo + (i - w)).
    { symmetry. apply (Z.mod_unique (offset + i) 512 k (lo + (i - w))); lia. }
    rewrite Ek, Em. split; [exact NZ | ].
    subst s'. rewrite image_at_with_image by exact Hm. rewrite Z.eqb_refl.
    rewrite memcpy_to_inside by (rewrite length_slice, Z2Nat.id; lia).
    replace (slot s k + (lo + (i - w)) - (slot s k + lo)) with (i - w) by lia.
    rewrite nth_slice by lia. do 3 f_equal. lia.
Qed.

(** The copy loop of [wfs_write] on a mirror, inside the direct blocks:
    what was copied stays in the file, the blocks stay owned, and the
    head of the record and the other disks are not written. *)
Lemma write_chunks_inv (fuel : nat) (w : Z) (s : fs) (ok : bool)
      (w' pos' : Z) (s' : fs) :
  0 <= w <= length ->
  w = 0 \/ (offset + w) mod 512 = 0 \/ w = length ->
  Inv s w ->
  write_chunks fuel (Some ino) buf length w (offset + w) pd s
  = Some ((ok, w', pos'), s') ->
  Inv s' w' /\ w <= w' <= length
  /\ (ok = true -> w' = length) /\ (ok = false -> w' < length)
  /\ (ok = false ->
      slot s' ((offset + w') / 512) = 0
      /\ forall n, 0 <= n < 32 * (nd / 32) -> marked s' n).
Proof.
  revert w s. induction fuel as [ | fuel IH]; intros w s Hw Al I H;
    [discriminate | ].
  cbn [write_chunks] in H.
  destruct (Z.ltb_spec w length) as [Lt | Ge].
  - cbv zeta in H. unfold BLOCK_SIZE in H.
    set (pos := offset + w) in *.
    pose proof (Z.mod_pos_bound pos 512 ltac:(lia)) as Hlo.
    rewrite (u64_small (512 - pos mod 512 + w)) in H by lia.
    rewrite (s64_small pos) in H by lia.
    set (tw := if 512 - pos mod 512 + w >? length
               then u64 (length - w) else 512 - pos mod 512) in *.
    assert (Htw : 1 <= tw /\ w + tw <= length /\ pos mod 512 + tw <= 512
                  /\ ((offset + (w + tw)) mod 512 = 0 \/ w + tw = length)).
    { subst tw. destruct (Z.gtb_spec (512 - pos mod 512 + w) length).
      - rewrite u64_small by lia. lia.
      - split; [lia | ]. split; [lia | ]. split; [lia | ]. left.
        replace (offset + (w + (512 - pos mod 512)))
          with (pos - pos mod 512 + 1 * 512) by lia.
        rewrite Z.mod_add by lia. rewrite Zminus_mod_idemp_r, Z.sub_diag.
        reflexivity. }
    clearbody tw. destruct Htw as (T1 & T2 & T3 & T4).
    assert (Before : forall i, 0 <= i < w -> (offset + i) / 512 < pos / 512).
    { intros i Hi. destruct Al as [-> | [Al | ->]]; [lia | | lia].
      apply Z.div_lt_upper_bound; [lia | ].
      fold pos in Al. apply Z.div_exact in Al; lia. }
    destruct I as (K & Ow & Rb).
    open_bind H.
    destruct (place_block s s1 pos a0 K Ow ltac:(lia) Hc)
      as (Kb & Ow1 & Hr).
    assert (Hk : 0 <= pos / 512 <= 6) by (apply (block_of w); lia).
    assert (K1 : kept head s0 s1).
    { eapply kept_trans; [exact K | ].
      refine (kept_weaken _ _ _ _ _ Kb). intros j x.
      apply but_slot_head. lia. }
    assert (Rb1 : readback s1 w)
      by (apply (readback_placed s s1 (pos / 512) w); try assumption; lia).
    destruct Hr as [-> | (NZ & ->)].
    + pose proof (place_block_none s s1 pos K Ow ltac:(lia) Hc) as Full.
      injection H as <- <- <- <-.
      split; [split; [exact K1 | split; [exact Ow1 | exact Rb1]] | ].
      split; [lia | ]. split; [discriminate | ].
      split; [lia | intros _; exact Full].
    + open_bind H. unfold memcpy_at in Hc0. open_bind Hc0.
      apply region_inv in Hc1. simpl fst in Hc1. destruct Hc1 as (-> & Hm1 & ->).
      apply set_region_inv in Hc0. simpl fst in Hc0. simpl snd in Hc0.
      fold (with_image s1 pd
              (memcpy_to (image_at s1 pd) (slot s1 (pos / 512) + pos mod 512)
                 (slice buf w tw))) in Hc0.
      subst s2.
      rewrite (u64_small (w + tw)) in H by lia.
      rewrite (u64_small (pos + tw)) in H by lia.
      replace (pos + tw) with (offset + (w + tw)) in H by lia.
      apply IH in H; [ | lia | tauto | ].
      * destruct H as (I' & Hw' & Hok). split; [exact I' | ]. split; [lia | exact Hok].
      * apply (chunk_copied s1 w tw); try assumption; try lia.
        split; [exact K1 | split; [exact Ow1 | exact Rb1]].
  - injection H as <- <- <- <-.
    split; [exact I | ]. split; [lia | ]. split; [lia | ].
    split; discriminate.
Qed.

(** The copy loop from the start of a write: how far it got, what it
    left alone, and what it stored. *)
Lemma chunks_outcome (ok : bool) (w pos : Z) (s1 : fs) :
  direct_blocks_owned s0 (pd, a) ->
  write_chunks (S (Z.to_nat length)) (Some (pd, a)) buf length 0 offset pd s0
  = Some ((ok, w, pos), s1) ->
  0 <= w <= length
  /\ (ok = true -> w = length) /\ (ok = false -> w < length)
  /\ error_code s1 = error_code s0
  /\ load64s (image_at s1 pd) (a + i_size)
     = load64s (image_at s0 pd) (a + i_size)
  /\ (forall j x, j <> pd ->
        load8 (image_at s1 j) x = load8 (image_at s0 j) x)
  /\ (forall i, 0 <= i < w ->
        let p := offset + i in
        let v := load64s (image_at s1 pd) (a + i_blocks (p / BLOCK_SIZE)) in
        v <> 0
        /\ load8 (image_at s1 pd) (v + p mod BLOCK_SIZE)
           = nth (Z.to_nat i) buf 0 mod 256)
  /\ record_layout s1 (pd, a)
  /\ direct_blocks_owned s1 (pd, a)
  /\ (ok = false ->
      load64s (image_at s1 pd) (a + i_blocks ((offset + w) / BLOCK_SIZE)) = 0
      /\ forall n, 0 <= n < 32 * (nd / 32) -> taken s1 pd n).
Proof.
  intros Ow H.
  assert (I0 : Inv s0 0).
  { split; [apply kept_refl | ]. split.
    - apply (owned_direct s0 (kept_refl _ s0)). exact Ow.
    - intros i Hi. lia. }
  assert (H' : write_chunks (S (Z.to_nat length)) (Some ino) buf length 0
                 (offset + 0) pd s0 = Some ((ok, w, pos), s1))
    by (rewrite Z.add_0_r; exact H).
  destruct (write_chunks_inv _ 0 s0 ok w pos s1 ltac:(lia)
              (or_introl eq_refl) I0 H')
    as ((K & O1 & Rb) & Hw & Ht & Hf & Hfull).
  split; [exact Hw | ]. split; [exact Ht | ]. split; [exact Hf | ].
  split; [apply K | ].
  destruct (head_fields s1 K) as (_ & Edb & End & Edp & Esz).
  split; [exact Esz | ]. split; [ | split; [ | split; [ | split]]].
  - intros j x N. destruct K as (_ & _ & _ & _ & _ & K). apply K.
    left. exact N.
  - intros i Hi. exact (Rb i Hi).
  - pose proof layout as L. unfold record_layout, ino in *. cbv zeta in *.
    simpl fst in *. simpl snd in *. rewrite Edb, End, Edp. exact L.
  - apply (owned_direct s1 K). exact O1.
  - intros F. destruct (Hfull F) as [Z0 Full].
    split; [exact Z0 | ]. intros n Hn.
    apply (taken_marked s1 n K). apply Full. exact Hn.
Qed.

(** The copy loop leaves the modes, the manager and the mappings as they
    were. *)
Lemma chunks_keep_modes (ok : bool) (w pos : Z) (s1 : fs) :
  direct_blocks_owned s0 (pd, a) ->
  write_chunks (S (Z.to_nat length)) (Some (pd, a)) buf length 0 offset pd s0
  = Some ((ok, w, pos), s1) ->
  raid_mode s1 = raid_mode s0 /\ total_devices s1 = total_devices s0
  /\ raid_mgr s1 = raid_mgr s0 /\ (forall j, mapped s1 j <-> mapped s0 j).
Proof.
  intros Ow H.
  assert (I0 : Inv s0 0).
  { split; [apply kept_refl | ]. split.
    - apply (owned_direct s0 (kept_refl _ s0)). exact Ow.
    - intros i Hi. lia. }
  assert (H' : write_chunks (S (Z.to_nat length)) (Some ino) buf length 0
                 (offset + 0) pd s0 = Some ((ok, w, pos), s1))
    by (rewrite Z.add_0_r; exact H).
  destruct (write_chunks_inv _ 0 s0 ok w pos s1 ltac:(lia)
              (or_introl eq_refl) I0 H')
    as ((K & _) & _).
  destruct K as (K1 & K2 & _ & K4 & K5 & _). auto.
Qed.

End Chunks.

(** ** The turns of [wfs_write] *)

Section FailedWrite.
Import Wfs.

Lemma blind_step {A : Type} (c : M A) (s s1 : fs) (g : RaidManager) (a : A) :
  mgr_blind c -> c s = Some (a, s1) ->
  c (with_mgr s g) = Some (a, with_mgr s1 g).
Proof. intros B H. rewrite B, H. reflexivity. Qed.

Lemma with_mgr_twice (s : fs) (g1 g2 : RaidManager) :
  with_mgr (with_mgr s g1) g2 = with_mgr s g2.
Proof. reflexivity. Qed.

(** The turns of [wfs_write] on a mirrored volume up to a chunk of the
    first disk that finds no block. *)
Lemma failing_turns (s s1 : fs) (path : string) (buf : list Z)
      (length offset a w pos : Z) (fuel : nat) (loc : write_locals)
      (g : RaidManager) :
  state g = INIT -> current_disk g = 0 -> 0 < total_disks g ->
  mapped s 0 ->
  find_inode_by_path path 0 s = Some ((0, Some (0, a)), s) ->
  write_chunks (S (Z.to_nat length)) (Some (0, a)) buf length 0 (u64 offset)
               0 s
  = Some ((false, w, pos), s1) ->
  exists g',
    wfs_write_loop (S (S (S fuel))) path buf length offset loc (with_mgr s g)
    = Some (error_code s1, with_mgr s1 g').
Proof.
  destruct g as [st cd td rt bs op]. cbn [state current_disk total_disks].
  intros -> -> Htd Hm Hfind Hrun.
  remember (S (S fuel)) as f2 eqn:E2. cbn [wfs_write_loop].
  rewrite (bind_eq _ _ _ _ _ eq_refl).
  cbn [state current_disk total_disks raid_mgr with_mgr].
  destruct (Z.geb_spec 0 td) as [G | _]; [lia | ].
  rewrite (bind_eq _ _ _ _ _ eq_refl).
  cbn [state current_disk total_disks raid_type buffer_size operation_id
       raid_mgr with_mgr].
  subst f2. remember (S fuel) as f1 eqn:E1. cbn [wfs_write_loop].
  rewrite (bind_eq _ _ _ _ _ eq_refl).
  cbn [state current_disk total_disks raid_mgr with_mgr].
  rewrite with_mgr_twice.
  rewrite (bind_eq _ _ _ _ _
             (blind_run _ s _ _ (blind_find_inode_by_path _ _) Hfind)).
  change (0 <? 0) with false. cbv iota. cbn [deref].
  rewrite (bind_eq _ _ _ _ _ eq_refl).
  unfold shift. cbn [fst snd].
  rewrite (bind_eq _ _ _ _ _ (rd_at load64s 0 (a + i_size) (with_mgr s _) Hm)).
  cbv zeta.
  rewrite (bind_eq _ _ _ _ _ eq_refl).
  cbn [state current_disk total_disks raid_type buffer_size operation_id
       raid_mgr with_mgr].
  subst f1. cbn [wfs_write_loop].
  rewrite (bind_eq _ _ _ _ _ eq_refl).
  cbn [state current_disk total_disks raid_mgr with_mgr
       w_inode written_bytes position new_data_len].
  rewrite ?with_mgr_twice.
  rewrite (bind_eq _ _ _ _ _
             (blind_step _ s s1 _ _ (blind_write_chunks _ _ _ _ _ _ _) Hrun)).
  cbn [negb]. eexists. reflexivity.
Qed.

(** The copy loop that finds every block has copied [length] bytes. *)
Lemma write_chunks_done (fuel : nat) (inode : option addr) (buf : list Z)
      (length w pos disk : Z) (s s' : fs) (w' pos' : Z) :
  0 <= w <= length -> length < 2 ^ 63 ->
  write_chunks fuel inode buf length w pos disk s = Some ((true, w', pos'), s') ->
  w' = length.
Proof.
  intros Hw Hl. revert w pos s Hw.
  induction fuel as [ | fuel IH]; intros w pos s Hw H; [discriminate | ].
  cbn [write_chunks] in H.
  destruct (Z.ltb_spec w length) as [Lt | Ge].
  - cbv zeta in H. unfold BLOCK_SIZE in H.
    pose proof (Z.mod_pos_bound pos 512 ltac:(lia)) as Hlo.
    rewrite (u64_small (512 - pos mod 512 + w)) in H by lia.
    set (tw := if 512 - pos mod 512 + w >? length
               then u64 (length - w) else 512 - pos mod 512) in *.
    assert (Htw : 1 <= tw /\ w + tw <= length).
    { subst tw. destruct (Z.gtb_spec (512 - pos mod 512 + w) length).
      - rewrite u64_small by lia. lia.
      - lia. }
    clearbody tw.
    open_bind H. destruct a as [p | ]; [ | discriminate].
    open_bind H. rewrite (u64_small (w + tw)) in H by lia.
    apply IH in H; [exact H | lia].
  - injection H as <- _ _. lia.
Qed.

Lemma after_transition (st : RaidState) (s s' : fs) (u : unit) :
  transition_state st s = Some (u, s') -> state (raid_mgr s') = st.
Proof. intros H. injection H as _ <-. reflexivity. Qed.

(** What [wfs_write] returns is the length, or the error code. *)
Lemma write_loop_returns (fuel : nat) (path : string) (buf : list Z)
      (length offset : Z) (loc : write_locals) (s s' : fs) (r : Z) :
  0 <= length < 2 ^ 63 ->
  state (raid_mgr s) = INIT \/ state (raid_mgr s) = WRITE_READY
  \/ (state (raid_mgr s) = READ_READY /\ written_bytes loc = 0) ->
  wfs_write_loop fuel path buf length offset loc s = Some (r, s') ->
  r = s32 length \/ r = error_code s'.
Proof.
  intros Hl. revert loc s.
  induction fuel as [ | fuel IH]; intros loc s St H; [discriminate | ].
  cbn [wfs_write_loop] in H.
  open_bind H. injection Hc as <- <-.
  destruct St as [St | [St | [St Hw0]]]; rewrite St in H.
  - open_bind H. apply IH in H; [exact H | ].
    right. left.
    destruct (current_disk (raid_mgr s) >=? total_disks (raid_mgr s)).
    + open_bind Hc. injection Hc0 as _ <-. injection Hc as _ <-. reflexivity.
    + injection Hc as _ <-. reflexivity.
  - open_bind H. destruct a as [rc inode].
    destruct (rc <? 0).
    + injection H as <- <-. right. reflexivity.
    + open_bind H. open_bind H. open_bind H.
      apply IH in H; [exact H | ].
      right. right. split; [ | reflexivity].
      match goal with
      | Hx : transition_state _ _ = Some _ |- _ =>
          exact (after_transition _ _ _ _ Hx)
      end.
  - open_bind H. destruct a as [[ok written] pos].
    destruct ok; cbn [negb] in H.
    + rewrite Hw0 in Hc.
      apply write_chunks_done in Hc; [ | lia | lia]. subst written.
      open_bind H.
      destruct ((raid_type (raid_mgr s) =? RAID0)
                || (current_disk (raid_mgr s) =? total_disks (raid_mgr s) - 1)).
      * open_bind H. injection H as <- _. left. reflexivity.
      * open_bind H. open_bind H. apply IH in H; [exact H | ].
        left.
        match goal with
        | Hx : transition_state _ _ = Some _ |- _ =>
            exact (after_transition _ _ _ _ Hx)
        end.
    + injection H as <- <-. right. reflexivity.
Qed.

End FailedWrite.

Section WriteOutcome.
Import Wfs.

(** [wfs_write] returns the length it was given or the error code of the
    moment, never the count of a part of the bytes. *)
Theorem write_returns_length_or_error_code (s s' : fs) (path : string)
        (buf : list Z) (length offset r : Z) :
  0 <= length < 2 ^ 31 ->
  wfs_write path buf length offset s = Some (r, s') ->
  r = length \/ r = error_code s'.
Proof.
  intros Hl H. unfold wfs_write, prepare_write_operation in H.
  open_bind H. do 4 open_bind Hc. injection Hc as <- <-.
  change (0 <? 0) with false in H. cbv iota in H.
  open_bind H. injection Hc as <- <-.
  apply write_loop_returns in H; [ | lia | ].
  - rewrite (s32_small length) in H by lia. exact H.
  - match goal with
    | Hx : (if _ then _ else _) _ = Some _ |- _ =>
        destruct (raid_type _ =? RAID0) in Hx;
          apply after_transition in Hx; rewrite Hx; auto
    end.
Qed.


End WriteOutcome.

Section WriteRuns.
Import Wfs Scenario.

Lemma write_returns_length_or_error_code_witness :
  3 = 3 \/ 3 = error_code (the raid1_a_abc).
Proof.
  apply (write_returns_length_or_error_code (the raid1_a) (the raid1_a_abc)
           "/a" [65; 66; 67] 3 0 3); [lia | vm_compute; reflexivity].
Defined.

Ltac each_slot k Hk :=
  change D_BLOCK with 6 in Hk;
  let C := fresh "C" in
  assert (C : k = 0 \/ k = 1 \/ k = 2 \/ k = 3 \/ k = 4 \/ k = 5 \/ k = 6)
    by lia;
  destruct C as [-> | [-> | [-> | [-> | [-> | [-> | ->]]]]]].

Lemma tight_volume_layout : record_layout (the raid1_a_tight) (0, 1024).
Proof. vm_compute. repeat split; discriminate. Qed.

Lemma tight_volume_owned : direct_blocks_owned (the raid1_a_tight) (0, 1024).
Proof.
  split.
  - intros k Hk. left. each_slot k Hk; vm_compute; reflexivity.
  - intros k k' Hk _ _ NZ. exfalso. apply NZ.
    each_slot k Hk; vm_compute; reflexivity.
Qed.


(** C5 at its failing input: a write of 31 blocks to the empty file
    [/a] of the mirrored volume, which has 31 data blocks free and whose
    inode needs 32, the indirect block included.  [wfs_write] returns 0,
    which is neither the count of the bytes it stored nor [-ENOSPC], and
    the error code is 0; the size of the file is 0 as before, on both
    disks; on the first disk every block is marked and the bytes are
    stored, and the second disk was not written. *)
Theorem short_write_is_not_reported :
  option_map write_report
    (run (wfs_write "/a" [65; 66; 67] 3 0) raid1_a)
  = Some ((3, 0), (3, 3), (3, 3), (65, 65))
  /\ option_map write_report raid1_a_full
     = Some ((0, 0), (0, 0), (4294967295, 1), (7, 0)).
Proof. split; vm_compute; reflexivity. Qed.

End WriteRuns.

(** ** Releasing a block, creating an inode *)

Section Release.
Import Wfs.

Lemma memset_at_mapped (d a c n : Z) (s : fs) :
  mapped s d ->
  memset_at (d, a) c n s
  = Some (tt, with_image s d (memset (image_at s d) a c n)).
Proof.
  intros H. unfold memset_at, bind. cbn [fst snd].
  rewrite (region_mapped s d H). reflexivity.
Qed.

Lemma testbit_cleared (v b b' : Z) :
  0 <= b < 32 -> 0 <= b' < 32 ->
  Z.testbit (Z.land v (u32 (Z.lnot (Z.shiftl 1 b))) mod 2 ^ 32) b'
  = Z.testbit v b' && negb (b =? b').
Proof.
  intros Hb Hb'. unfold u32, wrap_unsigned.
  rewrite Z.mod_pow2_bits_low by lia.
  rewrite Z.land_spec, Z.mod_pow2_bits_low by lia.
  rewrite Z.lnot_spec, Z.shiftl_1_l, Z.pow2_bits_eqb by lia. reflexivity.
Qed.

Lemma split_index (n : Z) :
  0 <= n -> 0 <= n / 32 /\ 0 <= n mod 32 < 32 /\ n = 32 * (n / 32) + n mod 32.
Proof.
  intros Hn. split; [apply Z.div_pos; lia | ].
  split; [apply Z.mod_pos_bound; lia | apply Z.div_mod; lia].
Qed.

(** [release_block] on a block of the data region: the block reads as
    zeros, its mark is cleared, the other marks are as they were, and
    nothing is written but the block and the word of the bitmap that
    held the mark. *)
Theorem release_block_frees (disk n : Z) (s : fs) :
  let m := image_at s disk in
  let db := load64s m sb_d_bitmap_ptr in
  let nd := load64u m sb_num_data_blocks in
  let dp := load64s m sb_d_blocks_ptr in
  let blk := dp + BLOCK_SIZE * n in
  mapped s disk -> sizeof_wfs_sb <= db -> db + 4 * (nd / 32) <= dp ->
  dp + BLOCK_SIZE * nd < 2 ^ 63 -> 0 <= n < 32 * (nd / 32) -> n < 2 ^ 32 ->
  exists s',
    release_block blk disk s = Some (tt, s')
    /\ (forall x, blk <= x < blk + BLOCK_SIZE ->
                  load8 (image_at s' disk) x = 0)
    /\ ~ taken s' disk n
    /\ (forall n', 0 <= n' < 32 * (nd / 32) -> n' <> n ->
          (taken s' disk n' <-> taken s disk n'))
    /\ kept (fun j x => j <> disk
                        \/ ((x < blk \/ blk + BLOCK_SIZE <= x)
                            /\ (x < db + 4 * (n / 32)
                                \/ db + 4 * (n / 32) + 4 <= x))) s s'.
Proof.
  intros m db nd dp blk Hm Hdb Hbd Hend Hn Hn32.
  assert (Hnd : 0 <= nd) by apply load_le_range.
  pose proof (Z.mul_div_le nd 32 ltac:(lia)) as Hle.
  destruct (split_index n ltac:(lia)) as (D1 & D2 & D3).
  assert (Hw : n / 32 < nd / 32) by (apply Z.div_lt_upper_bound; lia).
  unfold BLOCK_SIZE in *.
  set (s1 := with_image s disk (memset m blk 0 512)).
  assert (Hm1 : mapped s1 disk) by (apply mapped_with_image; exact Hm).
  assert (Low : forall k x, x + Z.of_nat k <= blk ->
                  load_le k (image_at s1 disk) x = load_le k m x).
  { intros k x Hx. subst s1. rewrite image_at_with_image by exact Hm.
    rewrite Z.eqb_refl. apply load_le_ext. intros y Hy.
    apply memset_outside. lia. }
  assert (Edp : load64s (image_at s1 disk) sb_d_blocks_ptr = dp).
  { unfold load64s. rewrite Low; [reflexivity | ].
    unfold sb_d_blocks_ptr, sizeof_wfs_sb in *. change (Z.of_nat 8) with 8.
    subst blk. lia. }
  assert (Edb : load64s (image_at s1 disk) sb_d_bitmap_ptr = db).
  { unfold load64s. rewrite Low; [reflexivity | ].
    unfold sb_d_bitmap_ptr, sizeof_wfs_sb in *. change (Z.of_nat 8) with 8.
    subst blk. lia. }
  assert (Ewd : forall w, 0 <= w < nd / 32 ->
                  load32u (image_at s1 disk) (db + 4 * w)
                  = load32u m (db + 4 * w)).
  { intros w Hw'. unfold load32u. apply Low. change (Z.of_nat 4) with 4.
    subst blk. lia. }
  assert (Epos : u32 (Z.quot (s64 (blk - dp)) 512) = n).
  { subst blk. replace (dp + 512 * n - dp) with (512 * n) by lia.
    rewrite s64_small by lia. rewrite Z.quot_div_nonneg by lia.
    rewrite Z.mul_comm, Z.div_mul by lia. apply u32_small. lia. }
  assert (Eland : Z.land n 31 = n mod 32)
    by (change 31 with (Z.ones 5); rewrite Z.land_ones by lia; reflexivity).
  assert (Eshr : Z.shiftr n 5 = n / 32)
    by (rewrite Z.shiftr_div_pow2 by lia; reflexivity).
  set (word := db + 4 * (n / 32)).
  set (v := load32u m word).
  set (mask := u32 (Z.lnot (Z.shiftl 1 (n mod 32)))).
  set (s2 := with_image s1 disk (store32 (image_at s1 disk) word
                                         (Z.land v mask))).
  assert (Run : release_block blk disk s = Some (tt, s2)).
  { unfold release_block.
    rewrite (bind_eq _ _ _ _ _ (memset_at_mapped disk blk 0 512 s Hm)).
    fold m. fold s1. unfold sb.
    rewrite (bind_eq _ _ _ _ _ (rd_at load64s disk sb_d_blocks_ptr s1 Hm1)).
    rewrite Edp. cbv zeta. unfold BLOCK_SIZE. rewrite Epos.
    rewrite (bind_eq _ _ _ _ _ (rd_at load64s disk sb_d_bitmap_ptr s1 Hm1)).
    rewrite Edb. unfold release_bitmap, shift. cbv zeta. cbn [fst snd].
    rewrite Eland, Eshr. fold word.
    rewrite (bind_eq _ _ _ _ _ (rd_at load32u disk word s1 Hm1)).
    unfold word at 2. rewrite (Ewd (n / 32)) by lia. fold word. fold v.
    fold mask. apply (wr_at store32 disk word (Z.land v mask) s1 Hm1). }
  exists s2. split; [exact Run | ].
  assert (I2 : image_at s2 disk
               = store32 (image_at s1 disk) word (Z.land v mask)).
  { subst s2. rewrite image_at_with_image by exact Hm1.
    rewrite Z.eqb_refl. reflexivity. }
  assert (I1 : image_at s1 disk = memset m blk 0 512).
  { subst s1. rewrite image_at_with_image by exact Hm.
    rewrite Z.eqb_refl. reflexivity. }
  assert (Edb2 : load64s (image_at s2 disk) sb_d_bitmap_ptr = db).
  { rewrite I2. unfold store32.
    rewrite (load64s_store_other 4 _ word _ sb_d_bitmap_ptr); [exact Edb | ].
    unfold sb_d_bitmap_ptr, sizeof_wfs_sb, word in *. lia. }
  assert (Ew2 : load32u (image_at s2 disk) word = Z.land v mask mod 2 ^ 32).
  { rewrite I2. unfold load32u, store32. apply (load_store_le_same 4). }
  split; [ | split; [ | split]].
  - intros x Hx. rewrite I2. unfold store32.
    rewrite store_le_outside by (unfold word; subst blk; lia).
    rewrite I1. unfold memset. cbn [load8].
    assert (R : in_range blk 512 x = true) by (apply in_range_true; lia).
    rewrite R. reflexivity.
  - unfold taken. rewrite Edb2. fold word. rewrite Ew2.
    unfold mask. rewrite testbit_cleared by lia.
    rewrite Z.eqb_refl, andb_false_r. discriminate.
  - intros n' Hn' N. unfold taken. fold m. fold db. rewrite Edb2.
    destruct (split_index n' ltac:(lia)) as (E1 & E2 & E3).
    assert (Hw' : n' / 32 < nd / 32) by (apply Z.div_lt_upper_bound; lia).
    destruct (Z.eq_dec (n' / 32) (n / 32)) as [E | N'].
    + rewrite E. fold word. rewrite Ew2. unfold mask.
      rewrite testbit_cleared by lia. fold v.
      destruct (Z.eqb_spec (n mod 32) (n' mod 32)) as [E' | _]; [lia | ].
      rewrite andb_true_r. tauto.
    + assert (E' : load32u (image_at s2 disk) (db + 4 * (n' / 32))
                   = load32u m (db + 4 * (n' / 32))).
      { rewrite I2. unfold load32u at 1, store32.
        rewrite load_store_le_other
          by (unfold word; change (Z.of_nat 4) with 4; lia).
        apply (Ewd (n' / 32)). lia. }
      rewrite E'. tauto.
  - eapply kept_trans.
    + refine (kept_memset _ s disk blk 0 512 Hm _).
      intros x Hx [N | [R _]]; [exact (N eq_refl) | lia].
    + fold m. fold s1.
      refine (kept_store _ s1 disk word 4 _ Hm1 _).
      intros x Hx [N | [_ R]]; [exact (N eq_refl) | unfold word in *; lia].
Qed.

End Release.

Section Inodes2.
Import Wfs.

(** [create_inode]: what it returns, what it marks, and what it leaves
    alone. *)
Lemma create_inode_outcome (disk : Z) (s : fs) :
  let m := image_at s disk in
  let ib := load64s m sb_i_bitmap_ptr in
  let ni := load64u m sb_num_inodes in
  let ip := load64s m sb_i_blocks_ptr in
  mapped s disk -> sizeof_wfs_sb <= ib -> ib + 4 * (ni / 32) <= ip ->
  exists r s',
    create_inode disk s = Some (r, s')
    /\ ((r = None /\ s' = with_error_code s (- ENOSPC)
         /\ forall n, 0 <= n < 32 * (ni / 32) -> in_use s disk n)
        \/ exists n,
             0 <= n < 32 * (ni / 32)
             /\ r = Some (disk, ip + BLOCK_SIZE * n)
             /\ ~ in_use s disk n
             /\ (forall n', 0 <= n' < n -> in_use s disk n')
             /\ in_use s' disk n
             /\ load32s (image_at s' disk) (ip + BLOCK_SIZE * n + i_num)
                = s32 n
             /\ get_inode n disk s' = Some (r, s')
             /\ error_code s' = error_code s
             /\ kept (fun j x =>
                        j <> disk
                        \/ (~ (ib <= x < ib + 4 * (ni / 32))
                            /\ ~ (ip + BLOCK_SIZE * n
                                  <= x < ip + BLOCK_SIZE * n + 4))) s s'
             /\ (forall n', 0 <= n' < 32 * (ni / 32) ->
                            in_use s disk n' -> in_use s' disk n')).
Proof.
  intros m ib ni ip Hm Hib Hbi.
  assert (Hni : 0 <= ni) by apply load_le_range.
  assert (Hw : 0 <= ni / 32) by (apply Z.div_pos; lia).
  pose proof (Z.mul_div_le ni 32 ltac:(lia)) as Hle.
  unfold create_inode, sb.
  rewrite (bind_eq _ _ _ _ _ (rd_at load64s disk sb_i_bitmap_ptr s Hm)).
  rewrite (bind_eq _ _ _ _ _ (rd_at load64u disk sb_num_inodes s Hm)).
  fold m. fold ib. fold ni. unfold allocate_bitmap_block.
  destruct (scan_bitmap_first (Z.to_nat (ni / 32)) 0 disk ib s Hm ltac:(lia))
    as (r & s' & E & R).
  rewrite (bind_eq _ _ _ _ _ E). rewrite Z2Nat.id in R by lia. fold m in R.
  destruct R as [(-> & -> & A) | (w & bit & Hw' & Hb & -> & F & B & L & ->)].
  - change (-1 <? 0) with true. cbv iota.
    eexists. eexists. split; [reflexivity | ]. left.
    split; [reflexivity | ]. split; [reflexivity | ].
    intros n Hn. unfold in_use. fold m. fold ib.
    destruct (split_index n ltac:(lia)) as (D1 & D2 & D3). apply A; lia.
  - destruct (Z.ltb_spec (w * 32 + bit) 0); [lia | ].
    set (n := w * 32 + bit).
    assert (Ew : n / 32 = w).
    { unfold n. rewrite Z.add_comm, Z.div_add by lia.
      rewrite Z.div_small by lia. lia. }
    assert (Eb : n mod 32 = bit).
    { unfold n. rewrite Z.add_comm, Z.mod_add by lia.
      apply Z.mod_small. lia. }
    set (s1 := with_image s disk
                 (store32 m (ib + 4 * w)
                    (Z.lor (load32u m (ib + 4 * w)) (Z.shiftl 1 bit)))).
    assert (Hm1 : mapped s1 disk) by (apply mapped_with_image; exact Hm).
    assert (I1 : image_at s1 disk
                 = store32 m (ib + 4 * w)
                     (Z.lor (load32u m (ib + 4 * w)) (Z.shiftl 1 bit))).
    { subst s1. rewrite image_at_with_image by exact Hm.
      rewrite Z.eqb_refl. reflexivity. }
    assert (Es1 : forall x, x + 8 <= sizeof_wfs_sb ->
                    load64s (image_at s1 disk) x = load64s m x).
    { intros x Hx. rewrite I1. unfold store32.
      apply (load64s_store_other 4 m (ib + 4 * w) _ x). lia. }
    rewrite (bind_eq _ _ _ _ _ (rd_at load64s disk sb_i_blocks_ptr s1 Hm1)).
    rewrite (Es1 sb_i_blocks_ptr)
      by (unfold sb_i_blocks_ptr, sizeof_wfs_sb; lia).
    fold ip. cbv zeta. unfold shift. cbn [fst snd].
    fold n.
    rewrite (bind_eq _ _ _ _ _
               (wr_at store32 disk (ip + BLOCK_SIZE * n + i_num) n s1 Hm1)).
    set (s2 := with_image s1 disk
                 (store32 (image_at s1 disk) (ip + BLOCK_SIZE * n + i_num) n)).
    assert (Hm2 : mapped s2 disk) by (apply mapped_with_image; exact Hm1).
    assert (I2 : image_at s2 disk
                 = store32 (image_at s1 disk) (ip + BLOCK_SIZE * n + i_num) n).
    { subst s2. rewrite image_at_with_image by exact Hm1.
      rewrite Z.eqb_refl. reflexivity. }
    assert (Hn : 0 <= n < 32 * (ni / 32)) by (unfold n; lia).
    unfold BLOCK_SIZE, i_num in *.
    assert (Es2 : forall k x, x + Z.of_nat k <= ip ->
                    load_le k (image_at s2 disk) x
                    = load_le k (image_at s1 disk) x).
    { intros k x Hx. rewrite I2. unfold store32.
      apply load_store_le_other. lia. }
    assert (Eib2 : load64s (image_at s2 disk) sb_i_bitmap_ptr = ib).
    { unfold load64s. rewrite Es2
        by (unfold sb_i_bitmap_ptr, sizeof_wfs_sb in *;
            change (Z.of_nat 8) with 8; lia).
      apply (Es1 sb_i_bitmap_ptr). unfold sb_i_bitmap_ptr, sizeof_wfs_sb. lia. }
    assert (Eip2 : load64s (image_at s2 disk) sb_i_blocks_ptr = ip).
    { unfold load64s. rewrite Es2
        by (unfold sb_i_blocks_ptr, sizeof_wfs_sb in *;
            change (Z.of_nat 8) with 8; lia).
      apply (Es1 sb_i_blocks_ptr). unfold sb_i_blocks_ptr, sizeof_wfs_sb. lia. }
    assert (Ew2 : load32u (image_at s2 disk) (ib + 4 * w)
                  = Z.lor (load32u m (ib + 4 * w)) (Z.shiftl 1 bit)
                    mod 2 ^ 32).
    { unfold load32u at 1. rewrite Es2 by (change (Z.of_nat 4) with 4; lia).
      rewrite I1. unfold store32. apply (load_store_le_same 4). }
    assert (T2 : Z.testbit (load32u (image_at s2 disk) (ib + 4 * w)) bit
                 = true).
    { rewrite Ew2, testbit_marked by lia. rewrite Z.eqb_refl.
      apply orb_true_r. }
    eexists. exists s2. split; [reflexivity | ]. right.
    exists n. split; [exact Hn | ]. split; [reflexivity | ].
    split; [ | split; [ | split; [ | split; [ | split; [ | split;
      [ | split]]]]]].
    + unfold in_use. fold m. fold ib. rewrite Ew, Eb, F. discriminate.
    + intros n' Hn'. unfold in_use. fold m. fold ib.
      destruct (split_index n' ltac:(lia)) as (D1 & D2 & D3).
      destruct (Z.eq_dec (n' / 32) w) as [E' | N].
      * rewrite E'. apply L. lia.
      * apply B; lia.
    + unfold in_use. rewrite Eib2, Ew, Eb. exact T2.
    + rewrite I2. apply load32s_store32.
    + unfold get_inode, sb.
      rewrite (bind_eq _ _ _ _ _ (rd_at load64s disk sb_i_bitmap_ptr s2 Hm2)).
      rewrite Eib2. cbv zeta.
      rewrite Z.quot_div_nonneg, Z.rem_mod_nonneg by lia. rewrite Ew, Eb.
      rewrite (bind_eq _ _ _ _ _ (rd_at load32u disk (ib + 4 * w) s2 Hm2)).
      destruct (Z.eqb_spec (Z.land (load32u (image_at s2 disk) (ib + 4 * w))
                                   (Z.shiftl 1 bit)) 0) as [Z0 | _].
      * apply land_bit_clear in Z0; [ | lia]. rewrite T2 in Z0. discriminate.
      * cbn [negb].
        rewrite (bind_eq _ _ _ _ _
                   (rd_at load64s disk sb_i_blocks_ptr s2 Hm2)).
        rewrite Eip2. unfold BLOCK_SIZE.
        replace (ip + n * 512) with (ip + 512 * n) by lia. reflexivity.
    + reflexivity.
    + apply (kept_trans _ s s1 s2).
      * refine (kept_store _ s disk (ib + 4 * w) 4 _ Hm _).
        intros x Hx [N | [Hb' _]]; [exact (N eq_refl) | ]. apply Hb'. lia.
      * refine (kept_store _ s1 disk (ip + 512 * n + 0) 4 n Hm1 _).
        intros x Hx [N | [_ Hr]]; [exact (N eq_refl) | ]. apply Hr. lia.
    + intros n' Hn' U. unfold in_use in *. rewrite Eib2. fold m in U.
      fold ib in U.
      destruct (split_index n' ltac:(lia)) as (D1 & D2 & D3).
      destruct (Z.eq_dec (n' / 32) w) as [E' | N].
      * rewrite E' in *. rewrite Ew2, testbit_marked by lia.
        rewrite U. reflexivity.
      * unfold load32u. rewrite Es2 by (change (Z.of_nat 4) with 4; lia).
        rewrite I1. unfold store32.
        rewrite load_store_le_other by (change (Z.of_nat 4) with 4; lia).
        exact U.
Qed.

(** [create_inode] always returns, on a volume of at most 2^22 inodes,
    so that every inode number [n] fits the [int] that [get_inode] takes
    and the product [n * BLOCK_SIZE] that [get_inode] computes fits an
    [int] too.  When every inode is marked it returns NULL and sets the
    error code to [-ENOSPC], writing nothing.  Otherwise it takes the
    lowest inode that is not marked: it marks it, stores its number in
    its record, and returns the record, which is the one [get_inode]
    then gives for that number. *)
Theorem create_inode_takes_lowest_free (disk : Z) (s : fs) :
  let m := image_at s disk in
  let ib := load64s m sb_i_bitmap_ptr in
  let ni := load64u m sb_num_inodes in
  let ip := load64s m sb_i_blocks_ptr in
  mapped s disk -> sizeof_wfs_sb <= ib -> ib + 4 * (ni / 32) <= ip ->
  ni <= 4194304 ->
  exists r s',
    create_inode disk s = Some (r, s')
    /\ ((r = None /\ s' = with_error_code s (- ENOSPC)
         /\ forall n, 0 <= n < 32 * (ni / 32) -> in_use s disk n)
        \/ exists n,
             0 <= n < 32 * (ni / 32)
             /\ r = Some (disk, ip + BLOCK_SIZE * n)
             /\ ~ in_use s disk n
             /\ (forall n', 0 <= n' < n -> in_use s disk n')
             /\ in_use s' disk n
             /\ load32s (image_at s' disk) (ip + BLOCK_SIZE * n + i_num)
                = n
             /\ 0 <= n * BLOCK_SIZE < 2 ^ 31
             /\ get_inode n disk s' = Some (r, s')
             /\ error_code s' = error_code s).
Proof.
  intros m ib ni ip Hm Hib Hbi Hni.
  destruct (create_inode_outcome disk s Hm Hib Hbi)
    as (r & s' & E
        & [F | (n & Hn & Er & Nu & Low & U & En & Eg & Ee & _)]).
  - exists r, s'. split; [exact E | left; exact F].
  - exists r, s'. split; [exact E | right]. exists n.
    assert (Hlt : 0 <= n < 4194304).
    { fold m ni in Hn.
      pose proof (Z.mul_div_le ni 32 ltac:(lia)). lia. }
    split; [exact Hn | ]. split; [exact Er | ]. split; [exact Nu | ].
    split; [exact Low | ]. split; [exact U | ].
    split; [etransitivity; [exact En | apply s32_small; lia] | ].
    split; [unfold BLOCK_SIZE; lia | ].
    split; [exact Eg | exact Ee].
Qed.

End Inodes2.

(** ** The read loop of [wfs_read] *)

Section ReadLoop.
Import Wfs.

Lemma map_seq_from {A : Type} (f : nat -> A) (b n : nat) :
  map f (seq b n) = map (fun i => f (b + i)%nat) (seq 0 n).
Proof.
  revert b. induction n as [ | n IH]; intros b; cbn [seq map];
    [reflexivity | ].
  rewrite Nat.add_0_r. f_equal.
  rewrite <- (seq_shift n 0), map_map, (IH (S b)).
  apply map_ext. intros i. f_equal. lia.
Qed.

Lemma file_bytes_app (s : fs) (ino : addr) (p k1 k2 : Z) :
  0 <= k1 -> 0 <= k2 ->
  file_bytes s ino p (k1 + k2)
  = file_bytes s ino p k1 ++ file_bytes s ino (p + k1) k2.
Proof.
  intros H1 H2. unfold file_bytes.
  rewrite Z2Nat.inj_add, seq_app, map_app by lia. f_equal.
  rewrite Nat.add_0_l, map_seq_from.
  apply map_ext. intros i. f_equal. lia.
Qed.

(** Without the allocate flag, on a mirror and inside the direct blocks,
    the resolver reads the slot and changes nothing. *)
Lemma resolve_mirror (s : fs) (pd a off disk : Z) :
  raid_mode s <> RAID0 -> mapped s pd -> 0 <= off < 3584 ->
  let v := load64s (image_at s pd) (a + i_blocks (off / 512)) in
  get_block_location (Some (pd, a)) off 0 disk s
  = Some (if v =? 0 then None else Some (disk, v + off mod 512), s).
Proof.
  intros Hmode Hm Hoff v.
  assert (Hk : 0 <= off / 512 <= 6).
  { split; [apply Z.div_pos; lia | ].
    apply Z.lt_succ_r. apply Z.div_lt_upper_bound; lia. }
  destruct (block_num_small off ltac:(lia)
              ltac:(change (off / BLOCK_SIZE) with (off / 512); lia))
    as [Ek Er].
  unfold get_block_location. rewrite Ek, Er.
  change (off / BLOCK_SIZE) with (off / 512).
  change (off mod BLOCK_SIZE) with (off mod 512).
  set (k := off / 512) in *.
  rewrite (u64_small k) by lia.
  change (D_BLOCK + BLOCK_SIZE / 8) with 70. change D_BLOCK with 6.
  destruct (Z.gtb_spec k 70); [lia | ].
  destruct (Z.gtb_spec k 6); [lia | ].
  cbn [deref].
  rewrite (bind_eq _ _ _ _ _ eq_refl).
  rewrite (bind_eq _ _ _ _ _ eq_refl).
  destruct (Z.eqb_spec (raid_mode s) RAID0) as [R | _]; [contradiction | ].
  rewrite (bind_eq _ _ _ _ _ eq_refl).
  unfold shift. cbn [fst snd].
  replace (a + i_blocks 0 + 8 * k) with (a + i_blocks k)
    by (unfold i_blocks; lia).
  rewrite (bind_eq _ _ _ _ _ (rd_at load64s pd (a + i_blocks k) s Hm)).
  fold v. change (negb (0 =? 0)) with false. cbn [andb].
  rewrite (bind_eq _ _ _ _ _ eq_refl).
  rewrite (bind_eq _ _ _ _ _ (rd_at load64s pd (a + i_blocks k) s Hm)).
  fold v. destruct (v =? 0); reflexivity.
Qed.

Section OneFile.
Variables (s : fs) (pd a length offset n : Z).
Let ino : addr := (pd, a).
Let size : Z := load64u (image_at s pd) (a + i_size).

Hypothesis mirrored : raid_mode s <> RAID0.
Hypothesis map_pd : mapped s pd.
Hypothesis range : 0 <= offset /\ 0 <= length < 2 ^ 63.
Hypothesis count : n = Z.max 0 (Z.min length (size - offset)).
Hypothesis direct : offset + n <= 3584.
Hypothesis present : forall p, offset <= p < offset + n ->
  load64s (image_at s pd) (a + i_blocks (p / 512)) <> 0.

Lemma chunk_is_file_bytes (pos tr : Z) :
  0 <= pos -> 0 <= tr -> pos mod 512 + tr <= 512 ->
  map (fun i => load8 (image_at s pd)
                  (load64s (image_at s pd) (a + i_blocks (pos / 512))
                   + pos mod 512 + Z.of_nat i))
      (seq 0 (Z.to_nat tr))
  = file_bytes s ino pos tr.
Proof.
  intros Hp Ht Hin. unfold file_bytes. apply map_ext_in. intros i Hi.
  apply in_seq in Hi. unfold file_byte, ino, BLOCK_SIZE. cbn [fst snd].
  pose proof (Z.mod_pos_bound pos 512 ltac:(lia)) as Hlo.
  assert (Ep : pos = 512 * (pos / 512) + pos mod 512)
    by (apply Z.div_mod; lia).
  assert (Ek : (pos + Z.of_nat i) / 512 = pos / 512).
  { symmetry. apply (Z.div_unique _ 512 _ (pos mod 512 + Z.of_nat i)); lia. }
  assert (Em : (pos + Z.of_nat i) mod 512 = pos mod 512 + Z.of_nat i).
  { symmetry. apply (Z.mod_unique _ 512 (pos / 512)); lia. }
  rewrite Ek, Em. f_equal. lia.
Qed.

Lemma read_loop_direct (fuel : nat) (br : Z) (buf : list Z) :
  0 <= br <= n -> n - br < Z.of_nat fuel ->
  read_loop fuel (Some ino) length br (offset + br) buf pd s
  = Some (inl (n, buf ++ file_bytes s ino (offset + br) (n - br)), s).
Proof.
  revert br buf. induction fuel as [ | fuel IH]; intros br buf Hbr Hf; [lia | ].
  cbn [read_loop deref].
  rewrite (bind_eq _ _ _ _ _ eq_refl).
  unfold ino at 1, shift. cbn [fst snd].
  rewrite (bind_eq _ _ _ _ _ (rd_at load64u pd (a + i_size) s map_pd)).
  fold size.
  assert (Hsz : 0 <= size < 2 ^ 64) by apply (load_le_range 8).
  destruct (Z.ltb_spec br length) as [L1 | L1];
    destruct (Z.ltb_spec (offset + br) size) as [L2 | L2]; cbn [andb];
    try (assert (E : n - br = 0) by lia; rewrite E;
         replace br with n by lia;
         unfold file_bytes; cbn [Z.to_nat seq map];
         rewrite app_nil_r; reflexivity).
  cbv zeta. unfold BLOCK_SIZE.
  set (pos := offset + br) in *.
  pose proof (Z.mod_pos_bound pos 512 ltac:(lia)) as Hlo.
  rewrite (u64_small (size - pos)) by lia.
  rewrite (u64_small (length - br)) by lia.
  set (t1 := if 512 - pos mod 512 >? size - pos then size - pos
             else 512 - pos mod 512).
  set (tr := if t1 >? length - br then length - br else t1).
  assert (Htr : 1 <= tr /\ tr <= n - br /\ pos mod 512 + tr <= 512
                /\ (tr = n - br \/ tr = 512 - pos mod 512)).
  { subst tr t1.
    destruct (Z.gtb_spec (512 - pos mod 512) (size - pos));
      match goal with
      | |- context [?x >? ?y] => destruct (Z.gtb_spec x y)
      end; lia. }
  clearbody tr. clear t1. destruct Htr as (T1 & T2 & T3 & T4).
  rewrite (s64_small pos) by lia.
  rewrite (bind_eq _ _ _ _ _
             (resolve_mirror s pd a pos pd mirrored map_pd ltac:(lia))).
  cbv zeta.
  destruct (Z.eqb_spec (load64s (image_at s pd) (a + i_blocks (pos / 512))) 0)
    as [Z0 | NZ]; [exfalso; apply (present pos); [lia | exact Z0] | ].
  cbn [fst snd].
  rewrite (bind_eq _ _ _ _ _ (region_mapped s pd map_pd)).
  rewrite (u64_small (br + tr)) by lia.
  rewrite (u64_small (pos + tr)) by lia.
  replace (pos + tr) with (offset + (br + tr)) by lia.
  rewrite IH by lia.
  do 3 f_equal. rewrite <- app_assoc. f_equal.
  replace (n - br) with (tr + (n - (br + tr))) by lia.
  rewrite file_bytes_app by lia.
  rewrite <- (chunk_is_file_bytes pos tr) by lia.
  replace (pos + tr) with (offset + (br + tr)) by (unfold pos; lia).
  reflexivity.
Qed.

End OneFile.
End ReadLoop.

(** ** The passes of [wfs_read] over the copies of a file *)

Section Copies.
Import Wfs.

Lemma s32_idem (x y : Z) : s32 (s32 x + y) = s32 (x + y).
Proof.
  assert (E : (s32 x + y) mod 2 ^ 32 = (x + y) mod 2 ^ 32).
  { unfold s32, wrap_signed. destruct (_ <? _).
    - apply Z.add_mod_idemp_l. lia.
    - replace (x mod 2 ^ 32 - 2 ^ 32 + y)
        with (x mod 2 ^ 32 + y + (-1) * 2 ^ 32) by lia.
      rewrite Z.mod_add by lia. apply Z.add_mod_idemp_l. lia. }
  unfold s32 at 1 3, wrap_signed. rewrite E. reflexivity.
Qed.

Lemma s32_s32 (x : Z) : s32 (s32 x) = s32 x.
Proof.
  pose proof (s32_idem x 0) as H. rewrite !Z.add_0_r in H. exact H.
Qed.

Lemma add_bytes_sum (n : nat) (m : image) (x sum : Z) :
  s32 sum = sum ->
  add_bytes n m x sum
  = s32 (sum + fold_right Z.add 0
                 (map char_of
                    (map (fun i => load8 m (x + Z.of_nat i)) (seq 0 n)))).
Proof.
  revert x sum. induction n as [ | n IH]; intros x sum Hs.
  - cbn. rewrite Z.add_0_r. symmetry. exact Hs.
  - cbn [add_bytes seq map fold_right].
    rewrite IH by apply s32_s32.
    rewrite s32_idem. f_equal.
    rewrite <- seq_shift, !map_map.
    replace (x + Z.of_nat 0) with x by lia.
    unfold load_char. fold (char_of (load8 m x)).
    rewrite <- Z.add_assoc. do 3 f_equal.
    apply map_ext. intros i. do 2 f_equal. lia.
Qed.

Lemma copy_bytes_app (s : fs) (ino : addr) (disk p k1 k2 : Z) :
  0 <= k1 -> 0 <= k2 ->
  copy_bytes s ino disk p (k1 + k2)
  = copy_bytes s ino disk p k1 ++ copy_bytes s ino disk (p + k1) k2.
Proof.
  intros H1 H2. unfold copy_bytes.
  rewrite Z2Nat.inj_add, seq_app, map_app by lia. f_equal.
  rewrite Nat.add_0_l, map_seq_from.
  apply map_ext. intros i. f_equal. lia.
Qed.

Lemma total_app (l1 l2 : list Z) :
  fold_right Z.add 0 (map char_of (l1 ++ l2))
  = fold_right Z.add 0 (map char_of l1)
    + fold_right Z.add 0 (map char_of l2).
Proof.
  induction l1 as [ | b l1 IH]; cbn [app map fold_right]; [lia | ].
  rewrite IH. lia.
Qed.

Section OneCopy.
Variables (s : fs) (d a length offset : Z).
Let ino : addr := (d, a).
Let size : Z := load64u (image_at s d) (a + i_size).
Let E : Z := offset + summed_length size offset length.

Hypothesis mirrored : raid_mode s <> RAID0.
Hypothesis map_d : mapped s d.
Hypothesis range : 0 <= offset /\ 0 < length /\ offset + length <= size.
Hypothesis present : forall p, offset <= p < offset + length ->
  block_present s ino d (p / BLOCK_SIZE).

Let T : Z := offset + length - 1.

Lemma end_bounds :
  E = Z.min size (512 * (T / 512 + 1)) /\ T < E /\ E <= size
  /\ E <= T + 512.
Proof.
  unfold E, summed_length, BLOCK_SIZE. fold T.
  destruct (Z.leb_spec length 0) as [L | L]; [lia | ].
  replace (offset + length - 1) with T by (unfold T; lia).
  pose proof (Z.mod_pos_bound T 512 ltac:(lia)).
  pose proof (Z.div_mod T 512 ltac:(lia)).
  assert (T < size) by (unfold T; lia).
  split; [lia | ]. lia.
Qed.

Lemma present_to_end (p : Z) :
  offset <= p < E -> block_present s ino d (p / BLOCK_SIZE).
Proof.
  intros Hp. destruct end_bounds as (EE & H1 & H2 & H3).
  destruct (Z.le_gt_cases p T) as [Le | Gt].
  - apply present. unfold T in Le. lia.
  - replace (p / BLOCK_SIZE) with (T / BLOCK_SIZE);
      [apply present; unfold T; lia | ].
    unfold BLOCK_SIZE.
    pose proof (Z.mod_pos_bound T 512 ltac:(lia)).
    pose proof (Z.div_mod T 512 ltac:(lia)).
    apply (Z.div_unique p 512 (T / 512) (p - 512 * (T / 512))); lia.
Qed.

Lemma small_positions (p : Z) : offset <= p <= E -> 0 <= p < 2 ^ 62.
Proof.
  intros Hp. destruct end_bounds as (EE & H1 & H2 & H3).
  destruct (present T ltac:(unfold T; lia)) as ((_ & Hk) & _).
  change (D_BLOCK + BLOCK_SIZE / 8) with 70 in Hk. unfold BLOCK_SIZE in Hk.
  pose proof (Z.mod_pos_bound T 512 ltac:(lia)).
  pose proof (Z.div_mod T 512 ltac:(lia)). lia.
Qed.

Lemma byte_at_mirror (p : Z) :
  byte_at s ino d p
  = (d, block_slot s ino d (p / BLOCK_SIZE) + p mod BLOCK_SIZE).
Proof.
  unfold byte_at, block_disk.
  destruct (Z.eqb_spec (raid_mode s) RAID0) as [R | _];
    [contradiction | reflexivity].
Qed.

Lemma chunk_is_copy (pos tr : Z) :
  0 <= pos -> 0 <= tr -> pos mod 512 + tr <= 512 ->
  map (fun i => load8 (image_at s d)
                  (block_slot s ino d (pos / BLOCK_SIZE)
                   + pos mod BLOCK_SIZE + Z.of_nat i))
      (seq 0 (Z.to_nat tr))
  = copy_bytes s ino d pos tr.
Proof.
  intros Hp Ht Hin. unfold copy_bytes. apply map_ext_in. intros i Hi.
  apply in_seq in Hi. unfold copy_byte. rewrite byte_at_mirror.
  cbn [fst snd]. unfold BLOCK_SIZE.
  pose proof (Z.mod_pos_bound pos 512 ltac:(lia)) as Hlo.
  assert (Ep : pos = 512 * (pos / 512) + pos mod 512)
    by (apply Z.div_mod; lia).
  assert (Ek : (pos + Z.of_nat i) / 512 = pos / 512).
  { symmetry. apply (Z.div_unique _ 512 _ (pos mod 512 + Z.of_nat i)); lia. }
  assert (Em : (pos + Z.of_nat i) mod 512 = pos mod 512 + Z.of_nat i).
  { symmetry. apply (Z.mod_unique _ 512 (pos / 512)); lia. }
  rewrite Ek, Em. f_equal. lia.
Qed.

(** The checksum loop of state [INIT] sums the bytes of the copy, from
    where it stands to the end of the last block that the range
    touches, or to the end of the file. *)
Lemma checksum_loop_sums (fuel : nat) (br sum : Z) :
  let pos := offset + br in
  0 <= br -> pos <= E ->
  br = 0 \/ pos mod 512 = 0 \/ pos = E ->
  s32 sum = sum ->
  Z.max 0 (length - br) < Z.of_nat fuel ->
  checksum_loop fuel (Some ino) length br pos sum d s
  = Some (s32 (sum + fold_right Z.add 0
                       (map char_of (copy_bytes s ino d pos (E - pos)))),
          s).
Proof.
  cbv zeta. revert br sum.
  induction fuel as [ | fuel IH]; intros br sum Hbr Hle Hal Hs Hf; [lia | ].
  destruct end_bounds as (EE & H1 & H2 & H3).
  cbn [checksum_loop deref].
  rewrite (bind_eq _ _ _ _ _ eq_refl).
  unfold ino at 1, shift. cbn [fst snd].
  rewrite (bind_eq _ _ _ _ _ (rd_at load64u d (a + i_size) s map_d)).
  fold size.
  set (pos := offset + br) in *.
  assert (Hsz : 0 <= size < 2 ^ 64) by apply (load_le_range 8).
  pose proof (small_positions pos ltac:(lia)) as Hsmall.
  pose proof (Z.mod_pos_bound pos 512 ltac:(lia)) as Hlo.
  pose proof (Z.div_mod pos 512 ltac:(lia)) as Hdm.
  pose proof (Z.mod_pos_bound T 512 ltac:(lia)) as HTlo.
  pose proof (Z.div_mod T 512 ltac:(lia)) as HTdm.
  destruct (Z.eq_dec pos E) as [Eq | Ne].
  - (* the loop is over *)
    assert (Stop : (br <? length) && (pos <? size) = false).
    { destruct (Z.ltb_spec br length) as [L1 | L1]; [ | reflexivity].
      destruct (Z.ltb_spec pos size) as [L2 | L2]; [ | reflexivity].
      exfalso. unfold T, pos in *. lia. }
    rewrite Stop, Eq, Z.sub_diag. unfold copy_bytes. cbn.
    rewrite Z.add_0_r, Hs. reflexivity.
  - assert (PT : pos <= T).
    { destruct Hal as [-> | [Al | Eq]]; [unfold pos, T; lia | | contradiction].
      apply Z.div_exact in Al; [ | lia].
      assert (pos / 512 < T / 512 + 1) by nia. nia. }
    assert (Go : (br <? length) && (pos <? size) = true).
    { apply andb_true_iff. split; apply Z.ltb_lt; unfold T, pos in *; lia. }
    rewrite Go. cbv zeta. unfold BLOCK_SIZE.
    rewrite (u64_small (size - pos)) by lia.
    set (tr := if 512 - pos mod 512 >? size - pos then size - pos
               else 512 - pos mod 512).
    assert (Htr : 1 <= tr /\ pos + tr <= E /\ pos mod 512 + tr <= 512
                  /\ ((pos + tr) mod 512 = 0 \/ pos + tr = E)).
    { assert (NB : 512 * (pos / 512 + 1) <= 512 * (T / 512 + 1)).
      { assert (pos / 512 <= T / 512) by (apply Z.div_le_mono; lia). lia. }
      subst tr. destruct (Z.gtb_spec (512 - pos mod 512) (size - pos)).
      - split; [lia | ]. split; [lia | ]. split; [lia | ]. right. lia.
      - split; [lia | ]. split; [lia | ]. split; [lia | ]. left.
        replace (pos + (512 - pos mod 512)) with ((pos / 512 + 1) * 512)
          by lia.
        apply Z.mod_mul. lia. }
    clearbody tr. destruct Htr as (T1 & T2 & T3 & T4).
    rewrite (s64_small pos) by lia.
    rewrite (bind_eq _ _ _ _ _
               (present_block_resolves s ino d pos 0 map_d
                  ltac:(intros R; contradiction) ltac:(lia)
                  (present_to_end pos ltac:(unfold pos in *; lia)))).
    rewrite byte_at_mirror. cbn [deref].
    rewrite (bind_eq _ _ _ _ _ eq_refl). cbn [fst snd].
    rewrite (bind_eq _ _ _ _ _ (region_mapped s d map_d)).
    rewrite (u64_small (br + tr)) by lia.
    rewrite (u64_small (pos + tr)) by lia.
    replace (pos + tr) with (offset + (br + tr)) by (unfold pos; lia).
    rewrite add_bytes_sum by exact Hs.
    rewrite IH; try lia;
      [ | right; replace (offset + (br + tr)) with (pos + tr)
                   by (unfold pos; lia); exact T4
        | apply s32_s32].
    rewrite s32_idem. do 2 f_equal.
    replace (E - pos) with (tr + (E - (offset + (br + tr))))
      by (unfold pos; lia).
    rewrite copy_bytes_app by (unfold pos in *; lia).
    rewrite total_app, <- (chunk_is_copy pos tr) by lia.
    unfold pos, BLOCK_SIZE.
    replace (offset + br + tr) with (offset + (br + tr)) by lia.
    apply (f_equal s32). symmetry. apply Z.add_assoc.
Qed.

(** The read loop of state [READ_READY] copies the bytes of the range. *)
Lemma read_loop_reads (fuel : nat) (br : Z) (buf : list Z) :
  0 <= br <= length -> length - br < Z.of_nat fuel ->
  read_loop fuel (Some ino) length br (offset + br) buf d s
  = Some (inl (length,
               buf ++ copy_bytes s ino d (offset + br) (length - br)), s).
Proof.
  revert br buf. induction fuel as [ | fuel IH]; intros br buf Hbr Hf; [lia | ].
  destruct end_bounds as (EE & H1 & H2 & H3).
  cbn [read_loop deref].
  rewrite (bind_eq _ _ _ _ _ eq_refl).
  unfold ino at 1, shift. cbn [fst snd].
  rewrite (bind_eq _ _ _ _ _ (rd_at load64u d (a + i_size) s map_d)).
  fold size.
  assert (Hsz : 0 <= size < 2 ^ 64) by apply (load_le_range 8).
  set (pos := offset + br) in *.
  pose proof (small_positions pos ltac:(unfold pos, T in *; lia)) as Hsmall.
  destruct (Z.ltb_spec br length) as [L1 | L1]; cbn [andb].
  2:{ replace br with length by lia. rewrite Z.sub_diag.
      unfold copy_bytes. cbn [Z.to_nat seq map]. rewrite app_nil_r.
      reflexivity. }
  destruct (Z.ltb_spec pos size) as [L2 | L2];
    [ | exfalso; unfold pos in *; lia].
  cbv zeta. unfold BLOCK_SIZE.
  pose proof (Z.mod_pos_bound pos 512 ltac:(lia)) as Hlo.
  rewrite (u64_small (size - pos)) by lia.
  rewrite (u64_small (length - br)) by lia.
  set (t1 := if 512 - pos mod 512 >? size - pos then size - pos
             else 512 - pos mod 512).
  set (tr := if t1 >? length - br then length - br else t1).
  assert (Htr : 1 <= tr /\ tr <= length - br /\ pos mod 512 + tr <= 512).
  { subst tr t1.
    destruct (Z.gtb_spec (512 - pos mod 512) (size - pos));
      match goal with
      | |- context [?x >? ?y] => destruct (Z.gtb_spec x y)
      end; unfold pos in *; lia. }
  clearbody tr. clear t1. destruct Htr as (T1 & T2 & T3).
  rewrite (s64_small pos) by lia.
  rewrite (bind_eq _ _ _ _ _
             (present_block_resolves s ino d pos 0 map_d
                ltac:(intros R; contradiction) ltac:(lia)
                (present pos ltac:(unfold pos in *; lia)))).
  rewrite byte_at_mirror. cbn [fst snd].
  rewrite (bind_eq _ _ _ _ _ (region_mapped s d map_d)).
  rewrite (u64_small (br + tr)) by lia.
  rewrite (u64_small (pos + tr)) by lia.
  replace (pos + tr) with (offset + (br + tr)) by (unfold pos; lia).
  rewrite IH by lia.
  do 3 f_equal. rewrite <- app_assoc. f_equal.
  replace (length - br) with (tr + (length - (br + tr))) by lia.
  rewrite copy_bytes_app by lia.
  rewrite <- (chunk_is_copy pos tr) by lia.
  replace (pos + tr) with (offset + (br + tr)) by (unfold pos; lia).
  reflexivity.
Qed.

End OneCopy.
End Copies.

Section VotingRead.
Import Wfs.

(** Reads of no bytes. *)
Lemma empty_passes (s : fs) (d a offset pos : Z) :
  mapped s d ->
  checksum_loop 1 (Some (d, a)) 0 0 pos 0 d s
  = Some (checksum_of (copy_bytes s (d, a) d offset 0), s)
  /\ read_loop 1 (Some (d, a)) 0 0 pos [] d s
     = Some (inl (0, copy_bytes s (d, a) d offset 0), s).
Proof.
  intros Hm. cbn [checksum_loop read_loop deref].
  rewrite !(bind_eq _ _ _ _ _ eq_refl). unfold shift. cbn [fst snd].
  rewrite !(bind_eq _ _ _ _ _ (rd_at load64u d (a + i_size) s Hm)).
  change (0 <? 0) with false. cbn [andb].
  split; reflexivity.
Qed.

(** C2 (amended): under RAID1V, for a file found on every disk and a
    read of a byte range within its size, the blocks of the range being
    there on every disk.  [wfs_read] visits the copies in disk order;
    the checksum [cs d] of the copy on disk [d] is the sum, as an
    [int], of its bytes taken as [char]s, over the blocks that the
    range touches, up to the end of the file; the count of a disk is
    one plus the number of earlier disks with the same checksum; the
    disk [b] that wins is the first to reach the largest count, so that
    its checksum is matched by at least as many copies as any other;
    and the read returns the length and the bytes of the range in the
    copy on [b].  Consequently, with at least three disks, when all
    copies but one have the same checksum and the same content, and the
    remaining copy has another checksum, the read returns that common
    content. *)
Theorem voting_read (s : fs) (stack : Z -> Z) (path : string)
        (length offset : Z) (a : Z -> Z) :
  let D := total_disks (raid_mgr s) in
  let ino d := (d, a d) in
  let size d := load64u (image_at s d) (a d + i_size) in
  let cs d :=
    checksum_of (copy_bytes s (ino d) d offset
                   (summed_length (size d) offset length)) in
  let data d := copy_bytes s (ino d) d offset length in
  raid_type (raid_mgr s) = RAID1V -> raid_mode s = RAID1V -> 0 < D ->
  0 <= offset -> 0 <= length ->
  (forall d, 0 <= d < D ->
     mapped s d
     /\ find_inode_by_path path d s = Some ((0, Some (ino d)), s)
     /\ offset + length <= size d
     /\ forall p, offset <= p < offset + length ->
          block_present s (ino d) d (p / BLOCK_SIZE)) ->
  exists b s',
    wfs_read stack path length offset s = Some ((s32 length, data b), s')
    /\ 0 <= b < D
    /\ (forall d, 0 <= d < D ->
          copies_with (Z.to_nat D) 0 cs (cs d)
          <= copies_with (Z.to_nat D) 0 cs (cs b))
    /\ (forall d, 0 <= d < D -> count_for cs d <= count_for cs b)
    /\ (forall d, 0 <= d < b -> count_for cs d < count_for cs b)
    /\ (forall c good content,
          3 <= D -> 0 <= c < D -> cs c <> good ->
          (forall d, 0 <= d < D -> d <> c ->
                     cs d = good /\ data d = content) ->
          wfs_read stack path length offset s
          = Some ((s32 length, content), s')).
Proof.
  intros D ino size cs data Hv Hmode HD Ho Hl Hdisks.
  assert (Hmirror : raid_mode s <> RAID0) by (rewrite Hmode; discriminate).
  assert (Hone : forall d, 0 <= d < D -> length <> 0 ->
            0 <= offset < 2 ^ 62
            /\ (0 <= offset /\ 0 < length
                /\ offset + length <= load64u (image_at s d) (a d + i_size))).
  { intros d Hd N. destruct (Hdisks d Hd) as (Hm & _ & Hsz & Hpres).
    assert (R : 0 <= offset /\ 0 < length
                /\ offset + length <= load64u (image_at s d) (a d + i_size))
      by (unfold size in Hsz; lia).
    split; [ | exact R].
    apply (small_positions s d (a d) length offset R Hpres offset).
    pose proof (end_bounds s d (a d) length offset R). lia. }
  destruct (vote_run s stack path length offset (fun d => Some (ino d)) cs
              (fun d => inl (length, data d)) Hv HD)
    as (b & s' & Hrun & Hb & Hmost & Hall & Hfirst & Hgood).
  - intros d Hd. apply (Hdisks d Hd).
  - intros d Hd. destruct (Hdisks d Hd) as (Hm & _ & Hsz & Hpres).
    destruct (Z.eq_dec length 0) as [E0 | N].
    + subst length. apply (empty_passes s d (a d) offset _ Hm).
    + destruct (Hone d Hd N) as (Hsmall & R).
      rewrite (u64_small offset) by lia.
      pose proof (checksum_loop_sums s d (a d) length offset Hmirror Hm
                    R Hpres (S (Z.to_nat length)) 0 0) as G.
      cbv zeta in G. rewrite Z.add_0_r, Z.add_0_l in G.
      cbv beta. unfold ino.
      refine (eq_trans (G _ _ _ _ _) _); try lia; try reflexivity.
      * pose proof (end_bounds s d (a d) length offset R). lia.
      * unfold cs, checksum_of, size, ino.
        match goal with
        | |- context [?x + ?y - ?x] => replace (x + y - x) with y by lia
        end.
        reflexivity.
  - intros d Hd. destruct (Hdisks d Hd) as (Hm & _ & Hsz & Hpres).
    destruct (Z.eq_dec length 0) as [E0 | N].
    + subst length. apply (empty_passes s d (a d) offset _ Hm).
    + destruct (Hone d Hd N) as (Hsmall & R).
      rewrite (u64_small offset) by lia.
      pose proof (read_loop_reads s d (a d) length offset Hmirror Hm
                    R Hpres (S (Z.to_nat length)) 0 []) as G.
      rewrite Z.add_0_r, Z.sub_0_r in G. cbv beta. unfold ino, data.
      apply G; lia.
  - exists b, s'. split; [exact Hrun | ]. split; [exact Hb | ].
    split; [exact Hmost | ]. split; [exact Hall | ].
    split; [exact Hfirst | ].
    intros c good content H3 Hc Hbad Hothers.
    apply (Hgood c good length content H3 Hc Hbad).
    intros d Hd N. destruct (Hothers d Hd N) as [E1 E2].
    split; [exact E1 | rewrite E2; reflexivity].
Qed.

End VotingRead.

Section VotingRuns.
Import Wfs Scenario.

Lemma voting_read_witness :
  exists s',
    wfs_read (fun _ => 0) "/c" 4 0 (the (raid1v_c_corrupted 3 0))
    = Some ((s32 4, [120; 120; 120; 120]), s').
Proof.
  destruct (voting_read (the (raid1v_c_corrupted 3 0)) (fun _ => 0) "/c" 4 0
              (fun _ => 1024))
    as (b & s' & _ & _ & _ & _ & _ & H).
  - vm_compute. reflexivity.
  - vm_compute. reflexivity.
  - vm_compute. reflexivity.
  - lia.
  - lia.
  - intros d Hd.
    change (total_disks (raid_mgr (the (raid1v_c_corrupted 3 0)))) with 3
      in Hd.
    assert (B : forall p, 0 <= p < 0 + 4 -> p / BLOCK_SIZE = 0)
      by (intros p Hp; apply Z.div_small; unfold BLOCK_SIZE; lia).
    assert (E : d = 0 \/ d = 1 \/ d = 2) by lia.
    destruct E as [-> | [-> | ->]];
      (split; [vm_compute; split; [discriminate | reflexivity] | ]);
      (split; [vm_compute; reflexivity | ]);
      (split; [vm_compute; discriminate | ]);
      intros p Hp; rewrite (B p Hp); vm_compute;
      repeat split; try discriminate; left; discriminate.
  - exists s'. apply (H 0 480).
    + vm_compute. discriminate.
    + vm_compute. split; [discriminate | reflexivity].
    + vm_compute. discriminate.
    + intros d Hd N.
      change (total_disks (raid_mgr (the (raid1v_c_corrupted 3 0)))) with 3
        in Hd.
      assert (E : d = 1 \/ d = 2) by lia.
      destruct E as [-> | ->]; split; vm_compute; reflexivity.
Defined.
(** A read within the size of a file that has a hole: under RAID1V the
    checksum pass follows the null pointer that the resolver gives for
    the block that is not there, where the read loop of a plain mirror
    returns [-EIO]. *)
Lemma voting_read_of_a_hole :
  peek load64u 0 (1024 + i_size) raid1v_hole = Some 1025
  /\ peek load64s 0 (1024 + i_blocks 0) raid1v_hole = Some 0
  /\ result (wfs_read (fun _ => 0) "/c" 1 1024) raid1v_hole
     = Some (1, [120])
  /\ run (wfs_read (fun _ => 0) "/c" 4 0) raid1v_hole = None.
Proof. repeat split; vm_compute; reflexivity. Qed.

End VotingRuns.

(** ** A number that no entry holds; reading a mirror *)

Section Missing.
Import Wfs.

(** The scan passes every slot that holds another number. *)
Lemma delete_scan_misses (n : nat) (dir : addr) (inum disk : Z) (s : fs)
      (off : Z) :
  (forall i, (i < n)%nat ->
     exists d,
       get_block_location (Some dir) (off + sizeof_wfs_dentry * Z.of_nat i)
         0 disk s = Some (Some d, s)
       /\ mapped s (fst d)
       /\ load32s (image_at s (fst d)) (snd d + de_num) <> inum) ->
  delete_scan n off dir inum disk s = Some (-1, s).
Proof.
  revert off. induction n as [ | n IH]; intros off Hall; [reflexivity | ].
  cbn [delete_scan].
  destruct (Hall 0%nat ltac:(lia)) as ([t x] & Hr & Hm & Hn).
  replace (off + sizeof_wfs_dentry * Z.of_nat 0) with off in Hr by lia.
  rewrite (bind_eq _ _ _ _ _ Hr). cbn [deref].
  rewrite (bind_eq _ _ _ _ _ eq_refl).
  unfold shift. cbn [fst snd] in *.
  rewrite (bind_eq _ _ _ _ _ (rd_at load32s t (x + de_num) s Hm)).
  destruct (Z.eqb_spec (load32s (image_at s t) (x + de_num)) inum)
    as [E | _]; [contradiction | ].
  apply IH. intros i Hi.
  destruct (Hall (S i) ltac:(lia)) as (d & H1 & H2).
  exists d. split; [ | exact H2]. rewrite <- H1. f_equal. lia.
Qed.

(** [delete_dir_entry] for a number that no slot of the directory holds
    returns -1 and changes nothing. *)
Theorem delete_dir_entry_missing (s : fs) (dir : addr) (inum disk : Z) :
  let size := load64u (image_at s (fst dir)) (snd dir + i_size) in
  mapped s (fst dir) ->
  (forall off, 0 <= off < size -> off mod sizeof_wfs_dentry = 0 ->
     exists d,
       get_block_location (Some dir) off 0 disk s = Some (Some d, s)
       /\ mapped s (fst d)
       /\ load32s (image_at s (fst d)) (snd d + de_num) <> inum) ->
  delete_dir_entry (Some dir) inum disk s = Some (-1, s).
Proof.
  intros size Hm Hall. unfold delete_dir_entry. cbn [deref].
  rewrite (bind_eq _ _ _ _ _ eq_refl).
  destruct dir as [pd a]. unfold shift. cbn [fst snd] in *.
  rewrite (bind_eq _ _ _ _ _ (rd_at load64u pd (a + i_size) s Hm)).
  fold size. apply delete_scan_misses. intros i Hi.
  assert (Hs : 0 <= size) by apply load_le_range.
  unfold sizeof_wfs_dentry in *. rewrite Z.add_0_l. apply Hall.
  - unfold dentry_slots, sizeof_wfs_dentry in Hi.
    apply Nat2Z.inj_lt in Hi.
    rewrite Z2Nat.id in Hi by (apply Z.div_pos; lia).
    pose proof (Z.mul_div_le (size + 32 - 1) 32 ltac:(lia)). lia.
  - rewrite Z.mul_comm. apply Z_mod_mult.
Qed.

End Missing.

Section Reads.
Import Wfs.

(** Under RAID1 [wfs_read] is served by the first disk alone: for a
    file found there, with the bytes asked for inside its direct blocks
    and their blocks in place, it returns the smaller of the length and
    of what the size leaves after the offset (0 at or past the end), and
    the bytes of the copy on the first disk. *)
Theorem raid1_read_returns_file_bytes (s : fs) (stack : Z -> Z)
        (path : string) (length offset a : Z) :
  let size := load64u (image_at s 0) (a + i_size) in
  let n := Z.max 0 (Z.min length (size - offset)) in
  raid_type (raid_mgr s) = RAID1 -> raid_mode s <> RAID0 ->
  find_inode_by_path path 0 s = Some ((0, Some (0, a)), s) ->
  0 <= offset -> 0 <= length < 2 ^ 31 ->
  offset + n <= IND_BLOCK * BLOCK_SIZE ->
  (forall p, offset <= p < offset + n ->
     load64s (image_at s 0) (a + i_blocks (p / BLOCK_SIZE)) <> 0) ->
  exists g,
    wfs_read stack path length offset s
    = Some ((n, file_bytes s (0, a) offset n), with_mgr s g).
Proof.
  intros size n Htype Hmode Hfind Ho Hl Hd Hp.
  change (IND_BLOCK * BLOCK_SIZE) with 3584 in Hd.
  assert (Hm : mapped s 0).
  { unfold find_inode_by_path in Hfind. apply bind_inv in Hfind.
    destruct Hfind as (root & sx & Hg & _).
    apply get_inode_inv in Hg. apply Hg. }
  assert (Hn : 0 <= n <= length) by lia.
  assert (Hr : 0 <= offset /\ 0 <= length < 2 ^ 63) by lia.
  assert (Hf : n - 0 < Z.of_nat (S (Z.to_nat length))) by lia.
  pose proof (read_loop_direct s 0 a length offset n Hmode Hm Hr eq_refl Hd Hp
                (S (Z.to_nat length)) 0 [] (conj (Z.le_refl 0) (proj1 Hn)) Hf)
    as Hread.
  rewrite Z.add_0_r, Z.sub_0_r in Hread. cbn [app] in Hread.
  rewrite <- (u64_small offset) in Hread at 1 by lia.
  destruct s as [regs rm td ec [st cd D rt bs op]].
  cbn [raid_mgr raid_type] in Htype. subst rt.
  set (s0 := mk_fs regs rm td ec (mk_mgr st cd D RAID1 bs op)) in *.
  destruct (read_ready_turn s0 path length offset
              (fun _ => Some (0, a))
              (fun _ => inl (n, file_bytes s0 (0, a) offset n)) 1
              (fun d Hd' => ltac:(replace d with 0 by lia; exact Hfind))
              (fun d Hd' => ltac:(replace d with 0 by lia; exact Hread))
              (Z.to_nat D + 1) (mk_read_locals stack (-1) 0)
              (mk_mgr READ_READY 0 D RAID1 length (u64 (op + 1))))
    as [g' Hg']; [reflexivity | cbn; lia | ].
  exists g'.
  cbn [read_outcome current_disk] in Hg'.
  rewrite (s32_small n) in Hg' by lia.
  assert (Hprep : prepare_read_operation length s0
                  = Some (0, with_mgr s0 (mk_mgr READ_READY 0 D RAID1 length
                                                 (u64 (op + 1)))))
    by reflexivity.
  unfold wfs_read. rewrite (bind_eq _ _ _ _ _ Hprep).
  change (0 <? 0) with false. cbv iota.
  rewrite (bind_eq _ _ _ _ _ eq_refl).
  cbn [raid_mgr with_mgr total_disks].
  replace (Z.to_nat D + 2)%nat with (S (Z.to_nat D + 1)) by lia.
  exact Hg'.
Qed.

End Reads.

(** ** Writing, then reading *)

Section RoundTrip.
Import Wfs.

(** One turn of [wfs_write] on a mirror followed by the read loop on
    the same disk, for a write inside the direct blocks: once the copy
    loop has copied everything and the size is updated, the size is the
    larger of what it was and of the end of the write, and the read
    loop over the same range returns the bytes that were written. *)
Theorem written_bytes_read_back (s s1 s2 : fs) (d a : Z) (buf : list Z)
        (length offset w pos : Z) :
  let size := load64s (image_at s d) (a + i_size) in
  raid_mode s <> RAID0 -> raid_type (raid_mgr s) <> RAID0 ->
  mapped s d ->
  record_layout s (d, a) -> direct_blocks_owned s (d, a) ->
  0 <= offset -> 0 <= length < 2 ^ 31 ->
  offset + length <= IND_BLOCK * BLOCK_SIZE ->
  0 <= size < 2 ^ 62 ->
  write_chunks (S (Z.to_nat length)) (Some (d, a)) buf length 0 offset d s
  = Some ((true, w, pos), s1) ->
  update_size (Some (d, a)) (s64 (length - (size - offset))) s1
  = Some (tt, s2) ->
  load64s (image_at s2 d) (a + i_size) = Z.max size (offset + length)
  /\ read_loop (S (Z.to_nat length)) (Some (d, a)) length 0 offset [] d s2
     = Some (inl (length,
                  map (fun i => nth i buf 0 mod 256)
                      (seq 0 (Z.to_nat length))), s2).
Proof.
  intros size Hmode Htype Hm L Ow Ho Hl Hr Hsz Hrun Hupd.
  change (IND_BLOCK * BLOCK_SIZE) with 3584 in Hr.
  assert (Hrange : 0 <= offset /\ 0 <= length /\ offset + length <= 3584)
    by lia.
  destruct (chunks_outcome s d a L Hmode buf length offset Hrange
              true w pos s1 Ow Hrun)
    as (_ & Ht & _ & _ & Esz & _ & Hrb & L1 & Ow1 & _).
  specialize (Ht eq_refl). subst w.
  destruct (chunks_keep_modes s d a L Hmode buf length offset Hrange
              true length pos s1 Ow Hrun) as (Em & _ & Eg & Emap).
  assert (Hm1 : mapped s1 d) by (apply Emap; exact Hm).
  fold size in Esz.
  (* the state after the size is updated *)
  assert (S2 : raid_mode s2 = raid_mode s1 /\ mapped s2 d
               /\ load64s (image_at s2 d) (a + i_size)
                  = Z.max size (offset + length)
               /\ forall x, x < a + i_size \/ a + i_size + 8 <= x ->
                            load8 (image_at s2 d) x = load8 (image_at s1 d) x).
  { unfold update_size in Hupd.
    rewrite (s64_small (length - (size - offset))) in Hupd by lia.
    destruct (Z.gtb_spec (length - (size - offset)) 0) as [G | G].
    - cbn [deref] in Hupd. open_bind Hupd. injection Hc as <- <-.
      open_rd Hupd. open_bind Hupd. apply wr_inv in Hc.
      unfold shift in *. cbn [fst snd] in *. destruct Hc as [_ ->].
      open_bind Hupd. injection Hc as <- <-.
      cbn [raid_mgr with_image with_regions] in Hupd.
      rewrite Eg in Hupd.
      destruct (Z.eqb_spec (raid_type (raid_mgr s)) RAID0) as [E | _];
        [contradiction | ].
      injection Hupd as <-.
      split; [reflexivity | ]. split; [apply mapped_with_image; exact Hm1 | ].
      rewrite image_at_with_image by exact Hm1. rewrite Z.eqb_refl.
      split.
      + rewrite load64s_store64, Esz.
        rewrite (s64_small (size + (length - (size - offset)))) by lia.
        rewrite s64_small by lia. lia.
      + intros x Hx. apply store_le_outside. lia.
    - injection Hupd as <-.
      split; [reflexivity | ]. split; [exact Hm1 | ].
      split; [rewrite Esz; lia | reflexivity]. }
  destruct S2 as (Em2 & Hm2 & Esz2 & Frame).
  split; [exact Esz2 | ].
  (* what the slots and the blocks of the file hold *)
  assert (B1 : 64 <= a /\ a + 120 <= load64s (image_at s1 d) sb_d_blocks_ptr).
  { unfold record_layout in L1. cbv zeta in L1. cbn [fst snd] in L1.
    unfold sizeof_wfs_sb, sizeof_wfs_inode in L1.
    assert (0 <= load64u (image_at s1 d) sb_num_data_blocks / 32)
      by (apply Z.div_pos; [apply load_le_range | lia]).
    lia. }
  assert (Slot : forall k, 0 <= k <= 6 ->
            load64s (image_at s2 d) (a + i_blocks k)
            = load64s (image_at s1 d) (a + i_blocks k)).
  { intros k Hk. unfold load64s. f_equal. apply load_le_ext.
    intros x Hx. apply Frame. unfold i_blocks, i_size in *.
    change (Z.of_nat 8) with 8 in Hx. lia. }
  assert (Hk : forall p, offset <= p < offset + length -> 0 <= p / 512 <= 6).
  { intros p Hp. split; [apply Z.div_pos; lia | ].
    apply Z.lt_succ_r. apply Z.div_lt_upper_bound; lia. }
  assert (Byte : forall i, 0 <= i < length ->
            load64s (image_at s2 d) (a + i_blocks ((offset + i) / 512)) <> 0
            /\ file_byte s2 (d, a) (offset + i) = nth (Z.to_nat i) buf 0 mod 256).
  { intros i Hi. destruct (Hrb i Hi) as [NZ E]. cbv zeta in NZ, E.
    unfold BLOCK_SIZE in *.
    pose proof (Hk (offset + i) ltac:(lia)) as Hki.
    rewrite (Slot _ Hki). split; [exact NZ | ].
    unfold file_byte, BLOCK_SIZE. cbn [fst snd]. rewrite (Slot _ Hki).
    rewrite <- E. apply Frame.
    destruct Ow1 as [O1 _]. cbv zeta in O1. cbn [fst snd] in O1.
    change D_BLOCK with 6 in O1. unfold BLOCK_SIZE in O1.
    destruct (O1 _ Hki) as [Z0 | (n & Hn & En & _)]; [contradiction | ].
    pose proof (Z.mod_pos_bound (offset + i) 512 ltac:(lia)).
    unfold i_size. lia. }
  assert (Eu : load64u (image_at s2 d) (a + i_size)
               = Z.max size (offset + length)).
  { rewrite load64u_of_signed; [exact Esz2 | rewrite Esz2; lia]. }
  assert (Hf : length - 0 < Z.of_nat (S (Z.to_nat length))) by lia.
  pose proof (read_loop_direct s2 d a length offset length
                ltac:(rewrite Em2, Em; exact Hmode) Hm2
                ltac:(lia) ltac:(rewrite Eu; lia) ltac:(lia)) as Hread.
  specialize (Hread ltac:(intros p Hp;
                          replace p with (offset + (p - offset)) by lia;
                          apply Byte; lia)
                    (S (Z.to_nat length)) 0 [] ltac:(lia) Hf).
  rewrite Z.add_0_r, Z.sub_0_r in Hread. cbn [app] in Hread.
  etransitivity; [exact Hread | ]. do 4 f_equal. unfold file_bytes.
  apply map_ext_in. intros i Hi. apply in_seq in Hi.
  destruct (Byte (Z.of_nat i) ltac:(lia)) as [_ E].
  rewrite E, Nat2Z.id. reflexivity.
Qed.

End RoundTrip.

(** ** Mounting *)

Section Mounting.
Import Wfs.

Let order (m : image) : Z := load64u m sb_device_order.

Lemma record_orders_absent (images : list image) (i : Z) (orders : Z -> Z)
      (k : Z) :
  ~ In k (map order images) -> record_orders images i orders k = orders k.
Proof.
  revert i orders. induction images as [ | m rest IH]; intros i orders Hk.
  - reflexivity.
  - cbn [record_orders]. rewrite IH.
    + destruct (Z.eqb_spec k (load64u m sb_device_order)) as [E | _];
        [ | reflexivity].
      exfalso. apply Hk. left. symmetry. exact E.
    + intros Hin. apply Hk. right. exact Hin.
Qed.

Lemma record_orders_at (images : list image) (i : Z) (orders : Z -> Z)
      (p : nat) (m : image) :
  NoDup (map order images) -> nth_error images p = Some m ->
  record_orders images i orders (order m) = i + Z.of_nat p.
Proof.
  revert i orders p. induction images as [ | m0 rest IH];
    intros i orders p Hn Hp.
  - destruct p; discriminate Hp.
  - cbn [map] in Hn. inversion Hn as [ | x l Hnot Hrest]. subst x l.
    cbn [record_orders]. destruct p as [ | p].
    + injection Hp as ->. rewrite record_orders_absent by exact Hnot.
      unfold order. rewrite Z.eqb_refl. lia.
    + cbn [nth_error] in Hp. rewrite (IH _ _ p Hrest Hp). lia.
Qed.

Lemma place_regions_absent (images : list image) (i : Z) (orders : Z -> Z)
      (temp : Z -> option image) (k : Z) :
  (forall p, (p < List.length images)%nat -> orders (i + Z.of_nat p) <> k) ->
  place_regions images i orders temp k = temp k.
Proof.
  revert i temp. induction images as [ | m rest IH]; intros i temp Hk.
  - reflexivity.
  - cbn [place_regions]. rewrite IH.
    + destruct (Z.eqb_spec k (orders i)) as [E | _]; [ | reflexivity].
      exfalso. apply (Hk 0%nat); [cbn; lia | ].
      rewrite Z.add_0_r. symmetry. exact E.
    + intros p Hp. replace (i + 1 + Z.of_nat p) with (i + Z.of_nat (S p))
        by lia.
      apply Hk. cbn. lia.
Qed.

Lemma place_regions_at (images : list image) (i : Z) (orders : Z -> Z)
      (temp : Z -> option image) (p : nat) (m : image) :
  (forall q r, (q < List.length images)%nat -> (r < List.length images)%nat ->
               orders (i + Z.of_nat q) = orders (i + Z.of_nat r) -> q = r) ->
  nth_error images p = Some m ->
  place_regions images i orders temp (orders (i + Z.of_nat p)) = Some m.
Proof.
  revert i temp p. induction images as [ | m0 rest IH];
    intros i temp p Hinj Hp.
  - destruct p; discriminate Hp.
  - cbn [place_regions]. destruct p as [ | p].
    + injection Hp as ->. rewrite place_regions_absent.
      * rewrite Z.add_0_r, Z.eqb_refl. reflexivity.
      * intros q Hq E.
        assert (S q = 0%nat); [ | discriminate].
        apply Hinj; [cbn; lia | cbn; lia | ].
        rewrite <- E. f_equal. lia.
    + cbn [nth_error] in Hp.
      replace (i + Z.of_nat (S p)) with (i + 1 + Z.of_nat p) by lia.
      apply IH; [ | exact Hp].
      intros q r Hq Hr E.
      assert (S q = S r); [ | congruence].
      apply Hinj; [cbn; lia | cbn; lia | ].
      replace (i + Z.of_nat (S q)) with (i + 1 + Z.of_nat q) by lia.
      replace (i + Z.of_nat (S r)) with (i + 1 + Z.of_nat r) by lia.
      exact E.
Qed.

Lemma collect_regions_inv (n : nat) (i : Z) (temp : Z -> option image)
      (l : list image) :
  collect_regions n i temp = Some l ->
  List.length l = n
  /\ forall j, (j < n)%nat -> nth_error l j = temp (i + Z.of_nat j).
Proof.
  revert i l. induction n as [ | n IH]; intros i l H.
  - injection H as <-. split; [reflexivity | ]. intros j Hj. lia.
  - cbn [collect_regions] in H.
    destruct (temp i) as [m | ] eqn:Em; [ | discriminate].
    destruct (collect_regions n (i + 1) temp) as [l' | ] eqn:El;
      [ | discriminate].
    injection H as <-. destruct (IH _ _ El) as [Hl Hn].
    split; [cbn; congruence | ].
    intros [ | j] Hj.
    + cbn. rewrite Z.add_0_r. symmetry. exact Em.
    + cbn [nth_error]. rewrite Hn by lia. f_equal. lia.
Qed.

(** Every number below the count is the order of some image, when the
    orders are distinct and below the count. *)
Lemma orders_cover (images : list image) (i : Z) :
  NoDup (map order images) ->
  (forall m, In m images -> order m < Z.of_nat (List.length images)) ->
  0 <= i < Z.of_nat (List.length images) ->
  exists p m, nth_error images p = Some m /\ order m = i.
Proof.
  intros Hn Hb Hi.
  assert (Hin : In i (map order images)).
  { apply (NoDup_length_incl Hn
             (l' := map Z.of_nat (seq 0 (List.length images)))).
    - rewrite !length_map, length_seq. lia.
    - intros x Hx. apply in_map_iff in Hx. destruct Hx as (m & <- & Hm).
      apply in_map_iff. exists (Z.to_nat (order m)).
      assert (0 <= order m) by apply load_le_range.
      specialize (Hb m Hm).
      split; [lia | ]. apply in_seq. lia.
    - apply in_map_iff. exists (Z.to_nat i). split; [lia | ].
      apply in_seq. lia. }
  apply in_map_iff in Hin. destruct Hin as (m & E & Hm).
  apply In_nth_error in Hm. destruct Hm as [p Hp].
  exists p, m. split; [exact Hp | exact E].
Qed.

Lemma verify_root_inodes_inv (n : nat) (i : Z) (s s' : fs) (r : Z) :
  verify_root_inodes n i s = Some (r, s') ->
  s' = s
  /\ (r = 0 ->
      forall j, i <= j < i + Z.of_nat n ->
        exists a, get_inode 0 j s = Some (Some (j, a), s)
                  /\ Z.land (load32u (image_at s j) (a + i_mode)) S_IFMT
                     = S_IFDIR).
Proof.
  revert i. induction n as [ | n IH]; intros i H.
  - injection H as <- <-. split; [reflexivity | ]. intros _ j Hj. lia.
  - cbn [verify_root_inodes] in H. open_bind H.
    pose proof Hc as Hg. apply get_inode_inv in Hc.
    destruct Hc as (-> & Hm & Hw). rename a into w.
    destruct w as [r0 | ]; [ | injection H as <- <-; split;
                                 [reflexivity | discriminate]].
    destruct Hw as [Hw | Hw]; [discriminate | ]. injection Hw as ->.
    open_rd H. unfold shift in H. cbn [fst snd] in H.
    match type of H with
    | (if negb (?x =? ?y) then _ else _) _ = _ =>
        destruct (Z.eqb_spec x y) as [E | NE]; cbn [negb] in H
    end.
    + destruct (IH _ H) as [-> Hrest]. split; [reflexivity | ].
      intros R j Hj. destruct (Z.eq_dec j i) as [-> | Hne].
      * eexists. split; [exact Hg | exact E].
      * apply (Hrest R). lia.
    + injection H as <- <-. split; [reflexivity | discriminate].
Qed.

Lemma bytes_equal_inv (n : nat) (a b : image) (at_ : Z) :
  bytes_equal n a b at_ = true ->
  forall x, at_ <= x < at_ + Z.of_nat n -> load8 a x = load8 b x.
Proof.
  revert at_. induction n as [ | n IH]; intros at_ H x Hx; [lia | ].
  cbn [bytes_equal] in H. apply andb_true_iff in H. destruct H as [H1 H2].
  apply Z.eqb_eq in H1. destruct (Z.eq_dec x at_) as [-> | Hne];
    [exact H1 | ].
  apply (IH _ H2). lia.
Qed.

Lemma mount_inv (images : list image) (s : fs) :
  mount images = Some s ->
  exists first rest regions,
    images = first :: rest
    /\ (2 <= List.length images)%nat
    /\ forallb (same_volume first) rest = true
    /\ collect_regions (List.length images) 0
         (place_regions images 0 (record_orders images 0 (fun _ => 0))
            (fun _ => None)) = Some regions
    /\ s = mk_fs regions (load32s first sb_raid_mode)
                 (Z.of_nat (List.length images)) 0
                 (mk_mgr INIT 0 (Z.of_nat (List.length images))
                         (load32s first sb_raid_mode) 0 0)
    /\ verify_root_inodes (List.length images) 0 s = Some (0, s).
Proof.
  unfold mount. intros H.
  destruct (Z.ltb_spec (Z.of_nat (List.length images)) 2) as [ | Hc];
    [discriminate | ].
  destruct images as [ | first rest]; [discriminate | ].
  destruct (forallb (same_volume first) rest) eqn:Hv; [ | discriminate].
  destruct (collect_regions _ _ _) as [regions | ] eqn:Hr; [ | discriminate].
  match type of H with
  | match ?v with _ => _ end = _ => destruct v as [[r s'] | ] eqn:Hroot
  end; [ | discriminate].
  destruct (verify_root_inodes_inv _ _ _ _ _ Hroot) as [-> _].
  destruct r; try discriminate. injection H as <-.
  exists first, rest, regions. repeat split; try assumption; try lia.
Qed.

(** What [main] has checked when it calls [fuse_main], for at most
    [MAX_DISKS] images whose device orders are below [MAX_DISKS], so that
    the arrays [fds], [fs_memory_regions], [device_orders] and
    [temp_regions] are written within their bounds: there are at least
    two images; the state holds their count, the RAID mode of the first
    and no error; every image agrees with the first on the first 48 bytes
    of the superblock, so on the layout, on the identifier and on the
    RAID mode; and on every disk inode 0 is in use and is a directory. *)
Theorem mount_checks (images : list image) (s : fs) :
  Z.of_nat (List.length images) <= MAX_DISKS ->
  (forall m, In m images -> load64u m sb_device_order < MAX_DISKS) ->
  mount images = Some s ->
  let first := hd zero_image images in
  2 <= Z.of_nat (List.length images)
  /\ total_devices s = Z.of_nat (List.length images)
  /\ List.length (fs_memory_regions s) = List.length images
  /\ raid_mode s = load32s first sb_raid_mode
  /\ error_code s = 0
  /\ raid_mgr s = mk_mgr INIT 0 (total_devices s) (raid_mode s) 0 0
  /\ (forall m, In m images ->
        load32s m sb_fs_identifier = load32s first sb_fs_identifier
        /\ load32s m sb_raid_mode = raid_mode s
        /\ forall x, 0 <= x < 48 -> load8 m x = load8 first x)
  /\ (forall j, 0 <= j < total_devices s ->
        exists a, get_inode 0 j s = Some (Some (j, a), s)
                  /\ Z.land (load32u (image_at s j) (a + i_mode)) S_IFMT
                     = S_IFDIR).
Proof.
  intros _ _ H first. apply mount_inv in H.
  destruct H as (f & rest & regions & -> & Hn & Hv & Hr & Hs & Hroot).
  subst first. cbn [hd].
  apply collect_regions_inv in Hr. destruct Hr as [Hl _].
  split; [lia | ]. subst s. cbn [total_devices fs_memory_regions raid_mode
                                 error_code raid_mgr].
  split; [reflexivity | ]. split; [exact Hl | ]. split; [reflexivity | ].
  split; [reflexivity | ]. split; [reflexivity | ]. split.
  - intros m [<- | Hm]; [repeat split | ].
    rewrite forallb_forall in Hv. specialize (Hv m Hm).
    unfold same_volume in Hv. apply andb_true_iff in Hv.
    destruct Hv as [Hv H48]. apply andb_true_iff in Hv.
    destruct Hv as [Hid Hmode]. apply Z.eqb_eq in Hid, Hmode.
    split; [symmetry; exact Hid | ]. split; [symmetry; exact Hmode | ].
    intros x Hx. symmetry. apply (bytes_equal_inv _ _ _ _ H48). lia.
  - destruct (verify_root_inodes_inv _ _ _ _ _ Hroot) as [_ R].
    intros j Hj. apply (R eq_refl). lia.
Qed.

(** [sort_device_order] when at most [MAX_DISKS] images, which the
    arrays of [main] have room for, carry distinct device orders below
    their count: the mapping that ends up at index [j] is the image
    given at the index that the [j]-th image carries as its device
    order. *)
Theorem mount_places_regions (images : list image) (s : fs) :
  Z.of_nat (List.length images) <= MAX_DISKS ->
  mount images = Some s ->
  NoDup (map (fun m => load64u m sb_device_order) images) ->
  (forall m, In m images ->
             load64u m sb_device_order < Z.of_nat (List.length images)) ->
  forall j m, nth_error images j = Some m ->
    nth_error (fs_memory_regions s) j
    = nth_error images (Z.to_nat (load64u m sb_device_order)).
Proof.
  intros _ H Hn Hb j m Hj. apply mount_inv in H.
  destruct H as (f & rest & regions & E & _ & _ & Hr & Hs & _).
  clear E. fold order in Hn. change (forall m, In m images ->
                 order m < Z.of_nat (List.length images)) in Hb.
  fold (order m).
  apply collect_regions_inv in Hr. destruct Hr as [_ Hr].
  subst s. cbn [fs_memory_regions].
  assert (Hjl : (j < List.length images)%nat)
    by (apply nth_error_Some; congruence).
  rewrite (Hr j Hjl). rewrite Z.add_0_l.
  set (orders := record_orders images 0 (fun _ => 0)).
  assert (Hat : forall p m', nth_error images p = Some m' ->
                             orders (order m') = Z.of_nat p).
  { intros p m' Hp. unfold orders.
    rewrite (record_orders_at images 0 _ p m' Hn Hp). lia. }
  assert (Hm : In m images) by (eapply nth_error_In; exact Hj).
  assert (Ho : 0 <= order m < Z.of_nat (List.length images))
    by (split; [apply load_le_range | apply Hb; exact Hm]).
  destruct (nth_error images (Z.to_nat (order m))) as [m' | ] eqn:Em';
    [ | apply nth_error_None in Em'; lia].
  rewrite <- (Hat j m Hj).
  replace (order m) with (0 + Z.of_nat (Z.to_nat (order m))) by lia.
  apply place_regions_at; [ | exact Em'].
  intros q r Hq Hr' Eq. rewrite !Z.add_0_l in Eq.
  destruct (orders_cover images (Z.of_nat q) Hn Hb ltac:(lia))
    as (p1 & m1 & Hp1 & E1).
  destruct (orders_cover images (Z.of_nat r) Hn Hb ltac:(lia))
    as (p2 & m2 & Hp2 & E2).
  rewrite <- E1, <- E2 in Eq.
  rewrite (Hat _ _ Hp1), (Hat _ _ Hp2) in Eq.
  assert (p1 = p2) by lia. subst p2.
  assert (m1 = m2) by congruence. subst m2. lia.
Qed.

End Mounting.

(** ** What the initializer leaves on a disk *)

Section Formatting.
Import Mkfs.

Lemma load_memset_other (n : nat) (m : image) (a c len b : Z) :
  b + Z.of_nat n <= a \/ a + len <= b ->
  load_le n (memset m a c len) b = load_le n m b.
Proof.
  intros H. apply load_le_ext. intros x Hx. apply memset_outside. lia.
Qed.

Lemma round_up_block (x : Z) :
  0 < x ->
  let r := if x mod 512 =? 0 then x else x + (512 - x mod 512) in
  x <= r < x + 512 /\ r mod 512 = 0 /\ 512 <= r.
Proof.
  intros Hx r. pose proof (Z.mod_pos_bound x 512 ltac:(lia)) as Hb.
  assert (R : x <= r < x + 512 /\ r mod 512 = 0).
  { subst r. destruct (Z.eqb_spec (x mod 512) 0) as [E | NE].
    - split; [lia | exact E].
    - split; [lia | ].
      rewrite (Z.div_mod x 512) at 1 by lia.
      replace (512 * (x / 512) + x mod 512 + (512 - x mod 512))
        with ((x / 512 + 1) * 512) by lia.
      apply Z_mod_mult. }
  destruct R as [R1 R2]. split; [exact R1 | ]. split; [exact R2 | ].
  apply Z.mod_divide in R2; [ | lia]. destruct R2 as [q Hq]. lia.
Qed.

(** Where [calculate_layout] puts the inode bitmap and the inodes. *)
Lemma layout_root (sb0 : wfs_sb) (I B : Z) :
  0 <= I < 2 ^ 31 -> 0 <= B < 2 ^ 31 ->
  let sb := fst (calculate_layout sb0 I B) in
  i_bitmap_ptr sb = 64
  /\ 512 <= i_blocks_ptr sb < 2 ^ 32 /\ i_blocks_ptr sb mod 512 = 0
  /\ num_inodes sb = num_inodes sb0
  /\ num_data_blocks sb = num_data_blocks sb0
  /\ raid_mode sb = raid_mode sb0
  /\ device_order sb = device_order sb0.
Proof.
  intros HI HB sb. subst sb. unfold calculate_layout. cbv zeta.
  cbn [fst i_bitmap_ptr i_blocks_ptr num_inodes num_data_blocks raid_mode
       device_order].
  unfold sizeof_wfs_sb, BLOCK_SIZE.
  rewrite (u64_small (I + 7)), (u64_small (B + 7)) by lia.
  rewrite !Z.shiftr_div_pow2 by lia. change (2 ^ 3) with 8.
  assert (0 <= (I + 7) / 8 < 2 ^ 29)
    by (split; [apply Z.div_pos | apply Z.div_lt_upper_bound]; lia).
  assert (0 <= (B + 7) / 8 < 2 ^ 29)
    by (split; [apply Z.div_pos | apply Z.div_lt_upper_bound]; lia).
  rewrite (s64_small 64) by lia.
  rewrite (s64_small (64 + (I + 7) / 8)) by lia.
  rewrite (u64_small (64 + (I + 7) / 8 + (B + 7) / 8)) by lia.
  set (x := 64 + (I + 7) / 8 + (B + 7) / 8).
  destruct (round_up_block x ltac:(lia)) as (R1 & R2 & R3).
  split; [reflexivity | ].
  destruct (Z.eqb_spec (x mod 512) 0) as [E | NE];
    rewrite s64_small by lia; repeat split; try lia; try exact R2.
Qed.

Section OneDisk.
Variables (p : process) (disk : disk_state) (f f' : file).
Hypothesis inodes : 0 <= inode_count disk < 2 ^ 31.
Hypothesis blocks : 0 <= block_count disk < 2 ^ 31.
Hypothesis made : create_filesystem p disk f = (WFS_OK, f').

Let sb0 : wfs_sb :=
  mk_sb (inode_count disk) (block_count disk) 0 0 0 0
        (fs_id disk) (ds_raid_mode disk) (u64 (ds_device_order disk)).
Let sb : wfs_sb :=
  fst (calculate_layout sb0 (inode_count disk) (block_count disk)).
Let ip : Z := i_blocks_ptr sb.

Lemma made_image :
  data f'
  = write_root (store32 (write_sb (data f) sb) (i_bitmap_ptr sb) 1) ip p.
Proof.
  pose proof made as H. unfold create_filesystem in H.
  fold sb0 in H.
  rewrite (surjective_pairing
             (calculate_layout sb0 (inode_count disk) (block_count disk)))
    in H.
  fold sb in H.
  destruct (u64 (st_size f) <? _); [discriminate H | ].
  injection H as <-. reflexivity.
Qed.

Lemma made_facts :
  i_bitmap_ptr sb = 64 /\ 512 <= ip < 2 ^ 32 /\ ip mod 512 = 0.
Proof.
  destruct (layout_root sb0 _ _ inodes blocks) as (L1 & L2 & L3 & _).
  fold sb in L1, L2, L3. fold ip in L2, L3. auto.
Qed.

Ltac skip_store :=
  first [ rewrite load_store_le_other
            by (unfold i_mode, i_nlinks, i_uid, i_gid, i_size, i_atim,
                 i_mtim, i_ctim, i_blocks, sb_num_inodes, sb_num_data_blocks,
                 sb_i_bitmap_ptr, sb_d_bitmap_ptr, sb_i_blocks_ptr,
                 sb_d_blocks_ptr, sb_fs_identifier, sb_raid_mode,
                 sb_device_order, sizeof_wfs_inode in *;
                 cbn [Z.of_nat Pos.of_succ_nat Pos.succ]; lia)
        | rewrite load_memset_other
            by (unfold i_mode, i_nlinks, i_uid, i_gid, i_size, i_atim,
                 i_mtim, i_ctim, i_blocks, sb_num_inodes, sb_num_data_blocks,
                 sb_i_bitmap_ptr, sb_d_bitmap_ptr, sb_i_blocks_ptr,
                 sb_d_blocks_ptr, sb_fs_identifier, sb_raid_mode,
                 sb_device_order, sizeof_wfs_inode in *;
                 cbn [Z.of_nat Pos.of_succ_nat Pos.succ]; lia) ].

(** The fields of the superblock and of the root inode, read back. *)
Lemma made_fields :
  let m := data f' in
  load_le 8 m sb_i_bitmap_ptr = 64
  /\ load_le 8 m sb_i_blocks_ptr = ip
  /\ load_le 4 m 64 = 1
  /\ load_le 4 m (ip + i_mode) = Z.lor S_IFDIR 493
  /\ load_le 4 m (ip + i_nlinks) = 1
  /\ load_le 8 m (ip + i_size) = 0
  /\ (forall k, 0 <= k < N_BLOCKS -> load_le 8 m (ip + i_blocks k) = 0).
Proof.
  destruct made_facts as (F1 & F2 & F3).
  cbv zeta. rewrite made_image. rewrite F1.
  unfold write_root, write_sb, store32, store64. cbv zeta.
  repeat split.
  - repeat skip_store. rewrite (load_store_le_same 8). rewrite F1.
    reflexivity.
  - repeat skip_store. rewrite (load_store_le_same 8).
    fold ip. apply Z.mod_small. change (256 ^ Z.of_nat 8) with (2 ^ 64). lia.
  - repeat skip_store. rewrite (load_store_le_same 4). reflexivity.
  - repeat skip_store. rewrite (load_store_le_same 4). reflexivity.
  - repeat skip_store. rewrite (load_store_le_same 4). reflexivity.
  - repeat skip_store. rewrite (load_store_le_same 8). reflexivity.
  - intros k Hk. change N_BLOCKS with 8 in Hk.
    repeat skip_store. apply load_memset_zero.
    + unfold i_blocks. lia.
    + unfold i_blocks, sizeof_wfs_inode. change (Z.of_nat 8) with 8. lia.
Qed.

End OneDisk.

Lemma land_one_bit (n : Z) : 1 <= n -> Z.land 1 (Z.shiftl 1 n) = 0.
Proof.
  intros Hn. rewrite Z.land_comm. change 1 with (Z.ones 1) at 2.
  rewrite Z.land_ones by lia. rewrite Z.shiftl_1_l.
  replace n with (1 + (n - 1)) by lia. rewrite Z.pow_add_r by lia.
  rewrite Z.mul_comm. apply Z_mod_mult.
Qed.

(** A disk that [create_filesystem] has made, seen through the mapping
    of the file system: inode 0 is in use and lies at the start of the
    inode region, a block boundary past the superblock; inodes 1 to 31
    are free; the root is a directory with one link, no size and no
    block; and the check of [verify_root_inodes] accepts the disk. *)
Theorem formatted_disk_has_root (p : process) (disk : disk_state)
        (f f' : file) (s : Wfs.fs) (d : Z) :
  0 <= inode_count disk < 2 ^ 31 -> 0 <= block_count disk < 2 ^ 31 ->
  create_filesystem p disk f = (WFS_OK, f') ->
  mapped s d -> image_at s d = data f' ->
  let ip := load64s (data f') sb_i_blocks_ptr in
  512 <= ip /\ ip mod BLOCK_SIZE = 0
  /\ Wfs.get_inode 0 d s = Some (Some (d, ip), s)
  /\ (forall n, 1 <= n < 32 -> Wfs.get_inode n d s = Some (None, s))
  /\ load32u (data f') (ip + i_mode) = Z.lor S_IFDIR 493
  /\ load32s (data f') (ip + i_nlinks) = 1
  /\ load64s (data f') (ip + i_size) = 0
  /\ (forall k, 0 <= k < N_BLOCKS ->
                load64s (data f') (ip + i_blocks k) = 0)
  /\ Wfs.verify_root_inodes 1 d s = Some (0, s).
Proof.
  intros HI HB Hmade Hm Him ip.
  destruct (made_facts disk HI HB) as (_ & F2 & F3).
  destruct (made_fields p disk f f' HI HB Hmade)
    as (G1 & G2 & G3 & G4 & G5 & G6 & G7).
  cbv zeta in G1, G2, G3, G4, G5, G6, G7.
  set (ip0 := i_blocks_ptr _) in *.
  assert (Eip : ip = ip0).
  { unfold ip, load64s. rewrite G2. apply s64_small. lia. }
  assert (Eib : load64s (image_at s d) sb_i_bitmap_ptr = 64).
  { rewrite Him. unfold load64s. rewrite G1. reflexivity. }
  assert (Root : Wfs.get_inode 0 d s = Some (Some (d, ip), s)).
  { unfold Wfs.get_inode, Wfs.sb.
    rewrite (bind_eq _ _ _ _ _ (rd_at load64s d sb_i_bitmap_ptr s Hm)).
    rewrite Eib. change (Z.quot 0 32) with 0. change (Z.rem 0 32) with 0.
    rewrite (bind_eq _ _ _ _ _ (rd_at load32u d (64 + 4 * 0) s Hm)).
    rewrite Him. change (64 + 4 * 0) with 64. unfold load32u. rewrite G3.
    change (negb (Z.land 1 (Z.shiftl 1 0) =? 0)) with true. cbv iota.
    rewrite (bind_eq _ _ _ _ _ (rd_at load64s d sb_i_blocks_ptr s Hm)).
    rewrite Him.
    replace (load64s (data f') sb_i_blocks_ptr + 0 * BLOCK_SIZE) with ip
      by (unfold ip; lia).
    reflexivity. }
  rewrite Eip. split; [lia | ]. split; [exact F3 | ].
  rewrite <- Eip. split; [exact Root | ]. rewrite Eip.
  split; [ | split; [exact G4 | ]].
  - intros n Hn. unfold Wfs.get_inode, Wfs.sb.
    rewrite (bind_eq _ _ _ _ _ (rd_at load64s d sb_i_bitmap_ptr s Hm)).
    rewrite Eib. rewrite (Z.quot_small n 32), (Z.rem_small n 32) by lia.
    rewrite (bind_eq _ _ _ _ _ (rd_at load32u d (64 + 4 * 0) s Hm)).
    rewrite Him. change (64 + 4 * 0) with 64. unfold load32u. rewrite G3.
    rewrite land_one_bit by lia. reflexivity.
  - split; [unfold load32s; rewrite G5; reflexivity | ].
    split; [unfold load64s; rewrite G6; reflexivity | ].
    split; [intros k Hk; unfold load64s; rewrite (G7 k Hk); reflexivity | ].
    cbn [Wfs.verify_root_inodes]. rewrite (bind_eq _ _ _ _ _ Root).
    unfold Wfs.shift. cbn [fst snd].
    rewrite (bind_eq _ _ _ _ _ (rd_at load32u d (ip + i_mode) s Hm)).
    rewrite Him, Eip. unfold load32u. rewrite G4. reflexivity.
Qed.

(** [create_filesystem] writes the superblock, one word of the inode
    bitmap and the record of the root, and nothing else: every other
    byte of the image, the data bitmap and the rest of the inode bitmap
    among them, is what the file held before. *)
Theorem create_filesystem_writes_three_places (p : process)
        (disk : disk_state) (f f' : file) (x : Z) :
  0 <= inode_count disk < 2 ^ 31 -> 0 <= block_count disk < 2 ^ 31 ->
  create_filesystem p disk f = (WFS_OK, f') ->
  let ip := load64s (data f') sb_i_blocks_ptr in
  ~ (0 <= x < sizeof_wfs_sb + 4) ->
  ~ (ip <= x < ip + sizeof_wfs_inode) ->
  load8 (data f') x = load8 (data f) x.
Proof.
  intros HI HB Hmade ip H1 H2.
  destruct (made_facts disk HI HB) as (F1 & F2 & F3).
  destruct (made_fields p disk f f' HI HB Hmade) as (_ & G2 & _).
  cbv zeta in G2.
  assert (Eip : ip = i_blocks_ptr
                       (fst (calculate_layout
                               (mk_sb (inode_count disk) (block_count disk)
                                      0 0 0 0 (fs_id disk)
                                      (ds_raid_mode disk)
                                      (u64 (ds_device_order disk)))
                               (inode_count disk) (block_count disk)))).
  { unfold ip, load64s. rewrite G2. apply s64_small. lia. }
  rewrite Eip in H2. clear Eip ip G2.
  rewrite (made_image p disk f f' Hmade). rewrite F1.
  unfold write_root, write_sb, store32, store64. cbv zeta.
  unfold sizeof_wfs_sb, sizeof_wfs_inode in *.
  repeat first
    [ rewrite store_le_outside
        by (unfold i_mode, i_nlinks, i_uid, i_gid, i_size, i_atim, i_mtim,
             i_ctim, sb_num_inodes, sb_num_data_blocks, sb_i_bitmap_ptr,
             sb_d_bitmap_ptr, sb_i_blocks_ptr, sb_d_blocks_ptr,
             sb_fs_identifier, sb_raid_mode, sb_device_order; lia)
    | rewrite memset_outside by lia ].
  reflexivity.
Qed.

End Formatting.

(** ** The calls above on the concrete volumes *)

Section MoreRuns.
Import Wfs Scenario.

Lemma release_block_frees_witness :
  exists s',
    release_block
      (load64s (image_at (the raid1_a_abc) 0) sb_d_blocks_ptr + BLOCK_SIZE * 1)
      0 (the raid1_a_abc) = Some (tt, s')
    /\ ~ taken s' 0 1.
Proof.
  destruct (release_block_frees 0 1 (the raid1_a_abc))
    as (s' & E & _ & Nt & _).
  - vm_compute. split; [discriminate | reflexivity].
  - vm_compute. discriminate.
  - vm_compute. discriminate.
  - vm_compute. reflexivity.
  - vm_compute. split; [discriminate | reflexivity].
  - lia.
  - exists s'. split; [exact E | exact Nt].
Defined.

Lemma create_inode_takes_lowest_free_witness :
  exists r s', create_inode 0 (the raid1_a) = Some (r, s').
Proof.
  destruct (create_inode_takes_lowest_free 0 (the raid1_a))
    as (r & s' & E & _).
  - vm_compute. split; [discriminate | reflexivity].
  - vm_compute. discriminate.
  - vm_compute. discriminate.
  - vm_compute. discriminate.
  - exists r, s'. exact E.
Defined.

Lemma delete_dir_entry_missing_witness :
  delete_dir_entry (Some (0, 512)) 5 0 (the raid1_a)
  = Some (-1, the raid1_a).
Proof.
  apply (delete_dir_entry_missing (the raid1_a) (0, 512) 5 0).
  - vm_compute. split; [discriminate | reflexivity].
  - intros off Ho Ha.
    assert (Es : load64u (image_at (the raid1_a) 0) (512 + i_size) = 512)
      by (vm_compute; reflexivity).
    cbn [fst snd] in Ho. rewrite Es in Ho. unfold sizeof_wfs_dentry in Ha.
    exists (0, 16896 + off).
    apply Z.div_exact in Ha; [ | lia].
    assert (Hq : 0 <= off / 32 < 16)
      by (split; [apply Z.div_pos | apply Z.div_lt_upper_bound]; lia).
    set (q := off / 32) in *. clearbody q.
    assert (E : off = 0 \/ off = 32 \/ off = 64 \/ off = 96 \/ off = 128
                \/ off = 160 \/ off = 192 \/ off = 224 \/ off = 256
                \/ off = 288 \/ off = 320 \/ off = 352 \/ off = 384
                \/ off = 416 \/ off = 448 \/ off = 480) by lia.
    repeat (destruct E as [-> | E];
            [vm_compute; repeat split; discriminate || reflexivity | ]).
    rewrite E. vm_compute. repeat split; discriminate || reflexivity.
Defined.

Lemma raid1_read_returns_file_bytes_witness :
  exists g,
    wfs_read (fun _ => 0) "/a" 3 0 (the raid1_a_abc)
    = Some ((3, [65; 66; 67]), with_mgr (the raid1_a_abc) g).
Proof.
  destruct (raid1_read_returns_file_bytes (the raid1_a_abc) (fun _ => 0)
              "/a" 3 0 1024) as (g & E).
  - vm_compute. reflexivity.
  - vm_compute. discriminate.
  - vm_compute. reflexivity.
  - lia.
  - lia.
  - vm_compute. discriminate.
  - intros p Hp.
    assert (Es : load64u (image_at (the raid1_a_abc) 0) (1024 + i_size) = 3)
      by (vm_compute; reflexivity).
    rewrite Es in Hp.
    assert (C : p = 0 \/ p = 1 \/ p = 2) by lia.
    destruct C as [-> | [-> | ->]]; vm_compute; discriminate.
  - exists g. rewrite E. vm_compute. reflexivity.
Defined.

Ltac each_slot k Hk :=
  change D_BLOCK with 6 in Hk;
  let C := fresh "C" in
  assert (C : k = 0 \/ k = 1 \/ k = 2 \/ k = 3 \/ k = 4 \/ k = 5 \/ k = 6)
    by lia;
  destruct C as [-> | [-> | [-> | [-> | [-> | [-> | ->]]]]]].

Lemma fresh_file_layout : record_layout (the raid1_a) (0, 1024).
Proof. vm_compute. repeat split; discriminate. Qed.

Lemma fresh_file_owned : direct_blocks_owned (the raid1_a) (0, 1024).
Proof.
  split.
  - intros k Hk. left. each_slot k Hk; vm_compute; reflexivity.
  - intros k k' Hk _ _ NZ. exfalso. apply NZ.
    each_slot k Hk; vm_compute; reflexivity.
Qed.

Lemma written_bytes_read_back_witness :
  load64s (image_at (the raid1_a_abc_sized) 0) (1024 + i_size) = 3
  /\ read_loop (S (Z.to_nat 3)) (Some (0, 1024)) 3 0 0 [] 0
       (the raid1_a_abc_sized)
     = Some (inl (3, [65; 66; 67]), the raid1_a_abc_sized).
Proof.
  destruct (written_bytes_read_back (the raid1_a) (the raid1_a_abc_chunks)
              (the raid1_a_abc_sized) 0 1024 [65; 66; 67] 3 0 3 3)
    as (Hs & Hr).
  - vm_compute. discriminate.
  - vm_compute. discriminate.
  - vm_compute. split; [discriminate | reflexivity].
  - exact fresh_file_layout.
  - exact fresh_file_owned.
  - lia.
  - lia.
  - vm_compute. discriminate.
  - vm_compute. split; [discriminate | reflexivity].
  - vm_compute. reflexivity.
  - vm_compute. reflexivity.
  - split; [rewrite Hs; vm_compute; reflexivity | exact Hr].
Defined.

End MoreRuns.

Section MountRuns.
Import Wfs Scenario.

Lemma mount_checks_witness :
  total_devices (the raid1_volume) = 2
  /\ exists a, get_inode 0 1 (the raid1_volume)
               = Some (Some (1, a), the raid1_volume).
Proof.
  destruct (mount_checks raid1_images (the raid1_volume))
    as (_ & Hn & _ & _ & _ & _ & _ & Hroot).
  - vm_compute. discriminate.
  - intros m Hm.
    assert (G : forallb (fun m => load64u m sb_device_order <? MAX_DISKS)
                        raid1_images = true)
      by (vm_compute; reflexivity).
    rewrite forallb_forall in G. apply Z.ltb_lt. apply G. exact Hm.
  - vm_compute. reflexivity.
  - split; [rewrite Hn; vm_compute; reflexivity | ].
    destruct (Hroot 1) as (a & Ha & _).
    + rewrite Hn. vm_compute. split; [discriminate | reflexivity].
    + exists a. exact Ha.
Defined.

Lemma mount_places_regions_witness :
  nth_error (fs_memory_regions (the raid1_volume_swapped)) 0
  = nth_error raid1_images 0.
Proof.
  assert (E : nth_error (rev raid1_images) 0 = nth_error raid1_images 1)
    by (vm_compute; reflexivity).
  destruct (nth_error (rev raid1_images) 0) as [m | ] eqn:Em;
    [ | vm_compute in Em; discriminate Em].
  rewrite (mount_places_regions (rev raid1_images)
             (the raid1_volume_swapped)) with (m := m).
  - assert (Eo : load64u m sb_device_order = 1).
    { assert (G : option_map (fun m => load64u m sb_device_order)
                    (nth_error (rev raid1_images) 0) = Some 1)
        by (vm_compute; reflexivity).
      rewrite Em in G. injection G as G. exact G. }
    rewrite Eo. vm_compute. reflexivity.
  - vm_compute. discriminate.
  - vm_compute. reflexivity.
  - vm_compute. constructor; [intros [E' | []]; discriminate E' | ].
    constructor; [intros [] | constructor].
  - intros m' Hm'.
    assert (G : forallb (fun m => load64u m sb_device_order
                                  <? Z.of_nat (List.length (rev raid1_images)))
                        (rev raid1_images) = true)
      by (vm_compute; reflexivity).
    rewrite forallb_forall in G. apply Z.ltb_lt. apply G. exact Hm'.
  - exact Em.
Defined.

Lemma formatted_disk_has_root_witness :
  get_inode 0 0 formatted_alone = Some (Some (0, 512), formatted_alone)
  /\ verify_root_inodes 1 0 formatted_alone = Some (0, formatted_alone).
Proof.
  destruct (formatted_disk_has_root proc one_disk blank formatted
              formatted_alone 0)
    as (_ & _ & Hroot & _ & _ & _ & _ & _ & Hv).
  - vm_compute. split; [discriminate | reflexivity].
  - vm_compute. split; [discriminate | reflexivity].
  - vm_compute. reflexivity.
  - vm_compute. split; [discriminate | reflexivity].
  - vm_compute. reflexivity.
  - split; [ | exact Hv]. rewrite Hroot. vm_compute. reflexivity.
Defined.

Lemma create_filesystem_writes_three_places_witness :
  load8 (Mkfs.data formatted) 68 = load8 (Mkfs.data blank) 68.
Proof.
  apply (create_filesystem_writes_three_places proc one_disk blank
           formatted 68).
  - vm_compute. split; [discriminate | reflexivity].
  - vm_compute. split; [discriminate | reflexivity].
  - vm_compute. reflexivity.
  - unfold sizeof_wfs_sb. lia.
  - vm_compute. intros [H _]. apply H. reflexivity.
Defined.

End MountRuns.

(** ** Looking up what was inserted *)

Section Names.
Import Wfs.

Lemma byte_of_ascii_range (c : ascii) : 0 <= byte_of_ascii c < 256.
Proof.
  unfold byte_of_ascii. pose proof (N_ascii_bounded c) as H. lia.
Qed.

Lemma bytes_of_string_range (name : string) (c : Z) :
  In c (bytes_of_string name) -> 0 <= c < 256.
Proof.
  induction name as [ | c0 r IH]; cbn [bytes_of_string In]; [tauto | ].
  intros [<- | H]; [apply byte_of_ascii_range | exact (IH H)].
Qed.

Lemma c_streq_ext (m m' : image) (e : Z) (next : list Z) :
  (forall x, e <= x <= e + Z.of_nat (List.length next) ->
             load8 m' x = load8 m x) ->
  c_streq m' e next = c_streq m e next.
Proof.
  revert e. induction next as [ | c r IH]; intros e H; cbn [c_streq].
  - rewrite H by (cbn; lia). reflexivity.
  - rewrite H by (cbn [List.length]; lia). f_equal. apply IH.
    intros x Hx. apply H. cbn [List.length]. lia.
Qed.

Lemma c_streq_written (m : image) (e : Z) (next : list Z) :
  (forall i, (i < List.length next)%nat ->
             load8 m (e + Z.of_nat i) = nth i next 0) ->
  load8 m (e + Z.of_nat (List.length next)) = 0 ->
  c_streq m e next = true.
Proof.
  revert e. induction next as [ | c r IH]; intros e H H0; cbn [c_streq].
  - cbn in H0. rewrite Z.add_0_r in H0. rewrite H0. reflexivity.
  - pose proof (H 0%nat ltac:(cbn; lia)) as Hc. cbn in Hc.
    rewrite Z.add_0_r in Hc. rewrite Hc, Z.eqb_refl. cbn [andb].
    apply IH.
    + intros i Hi. specialize (H (S i) ltac:(cbn; lia)).
      cbn [nth] in H. rewrite <- H. f_equal. lia.
    + rewrite <- H0. f_equal. cbn [List.length]. lia.
Qed.

Lemma split_component_plain (name : string) :
  ~ In 47 (bytes_of_string name) ->
  split_component name = (name, EmptyString).
Proof.
  induction name as [ | c r IH]; intros H; cbn [split_component];
    [reflexivity | ].
  cbn [bytes_of_string In] in H.
  destruct (Ascii.eqb_spec c "/") as [-> | _].
  - exfalso. apply H. left. reflexivity.
  - rewrite IH by tauto. reflexivity.
Qed.

(** One turn of the scan of [locate_inode] on a mirror, at a slot whose
    block is there. *)
Lemma scan_step (n : nat) (off pd a : Z) (next : list Z) (s : fs) :
  raid_mode s <> RAID0 -> mapped s pd -> 0 <= off < 3584 ->
  let m := image_at s pd in
  let e := load64s m (a + i_blocks (off / BLOCK_SIZE)) + off mod BLOCK_SIZE in
  load64s m (a + i_blocks (off / BLOCK_SIZE)) <> 0 ->
  scan_dentries (S n) off (pd, a) next pd s
  = if negb (load32s m (e + de_num) =? 0) && c_streq m (e + de_name) next
    then Some (load32s m (e + de_num), s)
    else scan_dentries n (off + sizeof_wfs_dentry) (pd, a) next pd s.
Proof.
  intros Hmode Hm Hoff m e NZ. cbn [scan_dentries].
  rewrite (bind_eq _ _ _ _ _ (resolve_mirror s pd a off pd Hmode Hm Hoff)).
  cbv zeta. change (off / 512) with (off / BLOCK_SIZE).
  fold m. destruct (Z.eqb_spec (load64s m (a + i_blocks (off / BLOCK_SIZE))) 0)
    as [E | _]; [contradiction | ].
  cbn [deref]. rewrite (bind_eq _ _ _ _ _ eq_refl).
  unfold shift. cbn [fst snd].
  change (off mod 512) with (off mod BLOCK_SIZE). fold e.
  rewrite (bind_eq _ _ _ _ _ (rd_at load32s pd (e + de_num) s Hm)).
  rewrite (bind_eq _ _ _ _ _ (region_mapped s pd Hm)).
  fold m. destruct (negb (load32s m (e + de_num) =? 0)
                    && c_streq m (e + de_name) next); reflexivity.
Qed.

(** The scan reaches a slot that holds the name when the slots before it
    are there and do not hold it. *)
Lemma scan_reaches (j : nat) (n : nat) (off pd a : Z) (next : list Z)
      (s : fs) :
  raid_mode s <> RAID0 -> mapped s pd ->
  let target := off + 32 * Z.of_nat j in
  0 <= off -> target < 3584 -> (j < n)%nat ->
  (forall o, off <= o <= target -> (o - off) mod 32 = 0 ->
     load64s (image_at s pd) (a + i_blocks (o / BLOCK_SIZE)) <> 0) ->
  (forall o, off <= o < target -> (o - off) mod 32 = 0 ->
     ~ entry_named s (pd, a) o next) ->
  entry_named s (pd, a) target next ->
  scan_dentries n off (pd, a) next pd s
  = Some (load32s (image_at s pd)
            (load64s (image_at s pd) (a + i_blocks (target / BLOCK_SIZE))
             + target mod BLOCK_SIZE + de_num), s).
Proof.
  intros Hmode Hm. revert n off.
  induction j as [ | j IH]; intros n off target H0 Ht Hn Hptr Hnot Hyes;
    (destruct n as [ | n]; [lia | ]).
  - subst target. rewrite Z.mul_0_r, Z.add_0_r in *.
    rewrite scan_step; try assumption; try lia.
    + destruct Hyes as [Y1 Y2]. cbn [fst snd] in Y1, Y2.
      apply Z.eqb_neq in Y1. rewrite Y1, Y2. reflexivity.
    + apply Hptr; [lia | ]. rewrite Z.sub_diag. reflexivity.
  - rewrite scan_step; try assumption; try lia.
    + assert (N : ~ entry_named s (pd, a) off next).
      { apply Hnot; [subst target; lia | ]. rewrite Z.sub_diag. reflexivity. }
      unfold entry_named in N. cbv zeta in N. cbn [fst snd] in N.
      destruct (negb (load32s (image_at s pd)
                        (load64s (image_at s pd)
                           (a + i_blocks (off / BLOCK_SIZE))
                         + off mod BLOCK_SIZE + de_num) =? 0)
                && c_streq (image_at s pd)
                     (load64s (image_at s pd)
                        (a + i_blocks (off / BLOCK_SIZE))
                      + off mod BLOCK_SIZE + de_name) next) eqn:E.
      * exfalso. apply N. apply andb_true_iff in E. destruct E as [E1 E2].
        split; [ | exact E2]. apply negb_true_iff in E1.
        apply Z.eqb_neq. exact E1.
      * unfold sizeof_wfs_dentry.
        replace target with (off + 32 + 32 * Z.of_nat j) in *
          by (subst target; lia).
        apply IH; try lia.
        -- intros o Ho Hmod. apply Hptr; [lia | ].
           replace (o - off) with (o - (off + 32) + 1 * 32) by lia.
           rewrite Z_mod_plus_full. exact Hmod.
        -- intros o Ho Hmod. apply Hnot; [lia | ].
           replace (o - off) with (o - (off + 32) + 1 * 32) by lia.
           rewrite Z_mod_plus_full. exact Hmod.
        -- exact Hyes.
    + apply Hptr; [subst target; lia | ]. rewrite Z.sub_diag. reflexivity.
Qed.

End Names.

Section Filling.
Import Wfs.
Variables (pd a num : Z) (name : string).
Let next : list Z := bytes_of_string name.

Lemma slice_at (l : list Z) (start n j : Z) :
  0 <= start -> 0 <= j < n ->
  nth (Z.to_nat j) (slice l start n) 0 = nth (Z.to_nat (start + j)) l 0.
Proof.
  intros Hs Hj. unfold slice.
  set (f := fun i : nat => nth (Z.to_nat (start + Z.of_nat i)) l 0).
  rewrite (nth_indep _ 0 (f 0%nat))
    by (rewrite length_map, length_seq; lia).
  rewrite map_nth, seq_nth by lia. unfold f.
  rewrite Nat.add_0_l, Z2Nat.id by lia. reflexivity.
Qed.

Lemma memcpy_at_mapped (d t : Z) (bytes : list Z) (s : fs) :
  mapped s d ->
  memcpy_at (d, t) bytes s
  = Some (tt, with_image s d (memcpy_to (image_at s d) t bytes)).
Proof.
  intros Hm. unfold memcpy_at. cbn [fst snd].
  rewrite (bind_eq _ _ _ _ _ (region_mapped s d Hm)). reflexivity.
Qed.

Lemma bump_at_mapped (grow : bool) (d w : Z) (s : fs) :
  mapped s d ->
  let m := image_at s d in
  let m2 := store32 m (w + i_nlinks) (s32 (load32s m (w + i_nlinks) + 1)) in
  bump_at grow (d, w) s
  = Some (tt, with_image s d
                (if grow
                 then store64 m2 (w + i_size)
                        (s64 (load64s m2 (w + i_size) + BLOCK_SIZE))
                 else m2)).
Proof.
  intros Hm m m2. unfold bump_at, shift. cbn [fst snd].
  rewrite (bind_eq _ _ _ _ _ (rd_at load32s d (w + i_nlinks) s Hm)).
  rewrite (bind_eq _ _ _ _ _ (wr_at store32 d (w + i_nlinks) _ s Hm)).
  fold m. fold m2.
  assert (Hm' : mapped (with_image s d m2) d)
    by (apply mapped_with_image; exact Hm).
  destruct grow; [ | reflexivity].
  rewrite (bind_eq _ _ _ _ _ (rd_at load64s d (w + i_size) _ Hm')).
  rewrite (wr_at store64 d (w + i_size) _ _ Hm').
  rewrite image_at_with_image by exact Hm. rewrite Z.eqb_refl.
  rewrite with_image_twice. reflexivity.
Qed.

Lemma fill_explicit (R : Type) (r : R) (s : fs) (t : Z) (grow : bool) :
  mapped s pd -> raid_mode s <> RAID0 ->
  (wr store32 ((pd, t) +: de_num) num ;; strncpy_name (pd, t) name ;;
   bump_parent (pd, a) grow ;; ret r) s
  = Some (r, with_image s pd (entry_image a num next (image_at s pd) t grow)).
Proof.
  intros Hm Hmode. unfold shift. cbn [fst snd].
  rewrite (bind_eq _ _ _ _ _ (wr_at store32 pd (t + de_num) num s Hm)).
  set (s1 := with_image s pd (store32 (image_at s pd) (t + de_num) num)).
  assert (Hm1 : mapped s1 pd) by (apply mapped_with_image; exact Hm).
  assert (I1 : image_at s1 pd = store32 (image_at s pd) (t + de_num) num).
  { subst s1. rewrite image_at_with_image by exact Hm.
    rewrite Z.eqb_refl. reflexivity. }
  assert (Hs : strncpy_name (pd, t) name s1
               = Some (tt, with_image s pd
                             (memcpy_to (store32 (image_at s pd)
                                           (t + de_num) num)
                                        (t + de_name)
                                        (slice next 0 MAX_NAME)))).
  { unfold strncpy_name, shift. cbn [fst snd].
    rewrite (memcpy_at_mapped pd (t + de_name) _ s1 Hm1).
    rewrite I1. subst s1. rewrite with_image_twice. reflexivity. }
  rewrite (bind_eq _ _ _ _ _ Hs).
  set (m1 := memcpy_to (store32 (image_at s pd) (t + de_num) num)
                       (t + de_name) (slice next 0 MAX_NAME)).
  set (s2 := with_image s pd m1).
  assert (Hm2 : mapped s2 pd) by (apply mapped_with_image; exact Hm).
  assert (I2 : image_at s2 pd = m1).
  { subst s2. rewrite image_at_with_image by exact Hm.
    rewrite Z.eqb_refl. reflexivity. }
  assert (Hb : bump_parent (pd, a) grow s2
               = Some (tt, with_image s pd (entry_image a num next (image_at s pd) t grow))).
  { unfold bump_parent.
    rewrite (bind_eq (gets raid_mode) _ s2 s2 (raid_mode s2) eq_refl).
    change (raid_mode s2) with (raid_mode s).
    destruct (Z.eqb_spec (raid_mode s) RAID0) as [E | _];
      [contradiction | ].
    rewrite (bump_at_mapped grow pd a s2 Hm2). cbv zeta.
    rewrite I2. subst s2. rewrite with_image_twice. reflexivity. }
  rewrite (bind_eq _ _ _ _ _ Hb). reflexivity.
Qed.

(** What the image holds after the entry is written, when the slot lies past the record. *)
Lemma filled_frame (m : image) (t : Z) (grow : bool) (x : Z) :
  ~ (t <= x < t + sizeof_wfs_dentry) ->
  ~ (a + i_size <= x < a + i_nlinks + 4) ->
  load8 (entry_image a num next m t grow) x = load8 m x.
Proof.
  unfold sizeof_wfs_dentry, i_size, i_nlinks. intros H1 H2.
  unfold entry_image, store32, store64, de_num, de_name, MAX_NAME, i_size,
    i_nlinks. cbv zeta.
  destruct grow.
  - rewrite store_le_outside by lia. rewrite store_le_outside by lia.
    rewrite memcpy_to_outside
      by (rewrite length_slice; change (Z.of_nat (Z.to_nat 28)) with 28; lia).
    apply store_le_outside. lia.
  - rewrite store_le_outside by lia.
    rewrite memcpy_to_outside
      by (rewrite length_slice; change (Z.of_nat (Z.to_nat 28)) with 28; lia).
    apply store_le_outside. lia.
Qed.

Lemma filled_slot (m : image) (t : Z) (grow : bool) (x : Z) :
  a + sizeof_wfs_inode <= t -> t <= x < t + sizeof_wfs_dentry ->
  load8 (entry_image a num next m t grow) x
  = load8 (memcpy_to (store32 m (t + de_num) num) (t + de_name)
                     (slice next 0 MAX_NAME)) x.
Proof.
  unfold sizeof_wfs_dentry, sizeof_wfs_inode. intros H1 H2.
  unfold entry_image, store32, store64, i_size, i_nlinks. cbv zeta.
  destruct grow.
  - rewrite store_le_outside by lia. apply store_le_outside. lia.
  - apply store_le_outside. lia.
Qed.

Lemma filled_number (m : image) (t : Z) (grow : bool) :
  a + sizeof_wfs_inode <= t ->
  load32s (entry_image a num next m t grow) (t + de_num) = s32 num.
Proof.
  intros H. unfold load32s.
  rewrite (load_le_ext 4 (store32 m (t + de_num) num)).
  - apply load32s_store32.
  - intros x Hx. change (Z.of_nat 4) with 4 in Hx. unfold de_num in *.
    rewrite filled_slot by (unfold sizeof_wfs_dentry; lia).
    apply memcpy_to_outside. rewrite length_slice.
    unfold de_name, MAX_NAME. change (Z.of_nat (Z.to_nat 28)) with 28. lia.
Qed.

Lemma filled_name (m : image) (t : Z) (grow : bool) :
  a + sizeof_wfs_inode <= t ->
  Z.of_nat (List.length next) < MAX_NAME -> ~ In 0 next ->
  c_streq (entry_image a num next m t grow) (t + de_name) next = true.
Proof.
  intros H Hl Hz. unfold MAX_NAME in Hl.
  assert (B : forall i, 0 <= i < 28 ->
            load8 (entry_image a num next m t grow) (t + de_name + i)
            = nth (Z.to_nat i) next 0 mod 256).
  { intros i Hi. unfold de_name.
    rewrite filled_slot by (unfold sizeof_wfs_dentry; lia).
    rewrite memcpy_to_inside
      by (rewrite length_slice; unfold de_name, MAX_NAME;
          change (Z.of_nat (Z.to_nat 28)) with 28; lia).
    unfold de_name, MAX_NAME.
    replace (t + 0 + i - (t + 0)) with i by lia.
    rewrite (slice_at next 0 28 i) by lia. reflexivity. }
  apply c_streq_written.
  - intros i Hi. rewrite B by lia. rewrite Nat2Z.id.
    apply Z.mod_small. apply (bytes_of_string_range name).
    apply nth_In. exact Hi.
  - rewrite B by lia. rewrite Nat2Z.id. rewrite nth_overflow by lia.
    reflexivity.
Qed.

Lemma filled_size (m : image) (t : Z) (grow : bool) :
  a + sizeof_wfs_inode <= t ->
  load64s (entry_image a num next m t grow) (a + i_size)
  = if grow then s64 (load64s m (a + i_size) + BLOCK_SIZE)
    else load64s m (a + i_size).
Proof.
  unfold sizeof_wfs_inode. intros H.
  assert (E : forall g : unit, load64s (entry_image a num next m t false) (a + i_size)
                        = load64s m (a + i_size)).
  { intros _. unfold entry_image, store32, de_num, de_name, MAX_NAME, i_size,
      i_nlinks. cbv zeta.
    rewrite load64s_store_other by lia.
    unfold load64s. f_equal. apply load_le_ext. intros x Hx.
    change (Z.of_nat 8) with 8 in Hx.
    rewrite memcpy_to_outside
      by (rewrite length_slice; change (Z.of_nat (Z.to_nat 28)) with 28; lia).
    apply store_le_outside. lia. }
  destruct grow; [ | exact (E tt)].
  change (entry_image a num next m t true)
    with (store64 (entry_image a num next m t false) (a + i_size)
            (s64 (load64s (entry_image a num next m t false) (a + i_size) + BLOCK_SIZE))).
  rewrite load64s_store64. rewrite (E tt).
  apply (wrap_signed_idem 64). lia.
Qed.

End Filling.

Lemma mod_32_step (o off : Z) :
  (o - off) mod 32 = 0 -> (o - (off + 32)) mod 32 = 0.
Proof.
  intros H. replace (o - (off + 32)) with (o - off + (-1) * 32) by lia.
  rewrite Z_mod_plus_full. exact H.
Qed.

Lemma block_index (o : Z) : 0 <= o < 3584 -> 0 <= o / 512 <= 6.
Proof.
  intros Ho. split; [apply Z.div_pos; lia | ].
  apply Z.lt_succ_r. apply Z.div_lt_upper_bound; lia.
Qed.

(** Two entry slots of a directory whose blocks lie in the data region
    and are distinct do not overlap, and lie past the record. *)
Lemma slots_apart (a dp : Z) (p : Z -> Z) (o target : Z) :
  a + sizeof_wfs_inode <= dp ->
  (forall k, 0 <= k <= 6 -> p k = 0 \/ exists n, 0 <= n /\ p k = dp + 512 * n) ->
  (forall k k', 0 <= k <= 6 -> 0 <= k' <= 6 -> k <> k' -> p k <> 0 ->
                p k <> p k') ->
  0 <= o < target -> target < 3584 -> o mod 32 = 0 -> target mod 32 = 0 ->
  p (o / 512) <> 0 -> p (target / 512) <> 0 ->
  let e := p (o / 512) + o mod 512 in
  let t := p (target / 512) + target mod 512 in
  a + sizeof_wfs_inode <= e /\ a + sizeof_wfs_inode <= t
  /\ (e + 32 <= t \/ t + 32 <= e).
Proof.
  intros Hdp Hsp Hdi Ho Ht Mo Mt Po Pt e t. unfold sizeof_wfs_inode in *.
  assert (Ko : 0 <= o / 512 <= 6).
  { split; [apply Z.div_pos; lia | ].
    apply Z.lt_succ_r. apply Z.div_lt_upper_bound; lia. }
  assert (Kt : 0 <= target / 512 <= 6).
  { split; [apply Z.div_pos; lia | ].
    apply Z.lt_succ_r. apply Z.div_lt_upper_bound; lia. }
  pose proof (Z.mod_pos_bound o 512 ltac:(lia)) as Bo.
  pose proof (Z.mod_pos_bound target 512 ltac:(lia)) as Bt.
  assert (Lo : o mod 512 + 32 <= 512 /\ (o mod 512) mod 32 = 0).
  { assert (E : (o mod 512) mod 32 = 0).
    { rewrite (Z.mod_eq o 512) by lia.
      replace (o - 512 * (o / 512)) with (o + (- 16 * (o / 512)) * 32) by lia.
      rewrite Z_mod_plus_full. exact Mo. }
    split; [ | exact E]. apply Z.div_exact in E; [ | lia]. lia. }
  assert (Lt : target mod 512 + 32 <= 512 /\ (target mod 512) mod 32 = 0).
  { assert (E : (target mod 512) mod 32 = 0).
    { rewrite (Z.mod_eq target 512) by lia.
      replace (target - 512 * (target / 512))
        with (target + (- 16 * (target / 512)) * 32) by lia.
      rewrite Z_mod_plus_full. exact Mt. }
    split; [ | exact E]. apply Z.div_exact in E; [ | lia]. lia. }
  destruct (Hsp _ Ko) as [Z0 | (n1 & Hn1 & E1)]; [contradiction | ].
  destruct (Hsp _ Kt) as [Z0 | (n2 & Hn2 & E2)]; [contradiction | ].
  subst e t. split; [lia | ]. split; [lia | ].
  destruct (Z.eq_dec (o / 512) (target / 512)) as [Ek | Nk].
  - left. rewrite Ek.
    assert (o mod 512 < target mod 512).
    { rewrite (Z.mod_eq o 512), (Z.mod_eq target 512) by lia.
      rewrite Ek. lia. }
    destruct Lo as [_ Lo]. destruct Lt as [_ Lt'].
    apply Z.div_exact in Lo; [ | lia]. apply Z.div_exact in Lt'; [ | lia].
    lia.
  - pose proof (Hdi _ _ Ko Kt Nk Po) as Hne.
    rewrite E1, E2 in *. assert (n1 <> n2) by (intros ->; apply Hne; reflexivity).
    lia.
Qed.

Section Lookup.
Import Wfs.
Variables (pd a num : Z) (name : string).
Let dir : addr := (pd, a).
Let next : list Z := bytes_of_string name.

Hypothesis number : 0 < num < 2 ^ 31.
Hypothesis short : Z.of_nat (List.length next) < MAX_NAME.
Hypothesis no_nul : ~ In 0 next.

(** The scan of [insert_dir_entry] for a free slot on a mirror: either
    no slot below the size is free and nothing changed, or the first
    free slot took the entry. *)
Lemma insert_scan_effect (s0 : fs) (fuel : nat) (off : Z) (done : bool)
      (s1 : fs) :
  raid_mode s0 <> RAID0 -> mapped s0 pd ->
  let m0 := image_at s0 pd in
  let size0 := load64s m0 (a + i_size) in
  let slot k := load64s m0 (a + i_blocks k) in
  0 <= off -> size0 <= 3584 ->
  insert_scan fuel off dir num name pd s0 = Some (done, s1) ->
  (done = false /\ s1 = s0
   /\ forall o, off <= o < size0 -> (o - off) mod 32 = 0 ->
                slot (o / BLOCK_SIZE) <> 0)
  \/ (done = true
      /\ exists target,
           off <= target < size0 /\ (target - off) mod 32 = 0
           /\ s1 = with_image s0 pd
                     (entry_image a num next m0
                        (slot (target / BLOCK_SIZE) + target mod BLOCK_SIZE)
                        false)
           /\ forall o, off <= o <= target -> (o - off) mod 32 = 0 ->
                        slot (o / BLOCK_SIZE) <> 0).
Proof.
  intros Hmode Hm m0 size0 slot. revert off.
  induction fuel as [ | fuel IH]; intros off H0 Hsz H; [discriminate H | ].
  cbn [insert_scan] in H. unfold dir, shift in H. cbn [fst snd] in H.
  rewrite (bind_eq _ _ _ _ _ (rd_at load64s pd (a + i_size) s0 Hm)) in H.
  fold m0 in H. fold size0 in H.
  destruct (Z.ltb_spec off size0) as [Lt | Ge].
  - rewrite (bind_eq _ _ _ _ _
               (resolve_mirror s0 pd a off pd Hmode Hm ltac:(lia))) in H.
    cbv zeta in H. fold m0 in H.
    change (off / 512) with (off / BLOCK_SIZE) in H.
    change (off mod 512) with (off mod BLOCK_SIZE) in H.
    fold (slot (off / BLOCK_SIZE)) in H.
    destruct (Z.eqb_spec (slot (off / BLOCK_SIZE)) 0) as [E | NZ];
      [discriminate H | ].
    cbn [deref] in H. rewrite (bind_eq _ _ _ _ _ eq_refl) in H.
    unfold shift in H. cbn [fst snd] in H.
    rewrite (bind_eq _ _ _ _ _ (rd_at load32s pd _ s0 Hm)) in H.
    match type of H with
    | (if ?c then _ else _) _ = _ => destruct c
    end.
    + right.
      pose proof (fill_explicit pd a num name bool true s0
                    (slot (off / BLOCK_SIZE) + off mod BLOCK_SIZE) false
                    Hm Hmode) as F.
      unfold shift in F. cbn [fst snd] in F.
      rewrite F in H. injection H as <- <-.
      split; [reflexivity | ]. exists off.
      split; [lia | ]. split; [rewrite Z.sub_diag; reflexivity | ].
      split; [reflexivity | ].
      intros o Ho _. replace o with off by lia. exact NZ.
    + unfold sizeof_wfs_dentry in H.
      destruct (IH (off + 32) ltac:(lia) Hsz H)
        as [(-> & -> & Hall) | (-> & target & Ht & Hmod & -> & Hall)].
      * left. split; [reflexivity | ]. split; [reflexivity | ].
        intros o Ho Hmo. destruct (Z.eq_dec o off) as [-> | Hne];
          [exact NZ | ].
        assert (off + 32 <= o).
        { apply Z.div_exact in Hmo; [ | lia]. lia. }
        apply Hall; [lia | apply mod_32_step; exact Hmo].
      * right. split; [reflexivity | ]. exists target.
        split; [lia | ]. split.
        { replace (target - off) with (target - (off + 32) + 1 * 32) by lia.
          rewrite Z_mod_plus_full. exact Hmod. }
        split; [reflexivity | ].
        intros o Ho Hmo. destruct (Z.eq_dec o off) as [-> | Hne];
          [exact NZ | ].
        assert (off + 32 <= o).
        { apply Z.div_exact in Hmo; [ | lia]. lia. }
        apply Hall; [lia | apply mod_32_step; exact Hmo].
  - injection H as <- <-. left. split; [reflexivity | ].
    split; [reflexivity | ]. intros o Ho. lia.
Qed.

(** After an entry was written into the slot at [target], the scan of
    [locate_inode] finds it, when no slot before it holds the name. *)
Lemma found_after (s : fs) (dp target : Z) (grow : bool) :
  raid_mode s <> RAID0 -> mapped s pd ->
  let m := image_at s pd in
  let p k := load64s m (a + i_blocks k) in
  let s' := with_image s pd
              (entry_image a num next m
                 (p (target / BLOCK_SIZE) + target mod BLOCK_SIZE) grow) in
  a + sizeof_wfs_inode <= dp ->
  (forall k, 0 <= k <= 6 -> p k = 0 \/ exists n, 0 <= n /\ p k = dp + 512 * n) ->
  (forall k k', 0 <= k <= 6 -> 0 <= k' <= 6 -> k <> k' -> p k <> 0 ->
                p k <> p k') ->
  0 <= target < 3584 -> target mod 32 = 0 ->
  (forall o, 0 <= o <= target -> o mod 32 = 0 -> p (o / BLOCK_SIZE) <> 0) ->
  (forall o, 0 <= o < target -> o mod 32 = 0 ->
             ~ entry_named s dir o next) ->
  target < load64u (image_at s' pd) (a + i_size) ->
  scan_dentries (dentry_slots (load64u (image_at s' pd) (a + i_size))) 0
                dir next pd s'
  = Some (num, s').
Proof.
  intros Hmode Hm m p s' Hdp Hsp Hdi Ht Mt Hptr Hnot Hsize.
  unfold BLOCK_SIZE in *.
  set (t := p (target / 512) + target mod 512) in *.
  assert (Hm' : mapped s' pd) by (apply mapped_with_image; exact Hm).
  assert (I' : image_at s' pd = entry_image a num next m t grow).
  { unfold s'. rewrite image_at_with_image by exact Hm.
    rewrite Z.eqb_refl. reflexivity. }
  assert (Pt : p (target / 512) <> 0) by (apply Hptr; lia).
  assert (Bt : a + sizeof_wfs_inode <= t /\ target mod 512 + 32 <= 512).
  { assert (Kt : 0 <= target / 512 <= 6).
    { split; [apply Z.div_pos; lia | ].
      apply Z.lt_succ_r. apply Z.div_lt_upper_bound; lia. }
    destruct (Hsp _ Kt) as [Z0 | (n2 & Hn2 & E2)]; [contradiction | ].
    pose proof (Z.mod_pos_bound target 512 ltac:(lia)).
    assert (E : (target mod 512) mod 32 = 0).
    { rewrite (Z.mod_eq target 512) by lia.
      replace (target - 512 * (target / 512))
        with (target + (- 16 * (target / 512)) * 32) by lia.
      rewrite Z_mod_plus_full. exact Mt. }
    apply Z.div_exact in E; [ | lia].
    unfold t, sizeof_wfs_inode in *. lia. }
  destruct Bt as [Bt Bl].
  assert (Slot : forall k, 0 <= k <= 6 ->
            load64s (image_at s' pd) (a + i_blocks k) = p k).
  { intros k Hk. rewrite I'. unfold p, load64s. f_equal.
    apply load_le_ext. intros x Hx. change (Z.of_nat 8) with 8 in Hx.
    apply filled_frame;
      unfold sizeof_wfs_dentry, sizeof_wfs_inode, i_blocks, i_size,
        i_nlinks in *; lia. }
  assert (Kof : forall o, 0 <= o < 3584 -> 0 <= o / 512 <= 6).
  { intros o Ho. split; [apply Z.div_pos; lia | ].
    apply Z.lt_succ_r. apply Z.div_lt_upper_bound; lia. }
  set (j := Z.to_nat (target / 32)).
  assert (Ej : target = 0 + 32 * Z.of_nat j).
  { unfold j. rewrite Z2Nat.id by (apply Z.div_pos; lia).
    apply Z.div_exact in Mt; lia. }
  assert (Fn : load32s (entry_image a num next m t grow) (t + de_num) = num).
  { pose proof (filled_number a num name m t grow Bt) as F.
    rewrite s32_small in F by lia. exact F. }
  assert (Hyes : entry_named s' dir target next).
  { unfold entry_named, dir. cbv zeta. cbn [fst snd].
    unfold BLOCK_SIZE. rewrite (Slot _ (Kof target ltac:(lia))).
    fold t. rewrite I'. split.
    - rewrite Fn. lia.
    - apply filled_name; assumption. }
  pose proof (scan_reaches j
                (dentry_slots (load64u (image_at s' pd) (a + i_size)))
                0 pd a next s' Hmode Hm') as R.
  cbv zeta in R. rewrite <- Ej in R.
  unfold BLOCK_SIZE in R. rewrite (Slot _ (Kof target ltac:(lia))) in R.
  fold t in R. fold dir in R. rewrite R.
  - rewrite I', Fn. reflexivity.
  - lia.
  - lia.
  - unfold dentry_slots, sizeof_wfs_dentry, j.
    apply Z2Nat.inj_lt.
    + apply Z.div_pos; lia.
    + apply Z.div_pos; lia.
    + apply Z.div_lt_upper_bound; [lia | ].
      pose proof (Z.mul_div_le target 32 ltac:(lia)).
      set (sz := load64u (image_at s' pd) (a + i_size)) in *.
      pose proof (Z.div_mod (sz + 32 - 1) 32 ltac:(lia)).
      pose proof (Z.mod_pos_bound (sz + 32 - 1) 32 ltac:(lia)).
      apply Z.div_exact in Mt; lia.
  - intros o Ho Mo. rewrite Z.sub_0_r in Mo.
    rewrite (Slot _ (Kof o ltac:(lia))). apply Hptr; [lia | exact Mo].
  - intros o Ho Mo. rewrite Z.sub_0_r in Mo.
    intros [N1 N2]. apply (Hnot o ltac:(lia) Mo).
    unfold dir in N1, N2. cbn [fst snd] in N1, N2.
    unfold BLOCK_SIZE in N1, N2.
    rewrite (Slot _ (Kof o ltac:(lia))) in N1, N2. rewrite I' in N1, N2.
    destruct (slots_apart a dp p o target Hdp Hsp Hdi ltac:(lia) ltac:(lia)
                Mo Mt (Hptr o ltac:(lia) Mo) Pt) as (Be & _ & Apart).
    fold t in Apart.
    set (e := p (o / 512) + o mod 512) in *.
    unfold entry_named, dir. cbv zeta. cbn [fst snd]. unfold BLOCK_SIZE.
    fold m. fold (p (o / 512)). fold e.
    split.
    + intros Z0. apply N1. rewrite <- Z0. unfold load32s. f_equal.
      apply load_le_ext. intros x Hx. change (Z.of_nat 4) with 4 in Hx.
      apply filled_frame;
        unfold sizeof_wfs_dentry, sizeof_wfs_inode, de_num, i_size,
          i_nlinks in *; lia.
    + rewrite <- N2. symmetry. apply c_streq_ext. intros x Hx.
      apply filled_frame;
        unfold sizeof_wfs_dentry, sizeof_wfs_inode, de_name, i_size,
          i_nlinks, MAX_NAME in *; lia.
  - exact Hyes.
Qed.

(** [insert_dir_entry] on a mirror, for a name that no entry of the
    directory holds: it returns 0 or -1 and writes only the data bitmap,
    the record of the directory and the data region; when it returns 0
    the scan of [locate_inode] then finds the number under the name. *)
Lemma inserted_scan (s0 s' : fs) (rc : Z) :
  let size0 := load64s (image_at s0 pd) (a + i_size) in
  raid_mode s0 <> RAID0 ->
  record_layout s0 dir -> direct_blocks_owned s0 dir ->
  0 <= size0 <= D_BLOCK * BLOCK_SIZE -> size0 mod BLOCK_SIZE = 0 ->
  (forall o, 0 <= o < size0 -> o mod sizeof_wfs_dentry = 0 ->
             ~ entry_named s0 dir o next) ->
  insert_dir_entry (Some dir) num name pd s0 = Some (rc, s') ->
  mapped s' pd
  /\ kept (fun j x =>
             j <> pd
             \/ x < load64s (image_at s0 pd) sb_d_bitmap_ptr
             \/ load64s (image_at s0 pd) sb_d_bitmap_ptr
                + 4 * (load64u (image_at s0 pd) sb_num_data_blocks / 32)
                <= x < a
             \/ a + sizeof_wfs_inode
                <= x < load64s (image_at s0 pd) sb_d_blocks_ptr) s0 s'
  /\ (rc = 0 \/ rc = -1)
  /\ (rc = 0 ->
      scan_dentries (dentry_slots (load64u (image_at s' pd) (a + i_size))) 0
                    dir next pd s'
      = Some (num, s')).
Proof.
  intros size0 Hmode L Ow Hsz Hal Hfresh H.
  change (D_BLOCK * BLOCK_SIZE) with 3072 in Hsz.
  unfold sizeof_wfs_dentry in Hfresh. unfold BLOCK_SIZE in Hal.
  set (m0 := image_at s0 pd) in *.
  set (dp := load64s m0 sb_d_blocks_ptr).
  destruct (bounds s0 pd a L) as (B1 & B2 & B3 & B4 & B5 & B6 & B7).
  fold m0 in B1, B2, B3, B4, B5, B6, B7. fold dp in B3, B4.
  pose proof Ow as [O1 O2]. cbv zeta in O1, O2. unfold dir in O1, O2.
  cbn [fst snd] in O1, O2. fold m0 in O1, O2. fold dp in O1.
  change D_BLOCK with 6 in O1, O2. unfold BLOCK_SIZE in O1.
  assert (Sp0 : forall k, 0 <= k <= 6 ->
            load64s m0 (a + i_blocks k) = 0
            \/ exists n, 0 <= n /\ load64s m0 (a + i_blocks k) = dp + 512 * n).
  { intros k Hk. destruct (O1 k Hk) as [Z0 | (n & Hn & E & _)];
      [left; exact Z0 | right; exists n; split; [lia | exact E]]. }
  unfold insert_dir_entry in H. cbn [deref] in H.
  open_bind H. injection Hc as <- <-. open_rd H.
  unfold dir, shift in H, Hm. cbn [fst snd] in H, Hm.
  fold m0 in H. fold size0 in H.
  open_bind H. rename a0 into done. rename s into s1.
  destruct (insert_scan_effect s0 _ 0 done s1 Hmode Hm ltac:(lia)
              ltac:(fold m0; fold size0; lia) Hc)
    as [(-> & -> & Hall) | (-> & target & Ht & Hmod & -> & Hall)];
    fold m0 in Hall; fold size0 in Hall; unfold BLOCK_SIZE in Hall;
    try (fold m0 in Ht; fold size0 in Ht).
  - (* no free slot: the directory takes another block *)
    open_rd H. unfold shift in H. cbn [fst snd] in H.
    fold m0 in H. fold size0 in H. open_bind H.
    rename a0 into r. rename s into s2.
    pose proof (place_block s0 pd a L Hmode s0 s2 size0 r
                  (kept_refl _ s0)
                  (proj1 (owned_direct s0 pd a s0 (kept_refl _ s0)) Ow)
                  ltac:(lia) Hc0) as (K & (Q1 & Q2) & R).
    fold m0 in K, Q1. fold dp in Q1.
    set (k := size0 / 512) in *.
    assert (Hk : 0 <= k <= 6) by (apply block_index; lia).
    assert (Ek : size0 = 512 * k)
      by (unfold k; apply Z.div_exact in Hal; lia).
    destruct R as [-> | (NZ & ->)].
    { injection H as <- <-. pose proof K as (_ & _ & _ & _ & Kmap & _).
      split; [apply Kmap; exact Hm | ]. split.
      { refine (kept_weaken _ _ s0 s2 _ K).
        intros j x [N | Hx]; [left; exact N | right].
        unfold i_blocks, sizeof_wfs_inode in *. split; lia. }
      split; [right; reflexivity | intros E; discriminate E]. }
    pose proof K as (Km & _ & _ & _ & Kmap & _).
    assert (Hm2 : mapped s2 pd) by (apply Kmap; exact Hm).
    assert (Hmode2 : raid_mode s2 <> RAID0) by (rewrite Km; exact Hmode).
    pose proof (fill_explicit pd a num name Z 0 s2
                  (load64s (image_at s2 pd) (a + i_blocks k) + size0 mod 512)
                  true Hm2 Hmode2) as F.
    unfold dir, shift in H, F. cbn [fst snd] in H, F.
    rewrite F in H. injection H as <- <-.
    split; [apply mapped_with_image; exact Hm2 | ].
    split.
    { apply (kept_trans _ s0 s2).
      - refine (kept_weaken _ _ s0 s2 _ K).
        intros j x [N | Hx]; [left; exact N | right].
        unfold i_blocks, sizeof_wfs_inode in *. split; lia.
      - apply kept_with_image; [exact Hm2 | ].
        intros x [N | Hx]; [contradiction N; reflexivity | ].
        destruct (Q1 k Hk) as [Z0 | (n & Hn & E & _)]; [contradiction | ].
        pose proof (Z.mod_pos_bound size0 512 ltac:(lia)).
        unfold sizeof_wfs_inode in Hx.
        refine (filled_frame a num name (image_at s2 pd)
                  (load64s (image_at s2 pd) (a + i_blocks k) + size0 mod 512)
                  true x _ _);
          unfold sizeof_wfs_dentry, i_size, i_nlinks; lia. }
    split; [left; reflexivity | ]. intros _.
    assert (Low : forall n b, a <= b -> b + Z.of_nat n <= a + i_blocks k
                              \/ a + i_blocks k + 8 <= b ->
                  load_le n (image_at s2 pd) b = load_le n m0 b).
    { intros n b Hb Hr. apply (kept_load _ n s0 s2 pd b K).
      intros x Hx. right. split; [lia | lia]. }
    assert (Slot2 : forall k', 0 <= k' <= 6 -> k' <> k ->
              load64s (image_at s2 pd) (a + i_blocks k')
              = load64s m0 (a + i_blocks k')).
    { intros k' Hk' Hne. unfold load64s. f_equal. apply Low;
        unfold i_blocks; change (Z.of_nat 8) with 8; lia. }
    assert (Size2 : load64s (image_at s2 pd) (a + i_size) = size0).
    { unfold size0, load64s. f_equal. apply Low;
        unfold i_blocks, i_size; change (Z.of_nat 8) with 8; lia. }
    assert (Below : forall o, 0 <= o < size0 -> o / 512 < k).
    { intros o Ho. apply Z.div_lt_upper_bound; lia. }
    change (size0 / 512) with k. 
    replace (load64s (image_at s2 pd) (a + i_blocks k) + size0 mod 512)
      with (load64s (image_at s2 pd) (a + i_blocks (size0 / BLOCK_SIZE))
            + size0 mod BLOCK_SIZE) by reflexivity.
    apply (found_after s2 dp size0 true Hmode2 Hm2).
    + unfold sizeof_wfs_inode. lia.
    + intros k' Hk'. destruct (Q1 k' Hk') as [Z0 | (n & Hn & E & _)];
        [left; exact Z0 | right; exists n; split; [lia | exact E]].
    + exact Q2.
    + lia.
    + rewrite Ek. replace (512 * k) with (0 + (16 * k) * 32) by lia.
      apply Z_mod_plus_full.
    + intros o Ho Mo. unfold BLOCK_SIZE.
      destruct (Z.eq_dec o size0) as [-> | Hne]; [exact NZ | ].
      pose proof (Below o ltac:(lia)).
      rewrite Slot2 by (try apply block_index; lia).
      apply Hall; [lia | rewrite Z.sub_0_r; exact Mo].
    + intros o Ho Mo [N1 N2]. apply (Hfresh o Ho Mo).
      unfold dir in N1, N2. cbn [fst snd] in N1, N2.
      unfold BLOCK_SIZE in N1, N2.
      pose proof (Below o Ho) as Bo.
      pose proof (block_index o ltac:(lia)) as Ko.
      rewrite (Slot2 _ Ko ltac:(lia)) in N1, N2.
      assert (Po : load64s m0 (a + i_blocks (o / 512)) <> 0)
        by (apply Hall; [lia | rewrite Z.sub_0_r; exact Mo]).
      destruct (Sp0 _ Ko) as [Z0 | (n & Hn & E)]; [contradiction | ].
      pose proof (Z.mod_pos_bound o 512 ltac:(lia)) as Bm.
      assert (Data : forall n' b,
                dp <= b ->
                load_le n' (image_at s2 pd) b = load_le n' m0 b).
      { intros n' b Hb. apply (kept_load _ n' s0 s2 pd b K).
        intros x Hx. right. unfold i_blocks. split; lia. }
      unfold entry_named, dir. cbv zeta. cbn [fst snd]. unfold BLOCK_SIZE.
      fold m0. split.
      * intros Z0. apply N1. rewrite <- Z0. unfold load32s. f_equal.
        apply Data. unfold de_num. lia.
      * rewrite <- N2. symmetry. apply c_streq_ext. intros x Hx.
        pose proof (Data 1%nat x ltac:(unfold de_name in *; lia)) as D1.
        cbn [load_le] in D1. lia.
    + set (t := load64s (image_at s2 pd) (a + i_blocks (size0 / BLOCK_SIZE))
                + size0 mod BLOCK_SIZE).
      rewrite image_at_with_image by exact Hm2. rewrite Z.eqb_refl.
      assert (Bt : a + sizeof_wfs_inode <= t).
      { unfold t, BLOCK_SIZE. fold k.
        destruct (Q1 k Hk) as [Z0 | (n & Hn & E & _)]; [contradiction | ].
        pose proof (Z.mod_pos_bound size0 512 ltac:(lia)).
        unfold sizeof_wfs_inode. lia. }
      pose proof (filled_size a num name (image_at s2 pd) t true Bt) as Fs.
      cbv iota in Fs. rewrite Size2 in Fs. unfold BLOCK_SIZE in Fs.
      rewrite s64_small in Fs by lia.
      fold next in Fs. rewrite load64u_of_signed; rewrite Fs; lia.
  - (* a free slot below the size took the entry *)
    injection H as <- <-.
    split; [apply mapped_with_image; exact Hm | ].
    rewrite Z.sub_0_r in Hmod.
    split.
    { apply kept_with_image; [exact Hm | ].
      intros x [N | Hx]; [contradiction N; reflexivity | ].
      assert (Pt : load64s m0 (a + i_blocks (target / 512)) <> 0)
        by (apply Hall; [lia | rewrite Z.sub_0_r; exact Hmod]).
      destruct (Sp0 _ (block_index target ltac:(lia)))
        as [Z0 | (n & Hn & E)]; [contradiction | ].
      pose proof (Z.mod_pos_bound target 512 ltac:(lia)).
      unfold sizeof_wfs_inode in Hx.
      refine (filled_frame a num name m0
                (load64s m0 (a + i_blocks (target / BLOCK_SIZE))
                 + target mod BLOCK_SIZE) false x _ _);
        unfold sizeof_wfs_dentry, i_size, i_nlinks, BLOCK_SIZE; lia. }
    split; [left; reflexivity | ]. intros _.
    apply (found_after s0 dp target false Hmode Hm).
    + unfold sizeof_wfs_inode. lia.
    + exact Sp0.
    + exact O2.
    + lia.
    + exact Hmod.
    + intros o Ho Mo. unfold BLOCK_SIZE. apply Hall;
        [lia | rewrite Z.sub_0_r; exact Mo].
    + intros o Ho Mo. apply Hfresh; [lia | exact Mo].
    + set (t := load64s (image_at s0 pd) (a + i_blocks (target / BLOCK_SIZE))
                + target mod BLOCK_SIZE).
      rewrite image_at_with_image by exact Hm. rewrite Z.eqb_refl.
      assert (Bt : a + sizeof_wfs_inode <= t).
      { unfold t, BLOCK_SIZE. fold m0.
        pose proof (block_index target ltac:(lia)) as Kt.
        assert (Pt : load64s m0 (a + i_blocks (target / 512)) <> 0)
          by (apply Hall; [lia | rewrite Z.sub_0_r; exact Hmod]).
        destruct (Sp0 _ Kt) as [Z0 | (n & Hn & E)]; [contradiction | ].
        pose proof (Z.mod_pos_bound target 512 ltac:(lia)).
        unfold sizeof_wfs_inode. lia. }
      pose proof (filled_size a num name (image_at s0 pd) t false Bt) as Fs.
      cbv iota in Fs. fold m0 in Fs. fold size0 in Fs.
      fold next in Fs. fold m0. rewrite load64u_of_signed; rewrite Fs; lia.
Qed.

End Lookup.

Section Found.
Import Wfs.

Lemma get_inode_total (n d : Z) (s : fs) :
  mapped s d -> exists w, get_inode n d s = Some (w, s).
Proof.
  intros Hm. unfold get_inode, sb.
  rewrite (bind_eq _ _ _ _ _ (rd_at load64s d sb_i_bitmap_ptr s Hm)).
  rewrite (bind_eq _ _ _ _ _ (rd_at load32u d _ s Hm)).
  match goal with
  | |- exists w, (if ?c then _ else _) s = _ => destruct c
  end.
  - rewrite (bind_eq _ _ _ _ _ (rd_at load64s d sb_i_blocks_ptr s Hm)).
    eexists. reflexivity.
  - eexists. reflexivity.
Qed.

(** The lookup of a single name, once the scan has found its number. *)
Lemma locate_one (s : fs) (pd a num : Z) (name : string) (fuel : nat)
      (w : option addr) :
  mapped s pd -> name <> EmptyString ->
  ~ In 47 (bytes_of_string name) -> 0 <= num ->
  scan_dentries (dentry_slots (load64u (image_at s pd) (a + i_size))) 0
                (pd, a) (bytes_of_string name) pd s = Some (num, s) ->
  get_inode num pd s = Some (w, s) ->
  locate_inode (S (S fuel)) (Some (pd, a)) name pd s = Some ((0, w), s).
Proof.
  intros Hm Hne Hslash Hnum Hscan Hw.
  destruct name as [ | c r]; [contradiction | ].
  cbn [locate_inode].
  rewrite (split_component_plain (String c r) Hslash).
  cbn [deref]. rewrite (bind_eq _ _ _ _ _ eq_refl).
  unfold shift. cbn [fst snd].
  rewrite (bind_eq _ _ _ _ _ (rd_at load64u pd (a + i_size) s Hm)).
  rewrite (bind_eq _ _ _ _ _ Hscan).
  destruct (Z.ltb_spec num 0) as [Neg | _]; [lia | ].
  rewrite (bind_eq _ _ _ _ _ Hw). reflexivity.
Qed.

(** Insert, then look up, on a mirror: after [insert_dir_entry] has put
    a number under a name that no entry of the directory held, into a
    directory with direct blocks only, [locate_inode] resolves the name
    in that directory to what [get_inode] gives for the number. *)
Theorem inserted_entry_is_found (s0 s' : fs) (pd a num : Z) (name : string)
        (fuel : nat) :
  let dir := (pd, a) in
  let next := bytes_of_string name in
  let size0 := load64s (image_at s0 pd) (a + i_size) in
  raid_mode s0 <> RAID0 ->
  record_layout s0 dir -> direct_blocks_owned s0 dir ->
  0 <= size0 <= D_BLOCK * BLOCK_SIZE -> size0 mod BLOCK_SIZE = 0 ->
  0 < num < 2 ^ 31 ->
  name <> EmptyString -> Z.of_nat (List.length next) < MAX_NAME ->
  ~ In 0 next -> ~ In 47 next ->
  (forall o, 0 <= o < size0 -> o mod sizeof_wfs_dentry = 0 ->
             ~ entry_named s0 dir o next) ->
  insert_dir_entry (Some dir) num name pd s0 = Some (0, s') ->
  exists w,
    get_inode num pd s' = Some (w, s')
    /\ locate_inode (S (S fuel)) (Some dir) name pd s' = Some ((0, w), s').
Proof.
  intros dir next size0 Hmode L Ow Hsz Hal Hnum Hne Hshort Hnul Hslash
         Hfresh H.
  destruct (inserted_scan pd a num name Hnum Hshort Hnul s0 s' 0 Hmode L Ow
              Hsz Hal Hfresh H) as (Hm' & _ & _ & Hscan).
  specialize (Hscan eq_refl).
  destruct (get_inode_total num pd s' Hm') as [w Hw].
  exists w. split; [exact Hw | ].
  apply (locate_one s' pd a num name fuel w Hm' Hne Hslash ltac:(lia));
    [exact Hscan | exact Hw].
Qed.

End Found.

Section FoundRuns.
Import Wfs Scenario.

Ltac each_slot k Hk :=
  change D_BLOCK with 6 in Hk;
  let C := fresh "C" in
  assert (C : k = 0 \/ k = 1 \/ k = 2 \/ k = 3 \/ k = 4 \/ k = 5 \/ k = 6)
    by lia;
  destruct C as [-> | [-> | [-> | [-> | [-> | [-> | ->]]]]]].

Lemma root_layout : record_layout (the raid1_a) (0, 512).
Proof. vm_compute. repeat split; discriminate. Qed.

Lemma root_owned : direct_blocks_owned (the raid1_a) (0, 512).
Proof.
  assert (E0 : load64s (image_at (the raid1_a) 0) (512 + i_blocks 0) = 16896)
    by (vm_compute; reflexivity).
  assert (Z0 : forall k, 1 <= k <= 6 ->
            load64s (image_at (the raid1_a) 0) (512 + i_blocks k) = 0).
  { intros k Hk.
    assert (C : k = 1 \/ k = 2 \/ k = 3 \/ k = 4 \/ k = 5 \/ k = 6) by lia.
    destruct C as [-> | [-> | [-> | [-> | [-> | ->]]]]];
      vm_compute; reflexivity. }
  split; cbn [fst snd].
  - intros k Hk. change D_BLOCK with 6 in Hk.
    destruct (Z.eq_dec k 0) as [-> | Hne].
    + right. exists 0. vm_compute. repeat split; discriminate.
    + left. apply Z0. lia.
  - intros k k' Hk Hk' Hne NZ. change D_BLOCK with 6 in Hk, Hk'.
    destruct (Z.eq_dec k 0) as [-> | Hk0].
    + rewrite E0, (Z0 k') by lia. discriminate.
    + exfalso. apply NZ. apply Z0. lia.
Qed.

Lemma inserted_entry_is_found_witness :
  exists w,
    get_inode 2 0 (the raid1_a_b) = Some (w, the raid1_a_b)
    /\ locate_inode 2 (Some (0, 512)) "b" 0 (the raid1_a_b)
       = Some ((0, w), the raid1_a_b).
Proof.
  apply (inserted_entry_is_found (the raid1_a) (the raid1_a_b) 0 512 2 "b"
           0).
  - vm_compute. discriminate.
  - exact root_layout.
  - exact root_owned.
  - vm_compute. split; discriminate.
  - vm_compute. reflexivity.
  - lia.
  - discriminate.
  - vm_compute. reflexivity.
  - vm_compute. intros [E | []]. discriminate E.
  - vm_compute. intros [E | []]. discriminate E.
  - intros o Ho Ha.
    assert (Es : load64s (image_at (the raid1_a) 0) (512 + i_size) = 512)
      by (vm_compute; reflexivity).
    rewrite Es in Ho. unfold sizeof_wfs_dentry in Ha.
    apply Z.div_exact in Ha; [ | lia].
    assert (Hq : 0 <= o / 32 < 16)
      by (split; [apply Z.div_pos | apply Z.div_lt_upper_bound]; lia).
    set (q := o / 32) in *. clearbody q.
    assert (E : o = 0 \/ o = 32 \/ o = 64 \/ o = 96 \/ o = 128
                \/ o = 160 \/ o = 192 \/ o = 224 \/ o = 256
                \/ o = 288 \/ o = 320 \/ o = 352 \/ o = 384
                \/ o = 416 \/ o = 448 \/ o = 480) by lia.
    intros [N1 N2].
    repeat (destruct E as [-> | E];
            [vm_compute in N1, N2;
             first [discriminate N2 | apply N1; reflexivity] | ]).
    rewrite E in N1, N2. vm_compute in N1, N2.
    first [discriminate N2 | apply N1; reflexivity].
  - vm_compute. reflexivity.
Defined.

End FoundRuns.

(** ** Names that are not there; listing a directory *)

Section Misses.
Import Wfs.

(** The scan passes every slot when none holds the name. *)
Lemma scan_misses (n : nat) (off pd a : Z) (next : list Z) (s : fs) :
  raid_mode s <> RAID0 -> mapped s pd ->
  0 <= off -> off + 32 * Z.of_nat n <= 3584 ->
  (forall o, off <= o < off + 32 * Z.of_nat n -> (o - off) mod 32 = 0 ->
     load64s (image_at s pd) (a + i_blocks (o / BLOCK_SIZE)) <> 0
     /\ ~ entry_named s (pd, a) o next) ->
  scan_dentries n off (pd, a) next pd s = Some (-1, s).
Proof.
  intros Hmode Hm. revert off.
  induction n as [ | n IH]; intros off H0 Hn Hall; [reflexivity | ].
  destruct (Hall off ltac:(lia) ltac:(rewrite Z.sub_diag; reflexivity))
    as [NZ N].
  rewrite scan_step; try assumption; try lia.
  unfold entry_named in N. cbv zeta in N. cbn [fst snd] in N.
  match goal with
  | |- (if ?c then _ else _) = _ => destruct c eqn:E
  end.
  - exfalso. apply N. apply andb_true_iff in E. destruct E as [E1 E2].
    split; [ | exact E2]. apply negb_true_iff in E1.
    apply Z.eqb_neq. exact E1.
  - unfold sizeof_wfs_dentry. apply IH; try lia.
    intros o Ho Mo. apply Hall; [lia | ].
    replace (o - off) with (o - (off + 32) + 1 * 32) by lia.
    rewrite Z_mod_plus_full. exact Mo.
Qed.

Lemma slots_below (sz : Z) :
  0 <= sz <= 3584 ->
  32 * Z.of_nat (dentry_slots sz) <= 3584
  /\ forall o, 0 <= o < 32 * Z.of_nat (dentry_slots sz) -> o mod 32 = 0 ->
               o < sz.
Proof.
  intros Hsz. unfold dentry_slots, sizeof_wfs_dentry.
  assert (Hq : 0 <= (sz + 32 - 1) / 32) by (apply Z.div_pos; lia).
  rewrite Z2Nat.id by exact Hq.
  pose proof (Z.mul_div_le (sz + 32 - 1) 32 ltac:(lia)) as H1.
  pose proof (Z.mod_pos_bound (sz + 32 - 1) 32 ltac:(lia)) as H2.
  pose proof (Z.div_mod (sz + 32 - 1) 32 ltac:(lia)) as H3.
  split.
  - assert ((sz + 32 - 1) / 32 <= 112); [ | lia].
    apply Z.lt_succ_r. apply Z.div_lt_upper_bound; lia.
  - intros o Ho Mo. apply Z.div_exact in Mo; [ | lia]. lia.
Qed.

Lemma locate_inode_misses (s : fs) (pd a : Z) (path : string)
        (fuel : nat) :
  let size := load64u (image_at s pd) (a + i_size) in
  let next := bytes_of_string (fst (split_component path)) in
  raid_mode s <> RAID0 -> mapped s pd ->
  path <> EmptyString -> size <= IND_BLOCK * BLOCK_SIZE ->
  (forall o, 0 <= o < size -> o mod sizeof_wfs_dentry = 0 ->
     load64s (image_at s pd) (a + i_blocks (o / BLOCK_SIZE)) <> 0
     /\ ~ entry_named s (pd, a) o next) ->
  locate_inode (S fuel) (Some (pd, a)) path pd s
  = Some ((-1, None), with_error_code s (- ENOENT)).
Proof.
  intros size next Hmode Hm Hne Hsz Hall.
  change (IND_BLOCK * BLOCK_SIZE) with 3584 in Hsz.
  assert (H0 : 0 <= size) by apply load_le_range.
  destruct (slots_below size ltac:(lia)) as [S1 S2].
  destruct path as [ | c r]; [contradiction | ].
  cbn [locate_inode].
  destruct (split_component (String c r)) as [nm rest] eqn:Esp.
  cbn [fst] in next. cbn [deref]. rewrite (bind_eq _ _ _ _ _ eq_refl).
  unfold shift. cbn [fst snd].
  rewrite (bind_eq _ _ _ _ _ (rd_at load64u pd (a + i_size) s Hm)).
  fold size. fold next.
  rewrite (bind_eq _ _ _ _ _
             (scan_misses (dentry_slots size) 0 pd a next s Hmode Hm
                ltac:(lia) ltac:(lia)
                ltac:(intros o Ho Mo; rewrite Z.sub_0_r in Mo;
                      apply Hall; [split; [lia | apply S2; [lia | exact Mo]]
                                  | exact Mo]))).
  reflexivity.
Qed.



Lemma flat_map_seq_S {A : Type} (f : nat -> list A) (n : nat) :
  flat_map f (seq 1 n) = flat_map (fun i => f (S i)) (seq 0 n).
Proof.
  rewrite <- seq_shift. rewrite !flat_map_concat_map, map_map. reflexivity.
Qed.

(** The loop of [wfs_readdir] on a mirror: the slots in use, in order,
    and no change. *)
Lemma readdir_scan_lists (n : nat) (off a : Z) (s : fs) :
  raid_mode s <> RAID0 -> mapped s 0 ->
  0 <= off -> off + 32 * Z.of_nat n <= 3584 ->
  (forall o, off <= o < off + 32 * Z.of_nat n -> (o - off) mod 32 = 0 ->
     load64s (image_at s 0) (a + i_blocks (o / BLOCK_SIZE)) <> 0) ->
  readdir_scan n off (0, a) s
  = Some (flat_map (fun i => listed s (0, a) (off + 32 * Z.of_nat i))
                   (seq 0 n), s).
Proof.
  intros Hmode Hm. revert off.
  induction n as [ | n IH]; intros off H0 Hn Hall; [reflexivity | ].
  cbn [readdir_scan].
  rewrite (bind_eq _ _ _ _ _ (resolve_mirror s 0 a off 0 Hmode Hm ltac:(lia))).
  cbv zeta.
  pose proof (Hall off ltac:(lia) ltac:(rewrite Z.sub_diag; reflexivity))
    as NZ. unfold BLOCK_SIZE in NZ.
  destruct (Z.eqb_spec (load64s (image_at s 0) (a + i_blocks (off / 512))) 0)
    as [E | _]; [contradiction | ].
  cbn [deref]. rewrite (bind_eq _ _ _ _ _ eq_refl).
  unfold shift. cbn [fst snd].
  rewrite (bind_eq _ _ _ _ _ (rd_at load32s 0 _ s Hm)).
  unfold sizeof_wfs_dentry.
  rewrite (bind_eq _ _ _ _ _
             (IH (off + 32) ltac:(lia) ltac:(lia)
                 ltac:(intros o Ho Mo; apply Hall; [lia | ];
                       replace (o - off) with (o - (off + 32) + 1 * 32)
                         by lia;
                       rewrite Z_mod_plus_full; exact Mo))).
  unfold ret. f_equal. f_equal.
  change (seq 0 (S n)) with (0%nat :: seq 1 n). cbn [flat_map].
  rewrite flat_map_seq_S.
  replace (off + 32 * Z.of_nat 0) with off by lia.
  assert (Ef : flat_map (fun i => listed s (0, a)
                                    (off + 32 + 32 * Z.of_nat i)) (seq 0 n)
               = flat_map (fun x => listed s (0, a)
                                      (off + 32 * Z.of_nat (S x))) (seq 0 n)).
  { apply flat_map_ext. intros i. f_equal. lia. }
  rewrite Ef.
  set (rest := flat_map (fun x => listed s (0, a)
                                    (off + 32 * Z.of_nat (S x))) (seq 0 n)).
  unfold listed. cbv zeta. cbn [fst snd]. unfold BLOCK_SIZE.
  destruct (load32s (image_at s 0)
              (load64s (image_at s 0) (a + i_blocks (off / 512))
               + off mod 512 + de_num) =? 0); reflexivity.
Qed.


End Misses.

Section MissRuns.
Import Wfs Scenario.

(** The sixteen slots of a directory of one block. *)
Lemma sixteen_slots (o : Z) :
  0 <= o < 512 -> o mod 32 = 0 ->
  o = 0 \/ o = 32 \/ o = 64 \/ o = 96 \/ o = 128 \/ o = 160 \/ o = 192
  \/ o = 224 \/ o = 256 \/ o = 288 \/ o = 320 \/ o = 352 \/ o = 384
  \/ o = 416 \/ o = 448 \/ o = 480.
Proof.
  intros Ho Ha. apply Z.div_exact in Ha; [ | lia].
  assert (Hq : 0 <= o / 32 < 16)
    by (split; [apply Z.div_pos | apply Z.div_lt_upper_bound]; lia).
  set (q := o / 32) in *. clearbody q. lia.
Qed.

Lemma root_size : load64u (image_at (the raid1_a) 0) (512 + i_size) = 512.
Proof. vm_compute. reflexivity. Qed.

Lemma root_slots_present (o : Z) :
  0 <= o < 512 -> o mod 32 = 0 ->
  load64s (image_at (the raid1_a) 0) (512 + i_blocks (o / BLOCK_SIZE)) <> 0.
Proof.
  intros Ho Ha. unfold BLOCK_SIZE. rewrite Z.div_small by lia.
  vm_compute. discriminate.
Qed.




End MissRuns.

(** ** Creating a file or a directory *)

Section Creating.
Import Wfs.

Lemma testbit_land (w b : Z) :
  0 <= b -> Z.testbit w b = true -> Z.land w (Z.shiftl 1 b) <> 0.
Proof.
  intros Hb T Z0. apply land_bit_clear in Z0; [congruence | exact Hb].
Qed.

Lemma get_inode_in_use (n d : Z) (s : fs) :
  mapped s d -> 0 <= n -> in_use s d n ->
  get_inode n d s
  = Some (Some (d, load64s (image_at s d) sb_i_blocks_ptr + BLOCK_SIZE * n),
          s).
Proof.
  intros Hm Hn U. unfold get_inode, sb.
  rewrite (bind_eq _ _ _ _ _ (rd_at load64s d sb_i_bitmap_ptr s Hm)).
  cbv zeta. rewrite Z.quot_div_nonneg, Z.rem_mod_nonneg by lia.
  rewrite (bind_eq _ _ _ _ _ (rd_at load32u d _ s Hm)).
  pose proof (Z.mod_pos_bound n 32 ltac:(lia)) as Hb.
  destruct (Z.eqb_spec
              (Z.land (load32u (image_at s d)
                         (load64s (image_at s d) sb_i_bitmap_ptr
                          + 4 * (n / 32)))
                      (Z.shiftl 1 (n mod 32))) 0) as [Z0 | _].
  - exfalso. exact (testbit_land _ (n mod 32) ltac:(lia) U Z0).
  - cbn [negb].
    rewrite (bind_eq _ _ _ _ _ (rd_at load64s d sb_i_blocks_ptr s Hm)).
    replace (load64s (image_at s d) sb_i_blocks_ptr + n * BLOCK_SIZE)
      with (load64s (image_at s d) sb_i_blocks_ptr + BLOCK_SIZE * n) by lia.
    reflexivity.
Qed.

Lemma wr_seq {A : Type} (f : image -> Z -> Z -> image) (d a v : Z)
      (k : M A) (s : fs) :
  mapped s d ->
  (wr f (d, a) v ;; k) s = k (with_image s d (f (image_at s d) a v)).
Proof.
  intros Hm. rewrite (bind_eq _ _ _ _ _ (wr_at f d a v s Hm)). reflexivity.
Qed.

(** [setup_inode] writes the fields from the mode to the times, and
    nothing else. *)
Lemma setup_inode_effect (p : process) (d t mode : Z) (s : fs) :
  mapped s d ->
  exists m',
    setup_inode p (Some (d, t)) mode s = Some (tt, with_image s d m')
    /\ (forall x, ~ (t + i_mode <= x < t + i_blocks 0) ->
                  load8 m' x = load8 (image_at s d) x)
    /\ load32u m' (t + i_mode) = u32 mode
    /\ load64s m' (t + i_size) = 0
    /\ load32s m' (t + i_nlinks) = 1
    /\ load32u m' (t + i_uid) = u32 (uid p)
    /\ load32u m' (t + i_gid) = u32 (gid p)
    /\ load64s m' (t + i_atim) = s64 (now p)
    /\ load64s m' (t + i_mtim) = s64 (now p)
    /\ load64s m' (t + i_ctim) = s64 (now p).
Proof.
  intros Hm. unfold setup_inode. cbn [deref].
  rewrite (bind_eq _ _ _ _ _ eq_refl). unfold shift. cbn [fst snd].
  set (m := image_at s d).
  do 7 (rewrite wr_seq by (apply mapped_with_image || idtac; exact Hm);
        rewrite ?image_at_with_image by exact Hm;
        rewrite ?Z.eqb_refl, ?with_image_twice).
  rewrite wr_at by (apply mapped_with_image; exact Hm).
  rewrite image_at_with_image by exact Hm.
  rewrite Z.eqb_refl, with_image_twice.
  eexists. split; [reflexivity | ].
  unfold store32, store64, i_mode, i_uid, i_gid, i_size, i_nlinks, i_atim,
    i_mtim, i_ctim, i_blocks.
  split; [ | split; [ | split; [ | split; [ | split; [ | split;
    [ | split; [ | split]]]]]]].
  - intros x Hx. rewrite !store_le_outside by lia. reflexivity.
  - unfold load32u. rewrite !load_store_le_other
      by (cbn [Z.of_nat Pos.of_succ_nat Pos.succ]; lia).
    apply (load_store_le_same 4).
  - unfold load64s. rewrite !load_store_le_other
      by (cbn [Z.of_nat Pos.of_succ_nat Pos.succ]; lia).
    rewrite (load_store_le_same 8). reflexivity.
  - unfold load32s. rewrite !load_store_le_other
      by (cbn [Z.of_nat Pos.of_succ_nat Pos.succ]; lia).
    rewrite (load_store_le_same 4). reflexivity.
  - unfold load32u. rewrite !load_store_le_other
      by (cbn [Z.of_nat Pos.of_succ_nat Pos.succ]; lia).
    apply (load_store_le_same 4).
  - unfold load32u. rewrite !load_store_le_other
      by (cbn [Z.of_nat Pos.of_succ_nat Pos.succ]; lia).
    apply (load_store_le_same 4).
  - unfold load64s. rewrite !load_store_le_other
      by (cbn [Z.of_nat Pos.of_succ_nat Pos.succ]; lia).
    rewrite (load_store_le_same 8). apply (wrap_signed_mod 64). lia.
  - unfold load64s. rewrite !load_store_le_other
      by (cbn [Z.of_nat Pos.of_succ_nat Pos.succ]; lia).
    rewrite (load_store_le_same 8). apply (wrap_signed_mod 64). lia.
  - unfold load64s.
    rewrite (load_store_le_same 8). apply (wrap_signed_mod 64). lia.
Qed.

Lemma slash_byte (c : ascii) : Ascii.eqb c "/" = true -> byte_of_ascii c = 47.
Proof. intros E. apply Ascii.eqb_eq in E. subst c. reflexivity. Qed.

Lemma split_last_plain (name : string) :
  ~ In 47 (bytes_of_string name) -> split_last name = None.
Proof.
  induction name as [ | c r IH]; intros H; [reflexivity | ].
  cbn [bytes_of_string In] in H. cbn [split_last].
  rewrite IH by tauto.
  destruct (Ascii.eqb c "/") eqn:E; [ | reflexivity].
  exfalso. apply H. left. apply slash_byte. exact E.
Qed.

(** The parts of a path of one component. *)
Lemma path_parts (name : string) :
  name <> EmptyString -> ~ In 47 (bytes_of_string name) ->
  dirname (String "/" name) = "/"%string
  /\ basename (String "/" name) = name.
Proof.
  intros Hne Hs. unfold dirname, basename. cbn [split_last].
  rewrite (split_last_plain name Hs).
  change (Ascii.eqb "/" "/") with true. cbv iota.
  split; [reflexivity | ]. destruct name; [contradiction | reflexivity].
Qed.

Lemma find_root (d : Z) (s : fs) :
  mapped s d -> in_use s d 0 ->
  find_inode_by_path "/" d s
  = Some ((0, Some (d, load64s (image_at s d) sb_i_blocks_ptr)), s).
Proof.
  intros Hm U. unfold find_inode_by_path.
  rewrite (bind_eq _ _ _ _ _ (get_inode_in_use 0 d s Hm ltac:(lia) U)).
  cbn [string_tail String.length locate_inode]. unfold ret.
  replace (load64s (image_at s d) sb_i_blocks_ptr + BLOCK_SIZE * 0)
    with (load64s (image_at s d) sb_i_blocks_ptr) by lia.
  reflexivity.
Qed.

End Creating.

Section Mknod.
Import Wfs.

(** What a directory needs of a disk: a state that keeps the superblock,
    the data bitmap, the record and the data region keeps the layout,
    the blocks, the size and the entries of the directory. *)
Lemma directory_kept (P : Z -> Z -> Prop) (s s2 : fs) (d a : Z)
      (next : list Z) :
  let m := image_at s d in
  let db := load64s m sb_d_bitmap_ptr in
  let nd := load64u m sb_num_data_blocks in
  let dp := load64s m sb_d_blocks_ptr in
  let size0 := load64s m (a + i_size) in
  kept P s s2 ->
  (forall x, 0 <= x < sizeof_wfs_sb \/ db <= x < db + 4 * (nd / 32)
             \/ a <= x < a + sizeof_wfs_inode \/ dp <= x -> P d x) ->
  record_layout s (d, a) -> direct_blocks_owned s (d, a) ->
  0 <= size0 <= 3584 ->
  (forall o, 0 <= o < size0 -> o mod 32 = 0 ->
     load64s m (a + i_blocks (o / BLOCK_SIZE)) <> 0) ->
  record_layout s2 (d, a) /\ direct_blocks_owned s2 (d, a)
  /\ load64s (image_at s2 d) (a + i_size) = size0
  /\ (forall o, 0 <= o < size0 -> o mod 32 = 0 ->
        entry_named s2 (d, a) o next -> entry_named s (d, a) o next).
Proof.
  intros m db nd dp size0 K HP L Ow Hsz Hptr.
  destruct (bounds s d a L) as (B1 & B2 & B3 & B4 & B5 & B6 & B7).
  fold m in B1, B2, B3, B4, B5, B6, B7. fold db in B1, B2. fold nd in B2, B4, B5, B6, B7.
  fold dp in B3, B4.
  unfold sizeof_wfs_sb, sizeof_wfs_inode in HP.
  assert (T : forall n b,
            (forall x, b <= x < b + Z.of_nat n ->
               0 <= x < 64 \/ db <= x < db + 4 * (nd / 32)
               \/ a <= x < a + 120 \/ dp <= x) ->
            load_le n (image_at s2 d) b = load_le n m b).
  { intros n b Hb. apply (kept_load P n s s2 d b K).
    intros x Hx. apply HP. apply Hb. exact Hx. }
  assert (Sb : forall b, 0 <= b -> b + 8 <= 64 ->
            load64s (image_at s2 d) b = load64s m b
            /\ load64u (image_at s2 d) b = load64u m b).
  { intros b H0 H1. unfold load64s, load64u. rewrite T; [split; reflexivity | ].
    intros x Hx. change (Z.of_nat 8) with 8 in Hx. lia. }
  destruct (Sb sb_d_bitmap_ptr ltac:(unfold sb_d_bitmap_ptr; lia)
              ltac:(unfold sb_d_bitmap_ptr; lia)) as [Edb _].
  destruct (Sb sb_num_data_blocks ltac:(unfold sb_num_data_blocks; lia)
              ltac:(unfold sb_num_data_blocks; lia)) as [_ End].
  destruct (Sb sb_d_blocks_ptr ltac:(unfold sb_d_blocks_ptr; lia)
              ltac:(unfold sb_d_blocks_ptr; lia)) as [Edp _].
  fold db in Edb. fold nd in End. fold dp in Edp.
  assert (Slot : forall k, 0 <= k <= 6 ->
            load64s (image_at s2 d) (a + i_blocks k)
            = load64s m (a + i_blocks k)).
  { intros k Hk. unfold load64s. rewrite T; [reflexivity | ].
    intros x Hx. change (Z.of_nat 8) with 8 in Hx. unfold i_blocks in Hx.
    lia. }
  assert (Size : load64s (image_at s2 d) (a + i_size) = size0).
  { unfold size0, load64s. rewrite T; [reflexivity | ].
    intros x Hx. change (Z.of_nat 8) with 8 in Hx. unfold i_size in Hx.
    lia. }
  pose proof Ow as [O1 O2]. cbv zeta in O1, O2. cbn [fst snd] in O1, O2.
  fold m in O1, O2. fold nd in O1. fold dp in O1.
  change D_BLOCK with 6 in O1, O2. unfold BLOCK_SIZE in O1.
  split; [ | split; [ | split; [exact Size | ]]].
  - unfold record_layout. cbv zeta. cbn [fst snd].
    rewrite Edb, End, Edp. exact L.
  - split; cbv zeta; cbn [fst snd]; change D_BLOCK with 6;
      unfold BLOCK_SIZE.
    + intros k Hk. rewrite (Slot k Hk), End, Edp.
      destruct (O1 k Hk) as [Z0 | (n & Hn & E & Tk)];
        [left; exact Z0 | right].
      exists n. split; [exact Hn | ]. split; [exact E | ].
      unfold taken in *. cbv zeta in *. fold m in Tk. fold db in Tk.
      rewrite Edb. unfold load32u. rewrite T; [exact Tk | ].
      intros x Hx. change (Z.of_nat 4) with 4 in Hx.
      assert (n / 32 < nd / 32) by (apply Z.div_lt_upper_bound; lia).
      assert (0 <= n / 32) by (apply Z.div_pos; lia).
      lia.
    + intros k k' Hk Hk'. rewrite (Slot k Hk), (Slot k' Hk').
      apply O2; assumption.
  - intros o Ho Mo [N1 N2]. cbn [fst snd] in N1, N2.
    unfold BLOCK_SIZE in *.
    pose proof (block_index o ltac:(lia)) as Ko.
    rewrite (Slot _ Ko) in N1, N2.
    pose proof (Hptr o Ho Mo) as Po.
    destruct (O1 _ Ko) as [Z0 | (n & Hn & E & _)]; [contradiction | ].
    pose proof (Z.mod_pos_bound o 512 ltac:(lia)) as Bm.
    unfold entry_named. cbv zeta. cbn [fst snd]. unfold BLOCK_SIZE.
    fold m. split.
    + intros Z0. apply N1. rewrite <- Z0. unfold load32s. f_equal.
      apply T. intros x Hx. unfold de_num in Hx. lia.
    + rewrite <- N2. symmetry. apply c_streq_ext. intros x Hx.
      pose proof (T 1%nat x ltac:(intros y Hy; unfold de_name in *; lia))
        as T1.
      cbn [load_le] in T1. lia.
Qed.

Lemma in_use_kept (P : Z -> Z -> Prop) (s s2 : fs) (d n : Z) :
  let m := image_at s d in
  let ib := load64s m sb_i_bitmap_ptr in
  let ni := load64u m sb_num_inodes in
  kept P s s2 ->
  (forall x, 0 <= x < sizeof_wfs_sb \/ ib <= x < ib + 4 * (ni / 32) ->
             P d x) ->
  0 <= n < 32 * (ni / 32) ->
  in_use s d n -> in_use s2 d n.
Proof.
  intros m ib ni K HP Hn U. unfold in_use in *. cbv zeta in *.
  fold m in U. fold ib in U. unfold sizeof_wfs_sb in HP.
  assert (Eib : load64s (image_at s2 d) sb_i_bitmap_ptr = ib).
  { unfold ib, load64s. f_equal. apply (kept_load P 8 s s2 d _ K).
    intros x Hx. apply HP. change (Z.of_nat 8) with 8 in Hx.
    unfold sb_i_bitmap_ptr in Hx. lia. }
  rewrite Eib. unfold load32u.
  rewrite (kept_load P 4 s s2 d _ K); [exact U | ].
  intros x Hx. apply HP. change (Z.of_nat 4) with 4 in Hx.
  assert (n / 32 < ni / 32) by (apply Z.div_lt_upper_bound; lia).
  assert (0 <= n / 32) by (apply Z.div_pos; lia).
  lia.
Qed.

Section OneDisk.
Variables (p : process) (s : fs) (d md : Z) (name : string).
Let m : image := image_at s d.
Let ib : Z := load64s m sb_i_bitmap_ptr.
Let ni : Z := load64u m sb_num_inodes.
Let ip : Z := load64s m sb_i_blocks_ptr.
Let root : addr := (d, ip).
Let size0 : Z := load64s m (ip + i_size).
Let next : list Z := bytes_of_string name.

Hypothesis mirrored : raid_mode s <> RAID0.
Hypothesis is_mapped : mapped s d.
Hypothesis layout : disk_layout s d.
Hypothesis has_root : in_use s d 0.

(** What the allocation of an inode leaves alone: everything but the
    inode bitmap and the head of the new record. *)
Let Q (n : Z) (j x : Z) : Prop :=
  j <> d
  \/ (~ (ib <= x < ib + 4 * (ni / 32))
      /\ ~ (ip + 512 * n <= x < ip + 512 * n + i_blocks 0)).

(** [allocate_new_inode] on a mirror: no inode is left, or the lowest
    free one is taken and set up. *)
Lemma allocated :
  (allocate_new_inode p md d s
   = Some ((false, None), with_error_code s (- ENOSPC))
   /\ forall n, 0 <= n < 32 * (ni / 32) -> in_use s d n)
  \/ exists n s2,
       0 < n < 32 * (ni / 32)
       /\ ~ in_use s d n /\ (forall n', 0 <= n' < n -> in_use s d n')
       /\ allocate_new_inode p md d s
          = Some ((true, Some (d, ip + 512 * n)), s2)
       /\ mapped s2 d /\ kept (Q n) s s2
       /\ in_use s2 d 0 /\ in_use s2 d n
       /\ load32s (image_at s2 d) (ip + 512 * n + i_num) = n
       /\ load32u (image_at s2 d) (ip + 512 * n + i_mode) = u32 md
       /\ load64s (image_at s2 d) (ip + 512 * n + i_size) = 0
       /\ load32s (image_at s2 d) (ip + 512 * n + i_nlinks) = 1
       /\ load32u (image_at s2 d) (ip + 512 * n + i_uid) = u32 (uid p)
       /\ load32u (image_at s2 d) (ip + 512 * n + i_gid) = u32 (gid p)
       /\ load64s (image_at s2 d) (ip + 512 * n + i_atim) = s64 (now p)
       /\ load64s (image_at s2 d) (ip + 512 * n + i_mtim) = s64 (now p)
       /\ load64s (image_at s2 d) (ip + 512 * n + i_ctim) = s64 (now p).
Proof.
  pose proof layout as (D1 & D2 & D3 & D4 & D5 & D6).
  cbv zeta in D1, D2, D3, D4, D5, D6.
  fold m in D1, D2, D3, D4, D5, D6. fold ni in D2, D4, D6.
  fold ip in D3, D4. fold ib in D1, D2.
  unfold sizeof_wfs_sb, BLOCK_SIZE in D1, D4, D5.
  assert (Hnd : 0 <= load64u m sb_num_data_blocks / 32)
    by (apply Z.div_pos; [apply load_le_range | lia]).
  assert (Hni : 0 <= ni / 32 /\ 32 * (ni / 32) <= ni)
    by (split; [apply Z.div_pos; lia | apply Z.mul_div_le; lia]).
  destruct (create_inode_outcome d s is_mapped ltac:(exact D1)
              ltac:(fold m; fold ib; fold ni; fold ip; lia))
    as (r & s1 & Ec
        & [(-> & -> & Full)
          | (n & Hn & -> & Nu & Low & U1 & Enum & _ & _ & K1 & Pres)]).
  - left. split; [ | exact Full].
    unfold allocate_new_inode.
    rewrite (bind_eq (gets raid_mode) _ s s (raid_mode s) eq_refl).
    destruct (Z.eqb_spec (raid_mode s) RAID0) as [E | _];
      [contradiction | ].
    rewrite (bind_eq _ _ _ _ _ Ec). reflexivity.
  - right. fold m in Hn, Nu, Low, U1, Enum, K1, Pres.
    fold ni in Hn, K1, Pres. fold ib in K1. fold ip in Enum, K1.
    unfold BLOCK_SIZE in *.
    set (ino := ip + 512 * n) in *.
    assert (N0 : n <> 0) by (intros ->; apply Nu; exact has_root).
    pose proof K1 as (_ & _ & _ & _ & Kmap1 & _).
    assert (Hm1 : mapped s1 d) by (apply Kmap1; exact is_mapped).
    destruct (setup_inode_effect p d ino md s1 Hm1)
      as (m' & Es & Fr & Fmode & Fsize & Fnl & Fuid & Fgid & Fat & Fmt
          & Fct).
    set (s2 := with_image s1 d m') in *.
    assert (Hm2 : mapped s2 d) by (apply mapped_with_image; exact Hm1).
    assert (I2 : image_at s2 d = m').
    { unfold s2. rewrite image_at_with_image by exact Hm1.
      rewrite Z.eqb_refl. reflexivity. }
    assert (K12 : kept (Q n) s s2).
    { apply (kept_trans (Q n) s s1 s2).
      - refine (kept_weaken _ (Q n) s s1 _ K1).
        intros j x [N | [Q1 Q2]]; [left; exact N | right].
        split; [exact Q1 | ]. fold ino in Q2. unfold i_blocks in Q2. lia.
      - apply kept_with_image; [exact Hm1 | ].
        intros x [N | [_ Q2]]; [contradiction N; reflexivity | ].
        apply Fr. fold ino in Q2. unfold i_mode. lia. }
    assert (Eib1 : load64s (image_at s1 d) sb_i_bitmap_ptr = ib).
    { unfold ib, load64s. f_equal. apply (kept_load _ 8 s s1 d _ K1).
      intros x Hx. change (Z.of_nat 8) with 8 in Hx.
      unfold sb_i_bitmap_ptr in Hx. right. split; lia. }
    assert (U2 : forall k, 0 <= k < 32 * (ni / 32) ->
              in_use s1 d k -> in_use s2 d k).
    { intros k Hk Uk. unfold in_use in *. rewrite I2.
      assert (F8 : load64s m' sb_i_bitmap_ptr
                   = load64s (image_at s1 d) sb_i_bitmap_ptr).
      { unfold load64s. f_equal. apply load_le_ext. intros x Hx.
        apply Fr. change (Z.of_nat 8) with 8 in Hx.
        unfold sb_i_bitmap_ptr, i_mode in *. lia. }
      rewrite F8. rewrite Eib1 in *. unfold load32u.
      rewrite (load_le_ext 4 (image_at s1 d)); [exact Uk | ].
      intros x Hx. apply Fr. change (Z.of_nat 4) with 4 in Hx.
      assert (k / 32 < ni / 32) by (apply Z.div_lt_upper_bound; lia).
      assert (0 <= k / 32) by (apply Z.div_pos; lia).
      unfold i_mode. lia. }
    exists n, s2. fold ino. split; [lia | ]. split; [exact Nu | ].
    split; [exact Low | ]. split.
    { unfold allocate_new_inode.
      rewrite (bind_eq (gets raid_mode) _ s s (raid_mode s) eq_refl).
      destruct (Z.eqb_spec (raid_mode s) RAID0) as [E | _];
        [contradiction | ].
      rewrite (bind_eq _ _ _ _ _ Ec).
      rewrite (bind_eq _ _ _ _ _ Es). reflexivity. }
    split; [exact Hm2 | ]. split; [exact K12 | ].
    split; [apply U2; [lia | ]; apply Pres; [lia | exact has_root] | ].
    split; [apply U2; [lia | exact U1] | ].
    rewrite I2. split; [ | repeat split; assumption].
    unfold load32s. rewrite (load_le_ext 4 (image_at s1 d)).
    + fold (load32s (image_at s1 d) (ino + i_num)). rewrite Enum.
      apply s32_small. lia.
    + intros x Hx. apply Fr. change (Z.of_nat 4) with 4 in Hx.
      unfold i_num, i_mode, i_blocks in *. lia.
Qed.

Hypothesis owned : direct_blocks_owned s root.
Hypothesis small : 0 <= size0 <= D_BLOCK * BLOCK_SIZE.
Hypothesis whole : size0 mod BLOCK_SIZE = 0.
Hypothesis fresh :
  forall o, 0 <= o < size0 -> o mod sizeof_wfs_dentry = 0 ->
    load64s m (ip + i_blocks (o / BLOCK_SIZE)) <> 0
    /\ ~ entry_named s root o next.
Hypothesis named : name <> EmptyString.
Hypothesis short : Z.of_nat (List.length next) < MAX_NAME.
Hypothesis no_nul : ~ In 0 next.
Hypothesis no_slash : ~ In 47 next.

(** The entry of the new inode put into the root directory: the inode
    stays marked whatever [insert_dir_entry] returns, and when it
    returns 0 the path resolves to the inode. *)
Lemma entered (n : Z) (s2 s' : fs) (rc : Z) :
  0 < n < 32 * (ni / 32) ->
  mapped s2 d -> kept (Q n) s s2 ->
  in_use s2 d 0 -> in_use s2 d n ->
  insert_dir_entry (Some root) n name d s2 = Some (rc, s') ->
  in_use s' d n /\ error_code s' = error_code s
  /\ (rc = 0 \/ rc = -1)
  /\ (rc = 0 ->
      find_inode_by_path (String "/" name) d s'
      = Some ((0, Some (d, ip + BLOCK_SIZE * n)), s')
      /\ forall k b, ip + 512 * n <= b ->
                     b + Z.of_nat k <= ip + 512 * n + 512 ->
           load_le k (image_at s' d) b = load_le k (image_at s2 d) b)
  /\ kept (fun j _ => j <> d) s2 s'.
Proof.
  intros Hn Hm2 K12 Root2 New2 Hc.
  pose proof layout as (D1 & D2 & D3 & D4 & D5 & D6).
  cbv zeta in D1, D2, D3, D4, D5, D6.
  fold m in D1, D2, D3, D4, D5, D6. fold ni in D2, D4, D6.
  fold ip in D3, D4. fold ib in D1, D2.
  set (db := load64s m sb_d_bitmap_ptr) in *.
  set (nd := load64u m sb_num_data_blocks) in *.
  set (dp := load64s m sb_d_blocks_ptr) in *.
  unfold sizeof_wfs_sb, BLOCK_SIZE in D1, D4, D5.
  pose proof small as Hsz. change (D_BLOCK * BLOCK_SIZE) with 3072 in Hsz.
  pose proof fresh as Hdir. unfold sizeof_wfs_dentry in Hdir.
  assert (Hnd : 0 <= nd / 32)
    by (apply Z.div_pos; [apply load_le_range | lia]).
  assert (Hni : 0 <= ni / 32 /\ 32 * (ni / 32) <= ni)
    by (split; [apply Z.div_pos; lia | apply Z.mul_div_le; lia]).
  set (ino := ip + 512 * n) in *.
  assert (Hino : ip + 512 <= ino /\ ino + 512 <= dp)
    by (unfold ino; lia).
  assert (L : record_layout s root).
  { unfold record_layout, root. cbv zeta. cbn [fst snd]. fold m.
    fold db. fold nd. fold dp.
    unfold sizeof_wfs_sb, sizeof_wfs_inode, BLOCK_SIZE. lia. }
  destruct (directory_kept (Q n) s s2 d ip next K12)
    as (L2 & Ow2 & Esz2 & Fresh2).
  { intros x Hx. right. fold m in Hx. fold db in Hx. fold nd in Hx.
    fold dp in Hx. fold ino.
    unfold sizeof_wfs_sb, sizeof_wfs_inode, i_blocks in *.
    split; lia. }
  { exact L. }
  { exact owned. }
  { fold m. fold size0. lia. }
  { fold m. fold size0. intros o Ho Mo. apply Hdir; assumption. }
  fold m in Esz2, Fresh2. fold size0 in Esz2, Fresh2.
  pose proof K12 as (Km2 & _ & Ke2 & _ & _ & _).
  assert (Hmode2 : raid_mode s2 <> RAID0) by (rewrite Km2; exact mirrored).
  destruct (inserted_scan d ip n name ltac:(lia) short no_nul s2 s' rc
              Hmode2 L2 Ow2
              ltac:(rewrite Esz2; change (D_BLOCK * BLOCK_SIZE) with 3072;
                    lia)
              ltac:(rewrite Esz2; exact whole)
              ltac:(rewrite Esz2; intros o Ho Mo N;
                    apply (proj2 (Hdir o Ho Mo));
                    apply Fresh2; assumption)
              Hc) as (Hm3 & K23 & Hrc & Hscan).
  assert (Sb2 : forall b, 0 <= b -> b + 8 <= 64 ->
            load_le 8 (image_at s2 d) b = load_le 8 m b).
  { intros b H0 H1. apply (kept_load (Q n) 8 s s2 d b K12).
    intros x Hx. change (Z.of_nat 8) with 8 in Hx. right. fold ino.
    unfold i_blocks. split; lia. }
  assert (Edb2 : load64s (image_at s2 d) sb_d_bitmap_ptr = db)
    by (unfold db, load64s; f_equal; apply Sb2;
        unfold sb_d_bitmap_ptr; lia).
  assert (End2 : load64u (image_at s2 d) sb_num_data_blocks = nd)
    by (unfold nd, load64u; apply Sb2; unfold sb_num_data_blocks; lia).
  assert (Edp2 : load64s (image_at s2 d) sb_d_blocks_ptr = dp)
    by (unfold dp, load64s; f_equal; apply Sb2;
        unfold sb_d_blocks_ptr; lia).
  assert (Eib2 : load64s (image_at s2 d) sb_i_bitmap_ptr = ib)
    by (unfold ib, load64s; f_equal; apply Sb2;
        unfold sb_i_bitmap_ptr; lia).
  assert (Eni2 : load64u (image_at s2 d) sb_num_inodes = ni)
    by (unfold ni, load64u; apply Sb2; unfold sb_num_inodes; lia).
  rewrite Edb2, End2, Edp2 in K23. unfold sizeof_wfs_inode in K23.
  set (Q3 := fun j x : Z =>
               j <> d \/ x < db \/ db + 4 * (nd / 32) <= x < ip
               \/ ip + 120 <= x < dp) in *.
  assert (U3 : forall k, 0 <= k < 32 * (ni / 32) ->
            in_use s2 d k -> in_use s' d k).
  { intros k Hk Uk. apply (in_use_kept Q3 s2 s' d k K23); [ | | exact Uk].
    - rewrite Eib2, Eni2. intros x Hx. right.
      unfold sizeof_wfs_sb in Hx. lia.
    - rewrite Eni2. exact Hk. }
  assert (Sb3 : forall b, 0 <= b -> b + 8 <= 64 ->
            load_le 8 (image_at s' d) b = load_le 8 m b).
  { intros b H0 H1. rewrite <- (Sb2 b H0 H1).
    apply (kept_load Q3 8 s2 s' d b K23).
    intros x Hx. change (Z.of_nat 8) with 8 in Hx. right. left. lia. }
  assert (Eip3 : load64s (image_at s' d) sb_i_blocks_ptr = ip)
    by (unfold ip, load64s; f_equal; apply Sb3;
        unfold sb_i_blocks_ptr; lia).
  assert (Root3 : in_use s' d 0) by (apply U3; [lia | exact Root2]).
  assert (New3 : in_use s' d n) by (apply U3; [lia | exact New2]).
  split; [exact New3 | ].
  split; [destruct K23 as (_ & _ & Ke3 & _); congruence | ].
  split; [exact Hrc | ].
  split;
    [ | refine (kept_weaken Q3 _ s2 s' _ K23);
        intros j x N; left; exact N].
  intros E. specialize (Hscan E). split.
  - unfold find_inode_by_path.
    rewrite (bind_eq _ _ _ _ _
               (get_inode_in_use 0 d s' Hm3 ltac:(lia) Root3)).
    rewrite Eip3. cbn [string_tail String.length].
    replace (ip + BLOCK_SIZE * 0) with ip by (unfold BLOCK_SIZE; lia).
    apply (locate_one s' d ip n name (String.length name)
             (Some (d, ip + BLOCK_SIZE * n)) Hm3 named no_slash
             ltac:(lia)).
    + exact Hscan.
    + rewrite (get_inode_in_use n d s' Hm3 ltac:(lia) New3).
      rewrite Eip3. reflexivity.
  - intros k b H0 H1. apply (kept_load Q3 k s2 s' d b K23).
    intros x Hx. right. right. right. lia.
Qed.

(** The body that [wfs_mknod] and [wfs_mkdir] share, for a path of one
    component: they differ in what they return when a step fails. *)
Lemma creation_run (fail_lookup fail_alloc fail_insert : M Z) (r : Z)
      (s' : fs) :
  ('(rc, parent) <- find_inode_by_path "/" d ;;
   if rc <? 0 then fail_lookup
   else
     '(ok, inode) <- allocate_new_inode p md d ;;
     if negb ok then fail_alloc
     else
       i <- deref inode ;;
       num <- rd load32s (i +: i_num) ;;
       rc <- insert_dir_entry parent num name d ;;
       if rc <? 0 then fail_insert else ret 0) s = Some (r, s') ->
  (fail_alloc (with_error_code s (- ENOSPC)) = Some (r, s')
   /\ forall n, 0 <= n < 32 * (ni / 32) -> in_use s d n)
  \/ exists n s3,
       0 < n < 32 * (ni / 32)
       /\ ~ in_use s d n /\ (forall n', 0 <= n' < n -> in_use s d n')
       /\ in_use s3 d n /\ error_code s3 = error_code s
       /\ kept (fun j _ => j <> d) s s3
       /\ (fail_insert s3 = Some (r, s')
           \/ (r = 0 /\ s' = s3
               /\ find_inode_by_path (String "/" name) d s3
                  = Some ((0, Some (d, ip + BLOCK_SIZE * n)), s3)
               /\ load32s (image_at s3 d) (ip + BLOCK_SIZE * n + i_num) = n
               /\ load32u (image_at s3 d) (ip + BLOCK_SIZE * n + i_mode)
                  = u32 md
               /\ load64s (image_at s3 d) (ip + BLOCK_SIZE * n + i_size) = 0
               /\ load32s (image_at s3 d) (ip + BLOCK_SIZE * n + i_nlinks)
                  = 1
               /\ load32u (image_at s3 d) (ip + BLOCK_SIZE * n + i_uid)
                  = u32 (uid p)
               /\ load32u (image_at s3 d) (ip + BLOCK_SIZE * n + i_gid)
                  = u32 (gid p)
               /\ load64s (image_at s3 d) (ip + BLOCK_SIZE * n + i_atim)
                  = s64 (now p)
               /\ load64s (image_at s3 d) (ip + BLOCK_SIZE * n + i_mtim)
                  = s64 (now p)
               /\ load64s (image_at s3 d) (ip + BLOCK_SIZE * n + i_ctim)
                  = s64 (now p))).
Proof.
  intros H.
  rewrite (bind_eq _ _ _ _ _ (find_root d s is_mapped has_root)) in H.
  fold m in H. fold ip in H.
  change (0 <? 0) with false in H. cbv iota in H.
  destruct allocated
    as [[Ha Full]
       | (n & s2 & Hn & Nu & Low & Ha & Hm2 & K12 & Root2 & New2 & Fnum
          & Fmode & Fsize & Fnl & Fuid & Fgid & Fat & Fmt & Fct)].
  - left. rewrite (bind_eq _ _ _ _ _ Ha) in H. cbn [negb] in H.
    split; [exact H | exact Full].
  - right. rewrite (bind_eq _ _ _ _ _ Ha) in H. cbn [negb deref] in H.
    rewrite (bind_eq _ _ _ _ _ eq_refl) in H.
    unfold shift in H. cbn [fst snd] in H.
    rewrite (bind_eq _ _ _ _ _ (rd_at load32s d _ s2 Hm2)) in H.
    rewrite Fnum in H. open_bind H. rename a into rc. rename s0 into s3.
    fold root in Hc.
    destruct (entered n s2 s3 rc Hn Hm2 K12 Root2 New2 Hc)
      as (New3 & Ee & Hrc & Hfound & K23).
    exists n, s3. split; [exact Hn | ]. split; [exact Nu | ].
    split; [exact Low | ]. split; [exact New3 | ]. split; [exact Ee | ].
    split.
    { apply (kept_trans _ s s2 s3); [ | exact K23].
      refine (kept_weaken (Q n) _ s s2 _ K12).
      intros j x N. left. exact N. }
    destruct Hrc as [-> | ->].
    + right. change (0 <? 0) with false in H. cbv iota in H.
      injection H as <- <-. destruct (Hfound eq_refl) as [Hfind Rec].
      split; [reflexivity | ]. split; [reflexivity | ].
      split; [exact Hfind | ]. unfold BLOCK_SIZE.
      split; [ | split; [ | split; [ | split; [ | split; [ | split;
        [ | split; [ | split]]]]]]].
      * unfold load32s. rewrite Rec
          by (unfold i_num; change (Z.of_nat 4) with 4; lia).
        exact Fnum.
      * unfold load32u. rewrite Rec
          by (unfold i_mode; change (Z.of_nat 4) with 4; lia).
        exact Fmode.
      * unfold load64s. rewrite Rec
          by (unfold i_size; change (Z.of_nat 8) with 8; lia).
        exact Fsize.
      * unfold load32s. rewrite Rec
          by (unfold i_nlinks; change (Z.of_nat 4) with 4; lia).
        exact Fnl.
      * unfold load32u. rewrite Rec
          by (unfold i_uid; change (Z.of_nat 4) with 4; lia).
        exact Fuid.
      * unfold load32u. rewrite Rec
          by (unfold i_gid; change (Z.of_nat 4) with 4; lia).
        exact Fgid.
      * unfold load64s. rewrite Rec
          by (unfold i_atim; change (Z.of_nat 8) with 8; lia).
        exact Fat.
      * unfold load64s. rewrite Rec
          by (unfold i_mtim; change (Z.of_nat 8) with 8; lia).
        exact Fmt.
      * unfold load64s. rewrite Rec
          by (unfold i_ctim; change (Z.of_nat 8) with 8; lia).
        exact Fct.
    + left. change (-1 <? 0) with true in H. cbv iota in H. exact H.
Qed.

End OneDisk.


(** The same for a run of [wfs_mkdir], which returns [error_code] when
    a step fails. *)
Lemma mkdir_run (p : process) (s s' : fs) (d mode rc : Z)
      (name : string) :
  let m := image_at s d in
  let ni := load64u m sb_num_inodes in
  let ip := load64s m sb_i_blocks_ptr in
  let root := (d, ip) in
  let size0 := load64s m (ip + i_size) in
  let next := bytes_of_string name in
  raid_mode s <> RAID0 -> mapped s d -> disk_layout s d ->
  in_use s d 0 ->
  direct_blocks_owned s root ->
  0 <= size0 <= D_BLOCK * BLOCK_SIZE -> size0 mod BLOCK_SIZE = 0 ->
  (forall o, 0 <= o < size0 -> o mod sizeof_wfs_dentry = 0 ->
     load64s m (ip + i_blocks (o / BLOCK_SIZE)) <> 0
     /\ ~ entry_named s root o next) ->
  name <> EmptyString -> Z.of_nat (List.length next) < MAX_NAME ->
  ~ In 0 next -> ~ In 47 next ->
  wfs_mkdir p (String "/" name) mode d s = Some (rc, s') ->
  (rc = - ENOSPC /\ s' = with_error_code s (- ENOSPC)
   /\ forall n, 0 <= n < 32 * (ni / 32) -> in_use s d n)
  \/ exists n,
       0 < n < 32 * (ni / 32)
       /\ ~ in_use s d n /\ (forall n', 0 <= n' < n -> in_use s d n')
       /\ in_use s' d n /\ error_code s' = error_code s
       /\ (rc = error_code s
           \/ (rc = 0
               /\ find_inode_by_path (String "/" name) d s'
                  = Some ((0, Some (d, ip + BLOCK_SIZE * n)), s')
               /\ load32s (image_at s' d) (ip + BLOCK_SIZE * n + i_num) = n
               /\ load32u (image_at s' d) (ip + BLOCK_SIZE * n + i_mode)
                  = u32 (Z.lor S_IFDIR mode)
               /\ load64s (image_at s' d) (ip + BLOCK_SIZE * n + i_size) = 0
               /\ load32s (image_at s' d) (ip + BLOCK_SIZE * n + i_nlinks)
                  = 1)).
Proof.
  intros m ni ip root size0 next Hmode Hm DL U0 Ow Hsz Hal Hdir Hne Hshort
         Hnul Hslash H.
  destruct (path_parts name Hne Hslash) as [Edir Ebase].
  unfold wfs_mkdir in H. rewrite Edir, Ebase in H.
  destruct (creation_run p s d (Z.lor S_IFDIR mode) name Hmode Hm DL U0 Ow
              Hsz Hal Hdir Hne Hshort Hnul Hslash _ _ _ rc s' H)
    as [[Hf Full]
       | (n & s3 & Hn & Nu & Low & New3 & Ee & _
          & [Hf | (-> & -> & F1 & F2 & F3 & F4 & F5 & _)])].
  - left. injection Hf as <- <-. split; [reflexivity | ].
    split; [reflexivity | exact Full].
  - right. injection Hf as <- <-. exists n.
    split; [exact Hn | ]. split; [exact Nu | ]. split; [exact Low | ].
    split; [exact New3 | ]. split; [exact Ee | ]. left. exact Ee.
  - right. exists n.
    split; [exact Hn | ]. split; [exact Nu | ]. split; [exact Low | ].
    split; [exact New3 | ]. split; [exact Ee | ]. right.
    repeat split; assumption.
Qed.

End Mknod.

Section MknodRuns.
Import Wfs Scenario.

Lemma fresh_root_owned : direct_blocks_owned (the raid1_volume) (0, 512).
Proof.
  assert (Z0 : forall k, 0 <= k <= 6 ->
            load64s (image_at (the raid1_volume) 0) (512 + i_blocks k) = 0).
  { intros k Hk.
    assert (C : k = 0 \/ k = 1 \/ k = 2 \/ k = 3 \/ k = 4 \/ k = 5 \/ k = 6)
      by lia.
    destruct C as [-> | [-> | [-> | [-> | [-> | [-> | ->]]]]]];
      vm_compute; reflexivity. }
  split; cbn [fst snd]; change D_BLOCK with 6.
  - intros k Hk. left. apply Z0. exact Hk.
  - intros k k' Hk _ _ NZ. exfalso. apply NZ. apply Z0. exact Hk.
Qed.

Lemma fresh_ip :
  load64s (image_at (the raid1_volume) 0) sb_i_blocks_ptr = 512.
Proof. vm_compute. reflexivity. Qed.

Lemma fresh_ni :
  load64u (image_at (the raid1_volume) 0) sb_num_inodes = 32.
Proof. vm_compute. reflexivity. Qed.

Lemma fresh_size :
  load64s (image_at (the raid1_volume) 0) (512 + i_size) = 0.
Proof. vm_compute. reflexivity. Qed.


End MknodRuns.

(** ** Mounting what the initializer made *)

Section FormatThenMount.
Import Mkfs.

(** The first 48 bytes of a superblock are its six layout fields. *)
Lemma write_sb_head (m1 m2 : image) (sb1 sb2 : wfs_sb) (x : Z) :
  num_inodes sb1 = num_inodes sb2 ->
  num_data_blocks sb1 = num_data_blocks sb2 ->
  i_bitmap_ptr sb1 = i_bitmap_ptr sb2 ->
  d_bitmap_ptr sb1 = d_bitmap_ptr sb2 ->
  i_blocks_ptr sb1 = i_blocks_ptr sb2 ->
  d_blocks_ptr sb1 = d_blocks_ptr sb2 ->
  0 <= x < 48 ->
  load8 (write_sb m1 sb1) x = load8 (write_sb m2 sb2) x.
Proof.
  intros E1 E2 E3 E4 E5 E6 Hx.
  unfold write_sb, store64, store32. cbv zeta.
  unfold sb_num_inodes, sb_num_data_blocks, sb_i_bitmap_ptr,
    sb_d_bitmap_ptr, sb_i_blocks_ptr, sb_d_blocks_ptr, sb_fs_identifier,
    sb_raid_mode, sb_device_order.
  rewrite !(store_le_outside 8 _ 56) by lia.
  rewrite !(store_le_outside 4 _ 52) by lia.
  rewrite !(store_le_outside 4 _ 48) by lia.
  rewrite E1, E2, E3, E4, E5, E6.
  unfold store_le. cbn [load8].
  destruct (in_range 40 8 x) eqn:R5; [reflexivity | ].
  destruct (in_range 32 8 x) eqn:R4; [reflexivity | ].
  destruct (in_range 24 8 x) eqn:R3; [reflexivity | ].
  destruct (in_range 16 8 x) eqn:R2; [reflexivity | ].
  destruct (in_range 8 8 x) eqn:R1; [reflexivity | ].
  destruct (in_range 0 8 x) eqn:R0; [reflexivity | ].
  apply in_range_false in R0, R1, R2, R3, R4, R5. exfalso. lia.
Qed.

Section OneDisk.
Variables (p : process) (disk : disk_state) (f f' : file).
Hypothesis inodes : 0 <= inode_count disk < 2 ^ 31.
Hypothesis blocks : 0 <= block_count disk < 2 ^ 31.
Hypothesis made : create_filesystem p disk f = (WFS_OK, f').

Let sb0 : wfs_sb :=
  mk_sb (inode_count disk) (block_count disk) 0 0 0 0
        (fs_id disk) (ds_raid_mode disk) (u64 (ds_device_order disk)).
Let sb : wfs_sb :=
  fst (calculate_layout sb0 (inode_count disk) (block_count disk)).

(** The superblock of the image as a function of the counts alone. *)
Lemma made_head (x : Z) :
  0 <= x < 48 ->
  load8 (data f') x
  = load8 (write_sb zero_image
             (fst (calculate_layout
                     (mk_sb (inode_count disk) (block_count disk)
                            0 0 0 0 0 0 0)
                     (inode_count disk) (block_count disk)))) x.
Proof.
  intros Hx.
  destruct (made_facts disk inodes blocks) as (F1 & F2 & F3).
  rewrite (made_image p disk f f' made). fold sb0. fold sb.
  fold sb0 in F1, F2, F3. fold sb in F1, F2, F3. rewrite F1.
  unfold write_root, store32, store64. cbv zeta.
  unfold i_mode, i_nlinks, i_uid, i_gid, i_size, i_atim, i_mtim, i_ctim,
    sizeof_wfs_inode.
  rewrite !store_le_outside by lia. rewrite memset_outside by lia.
  rewrite store_le_outside by lia.
  apply write_sb_head; try reflexivity. exact Hx.
Qed.

Lemma made_tail :
  load32s (data f') sb_fs_identifier = s32 (fs_id disk)
  /\ load32s (data f') sb_raid_mode = s32 (ds_raid_mode disk)
  /\ load64u (data f') sb_device_order = u64 (ds_device_order disk).
Proof.
  destruct (made_facts disk inodes blocks) as (F1 & F2 & F3).
  fold sb0 in F1, F2, F3. fold sb in F1, F2, F3.
  assert (T : forall n b, 48 <= b -> b + Z.of_nat n <= 64 ->
            load_le n (data f') b = load_le n (write_sb (data f) sb) b).
  { intros n b H0 H1. apply load_le_ext. intros x Hx.
    rewrite (made_image p disk f f' made). fold sb0. fold sb. rewrite F1.
    unfold write_root, store32, store64. cbv zeta.
    unfold i_mode, i_nlinks, i_uid, i_gid, i_size, i_atim, i_mtim, i_ctim,
      sizeof_wfs_inode.
    rewrite !store_le_outside by lia. rewrite memset_outside by lia.
    rewrite store_le_outside by lia. reflexivity. }
  unfold load32s, load64u, sb_fs_identifier, sb_raid_mode, sb_device_order.
  rewrite !T by (cbn [Z.of_nat Pos.of_succ_nat Pos.succ]; lia).
  unfold write_sb, store32, store64, sb_fs_identifier, sb_raid_mode,
    sb_device_order. cbv zeta.
  split; [ | split].
  - rewrite !load_store_le_other
      by (cbn [Z.of_nat Pos.of_succ_nat Pos.succ]; lia).
    rewrite (load_store_le_same 4). apply (wrap_signed_mod 32). lia.
  - rewrite !load_store_le_other
      by (cbn [Z.of_nat Pos.of_succ_nat Pos.succ]; lia).
    rewrite (load_store_le_same 4). apply (wrap_signed_mod 32). lia.
  - rewrite (load_store_le_same 8). unfold sb, sb0. cbn [device_order].
    unfold calculate_layout. cbn [fst device_order]. unfold u64, wrap_unsigned.
    change (256 ^ Z.of_nat 8) with (2 ^ 64). apply Z.mod_mod. lia.
Qed.

(** The check of [verify_root_inodes] accepts the image. *)
Lemma made_verifies (s : Wfs.fs) (d : Z) :
  mapped s d -> image_at s d = data f' ->
  Wfs.verify_root_inodes 1 d s = Some (0, s).
Proof.
  intros Hm Him.
  destruct (made_facts disk inodes blocks) as (_ & F2 & F3).
  destruct (made_fields p disk f f' inodes blocks made)
    as (G1 & G2 & G3 & G4 & _).
  cbv zeta in G1, G2, G3, G4.
  set (ip0 := i_blocks_ptr _) in *.
  assert (Eip : load64s (data f') sb_i_blocks_ptr = ip0).
  { unfold load64s. rewrite G2. apply s64_small. lia. }
  assert (Eib : load64s (image_at s d) sb_i_bitmap_ptr = 64).
  { rewrite Him. unfold load64s. rewrite G1. reflexivity. }
  assert (Root : Wfs.get_inode 0 d s = Some (Some (d, ip0), s)).
  { unfold Wfs.get_inode, Wfs.sb.
    rewrite (bind_eq _ _ _ _ _ (rd_at load64s d sb_i_bitmap_ptr s Hm)).
    rewrite Eib. change (Z.quot 0 32) with 0. change (Z.rem 0 32) with 0.
    rewrite (bind_eq _ _ _ _ _ (rd_at load32u d (64 + 4 * 0) s Hm)).
    rewrite Him. change (64 + 4 * 0) with 64. unfold load32u. rewrite G3.
    change (negb (Z.land 1 (Z.shiftl 1 0) =? 0)) with true. cbv iota.
    rewrite (bind_eq _ _ _ _ _ (rd_at load64s d sb_i_blocks_ptr s Hm)).
    rewrite Him, Eip.
    replace (ip0 + 0 * BLOCK_SIZE) with ip0 by lia.
    reflexivity. }
  cbn [Wfs.verify_root_inodes]. rewrite (bind_eq _ _ _ _ _ Root).
  unfold Wfs.shift. cbn [fst snd].
  rewrite (bind_eq _ _ _ _ _ (rd_at load32u d (ip0 + i_mode) s Hm)).
  rewrite Him. unfold load32u. rewrite G4. reflexivity.
Qed.

End OneDisk.

(** What the loop of [main] does to each disk. *)
Lemma init_disks_inv (proc : process) (state : disk_state) (i : Z)
      (todo l : list (string * file)) :
  init_disks proc state i todo = Some l ->
  List.length l = List.length todo
  /\ forall j x, nth_error l j = Some x ->
       exists f,
         create_filesystem proc
           (mk_disk_state (inode_count state) (block_count state)
                          (ds_raid_mode state) (i + Z.of_nat j)
                          (total_disks state) (fs_id state)) f
         = (WFS_OK, snd x).
Proof.
  revert i l. induction todo as [ | [name f] rest IH]; intros i l H.
  - injection H as <-. split; [reflexivity | ].
    intros [ | j] x Hx; discriminate Hx.
  - cbn [init_disks] in H. cbv zeta in H.
    destruct (create_filesystem proc _ f) as [rc f'] eqn:Ec.
    destruct (Z.eqb_spec rc WFS_OK) as [-> | _]; [ | discriminate H].
    destruct (init_disks proc state (i + 1) rest) as [l' | ] eqn:El;
      [ | discriminate H].
    injection H as <-. destruct (IH _ _ El) as [Hl Hn].
    split; [cbn; congruence | ].
    intros [ | j] x Hx.
    + injection Hx as <-. exists f. rewrite Z.add_0_r. exact Ec.
    + cbn [nth_error] in Hx. destruct (Hn _ _ Hx) as [f0 Hf0].
      exists f0. replace (i + Z.of_nat (S j)) with (i + 1 + Z.of_nat j)
        by lia.
      exact Hf0.
Qed.

Lemma bytes_equal_intro (n : nat) (a b : image) (at_ : Z) :
  (forall x, at_ <= x < at_ + Z.of_nat n -> load8 a x = load8 b x) ->
  Wfs.bytes_equal n a b at_ = true.
Proof.
  revert at_. induction n as [ | n IH]; intros at_ H; [reflexivity | ].
  cbn [Wfs.bytes_equal]. apply andb_true_iff. split.
  - apply Z.eqb_eq. apply H. lia.
  - apply IH. intros x Hx. apply H. lia.
Qed.

Lemma collect_regions_total (l : list image) (i : Z)
      (temp : Z -> option image) :
  (forall j m, nth_error l j = Some m -> temp (i + Z.of_nat j) = Some m) ->
  Wfs.collect_regions (List.length l) i temp = Some l.
Proof.
  revert i. induction l as [ | m rest IH]; intros i H; [reflexivity | ].
  cbn [List.length Wfs.collect_regions].
  pose proof (H 0%nat m eq_refl) as H0. rewrite Z.add_0_r in H0.
  rewrite H0. rewrite IH; [reflexivity | ].
  intros j m' Hj. replace (i + 1 + Z.of_nat j) with (i + Z.of_nat (S j))
    by lia.
  apply H. exact Hj.
Qed.

(** Images whose orders are their places are recorded and placed where
    they stand. *)
Lemma record_orders_identity (images : list image) (i : Z)
      (orders : Z -> Z) (k : Z) :
  (forall j m, nth_error images j = Some m ->
               load64u m sb_device_order = i + Z.of_nat j) ->
  i <= k < i + Z.of_nat (List.length images) ->
  Wfs.record_orders images i orders k = k.
Proof.
  revert i orders. induction images as [ | m rest IH]; intros i orders H Hk.
  - cbn in Hk. lia.
  - cbn [Wfs.record_orders].
    pose proof (H 0%nat m eq_refl) as H0. rewrite Z.add_0_r in H0.
    assert (Hrest : forall j m', nth_error rest j = Some m' ->
              load64u m' sb_device_order = i + 1 + Z.of_nat j).
    { intros j m' Hj. rewrite (H (S j) m' Hj). lia. }
    destruct (Z.eq_dec k i) as [-> | Hne].
    + rewrite record_orders_absent.
      * rewrite H0, Z.eqb_refl. reflexivity.
      * intros Hin. apply in_map_iff in Hin. destruct Hin as (m' & E & Hm').
        apply In_nth_error in Hm'. destruct Hm' as [j Hj].
        rewrite (Hrest _ _ Hj) in E. lia.
    + apply IH; [exact Hrest | ]. cbn [List.length] in Hk. lia.
Qed.

Lemma place_regions_identity (images : list image) (orders : Z -> Z)
      (temp : Z -> option image) (j : nat) (m : image) :
  (forall k, 0 <= k < Z.of_nat (List.length images) -> orders k = k) ->
  nth_error images j = Some m ->
  Wfs.place_regions images 0 orders temp (0 + Z.of_nat j) = Some m.
Proof.
  intros Hid Hj.
  assert (Hlt : (j < List.length images)%nat)
    by (apply nth_error_Some; congruence).
  rewrite <- (Hid (0 + Z.of_nat j)) at 1 by lia.
  apply place_regions_at; [ | exact Hj].
  intros q r Hq Hr E. rewrite !Hid in E by lia. lia.
Qed.

Lemma verify_all (n : nat) (i : Z) (s : Wfs.fs) :
  (forall j, i <= j < i + Z.of_nat n ->
             Wfs.verify_root_inodes 1 j s = Some (0, s)) ->
  Wfs.verify_root_inodes n i s = Some (0, s).
Proof.
  revert i. induction n as [ | n IH]; intros i H; [reflexivity | ].
  pose proof (H i ltac:(lia)) as H1.
  destruct (verify_root_inodes_inv _ _ _ _ _ H1) as [_ Hr].
  destruct (Hr eq_refl i ltac:(lia)) as (a & Hg & Hmode).
  cbn [Wfs.verify_root_inodes]. rewrite (bind_eq _ _ _ _ _ Hg).
  pose proof Hg as Hg'. apply get_inode_inv in Hg'.
  destruct Hg' as (_ & Hm & _).
  unfold Wfs.shift. cbn [fst snd].
  rewrite (bind_eq _ _ _ _ _ (rd_at load32u i (a + i_mode) s Hm)).
  rewrite Hmode. rewrite Z.eqb_refl. cbn [negb].
  apply IH. intros j Hj. apply H. lia.
Qed.

(** The disks that the loop of mkfs's [main] has initialised are a
    volume that the [main] of wfs mounts: every check of
    [initialize_memory_mapping] and of [verify_root_inodes] passes,
    [sort_device_order] leaves the disks in the order in which mkfs was
    given them, and the mode of the volume is the one mkfs was given. *)
Theorem formatted_disks_mount (proc : process) (state : disk_state)
        (todo l : list (string * file)) :
  0 <= inode_count state < 2 ^ 31 -> 0 <= block_count state < 2 ^ 31 ->
  2 <= Z.of_nat (List.length todo) <= Wfs.MAX_DISKS ->
  init_disks proc state 0 todo = Some l ->
  let images := map (fun x => data (snd x)) l in
  exists s,
    Wfs.mount images = Some s
    /\ Wfs.fs_memory_regions s = images
    /\ Wfs.total_devices s = Z.of_nat (List.length todo)
    /\ Wfs.raid_mode s = s32 (ds_raid_mode state).
Proof.
  intros HI HB Hn Hinit images.
  destruct (init_disks_inv _ _ _ _ _ Hinit) as [Hlen Hmade].
  assert (Hlen' : List.length images = List.length todo)
    by (unfold images; rewrite length_map; exact Hlen).
  assert (Hnth : forall j m, nth_error images j = Some m ->
            exists disk f f',
              m = data f'
              /\ ds_device_order disk = 0 + Z.of_nat j
              /\ inode_count disk = inode_count state
              /\ block_count disk = block_count state
              /\ ds_raid_mode disk = ds_raid_mode state
              /\ fs_id disk = fs_id state
              /\ create_filesystem proc disk f = (WFS_OK, f')).
  { intros j m Hj. unfold images in Hj. rewrite nth_error_map in Hj.
    destruct (nth_error l j) as [x | ] eqn:Ex; [ | discriminate Hj].
    injection Hj as <-. destruct (Hmade _ _ Ex) as [f Hf].
    exists (mk_disk_state (inode_count state) (block_count state)
              (ds_raid_mode state) (0 + Z.of_nat j) (total_disks state)
              (fs_id state)), f, (snd x).
    repeat split. exact Hf. }
  assert (Hord : forall j m, nth_error images j = Some m ->
            load64u m sb_device_order = 0 + Z.of_nat j).
  { intros j m Hj.
    assert (Hlt : (j < List.length images)%nat)
      by (apply nth_error_Some; congruence).
    destruct (Hnth _ _ Hj) as (disk & f & f' & -> & D1 & D2 & D3 & _ & _ & Hf).
    rewrite <- D2 in HI. rewrite <- D3 in HB.
    destruct (made_tail proc disk f f' HI HB Hf) as (_ & _ & T3).
    rewrite T3, D1. unfold u64, wrap_unsigned. apply Z.mod_small.
    unfold Wfs.MAX_DISKS in Hn. lia. }
  destruct images as [ | first rest] eqn:Ei; [cbn in Hlen'; lia | ].
  rewrite <- Ei in *.
  assert (Hsame : forallb (Wfs.same_volume first) rest = true).
  { apply forallb_forall. intros m Hm.
    apply In_nth_error in Hm. destruct Hm as [j Hj].
    assert (H0 : nth_error images 0 = Some first) by (rewrite Ei; reflexivity).
    assert (H1 : nth_error images (S j) = Some m) by (rewrite Ei; exact Hj).
    destruct (Hnth _ _ H0)
      as (d0 & f0 & f0' & -> & _ & A2 & A3 & A4 & A5 & Hf0).
    destruct (Hnth _ _ H1)
      as (d1 & f1 & f1' & -> & _ & B2 & B3 & B4 & B5 & Hf1).
    pose proof HI as HI0. pose proof HB as HB0.
    rewrite <- A2 in HI0. rewrite <- A3 in HB0.
    pose proof HI as HI1. pose proof HB as HB1.
    rewrite <- B2 in HI1. rewrite <- B3 in HB1.
    destruct (made_tail proc d0 f0 f0' HI0 HB0 Hf0) as (T1 & T2 & _).
    destruct (made_tail proc d1 f1 f1' HI1 HB1 Hf1) as (U1 & U2 & _).
    unfold Wfs.same_volume. rewrite T1, T2, U1, U2, A4, A5, B4, B5.
    rewrite !Z.eqb_refl. cbn [andb].
    apply bytes_equal_intro. intros x Hx.
    rewrite (made_head proc d0 f0 f0' HI0 HB0 Hf0) by (cbn in Hx; lia).
    rewrite (made_head proc d1 f1 f1' HI1 HB1 Hf1) by (cbn in Hx; lia).
    rewrite A2, A3, B2, B3. reflexivity. }
  set (s := Wfs.mk_fs images (load32s first sb_raid_mode)
              (Z.of_nat (List.length images)) 0
              (Wfs.mk_mgr Wfs.INIT 0 (Z.of_nat (List.length images))
                          (load32s first sb_raid_mode) 0 0)).
  assert (Hcol : Wfs.collect_regions (List.length images) 0
                   (Wfs.place_regions images 0
                      (Wfs.record_orders images 0 (fun _ => 0))
                      (fun _ => None)) = Some images).
  { apply collect_regions_total. intros j m Hj.
    apply place_regions_identity; [ | exact Hj].
    intros k Hk. apply record_orders_identity; [exact Hord | lia]. }
  assert (Hver : Wfs.verify_root_inodes (List.length images) 0 s
                 = Some (0, s)).
  { apply verify_all. intros j Hj.
    assert (Hm : mapped s j) by (unfold mapped, s; cbn; lia).
    destruct (nth_error images (Z.to_nat j)) as [m | ] eqn:Ej;
      [ | apply nth_error_None in Ej; lia].
    destruct (Hnth _ _ Ej) as (disk & f & f' & -> & _ & D2 & D3 & _ & _ & Hf).
    pose proof HI as HI0. pose proof HB as HB0.
    rewrite <- D2 in HI0. rewrite <- D3 in HB0.
    apply (made_verifies proc disk f f' HI0 HB0 Hf s j Hm).
    unfold image_at. destruct (Z.ltb_spec j 0) as [ | _]; [lia | ].
    unfold s. cbn [Wfs.fs_memory_regions].
    apply nth_error_nth. exact Ej. }
  exists s. split; [ | split; [reflexivity | split]].
  - unfold Wfs.mount.
    destruct (Z.ltb_spec (Z.of_nat (List.length images)) 2) as [ | _];
      [lia | ].
    rewrite Ei at 1. rewrite Hsame. cbv zeta. rewrite Hcol.
    fold s. rewrite Hver. reflexivity.
  - unfold s. cbn [Wfs.total_devices]. rewrite Hlen'. reflexivity.
  - unfold s. cbn [Wfs.raid_mode].
    assert (H0 : nth_error images 0 = Some first) by (rewrite Ei; reflexivity).
    destruct (Hnth _ _ H0) as (d0 & f0 & f0' & -> & _ & A2 & A3 & A4 & _ & Hf0).
    pose proof HI as HI0. pose proof HB as HB0.
    rewrite <- A2 in HI0. rewrite <- A3 in HB0.
    destruct (made_tail proc d0 f0 f0' HI0 HB0 Hf0) as (_ & T2 & _).
    rewrite T2, A4. reflexivity.
Qed.

End FormatThenMount.

Section FormatThenMountRuns.
Import Wfs Scenario.

Lemma formatted_disks_mount_witness :
  exists s,
    mount (map (fun x => Mkfs.data (snd x)) three_made) = Some s
    /\ fs_memory_regions s = map (fun x => Mkfs.data (snd x)) three_made
    /\ total_devices s = 3
    /\ raid_mode s = 1.
Proof.
  apply (formatted_disks_mount proc three_state three_blank three_made).
  - vm_compute. split; [discriminate | reflexivity].
  - vm_compute. split; [discriminate | reflexivity].
  - vm_compute. split; discriminate.
  - vm_compute. reflexivity.
Defined.

End FormatThenMountRuns.

(** ** The attributes of a path *)

Section Attributes.
Import Wfs.

(** The fields of the record at [a], as [wfs_getattr] reports them. *)
Lemma getattr_found (path : string) (s : fs) (a : Z) :
  find_inode_by_path path 0 s = Some ((0, Some (0, a)), s) ->
  let m := image_at s 0 in
  wfs_getattr path s
  = Some ((0, Some (mk_stat (load32u m (a + i_mode)) (load32u m (a + i_uid))
                            (load32u m (a + i_gid)) (load64s m (a + i_size))
                            (load64s m (a + i_atim)) (load64s m (a + i_mtim))
                            (load64s m (a + i_ctim))
                            (u64 (load32s m (a + i_nlinks))))), s).
Proof.
  intros H m.
  assert (Hm : mapped s 0).
  { unfold find_inode_by_path in H. open_bind H.
    apply get_inode_inv in Hc. destruct Hc as (_ & Hm & _). exact Hm. }
  unfold wfs_getattr. rewrite (bind_eq _ _ _ _ _ H).
  change (0 <? 0) with false. cbv iota. cbn [deref].
  rewrite (bind_eq _ _ _ _ _ eq_refl). unfold shift. cbn [fst snd].
  rewrite (bind_eq _ _ _ _ _ (rd_at load32u 0 (a + i_mode) s Hm)).
  rewrite (bind_eq _ _ _ _ _ (rd_at load32u 0 (a + i_uid) s Hm)).
  rewrite (bind_eq _ _ _ _ _ (rd_at load32u 0 (a + i_gid) s Hm)).
  rewrite (bind_eq _ _ _ _ _ (rd_at load64s 0 (a + i_size) s Hm)).
  rewrite (bind_eq _ _ _ _ _ (rd_at load64s 0 (a + i_atim) s Hm)).
  rewrite (bind_eq _ _ _ _ _ (rd_at load64s 0 (a + i_mtim) s Hm)).
  rewrite (bind_eq _ _ _ _ _ (rd_at load64s 0 (a + i_ctim) s Hm)).
  rewrite (bind_eq _ _ _ _ _ (rd_at load32s 0 (a + i_nlinks) s Hm)).
  reflexivity.
Qed.



End Attributes.

Section FreshRoot.
Import Wfs.
Import Mkfs.

(** The owner and the times of the root that [create_filesystem]
    writes. *)
Lemma made_owner (p : process) (disk : disk_state) (f f' : file) :
  0 <= inode_count disk < 2 ^ 31 -> 0 <= block_count disk < 2 ^ 31 ->
  create_filesystem p disk f = (WFS_OK, f') ->
  let m := data f' in
  let ip := load64s m sb_i_blocks_ptr in
  load32u m (ip + i_uid) = u32 (uid p)
  /\ load32u m (ip + i_gid) = u32 (gid p)
  /\ load64s m (ip + i_atim) = s64 (now p)
  /\ load64s m (ip + i_mtim) = s64 (now p)
  /\ load64s m (ip + i_ctim) = s64 (now p).
Proof.
  intros HI HB Hmade m ip.
  destruct (made_facts disk HI HB) as (F1 & F2 & F3).
  destruct (made_fields p disk f f' HI HB Hmade) as (_ & G2 & _).
  cbv zeta in G2.
  set (ip0 := i_blocks_ptr _) in *.
  assert (Eip : ip = ip0).
  { unfold ip, m, load64s. rewrite G2. apply s64_small. lia. }
  rewrite Eip. unfold m.
  rewrite (made_image p disk f f' Hmade). fold ip0.
  unfold write_root, store32, store64. cbv zeta.
  unfold i_mode, i_nlinks, i_uid, i_gid, i_size, i_atim, i_mtim, i_ctim.
  unfold load32u, load64s.
  repeat split.
  - rewrite !load_store_le_other
      by (cbn [Z.of_nat Pos.of_succ_nat Pos.succ]; lia).
    apply (load_store_le_same 4).
  - rewrite !load_store_le_other
      by (cbn [Z.of_nat Pos.of_succ_nat Pos.succ]; lia).
    apply (load_store_le_same 4).
  - rewrite !load_store_le_other
      by (cbn [Z.of_nat Pos.of_succ_nat Pos.succ]; lia).
    rewrite (load_store_le_same 8). apply (wrap_signed_mod 64). lia.
  - rewrite !load_store_le_other
      by (cbn [Z.of_nat Pos.of_succ_nat Pos.succ]; lia).
    rewrite (load_store_le_same 8). apply (wrap_signed_mod 64). lia.
  - rewrite (load_store_le_same 8). apply (wrap_signed_mod 64). lia.
Qed.

(** The attributes of the root of a disk that [create_filesystem] has
    made, mounted as the first disk: [wfs_getattr] of [/] returns 0,
    changes nothing, and reports a directory of mode 0755, owned by the
    user who ran the initializer, empty, with one link and the time of
    the initialisation as its three times. *)
Theorem getattr_of_fresh_root (p : process) (disk : disk_state)
        (f f' : file) (s : fs) :
  0 <= inode_count disk < 2 ^ 31 -> 0 <= block_count disk < 2 ^ 31 ->
  create_filesystem p disk f = (WFS_OK, f') ->
  mapped s 0 -> image_at s 0 = data f' ->
  wfs_getattr "/" s
  = Some ((0, Some (mk_stat (Z.lor S_IFDIR 493) (u32 (uid p)) (u32 (gid p))
                            0 (s64 (now p)) (s64 (now p)) (s64 (now p))
                            1)), s).
Proof.
  intros HI HB Hmade Hm Him.
  destruct (made_facts disk HI HB) as (_ & F2 & F3).
  destruct (made_fields p disk f f' HI HB Hmade)
    as (G1 & G2 & G3 & G4 & G5 & G6 & _).
  destruct (made_owner p disk f f' HI HB Hmade) as (O1 & O2 & O3 & O4 & O5).
  cbv zeta in G1, G2, G3, G4, G5, G6, O1, O2, O3, O4, O5.
  set (ip0 := i_blocks_ptr _) in *.
  assert (Eip : load64s (data f') sb_i_blocks_ptr = ip0).
  { unfold load64s. rewrite G2. apply s64_small. lia. }
  rewrite Eip in O1, O2, O3, O4, O5.
  assert (U0 : in_use s 0 0).
  { unfold in_use. rewrite Him. unfold load64s at 1. rewrite G1.
    change (s64 64 + 4 * (0 / 32)) with 64. unfold load32u. rewrite G3.
    reflexivity. }
  pose proof (find_root 0 s Hm U0) as Hfind.
  rewrite Him, Eip in Hfind.
  rewrite (getattr_found _ _ _ Hfind). cbv zeta. rewrite Him.
  rewrite O1, O2, O3, O4, O5. unfold load32u, load64s, load32s.
  rewrite G4, G5, G6. reflexivity.
Qed.

End FreshRoot.

Section AttributeRuns.
Import Wfs Scenario.



Lemma getattr_of_fresh_root_witness :
  wfs_getattr "/" formatted_alone
  = Some ((0, Some (mk_stat 16877 1000 1000 0 1700000000 1700000000
                            1700000000 1)), formatted_alone).
Proof.
  apply (getattr_of_fresh_root proc one_disk blank formatted
           formatted_alone).
  - vm_compute. split; [discriminate | reflexivity].
  - vm_compute. split; [discriminate | reflexivity].
  - vm_compute. reflexivity.
  - vm_compute. split; [discriminate | reflexivity].
  - vm_compute. reflexivity.
Defined.

End AttributeRuns.

(** ** Calls that stay on one disk; creating a file on every disk *)

Section Locality.
Import Wfs.
Variable d : Z.

Lemma apart_refl (s : fs) : apart d s s.
Proof. unfold apart. repeat split; reflexivity. Qed.

Lemma apart_trans (s s1 s2 : fs) :
  apart d s s1 -> apart d s1 s2 -> apart d s s2.
Proof.
  intros (A1 & A2 & A3 & A4 & A5) (B1 & B2 & B3 & B4 & B5).
  unfold apart. repeat split; try congruence.
  intros j Hj. rewrite (B5 j Hj). apply A5. exact Hj.
Qed.

Lemma local_ret {A : Type} (ok : A -> Prop) (a : A) :
  ok a -> local d ok (ret a).
Proof.
  intros H s t Hst a0 s1 E. injection E as <- <-.
  split; [exact H | ]. split; [apply apart_refl | ].
  exists t. split; [reflexivity | ]. split; [exact Hst | apply apart_refl].
Qed.

Lemma local_crash {A : Type} (ok : A -> Prop) : local d ok (@crash A).
Proof. intros s t _ a s1 E. discriminate E. Qed.

Lemma local_bind {A B : Type} (ok1 : A -> Prop) (ok2 : B -> Prop)
      (c : M A) (k : A -> M B) :
  local d ok1 c -> (forall a, ok1 a -> local d ok2 (k a)) ->
  local d ok2 (bind c k).
Proof.
  intros Hc Hk s t Hst b s2 E. unfold bind in E.
  destruct (c s) as [[a s1] | ] eqn:Ec; [ | discriminate E].
  destruct (Hc s t Hst a s1 Ec) as (Ha & A1 & t1 & Et & Hst1 & A1').
  destruct (Hk a Ha s1 t1 Hst1 b s2 E) as (Hb & A2 & t2 & Et2 & Hst2 & A2').
  split; [exact Hb | ]. split; [apply (apart_trans s s1 s2); assumption | ].
  exists t2. split; [unfold bind; rewrite Et; exact Et2 | ].
  split; [exact Hst2 | apply (apart_trans t t1 t2); assumption].
Qed.

Lemma local_weaken {A : Type} (ok1 ok2 : A -> Prop) (c : M A) :
  (forall a, ok1 a -> ok2 a) -> local d ok1 c -> local d ok2 c.
Proof.
  intros H Hc s t Hst a s1 E.
  destruct (Hc s t Hst a s1 E) as (Ha & R). split; [apply H; exact Ha | ].
  exact R.
Qed.

Lemma local_raid_mode : local d (fun rm => rm <> RAID0) (gets raid_mode).
Proof.
  intros s t Hst a s1 E. injection E as <- <-.
  pose proof Hst as (_ & Hm & Em & _).
  split; [exact Hm | ]. split; [apply apart_refl | ].
  exists t. split; [unfold gets; rewrite Em; reflexivity | ].
  split; [exact Hst | apply apart_refl].
Qed.

Lemma local_total_devices : local d (fun _ => True) (gets total_devices).
Proof.
  intros s t Hst a s1 E. injection E as <- <-.
  pose proof Hst as (_ & _ & _ & En & _).
  split; [exact I | ]. split; [apply apart_refl | ].
  exists t. split; [unfold gets; rewrite En; reflexivity | ].
  split; [exact Hst | apply apart_refl].
Qed.

Lemma local_error_code : local d (fun _ => True) (gets error_code).
Proof.
  intros s t Hst a s1 E. injection E as <- <-.
  pose proof Hst as (_ & _ & _ & _ & Ee & _).
  split; [exact I | ]. split; [apply apart_refl | ].
  exists t. split; [unfold gets; rewrite Ee; reflexivity | ].
  split; [exact Hst | apply apart_refl].
Qed.

Lemma local_set_error (e : Z) :
  local d (fun _ => True) (modify (fun s => with_error_code s e)).
Proof.
  intros s t Hst a s1 E. injection E as <- <-.
  split; [exact I | ]. split; [unfold apart; repeat split; reflexivity | ].
  exists (with_error_code t e). split; [reflexivity | ].
  split; [ | unfold apart; repeat split; reflexivity].
  destruct Hst as (H0 & H1 & H2 & H3 & H4 & H5 & H6 & H7).
  unfold agree. cbn. repeat split; assumption.
Qed.

Lemma local_region : local d (fun _ => True) (region d).
Proof.
  intros s t Hst m s1 E. unfold region in *.
  pose proof Hst as (H0 & _ & _ & _ & _ & _ & _ & H7).
  destruct (d <? 0); [discriminate E | ]. rewrite H7.
  destruct (nth_error (fs_memory_regions s) (Z.to_nat d)) as [m0 | ];
    [ | discriminate E].
  injection E as <- <-.
  split; [exact I | ]. split; [apply apart_refl | ].
  exists t. split; [reflexivity | ]. split; [exact Hst | apply apart_refl].
Qed.

Lemma nth_error_upd_nth {A : Type} (n j : nat) (l : list A) (x : A) :
  nth_error (upd_nth n l x) j
  = if Nat.eqb j n then
      match nth_error l n with Some _ => Some x | None => None end
    else nth_error l j.
Proof.
  revert n j. induction l as [ | h r IH]; intros n j.
  - cbn. destruct (Nat.eqb j n); destruct n, j; reflexivity.
  - destruct n as [ | n]; destruct j as [ | j]; cbn; try reflexivity.
    apply IH.
Qed.

Lemma local_set_region (m : image) :
  local d (fun _ => True) (set_region d m).
Proof.
  intros s t Hst a s1 E. injection E as <- <-.
  destruct Hst as (H0 & H1 & H2 & H3 & H4 & H5 & H6 & H7).
  split; [exact I | ]. split.
  { unfold apart. cbn. rewrite length_upd_nth. repeat split.
    intros j Hj. rewrite nth_error_upd_nth.
    destruct (Nat.eqb_spec j (Z.to_nat d)); [contradiction | reflexivity]. }
  eexists. split; [reflexivity | ]. split.
  - unfold agree. cbn. rewrite !length_upd_nth, !nth_error_upd_nth, H7.
    repeat split; assumption.
  - unfold apart. cbn. rewrite length_upd_nth. repeat split.
    intros j Hj. rewrite nth_error_upd_nth.
    destruct (Nat.eqb_spec j (Z.to_nat d)); [contradiction | reflexivity].
Qed.

Lemma local_rd (f : image -> Z -> Z) (p : addr) :
  fst p = d -> local d (fun _ => True) (rd f p).
Proof.
  intros H. unfold rd. rewrite H. apply (local_bind (fun _ => True)).
  - apply local_region.
  - intros m _. apply local_ret. exact I.
Qed.

Lemma local_wr (f : image -> Z -> Z -> image) (p : addr) (v : Z) :
  fst p = d -> local d (fun _ => True) (wr f p v).
Proof.
  intros H. unfold wr. rewrite H. apply (local_bind (fun _ => True)).
  - apply local_region.
  - intros m _. apply local_set_region.
Qed.

Lemma local_memcpy_at (p : addr) (bytes : list Z) :
  fst p = d -> local d (fun _ => True) (memcpy_at p bytes).
Proof.
  intros H. unfold memcpy_at. rewrite H. apply (local_bind (fun _ => True)).
  - apply local_region.
  - intros m _. apply local_set_region.
Qed.

Lemma local_memset_at (p : addr) (c n : Z) :
  fst p = d -> local d (fun _ => True) (memset_at p c n).
Proof.
  intros H. unfold memset_at. rewrite H. apply (local_bind (fun _ => True)).
  - apply local_region.
  - intros m _. apply local_set_region.
Qed.

Lemma local_deref (w : option addr) :
  on_disk d w -> local d (fun p => fst p = d) (deref w).
Proof.
  intros H. destruct w as [p | ]; [ | apply local_crash].
  apply local_ret. exact H.
Qed.

Create HintDb local.
#[local] Hint Resolve local_region local_set_region local_total_devices
  local_error_code local_set_error local_rd local_wr local_memcpy_at
  local_memset_at local_deref : local.
#[local] Hint Extern 1 (fst _ = _) =>
  unfold shift, sb; cbn [fst snd]; first [reflexivity | eassumption] : local.
#[local] Hint Extern 1 (on_disk _ _) =>
  unfold on_disk, shift, sb; cbn [fst snd];
  first [exact I | reflexivity | eassumption] : local.

Ltac loc :=
  repeat first
    [ solve [eauto with local]
    | apply local_ret; cbv beta; unfold on_disk, shift, sb; cbn [fst snd];
      first [exact I | reflexivity | eassumption]
    | apply local_crash
    | match goal with
      | H : ?m <> RAID0, E : (?m =? RAID0) = true |- _ =>
          exfalso; apply H; apply Z.eqb_eq; exact E
      | |- local _ _ (bind (gets raid_mode) _) =>
          apply (local_bind (fun rm => rm <> RAID0));
          [apply local_raid_mode | intros ? ?]
      | |- local _ _ (bind _ _) =>
          eapply local_bind; [solve [eauto with local] | intros ? ?]
      | |- local _ _ (if ?b then _ else _) => destruct b eqn:?
      | |- local _ _ (match ?x with _ => _ end) => destruct x eqn:?
      end
    | apply (local_bind (fun _ => True)); [ | intros ? _] ].

Lemma local_get_inode (n : Z) : local d (on_disk d) (get_inode n d).
Proof. unfold get_inode. loc. Qed.

Lemma local_scan_bitmap (n : nat) (w : Z) (bitmap : addr) :
  fst bitmap = d -> local d (fun _ => True) (scan_bitmap n w bitmap).
Proof.
  intros H. revert w. induction n as [ | n IH]; intros w;
    cbn [scan_bitmap]; loc; apply IH.
Qed.

#[local] Hint Resolve local_get_inode local_scan_bitmap : local.

Lemma local_allocate_block : local d (fun _ => True) (allocate_block d).
Proof. unfold allocate_block, allocate_bitmap_block. loc. Qed.

Lemma local_create_inode : local d (on_disk d) (create_inode d).
Proof. unfold create_inode, allocate_bitmap_block. loc. Qed.

Lemma local_setup_inode (p : process) (w : option addr) (mode : Z) :
  on_disk d w -> local d (fun _ => True) (setup_inode p w mode).
Proof. intros H. unfold setup_inode. loc. Qed.

#[local] Hint Resolve local_allocate_block local_create_inode
  local_setup_inode : local.

Lemma local_get_block_location (w : option addr) (offset alloc : Z) :
  on_disk d w ->
  local d (on_disk d) (get_block_location w offset alloc d).
Proof.
  intros H. unfold get_block_location. cbv zeta.
  destruct (_ >? _); [loc | ].
  eapply local_bind; [solve [eauto with local] | intros ino Hino].
  apply (local_bind (fun rm => rm <> RAID0));
    [apply local_raid_mode | intros rm Hrm].
  destruct (Z.eqb_spec rm RAID0) as [E | _]; [contradiction | ].
  apply (local_bind (fun r : addr * Z => fst (fst r) = d)).
  { destruct (_ >? _); loc. }
  intros [blocks bn] Hb. cbn [fst] in Hb. loc.
Qed.

#[local] Hint Resolve local_get_block_location : local.

Lemma local_scan_dentries (n : nat) (off : Z) (e : addr) (next : list Z) :
  fst e = d -> local d (fun _ => True) (scan_dentries n off e next d).
Proof.
  intros H. revert off. induction n as [ | n IH]; intros off;
    cbn [scan_dentries]; [loc | ].
  eapply local_bind; [solve [eauto with local] | intros w Hw].
  eapply local_bind; [solve [eauto with local] | intros p Hp].
  eapply local_bind; [solve [eauto with local] | intros num _].
  rewrite Hp.
  eapply local_bind; [solve [eauto with local] | intros m _].
  destruct (_ && _); [loc | apply IH].
Qed.

#[local] Hint Resolve local_scan_dentries : local.

Lemma local_locate_inode (fuel : nat) (w : option addr) (path : string) :
  on_disk d w ->
  local d (fun r => on_disk d (snd r)) (locate_inode fuel w path d).
Proof.
  revert w path. induction fuel as [ | fuel IH]; intros w path H;
    cbn [locate_inode]; [loc | ].
  destruct path as [ | c r]; [loc | ].
  destruct (split_component (String c r)) as [next rest].
  eapply local_bind; [solve [eauto with local] | intros e He].
  eapply local_bind; [solve [eauto with local] | intros sz _].
  eapply local_bind; [solve [eauto with local] | intros inum _].
  destruct (inum <? 0); [loc | ].
  eapply local_bind; [solve [eauto with local] | intros child Hc].
  apply IH. exact Hc.
Qed.

Lemma local_find_inode_by_path (path : string) :
  local d (fun r => on_disk d (snd r)) (find_inode_by_path path d).
Proof.
  unfold find_inode_by_path.
  eapply local_bind; [solve [eauto with local] | intros root Hr].
  destruct root as [r | ]; [ | loc].
  apply local_locate_inode. exact Hr.
Qed.

Lemma local_bump_at (grow : bool) (w : addr) :
  fst w = d -> local d (fun _ => True) (bump_at grow w).
Proof. intros H. unfold bump_at. loc. Qed.

#[local] Hint Resolve local_find_inode_by_path local_bump_at : local.

Lemma local_bump_parent (parent : addr) (grow : bool) :
  fst parent = d -> local d (fun _ => True) (bump_parent parent grow).
Proof.
  intros H. unfold bump_parent.
  apply (local_bind (fun rm => rm <> RAID0));
    [apply local_raid_mode | intros rm Hrm].
  destruct (Z.eqb_spec rm RAID0) as [E | _]; [contradiction | ].
  apply local_bump_at. exact H.
Qed.

Lemma local_strncpy_name (e : addr) (name : string) :
  fst e = d -> local d (fun _ => True) (strncpy_name e name).
Proof. intros H. unfold strncpy_name. apply local_memcpy_at. exact H. Qed.

#[local] Hint Resolve local_bump_parent local_strncpy_name : local.

Lemma local_insert_scan (fuel : nat) (offset : Z) (parent : addr) (num : Z)
      (name : string) :
  fst parent = d ->
  local d (fun _ => True) (insert_scan fuel offset parent num name d).
Proof.
  intros H. revert offset. induction fuel as [ | fuel IH]; intros offset;
    cbn [insert_scan]; [loc | ].
  eapply local_bind; [solve [eauto with local] | intros size _].
  destruct (offset <? size); [ | loc].
  eapply local_bind; [solve [eauto with local] | intros w Hw].
  eapply local_bind; [solve [eauto with local] | intros p Hp].
  eapply local_bind; [solve [eauto with local] | intros num0 _].
  destruct (num0 =? 0); [loc | apply IH].
Qed.

#[local] Hint Resolve local_insert_scan : local.

Lemma local_insert_dir_entry (w : option addr) (num : Z) (name : string) :
  on_disk d w -> local d (fun _ => True) (insert_dir_entry w num name d).
Proof. intros H. unfold insert_dir_entry. loc. Qed.

Lemma local_allocate_new_inode (p : process) (mode : Z) :
  local d (fun r => on_disk d (snd r)) (allocate_new_inode p mode d).
Proof.
  unfold allocate_new_inode.
  apply (local_bind (fun rm => rm <> RAID0));
    [apply local_raid_mode | intros rm Hrm].
  destruct (Z.eqb_spec rm RAID0) as [E | _]; [contradiction | ].
  eapply local_bind; [solve [eauto with local] | intros ino Hi].
  destruct ino as [i | ]; loc.
Qed.

#[local] Hint Resolve local_insert_dir_entry local_allocate_new_inode : local.

Lemma local_wfs_mknod (p : process) (path : string) (mode : Z) :
  local d (fun _ => True) (wfs_mknod p path mode d).
Proof.
  unfold wfs_mknod.
  eapply local_bind; [solve [eauto with local] | intros [rc parent] Hp].
  cbn [snd] in Hp. destruct (rc <? 0); [loc | ].
  eapply local_bind; [solve [eauto with local] | intros [ok inode] Hi].
  cbn [snd] in Hi. destruct ok; cbn [negb]; loc.
Qed.

Lemma local_wfs_mkdir (p : process) (path : string) (mode : Z) :
  local d (fun _ => True) (wfs_mkdir p path mode d).
Proof.
  unfold wfs_mkdir.
  eapply local_bind; [solve [eauto with local] | intros [rc parent] Hp].
  cbn [snd] in Hp. destruct (rc <? 0); [loc | ].
  eapply local_bind; [solve [eauto with local] | intros [ok inode] Hi].
  cbn [snd] in Hi. destruct ok; cbn [negb]; loc.
Qed.

Lemma local_delete_dir_entry (w : option addr) (inum : Z) :
  on_disk d w -> local d (fun _ => True) (delete_dir_entry w inum d).
Proof.
  intros H. unfold delete_dir_entry.
  eapply local_bind; [solve [eauto with local] | intros i Hi].
  eapply local_bind; [solve [eauto with local] | intros sz _].
  generalize 0 at 1. induction (dentry_slots sz) as [ | n IH]; intros off;
    cbn [delete_scan]; [loc | ].
  eapply local_bind; [solve [eauto with local] | intros r Hr].
  eapply local_bind; [solve [eauto with local] | intros q Hq].
  eapply local_bind; [solve [eauto with local] | intros num _].
  destruct (num =? inum); [loc | apply IH].
Qed.

(** What a call that stays on disk [d] leaves alone. *)
Lemma local_frame {A : Type} (ok : A -> Prop) (c : M A) (s s1 : fs) (a : A) :
  local d ok c -> 0 <= d -> raid_mode s <> RAID0 ->
  c s = Some (a, s1) -> apart d s s1.
Proof.
  intros Hc H0 Hm E.
  assert (Hs : agree d s s) by (unfold agree; repeat split; assumption).
  destruct (Hc s s Hs a s1 E) as (_ & Ha & _). exact Ha.
Qed.

(** A call that stays on disk [d] and changes nothing runs alike from a
    state that agrees on disk [d]. *)
Lemma local_same {A : Type} (ok : A -> Prop) (c : M A) (s t : fs) (a : A) :
  local d ok c -> agree d s t -> c s = Some (a, s) -> c t = Some (a, t).
Proof.
  intros Hc Hst E.
  destruct (Hc s t Hst a s E) as (_ & _ & t1 & Et & Hst1 & At).
  rewrite Et. do 2 f_equal.
  destruct Hst as (_ & _ & S1 & S2 & S3 & S4 & S5 & S6).
  destruct Hst1 as (_ & _ & T1 & T2 & T3 & T4 & T5 & T6).
  destruct At as (A1 & A2 & A3 & A4 & A5).
  destruct t as [rt mt nt et gt]. destruct t1 as [r1 m1 n1 e1 g1].
  cbn in *. subst. f_equal; try congruence.
  apply nth_error_ext. intros j.
  destruct (Nat.eq_dec j (Z.to_nat d)) as [-> | Hj]; [congruence | ].
  apply A5. exact Hj.
Qed.

(** On a mirror the calls that are given a disk stay on it: whatever
    they return, they leave the mapping of every other disk, the mode,
    the number of disks and the manager as they were. *)
Theorem mirror_calls_stay_on_their_disk (p : process) (s s1 : fs) :
  raid_mode s <> RAID0 -> 0 <= d ->
  (forall path mode r,
     wfs_mknod p path mode d s = Some (r, s1) -> apart d s s1)
  /\ (forall path mode r,
        wfs_mkdir p path mode d s = Some (r, s1) -> apart d s s1)
  /\ (forall path r,
        find_inode_by_path path d s = Some (r, s1) -> apart d s s1)
  /\ (forall a num name r,
        insert_dir_entry (Some (d, a)) num name d s = Some (r, s1) ->
        apart d s s1)
  /\ (forall a inum r,
        delete_dir_entry (Some (d, a)) inum d s = Some (r, s1) ->
        apart d s s1)
  /\ (forall a off alloc r,
        get_block_location (Some (d, a)) off alloc d s = Some (r, s1) ->
        apart d s s1)
  /\ (forall r, create_inode d s = Some (r, s1) -> apart d s s1)
  /\ (forall r, allocate_block d s = Some (r, s1) -> apart d s s1).
Proof.
  intros Hmode H0.
  assert (Hs : agree d s s) by (unfold agree; repeat split; assumption).
  assert (F : forall (A : Type) (ok : A -> Prop) (c : M A) (r : A),
            local d ok c -> c s = Some (r, s1) -> apart d s s1).
  { intros A ok c r Hc E. destruct (Hc s s Hs r s1 E) as (_ & Ha & _).
    exact Ha. }
  split; [intros path mode r; apply (F _ _ _ _ (local_wfs_mknod p path mode))
         | ].
  split; [intros path mode r; apply (F _ _ _ _ (local_wfs_mkdir p path mode))
         | ].
  split; [intros path r; apply (F _ _ _ _ (local_find_inode_by_path path))
         | ].
  split; [intros a num name r;
          apply (F _ _ _ _ (local_insert_dir_entry (Some (d, a)) num name
                              eq_refl)) | ].
  split; [intros a inum r;
          apply (F _ _ _ _ (local_delete_dir_entry (Some (d, a)) inum
                              eq_refl)) | ].
  split; [intros a off alloc r;
          apply (F _ _ _ _ (local_get_block_location (Some (d, a)) off alloc
                              eq_refl)) | ].
  split; [intros r; apply (F _ _ _ _ local_create_inode) | ].
  intros r. apply (F _ _ _ _ local_allocate_block).
Qed.

End Locality.

Section Mirror.
Import Wfs.

Lemma image_same (s s1 : fs) (d : Z) :
  nth_error (fs_memory_regions s1) (Z.to_nat d)
  = nth_error (fs_memory_regions s) (Z.to_nat d) ->
  image_at s1 d = image_at s d.
Proof.
  intros H. unfold image_at. destruct (d <? 0); [reflexivity | ].
  destruct (nth_error (fs_memory_regions s) (Z.to_nat d)) as [m | ] eqn:E.
  - rewrite (nth_error_nth _ _ _ H), (nth_error_nth _ _ _ E). reflexivity.
  - apply nth_error_None in H, E. rewrite !nth_overflow by assumption.
    reflexivity.
Qed.

Lemma mapped_same (s s1 : fs) (d : Z) :
  List.length (fs_memory_regions s1) = List.length (fs_memory_regions s) ->
  mapped s d -> mapped s1 d.
Proof. unfold mapped. intros ->. exact (fun H => H). Qed.

Lemma root_ready_same (s s1 : fs) (d : Z) (next : list Z) :
  image_at s1 d = image_at s d -> mapped s1 d ->
  root_ready s d next -> root_ready s1 d next.
Proof.
  intros Hi Hm (_ & R).
  unfold root_ready, disk_layout, in_use, direct_blocks_owned, taken,
    entry_named in *.
  cbn [fst snd] in *. rewrite Hi. split; [exact Hm | exact R].
Qed.

Lemma lowest_free_same (s s1 : fs) (d n : Z) :
  image_at s1 d = image_at s d -> lowest_free s1 d n -> lowest_free s d n.
Proof.
  intros Hi R. unfold lowest_free, in_use in *. rewrite Hi in R. exact R.
Qed.

Lemma in_use_same (s s1 : fs) (d n : Z) :
  image_at s1 d = image_at s d -> in_use s d n -> in_use s1 d n.
Proof. intros Hi R. unfold in_use in *. rewrite Hi. exact R. Qed.

Section OneName.
Variables (p : process) (mode : Z) (name : string).
Let next : list Z := bytes_of_string name.
Let path : string := String "/" name.
Hypothesis named : name <> EmptyString.
Hypothesis short : Z.of_nat (List.length next) < MAX_NAME.
Hypothesis no_nul : ~ In 0 next.
Hypothesis no_slash : ~ In 47 next.

(** [wfs_mknod] on one disk of a mirror, with what it leaves alone. *)
Lemma mknod_step (s s1 : fs) (d r : Z) :
  raid_mode s <> RAID0 -> 0 <= d -> root_ready s d next ->
  wfs_mknod p path mode d s = Some (r, s1) ->
  apart d s s1
  /\ ((r = - ENOSPC \/ r = - EEXIST)
      \/ (r = 0 /\ error_code s1 = error_code s
          /\ exists n,
               lowest_free s d n /\ in_use s1 d n
               /\ find_inode_by_path path d s1
                  = Some ((0, Some (d, load64s (image_at s d) sb_i_blocks_ptr
                                       + BLOCK_SIZE * n)), s1)
               /\ new_record p (image_at s1 d)
                    (load64s (image_at s d) sb_i_blocks_ptr + BLOCK_SIZE * n)
                    (Z.lor S_IFREG mode))).
Proof.
  intros Hmode H0 (Hm & DL & U0 & Ow & Hsz & Hal & Hdir) H.
  split; [exact (local_frame d _ _ s s1 r (local_wfs_mknod d p path mode)
                   H0 Hmode H) | ].
  destruct (path_parts name named no_slash) as [Edir Ebase].
  unfold wfs_mknod, path in H. rewrite Edir, Ebase in H.
  destruct (creation_run p s d (Z.lor S_IFREG mode) name Hmode Hm DL U0 Ow
              Hsz Hal Hdir named short no_nul no_slash _ _ _ r s1 H)
    as [[Hf _]
       | (n & s3 & Hn & Nu & Low & New3 & Ee & _
          & [Hf | (-> & -> & F1 & _ & F3 & F4 & F5 & F6 & F7 & F8 & F9
                   & F10)])].
  - left. injection Hf as <- _. left. reflexivity.
  - left. injection Hf as <- _. right. reflexivity.
  - right. split; [reflexivity | ]. split; [exact Ee | ].
    exists n. split; [ | split; [exact New3 | split; [exact F1 | ]]].
    + unfold lowest_free. split; [exact Hn | ].
      split; [exact Nu | exact Low].
    + unfold new_record. repeat split; assumption.
Qed.

Variable s0 : fs.
Let N : Z := total_devices s0.
Hypothesis mirrored : raid_mode s0 <> RAID0.
Hypothesis ready : forall d, 0 <= d < N -> root_ready s0 d next.

(** The loop of [WFS_MKNOD] from disk [i] on. *)
Lemma mknod_loop (k : nat) (i : Z) (si s' : fs) (rc : Z) :
  0 <= i -> i + Z.of_nat k = N ->
  raid_mode si = raid_mode s0 ->
  List.length (fs_memory_regions si) = List.length (fs_memory_regions s0) ->
  (forall j, (Z.to_nat i <= j)%nat ->
     nth_error (fs_memory_regions si) j
     = nth_error (fs_memory_regions s0) j) ->
  on_each_disk k i (wfs_mknod p path mode) ret si = Some (rc, s') ->
  (raid_mode s' = raid_mode si /\ total_devices s' = total_devices si
   /\ raid_mgr s' = raid_mgr si
   /\ List.length (fs_memory_regions s')
      = List.length (fs_memory_regions si)
   /\ forall j, (j < Z.to_nat i)%nat ->
        nth_error (fs_memory_regions s') j
        = nth_error (fs_memory_regions si) j)
  /\ ((rc = 0 /\ error_code s' = error_code si
       /\ forall d, i <= d < N ->
            exists n,
              lowest_free s0 d n
              /\ find_inode_by_path path d s'
                 = Some ((0, Some (d, load64s (image_at s0 d) sb_i_blocks_ptr
                                      + BLOCK_SIZE * n)), s')
              /\ new_record p (image_at s' d)
                   (load64s (image_at s0 d) sb_i_blocks_ptr + BLOCK_SIZE * n)
                   (Z.lor S_IFREG mode))
      \/ ((rc = - ENOSPC \/ rc = - EEXIST)
          /\ exists i0,
               i <= i0 < N
               /\ (forall d, i <= d < i0 ->
                     exists n, lowest_free s0 d n /\ in_use s' d n)
               /\ forall d, i0 < d < N -> image_at s' d = image_at s0 d)).
Proof.
  revert i si. induction k as [ | k IH]; intros i si Hi HN Em El Hrest H.
  - injection H as <- <-. split; [repeat split; reflexivity | ].
    left. split; [reflexivity | ]. split; [reflexivity | ].
    intros d Hd. lia.
  - cbn [on_each_disk] in H. open_bind H. rename a into r. rename s into s1.
    assert (Ii : image_at si i = image_at s0 i)
      by (apply image_same; apply Hrest; lia).
    assert (Ri : root_ready si i next).
    { apply (root_ready_same s0 si i next Ii).
      - apply (mapped_same s0 si i El). apply (ready i ltac:(lia)).
      - apply ready. lia. }
    destruct (mknod_step si s1 i r ltac:(congruence) Hi Ri Hc)
      as ((A1 & A2 & A3 & A4 & A5) & Hout).
    destruct (Z.eqb_spec r 0) as [-> | Hr]; cbn [negb] in H.
    + destruct Hout as [[E | E] | (_ & Ee & n & Ln & Un & Hfind & Hrec1)];
        [discriminate E | discriminate E | ].
      destruct (IH (i + 1) s1 ltac:(lia) ltac:(lia) ltac:(congruence)
                  ltac:(congruence)
                  ltac:(intros j Hj; rewrite A5 by lia; apply Hrest; lia) H)
        as ((B1 & B2 & B3 & B4 & B5) & Hrec).
      split.
      { split; [congruence | ]. split; [congruence | ].
        split; [congruence | ]. split; [congruence | ].
        intros j Hj. rewrite B5 by lia. apply A5. lia. }
      assert (Is : image_at s' i = image_at s1 i)
        by (apply image_same; apply B5; lia).
      destruct Hrec as [(-> & Ee' & Hall) | (Hrc & i0 & Hi0 & Hpre & Hpost)].
      * left. split; [reflexivity | ]. split; [congruence | ].
        intros d Hd. destruct (Z.eq_dec d i) as [-> | Hne];
          [ | apply Hall; lia].
        exists n. split; [apply (lowest_free_same s0 si i n Ii Ln) | ].
        rewrite <- Ii. split; [ | rewrite Is; exact Hrec1].
        apply (local_same i _ _ s1 s' _ (local_find_inode_by_path i path));
          [ | exact Hfind].
        unfold agree. split; [exact Hi | ]. split; [congruence | ].
        split; [exact B1 | ]. split; [exact B2 | ]. split; [exact Ee' | ].
        split; [exact B3 | ]. split; [exact B4 | ]. apply B5. lia.
      * right. split; [exact Hrc | ]. exists i0. split; [lia | ].
        split; [ | intros d Hd; apply Hpost; lia].
        intros d Hd. destruct (Z.eq_dec d i) as [-> | Hne];
          [ | apply Hpre; lia].
        exists n. split; [apply (lowest_free_same s0 si i n Ii Ln) | ].
        apply (in_use_same s1 s' i n Is Un).
    + injection H as <- <-.
      split.
      { split; [exact A1 | ]. split; [exact A2 | ]. split; [exact A3 | ].
        split; [exact A4 | ]. intros j Hj. apply A5. lia. }
      right. destruct Hout as [Hf | (E & _)]; [ | contradiction].
      split; [exact Hf | ]. exists i. split; [lia | ].
      split; [intros d Hd; lia | ].
      intros d Hd. apply image_same. rewrite A5 by lia. apply Hrest. lia.
Qed.

End OneName.


End Mirror.

Section MirrorRuns.
Import Wfs Scenario.

Lemma fresh_roots_ready (d : Z) :
  0 <= d < 2 -> root_ready (the raid1_volume) d (bytes_of_string "a").
Proof.
  intros Hd. assert (C : d = 0 \/ d = 1) by lia.
  assert (Z0 : forall k, 0 <= k <= 6 ->
            load64s (image_at (the raid1_volume) d) (512 + i_blocks k) = 0).
  { intros k Hk.
    assert (K : k = 0 \/ k = 1 \/ k = 2 \/ k = 3 \/ k = 4 \/ k = 5 \/ k = 6)
      by lia.
    destruct C as [-> | ->];
      destruct K as [-> | [-> | [-> | [-> | [-> | [-> | ->]]]]]];
      vm_compute; reflexivity. }
  assert (Eip : load64s (image_at (the raid1_volume) d) sb_i_blocks_ptr
                = 512)
    by (destruct C as [-> | ->]; vm_compute; reflexivity).
  assert (Esz : load64s (image_at (the raid1_volume) d) (512 + i_size) = 0)
    by (destruct C as [-> | ->]; vm_compute; reflexivity).
  unfold root_ready. rewrite Eip, Esz.
  split; [destruct C as [-> | ->]; vm_compute;
          (split; [discriminate | reflexivity]) | ].
  split; [destruct C as [-> | ->]; vm_compute; repeat split; discriminate | ].
  split; [destruct C as [-> | ->]; vm_compute; reflexivity | ].
  split.
  { split; cbn [fst snd]; change D_BLOCK with 6.
    - intros k Hk. left. apply Z0. exact Hk.
    - intros k k' Hk _ _ NZ. exfalso. apply NZ. apply Z0. exact Hk. }
  split; [vm_compute; split; discriminate | ].
  split; [reflexivity | ]. intros o Ho. lia.
Qed.

Lemma mirror_calls_stay_on_their_disk_witness :
  apart 0 (the raid1_volume) (the raid1_mknod_a).
Proof.
  destruct (mirror_calls_stay_on_their_disk 0 proc (the raid1_volume)
              (the raid1_mknod_a)) as (H & _).
  - vm_compute. discriminate.
  - lia.
  - apply (H "/a"%string mode_0644 0). vm_compute. reflexivity.
Defined.


End MirrorRuns.

(** ** Calls that return *)

Section Safety.
Import Wfs.
Variable d : Z.

Lemma safe_ret {A : Type} (ok : A -> Prop) (a : A) :
  ok a -> safe d ok (ret a).
Proof.
  intros H s Hm Hr. exists a, s.
  split; [reflexivity | ]. split; [exact H | ]. split; [exact Hm | reflexivity].
Qed.

Lemma safe_bind {A B : Type} (ok1 : A -> Prop) (ok2 : B -> Prop)
      (c : M A) (k : A -> M B) :
  safe d ok1 c -> (forall a, ok1 a -> safe d ok2 (k a)) ->
  safe d ok2 (bind c k).
Proof.
  intros Hc Hk s Hm Hr.
  destruct (Hc s Hm Hr) as (a & s1 & E1 & Ha & Hm1 & Hr1).
  destruct (Hk a Ha s1 Hm1 ltac:(congruence)) as (b & s2 & E2 & Hb & Hm2 & Hr2).
  exists b, s2. split; [unfold bind; rewrite E1; exact E2 | ].
  split; [exact Hb | ]. split; [exact Hm2 | congruence].
Qed.

Lemma safe_raid_mode : safe d (fun rm => rm <> RAID0) (gets raid_mode).
Proof.
  intros s Hm Hr. exists (raid_mode s), s.
  split; [reflexivity | ]. split; [exact Hr | ]. split; [exact Hm | reflexivity].
Qed.

Lemma safe_gets {A : Type} (f : fs -> A) : safe d (fun _ => True) (gets f).
Proof.
  intros s Hm Hr. exists (f s), s.
  split; [reflexivity | ]. split; [exact I | ]. split; [exact Hm | reflexivity].
Qed.

Lemma safe_set_error (e : Z) :
  safe d (fun _ => True) (modify (fun s => with_error_code s e)).
Proof.
  intros s Hm Hr. exists tt, (with_error_code s e).
  split; [reflexivity | ]. split; [exact I | ]. split; [exact Hm | reflexivity].
Qed.

Lemma safe_region : safe d (fun _ => True) (region d).
Proof.
  intros s Hm Hr. exists (image_at s d), s.
  split; [apply region_mapped; exact Hm | ].
  split; [exact I | ]. split; [exact Hm | reflexivity].
Qed.

Lemma safe_set_region (m : image) :
  safe d (fun _ => True) (set_region d m).
Proof.
  intros s Hm Hr. eexists tt, _. split; [reflexivity | ].
  split; [exact I | ]. split; [ | reflexivity].
  unfold mapped in *. cbn. rewrite length_upd_nth. exact Hm.
Qed.

Lemma safe_rd (f : image -> Z -> Z) (p : addr) :
  fst p = d -> safe d (fun _ => True) (rd f p).
Proof.
  intros H. unfold rd. rewrite H. apply (safe_bind (fun _ => True)).
  - apply safe_region.
  - intros m _. apply safe_ret. exact I.
Qed.

Lemma safe_wr (f : image -> Z -> Z -> image) (p : addr) (v : Z) :
  fst p = d -> safe d (fun _ => True) (wr f p v).
Proof.
  intros H. unfold wr. rewrite H. apply (safe_bind (fun _ => True)).
  - apply safe_region.
  - intros m _. apply safe_set_region.
Qed.

Lemma safe_memcpy_at (p : addr) (bytes : list Z) :
  fst p = d -> safe d (fun _ => True) (memcpy_at p bytes).
Proof.
  intros H. unfold memcpy_at. rewrite H. apply (safe_bind (fun _ => True)).
  - apply safe_region.
  - intros m _. apply safe_set_region.
Qed.

Lemma safe_deref (p : addr) :
  fst p = d -> safe d (fun q => fst q = d) (deref (Some p)).
Proof. intros H. apply safe_ret. exact H. Qed.

Create HintDb safe.

Lemma safe_total_devices : safe d (fun _ => True) (gets total_devices).
Proof. apply safe_gets. Qed.

Lemma safe_error_code : safe d (fun _ => True) (gets error_code).
Proof. apply safe_gets. Qed.

#[local] Hint Resolve safe_region safe_set_region safe_total_devices
  safe_error_code safe_set_error
  safe_rd safe_wr safe_memcpy_at safe_deref : safe.
#[local] Hint Extern 1 (fst _ = _) =>
  unfold shift, sb; cbn [fst snd]; first [reflexivity | eassumption] : safe.
#[local] Hint Extern 1 (on_disk _ _) =>
  unfold on_disk, shift, sb; cbn [fst snd];
  first [exact I | reflexivity | eassumption] : safe.

Ltac sf :=
  repeat first
    [ solve [eauto with safe]
    | apply safe_ret; cbv beta; unfold on_disk, shift, sb; cbn [fst snd];
      first [exact I | reflexivity | eassumption]
    | match goal with
      | H : ?m <> RAID0, E : (?m =? RAID0) = true |- _ =>
          exfalso; apply H; apply Z.eqb_eq; exact E
      | |- safe _ _ (bind (gets raid_mode) _) =>
          apply (safe_bind (fun rm => rm <> RAID0));
          [apply safe_raid_mode | intros ? ?]
      | |- safe _ _ (bind _ _) =>
          eapply safe_bind; [solve [eauto with safe] | intros ? ?]
      | |- safe _ _ (if ?b then _ else _) => destruct b eqn:?
      | |- safe _ _ (match ?x with _ => _ end) => destruct x eqn:?
      end
    | apply (safe_bind (fun _ => True)); [ | intros ? _] ].

Lemma safe_get_inode (n : Z) : safe d (on_disk d) (get_inode n d).
Proof. unfold get_inode. sf. Qed.

Lemma safe_scan_bitmap (n : nat) (w : Z) (bitmap : addr) :
  fst bitmap = d -> safe d (fun _ => True) (scan_bitmap n w bitmap).
Proof.
  intros H. revert w. induction n as [ | n IH]; intros w;
    cbn [scan_bitmap]; sf; apply IH.
Qed.

#[local] Hint Resolve safe_get_inode safe_scan_bitmap : safe.

Lemma safe_allocate_block : safe d (fun _ => True) (allocate_block d).
Proof. unfold allocate_block, allocate_bitmap_block. sf. Qed.

#[local] Hint Resolve safe_allocate_block : safe.

Lemma safe_get_block_location (ino : addr) (offset alloc : Z) :
  fst ino = d ->
  safe d (on_disk d) (get_block_location (Some ino) offset alloc d).
Proof.
  intros H. unfold get_block_location. cbv zeta.
  destruct (_ >? _); [sf | ].
  eapply safe_bind; [solve [eauto with safe] | intros i Hi].
  apply (safe_bind (fun rm => rm <> RAID0));
    [apply safe_raid_mode | intros rm Hrm].
  destruct (Z.eqb_spec rm RAID0) as [E | _]; [contradiction | ].
  apply (safe_bind (fun r : addr * Z => fst (fst r) = d)).
  { destruct (_ >? _); sf. }
  intros [blocks bn] Hb. cbn [fst] in Hb. sf.
Qed.

End Safety.

(** ** The copy loop of [wfs_write] ends *)

Section CopyLoop.
Import Wfs.

(** The copy loop of [wfs_write] ends within its fuel on a mirror, with
    no null pointer followed. *)
Lemma write_chunks_returns (d : Z) (ino : addr) (buf : list Z) (length : Z)
      (fuel : nat) (w pos : Z) :
  fst ino = d -> 0 <= w <= length -> length < 2 ^ 63 ->
  (Z.to_nat (length - w) < fuel)%nat ->
  safe d (fun _ => True)
       (write_chunks fuel (Some ino) buf length w pos d).
Proof.
  intros Hd. revert w pos.
  induction fuel as [ | fuel IH]; intros w pos Hw Hl Hfuel; [lia | ].
  cbn [write_chunks].
  destruct (Z.ltb_spec w length) as [Lt | Ge];
    [ | apply safe_ret; exact I].
  cbv zeta.
  pose proof (Z.mod_pos_bound pos BLOCK_SIZE ltac:(unfold BLOCK_SIZE; lia))
    as Hlo.
  unfold BLOCK_SIZE in *.
  rewrite (u64_small (512 - pos mod 512 + w)) by lia.
  set (tw := if 512 - pos mod 512 + w >? length
             then u64 (length - w) else 512 - pos mod 512).
  assert (Htw : 1 <= tw /\ w + tw <= length).
  { subst tw. destruct (Z.gtb_spec (512 - pos mod 512 + w) length).
    - rewrite u64_small by lia. lia.
    - lia. }
  clearbody tw.
  apply (safe_bind d (on_disk d)).
  - apply safe_get_block_location. exact Hd.
  - intros [p | ] Hp; [ | apply safe_ret; exact I].
    apply (safe_bind d (fun _ => True)).
    + apply safe_memcpy_at. exact Hp.
    + intros _ _. rewrite (u64_small (w + tw)) by lia.
      apply IH; lia.
Qed.


End CopyLoop.

Section CopyLoopRuns.
Import Wfs Scenario.


End CopyLoopRuns.

Section Returns.
Import Wfs.

(** The loop of [insert_dir_entry] over a directory whose slots all lie
    in blocks that are there: it ends within its fuel, with no null
    pointer followed. *)
Lemma insert_scan_returns (s : fs) (d a num : Z) (name : string)
      (fuel : nat) (off : Z) :
  raid_mode s <> RAID0 -> mapped s d ->
  let size := load64s (image_at s d) (a + i_size) in
  size <= 3584 ->
  (forall o, 0 <= o < size -> o mod 32 = 0 ->
     load64s (image_at s d) (a + i_blocks (o / 512)) <> 0) ->
  0 <= off -> off mod 32 = 0 ->
  size - off <= 32 * (Z.of_nat fuel - 1) -> (1 <= fuel)%nat ->
  exists done s1,
    insert_scan fuel off (d, a) num name d s = Some (done, s1)
    /\ mapped s1 d /\ raid_mode s1 = raid_mode s
    /\ (done = false -> s1 = s).
Proof.
  intros Hmode Hm size Hsz Hptr. revert off.
  induction fuel as [ | fuel IH]; intros off H0 Hal Hfuel H1; [lia | ].
  cbn [insert_scan]. unfold shift. cbn [fst snd].
  rewrite (bind_eq _ _ _ _ _ (rd_at load64s d (a + i_size) s Hm)).
  fold size. destruct (Z.ltb_spec off size) as [Hlt | Hge].
  - rewrite (bind_eq _ _ _ _ _
               (resolve_mirror s d a off d Hmode Hm ltac:(lia))).
    cbv zeta.
    destruct (Z.eqb_spec (load64s (image_at s d) (a + i_blocks (off / 512)))
                0) as [E | _];
      [exfalso; apply (Hptr off); [lia | exact Hal | exact E] | ].
    cbn [deref]. rewrite (bind_eq _ _ _ _ _ eq_refl).
    unfold shift. cbn [fst snd].
    set (t := load64s (image_at s d) (a + i_blocks (off / 512))
              + off mod 512).
    rewrite (bind_eq _ _ _ _ _ (rd_at load32s d (t + de_num) s Hm)).
    destruct (_ =? 0).
    + pose proof (fill_explicit d a num name bool true s t false Hm Hmode)
        as F.
      unfold shift in F. cbn [fst snd] in F. rewrite F.
      eexists true, _. split; [reflexivity | ].
      split; [apply mapped_with_image; exact Hm | ].
      split; [reflexivity | discriminate].
    + apply IH.
      * unfold sizeof_wfs_dentry. lia.
      * unfold sizeof_wfs_dentry. rewrite <- Z.add_mod_idemp_l by lia.
        rewrite Hal. reflexivity.
      * unfold sizeof_wfs_dentry. lia.
      * lia.
  - exists false, s. split; [reflexivity | ]. split; [exact Hm | ].
    split; reflexivity.
Qed.

(** [insert_dir_entry] returns on such a directory. *)
Lemma insert_returns (s : fs) (d a num : Z) (name : string) :
  raid_mode s <> RAID0 -> mapped s d ->
  let size := load64s (image_at s d) (a + i_size) in
  0 <= size <= 3584 ->
  (forall o, 0 <= o < size -> o mod 32 = 0 ->
     load64s (image_at s d) (a + i_blocks (o / 512)) <> 0) ->
  exists rc s1,
    insert_dir_entry (Some (d, a)) num name d s = Some (rc, s1).
Proof.
  intros Hmode Hm size Hsz Hptr.
  unfold insert_dir_entry. cbn [deref].
  rewrite (bind_eq _ _ _ _ _ eq_refl). unfold shift. cbn [fst snd].
  rewrite (bind_eq _ _ _ _ _ (rd_at load64s d (a + i_size) s Hm)).
  fold size.
  destruct (insert_scan_returns s d a num name (S (dentry_slots size)) 0
              Hmode Hm ltac:(fold size; lia) Hptr ltac:(lia) eq_refl)
    as (done & s1 & E & Hm1 & Hr1 & Hsame).
  { fold size. unfold dentry_slots, sizeof_wfs_dentry.
    rewrite Nat2Z.inj_succ, Z2Nat.id by (apply Z.div_pos; lia).
    pose proof (Z.div_mod (size + 32 - 1) 32 ltac:(lia)).
    pose proof (Z.mod_pos_bound (size + 32 - 1) 32 ltac:(lia)). lia. }
  { lia. }
  rewrite (bind_eq _ _ _ _ _ E).
  destruct done; [eexists _, _; reflexivity | ].
  rewrite (Hsame eq_refl).
  rewrite (bind_eq _ _ _ _ _ (rd_at load64s d (a + i_size) s Hm)).
  destruct (safe_get_block_location d (d, a) size 1 eq_refl s Hm Hmode)
    as (r & s2 & E2 & Hon & Hm2 & Hr2).
  fold size. rewrite (bind_eq _ _ _ _ _ E2).
  destruct r as [[pd t] | ]; [ | eexists _, _; reflexivity].
  cbn in Hon. subst pd.
  pose proof (fill_explicit d a num name Z 0 s2 t true Hm2
                ltac:(congruence)) as F.
  unfold shift in F. cbn [fst snd] in F. cbn [fst snd]. rewrite F.
  eexists _, _. reflexivity.
Qed.

Section OneName.
Variables (p : process) (mode : Z) (name : string).
Let next : list Z := bytes_of_string name.
Let path : string := String "/" name.
Hypothesis named : name <> EmptyString.
Hypothesis no_slash : ~ In 47 next.

(** [wfs_mknod] returns on a disk whose root directory is ready. *)
Lemma mknod_returns (s : fs) (d : Z) :
  raid_mode s <> RAID0 -> root_ready s d next ->
  exists r s1, wfs_mknod p path mode d s = Some (r, s1).
Proof.
  intros Hmode (Hm & DL & U0 & Ow & Hsz & Hal & Hdir).
  destruct (path_parts name named no_slash) as [Edir Ebase].
  unfold wfs_mknod, path. rewrite Edir, Ebase.
  rewrite (bind_eq _ _ _ _ _ (find_root d s Hm U0)).
  change (0 <? 0) with false. cbv iota.
  set (ip := load64s (image_at s d) sb_i_blocks_ptr) in *.
  destruct (allocated p s d (Z.lor S_IFREG mode) Hmode Hm DL U0)
    as [[Ha _]
       | (n & s2 & Hn & _ & _ & Ha & Hm2 & K12 & _ & _ & Fnum & _)].
  - rewrite (bind_eq _ _ _ _ _ Ha). cbn [negb]. eexists _, _. reflexivity.
  - rewrite (bind_eq _ _ _ _ _ Ha). cbn [negb deref].
    rewrite (bind_eq _ _ _ _ _ eq_refl). unfold shift. cbn [fst snd].
    rewrite (bind_eq _ _ _ _ _ (rd_at load32s d _ s2 Hm2)).
    pose proof DL as (D1 & D2 & D3 & D4 & D5 & D6).
    cbv zeta in D1, D2, D3, D4, D5, D6. fold ip in D3, D4.
    unfold sizeof_wfs_sb, BLOCK_SIZE in *.
    fold ip in K12, Fnum.
    assert (Hnd : 0 <= load64u (image_at s d) sb_num_data_blocks / 32)
      by (apply Z.div_pos; [apply load_le_range | lia]).
    assert (T : forall b, ip <= b -> b + 8 <= ip + 120 ->
              load64s (image_at s2 d) b = load64s (image_at s d) b).
    { intros b H0 H1. unfold load64s. f_equal.
      apply (kept_load _ 8 s s2 d b K12). intros x Hx.
      change (Z.of_nat 8) with 8 in Hx. right. unfold i_blocks. lia. }
    pose proof K12 as (Km & _).
    destruct (insert_returns s2 d ip
                (load32s (image_at s2 d) (ip + 512 * n + i_num)) name
                ltac:(congruence) Hm2) as (rc & s3 & E3).
    { rewrite T by (unfold i_size; lia). change (D_BLOCK * 512) with 3072 in Hsz.
      lia. }
    { rewrite T by (unfold i_size; lia). intros o Ho Mo.
      assert (0 <= o / 512 <= 6).
      { change (D_BLOCK * 512) with 3072 in Hsz.
        split; [apply Z.div_pos; lia | ].
        apply Z.lt_succ_r. apply Z.div_lt_upper_bound; lia. }
      rewrite T by (unfold i_blocks; lia).
      apply (Hdir o Ho Mo). }
    rewrite (bind_eq _ _ _ _ _ E3).
    destruct (rc <? 0); eexists _, _; reflexivity.
Qed.

(** [wfs_mkdir] returns on a disk whose root directory is ready. *)
Lemma mkdir_returns (s : fs) (d : Z) :
  raid_mode s <> RAID0 -> root_ready s d next ->
  exists r s1, wfs_mkdir p path mode d s = Some (r, s1).
Proof.
  intros Hmode (Hm & DL & U0 & Ow & Hsz & Hal & Hdir).
  destruct (path_parts name named no_slash) as [Edir Ebase].
  unfold wfs_mkdir, path. rewrite Edir, Ebase.
  rewrite (bind_eq _ _ _ _ _ (find_root d s Hm U0)).
  change (0 <? 0) with false. cbv iota.
  set (ip := load64s (image_at s d) sb_i_blocks_ptr) in *.
  destruct (allocated p s d (Z.lor S_IFDIR mode) Hmode Hm DL U0)
    as [[Ha _]
       | (n & s2 & Hn & _ & _ & Ha & Hm2 & K12 & _ & _ & Fnum & _)].
  - rewrite (bind_eq _ _ _ _ _ Ha). cbn [negb]. eexists _, _. reflexivity.
  - rewrite (bind_eq _ _ _ _ _ Ha). cbn [negb deref].
    rewrite (bind_eq _ _ _ _ _ eq_refl). unfold shift. cbn [fst snd].
    rewrite (bind_eq _ _ _ _ _ (rd_at load32s d _ s2 Hm2)).
    pose proof DL as (D1 & D2 & D3 & D4 & D5 & D6).
    cbv zeta in D1, D2, D3, D4, D5, D6. fold ip in D3, D4.
    unfold sizeof_wfs_sb, BLOCK_SIZE in *.
    fold ip in K12, Fnum.
    assert (Hnd : 0 <= load64u (image_at s d) sb_num_data_blocks / 32)
      by (apply Z.div_pos; [apply load_le_range | lia]).
    assert (T : forall b, ip <= b -> b + 8 <= ip + 120 ->
              load64s (image_at s2 d) b = load64s (image_at s d) b).
    { intros b H0 H1. unfold load64s. f_equal.
      apply (kept_load _ 8 s s2 d b K12). intros x Hx.
      change (Z.of_nat 8) with 8 in Hx. right. unfold i_blocks. lia. }
    pose proof K12 as (Km & _).
    destruct (insert_returns s2 d ip
                (load32s (image_at s2 d) (ip + 512 * n + i_num)) name
                ltac:(congruence) Hm2) as (rc & s3 & E3).
    { rewrite T by (unfold i_size; lia). change (D_BLOCK * 512) with 3072 in Hsz.
      lia. }
    { rewrite T by (unfold i_size; lia). intros o Ho Mo.
      assert (0 <= o / 512 <= 6).
      { change (D_BLOCK * 512) with 3072 in Hsz.
        split; [apply Z.div_pos; lia | ].
        apply Z.lt_succ_r. apply Z.div_lt_upper_bound; lia. }
      rewrite T by (unfold i_blocks; lia).
      apply (Hdir o Ho Mo). }
    rewrite (bind_eq _ _ _ _ _ E3).
    destruct (rc <? 0); eexists _, _; reflexivity.
Qed.
Variable s0 : fs.
Let N : Z := total_devices s0.
Hypothesis mirrored : raid_mode s0 <> RAID0.
Hypothesis ready : forall d, 0 <= d < N -> root_ready s0 d next.

Lemma mknod_loop_returns (k : nat) (i : Z) (si : fs) :
  0 <= i -> i + Z.of_nat k = N ->
  raid_mode si = raid_mode s0 ->
  List.length (fs_memory_regions si) = List.length (fs_memory_regions s0) ->
  (forall j, (Z.to_nat i <= j)%nat ->
     nth_error (fs_memory_regions si) j
     = nth_error (fs_memory_regions s0) j) ->
  exists rc s',
    on_each_disk k i (wfs_mknod p path mode) ret si = Some (rc, s').
Proof.
  revert i si. induction k as [ | k IH]; intros i si Hi HN Em El Hrest.
  - eexists _, _. reflexivity.
  - cbn [on_each_disk].
    assert (Ii : image_at si i = image_at s0 i)
      by (apply image_same; apply Hrest; lia).
    assert (Ri : root_ready si i next).
    { apply (root_ready_same s0 si i next Ii).
      - apply (mapped_same s0 si i El). apply (ready i ltac:(lia)).
      - apply ready. lia. }
    destruct (mknod_returns si i ltac:(congruence) Ri) as (r & s1 & E).
    rewrite (bind_eq _ _ _ _ _ E).
    destruct (Z.eqb_spec r 0) as [-> | _]; cbn [negb];
      [ | eexists _, _; reflexivity].
    destruct (local_frame i _ _ si s1 0 (local_wfs_mknod i p path mode)
                Hi ltac:(congruence) E) as (A1 & A2 & A3 & A4 & A5).
    apply IH; try lia; try congruence.
    intros j Hj. rewrite A5 by lia. apply Hrest. lia.
Qed.

End OneName.

(** [WFS_MKNOD] returns on a mirror whose root directories can all take
    the name: no null pointer is followed, no disk without a mapping is
    read, and the loops end. *)
Theorem mirror_mknod_returns (p : process) (s : fs) (mode : Z)
        (name : string) :
  let next := bytes_of_string name in
  raid_mode s <> RAID0 ->
  (forall d, 0 <= d < total_devices s -> root_ready s d next) ->
  name <> EmptyString -> ~ In 47 next ->
  exists rc s', WFS_MKNOD p (String "/" name) mode s = Some (rc, s').
Proof.
  intros next Hmode Hready Hne Hslash.
  unfold WFS_MKNOD.
  rewrite (bind_eq (gets raid_mode) _ s s (raid_mode s) eq_refl).
  destruct (Z.eqb_spec (raid_mode s) RAID0) as [E | _]; [contradiction | ].
  rewrite (bind_eq (gets total_devices) _ s s (total_devices s) eq_refl).
  destruct (Z.le_gt_cases (total_devices s) 0) as [HN | HN].
  - replace (Z.to_nat (total_devices s)) with 0%nat by lia.
    eexists _, _. reflexivity.
  - apply (mknod_loop_returns p mode name Hne Hslash s Hmode Hready);
      try lia; reflexivity.
Qed.


End Returns.

Section ReturnRuns.
Import Wfs Scenario.


Lemma mirror_mknod_returns_witness :
  exists rc s', WFS_MKNOD proc "/a" mode_0644 (the raid1_volume)
                = Some (rc, s').
Proof.
  apply (mirror_mknod_returns proc (the raid1_volume) mode_0644 "a").
  - vm_compute. discriminate.
  - exact fresh_roots_ready.
  - discriminate.
  - vm_compute. intros [E | []]. discriminate E.
Defined.

End ReturnRuns.

(** ** The exit status of the initializer *)

Section Arguments.
Import Mkfs.
Variable open_rdwr : string -> option file.
Variable proc : process.

(** The argument loop leaves a mode of 0 or 1. *)
Lemma parse_args_mode (args : list string) :
  (forall state disks state' disks',
     parse_args open_rdwr args state disks = Args state' disks' ->
     ds_raid_mode state = 0 \/ ds_raid_mode state = 1 ->
     ds_raid_mode state' = 0 \/ ds_raid_mode state' = 1)
  /\ (forall opt state disks state' disks',
        parse_args open_rdwr (opt :: args) state disks = Args state' disks' ->
        ds_raid_mode state = 0 \/ ds_raid_mode state = 1 ->
        ds_raid_mode state' = 0 \/ ds_raid_mode state' = 1).
Proof.
  induction args as [ | value rest [IH1 IH2]].
  - split.
    + intros state disks state' disks' H Hm. injection H as <- _. exact Hm.
    + intros opt state disks state' disks' H Hm. cbn [parse_args] in H.
      destruct (negb _); discriminate H.
  - split; [exact (IH2 value) | ].
    intros opt state disks state' disks' H Hm. cbn [parse_args] in H.
    destruct (negb (Ascii.eqb (char_at opt 0) "-")); [discriminate H | ].
    destruct (Ascii.eqb (char_at opt 1) "r").
    { cbv zeta in H. cbn [ds_raid_mode with_raid_mode] in H.
      destruct (Z.eqb_spec (atoi value) 0) as [E0 | N0];
        destruct (Z.eqb_spec (atoi value) 1) as [E1 | N1];
        cbn [negb andb] in H; try discriminate H;
        apply (IH1 _ _ _ _ H); cbn [ds_raid_mode with_raid_mode]; tauto. }
    destruct (Ascii.eqb (char_at opt 1) "i").
    { cbv zeta in H. destruct (_ <=? 0); [discriminate H | ].
      apply (IH1 _ _ _ _ H). exact Hm. }
    destruct (Ascii.eqb (char_at opt 1) "b").
    { cbv zeta in H. destruct (_ <=? 0); [discriminate H | ].
      apply (IH1 _ _ _ _ H). exact Hm. }
    destruct (Ascii.eqb (char_at opt 1) "d"); [ | discriminate H].
    destruct (_ >=? _); [discriminate H | ].
    destruct (open_rdwr value) as [f | ]; [ | discriminate H].
    apply (IH1 _ _ _ _ H). exact Hm.
Qed.

(** Every exit of the argument loop has status 1. *)
Lemma parse_args_exit (args : list string) :
  (forall state disks st,
     parse_args open_rdwr args state disks = Exit st -> st = 1)
  /\ (forall opt state disks st,
        parse_args open_rdwr (opt :: args) state disks = Exit st -> st = 1).
Proof.
  induction args as [ | value rest [IH1 IH2]].
  - split.
    + intros state disks st H. discriminate H.
    + intros opt state disks st H. cbn [parse_args] in H.
      destruct (negb _); injection H as <-; reflexivity.
  - split; [exact (IH2 value) | ].
    intros opt state disks st H. cbn [parse_args] in H.
    destruct (negb (Ascii.eqb (char_at opt 0) "-"));
      [injection H as <-; reflexivity | ].
    destruct (Ascii.eqb (char_at opt 1) "r").
    { cbv zeta in H. destruct (_ && _);
        [injection H as <-; reflexivity | apply (IH1 _ _ _ H)]. }
    destruct (Ascii.eqb (char_at opt 1) "i").
    { cbv zeta in H. destruct (_ <=? 0);
        [injection H as <-; reflexivity | apply (IH1 _ _ _ H)]. }
    destruct (Ascii.eqb (char_at opt 1) "b").
    { cbv zeta in H. destruct (_ <=? 0);
        [injection H as <-; reflexivity | apply (IH1 _ _ _ H)]. }
    destruct (Ascii.eqb (char_at opt 1) "d");
      [ | injection H as <-; reflexivity].
    destruct (_ >=? _); [injection H as <-; reflexivity | ].
    destruct (open_rdwr value) as [f | ];
      [apply (IH1 _ _ _ H) | injection H as <-; reflexivity].
Qed.

Lemma aligned_mod_32 (n : Z) : get_aligned_size n mod 32 = 0.
Proof.
  unfold get_aligned_size.
  destruct (Z.eqb_spec (n mod 32) 0) as [E | E]; [exact E | ].
  unfold u64, wrap_unsigned.
  rewrite Z.mod_mod_divide by (exists (2 ^ 59); reflexivity).
  rewrite (Z.div_mod n 32) at 1 by lia.
  replace (32 * (n / 32) + n mod 32 + (32 - n mod 32))
    with ((n / 32 + 1) * 32) by lia.
  apply Z.mod_mul. lia.
Qed.

(** What the initialisation loop has done to each disk. *)
Lemma init_disks_made (state : disk_state) (i : Z)
      (todo l : list (string * file)) :
  init_disks proc state i todo = Some l ->
  List.length l = List.length todo
  /\ forall j x, nth_error l j = Some x ->
       exists f,
         nth_error todo j = Some (fst x, f)
         /\ create_filesystem proc
              (mk_disk_state (inode_count state) (block_count state)
                             (ds_raid_mode state) (i + Z.of_nat j)
                             (total_disks state) (fs_id state)) f
            = (WFS_OK, snd x).
Proof.
  revert i l. induction todo as [ | [name f] rest IH]; intros i l H.
  - injection H as <-. split; [reflexivity | ].
    intros [ | j] x Hx; discriminate Hx.
  - cbn [init_disks] in H. cbv zeta in H.
    destruct (create_filesystem proc _ f) as [rc f'] eqn:Ec.
    destruct (Z.eqb_spec rc WFS_OK) as [-> | _]; [ | discriminate H].
    destruct (init_disks proc state (i + 1) rest) as [l' | ] eqn:El;
      [ | discriminate H].
    injection H as <-. destruct (IH _ _ El) as [Hl Hn].
    split; [cbn; congruence | ].
    intros [ | j] x Hx.
    + injection Hx as <-. exists f. rewrite Z.add_0_r.
      split; [reflexivity | exact Ec].
    + cbn [nth_error] in Hx. destruct (Hn _ _ Hx) as (f0 & Hf0 & Hc).
      exists f0. split; [exact Hf0 | ].
      replace (i + Z.of_nat (S j)) with (i + 1 + Z.of_nat j) by lia.
      exact Hc.
Qed.

(** [main] of mkfs exits with status 0 only when its arguments named at
    least two disks, gave counts other than 0 and a mode of 0 or 1; and
    then [create_filesystem] has succeeded on every disk, in the order
    of the arguments, with the place in that order as the device order,
    the counts rounded up to multiples of 32 and one identifier for
    all. *)
Theorem mkfs_exits_0 (args : list string) (l : list (string * file)) :
  main open_rdwr proc args = (0, l) ->
  exists state disks,
    parse_args open_rdwr args (mk_disk_state 0 0 0 0 0 0) []
    = Args state disks
    /\ 2 <= Z.of_nat (List.length disks)
    /\ List.length l = List.length disks
    /\ inode_count state <> 0 /\ block_count state <> 0
    /\ (ds_raid_mode state = 0 \/ ds_raid_mode state = 1)
    /\ get_aligned_size (inode_count state) mod 32 = 0
    /\ get_aligned_size (block_count state) mod 32 = 0
    /\ forall j x, nth_error l j = Some x ->
         exists f,
           nth_error disks j = Some (fst x, f)
           /\ create_filesystem proc
                (mk_disk_state (get_aligned_size (inode_count state))
                               (get_aligned_size (block_count state))
                               (ds_raid_mode state) (Z.of_nat j)
                               (Z.of_nat (List.length disks))
                               (s32 (now proc))) f
              = (WFS_OK, snd x).
Proof.
  intros H. unfold main in H.
  destruct (parse_args open_rdwr args (mk_disk_state 0 0 0 0 0 0) [])
    as [st | state disks] eqn:Ep.
  - injection H as E _. rewrite (proj1 (parse_args_exit args) _ _ _ Ep) in E.
    discriminate E.
  - destruct (Z.ltb_spec (Z.of_nat (List.length disks)) 2) as [ | Hc];
      [discriminate H | ].
    destruct (Z.eqb_spec (inode_count state) 0) as [ | Hi];
      [discriminate H | ].
    destruct (Z.eqb_spec (block_count state) 0) as [ | Hb];
      [discriminate H | ].
    cbn [orb] in H.
    destruct (init_disks proc _ 0 disks) as [l' | ] eqn:El;
      [ | discriminate H].
    injection H as <-.
    destruct (init_disks_made _ _ _ _ El) as [Hlen Hmade].
    exists state, disks. split; [reflexivity | ]. split; [exact Hc | ].
    split; [exact Hlen | ]. split; [exact Hi | ]. split; [exact Hb | ].
    split; [apply (proj1 (parse_args_mode args) _ _ _ _ Ep); left;
            reflexivity | ].
    split; [apply aligned_mod_32 | ]. split; [apply aligned_mod_32 | ].
    intros j x Hx. destruct (Hmade j x Hx) as (f & Hf & Hcf).
    exists f. split; [exact Hf | exact Hcf].
Qed.

End Arguments.

Section ArgumentRuns.
Import Mkfs Scenario.

Lemma mkfs_exits_0_witness :
  exists state disks,
    parse_args open_rdwr
      ["-r"; "1"; "-d"; "d0"; "-d"; "d1"; "-i"; "32"; "-b"; "32"]%string
      (mk_disk_state 0 0 0 0 0 0) []
    = Args state disks
    /\ 2 <= Z.of_nat (List.length disks)
    /\ List.length (snd (mkfs "1")) = List.length disks
    /\ inode_count state <> 0 /\ block_count state <> 0
    /\ (ds_raid_mode state = 0 \/ ds_raid_mode state = 1)
    /\ get_aligned_size (inode_count state) mod 32 = 0
    /\ get_aligned_size (block_count state) mod 32 = 0
    /\ forall j x, nth_error (snd (mkfs "1")) j = Some x ->
         exists f,
           nth_error disks j = Some (fst x, f)
           /\ create_filesystem proc
                (mk_disk_state (get_aligned_size (inode_count state))
                               (get_aligned_size (block_count state))
                               (ds_raid_mode state) (Z.of_nat j)
                               (Z.of_nat (List.length disks))
                               (s32 (now proc))) f
              = (WFS_OK, snd x).
Proof.
  apply (mkfs_exits_0 open_rdwr proc
           ["-r"; "1"; "-d"; "d0"; "-d"; "d1"; "-i"; "32"; "-b"; "32"]%string
           (snd (mkfs "1"))).
  vm_compute. reflexivity.
Defined.

End ArgumentRuns.

(** ** A file just created *)

Section NewFile.
Import Wfs.

(** [wfs_read] under RAID1, for a file that is found on the first
    disk. *)
Lemma read_of_found (s : fs) (stack : Z -> Z)
        (path : string) (length offset a : Z) :
  let size := load64u (image_at s 0) (a + i_size) in
  let n := Z.max 0 (Z.min length (size - offset)) in
  raid_type (raid_mgr s) = RAID1 -> raid_mode s <> RAID0 ->
  find_inode_by_path path 0 s = Some ((0, Some (0, a)), s) ->
  0 <= offset -> 0 <= length < 2 ^ 31 ->
  offset + n <= IND_BLOCK * BLOCK_SIZE ->
  (forall p, offset <= p < offset + n ->
     load64s (image_at s 0) (a + i_blocks (p / BLOCK_SIZE)) <> 0) ->
  exists g,
    wfs_read stack path length offset s
    = Some ((n, file_bytes s (0, a) offset n), with_mgr s g).
Proof.
  intros size n Htype Hmode Hfind Ho Hl Hd Hp.
  change (IND_BLOCK * BLOCK_SIZE) with 3584 in Hd.
  assert (Hm : mapped s 0).
  { unfold find_inode_by_path in Hfind. apply bind_inv in Hfind.
    destruct Hfind as (root & sx & Hg & _).
    apply get_inode_inv in Hg. apply Hg. }
  assert (Hn : 0 <= n <= length) by lia.
  assert (Hr : 0 <= offset /\ 0 <= length < 2 ^ 63) by lia.
  assert (Hf : n - 0 < Z.of_nat (S (Z.to_nat length))) by lia.
  pose proof (read_loop_direct s 0 a length offset n Hmode Hm Hr eq_refl Hd Hp
                (S (Z.to_nat length)) 0 [] (conj (Z.le_refl 0) (proj1 Hn)) Hf)
    as Hread.
  rewrite Z.add_0_r, Z.sub_0_r in Hread. cbn [app] in Hread.
  rewrite <- (u64_small offset) in Hread at 1 by lia.
  destruct s as [regs rm td ec [st cd D rt bs op]].
  cbn [raid_mgr raid_type] in Htype. subst rt.
  set (s0 := mk_fs regs rm td ec (mk_mgr st cd D RAID1 bs op)) in *.
  destruct (read_ready_turn s0 path length offset
              (fun _ => Some (0, a))
              (fun _ => inl (n, file_bytes s0 (0, a) offset n)) 1
              (fun d Hd' => ltac:(replace d with 0 by lia; exact Hfind))
              (fun d Hd' => ltac:(replace d with 0 by lia; exact Hread))
              (Z.to_nat D + 1) (mk_read_locals stack (-1) 0)
              (mk_mgr READ_READY 0 D RAID1 length (u64 (op + 1))))
    as [g' Hg']; [reflexivity | cbn; lia | ].
  exists g'.
  cbn [read_outcome current_disk] in Hg'.
  rewrite (s32_small n) in Hg' by lia.
  assert (Hprep : prepare_read_operation length s0
                  = Some (0, with_mgr s0 (mk_mgr READ_READY 0 D RAID1 length
                                                 (u64 (op + 1)))))
    by reflexivity.
  unfold wfs_read. rewrite (bind_eq _ _ _ _ _ Hprep).
  change (0 <? 0) with false. cbv iota.
  rewrite (bind_eq _ _ _ _ _ eq_refl).
  cbn [raid_mgr with_mgr total_disks].
  replace (Z.to_nat D + 2)%nat with (S (Z.to_nat D + 1)) by lia.
  exact Hg'.
Qed.


End NewFile.

Section NewFileRuns.
Import Wfs Scenario.


End NewFileRuns.
